(* ===== verification/_CoqProject ===== *)
-Q . S2P
Prelude.v
PhysMem.v
CString.v
MemMgr.v
MemMgrSpec.v
Paging.v
PageWalk.v
PagingSpec.v
EptSpec.v
PmAlloc.v
BootMem.v
BootMemSpec.v
CpuInfo.v
Ipc.v
IpcSpec.v
Channel.v
ChannelSpec.v
Pm.v
PmEpt.v
PmProc.v
PmFrame.v
PmSpec.v
PmChannels.v
PmFork.v
PmForkSpec.v
Boot.v
BootSpec.v
BootEpt.v
BootElf.v
Startup.v
StartupSpec.v
Stage1.v
Stage1Spec.v
Descriptors.v
DescriptorsSpec.v
Apic.v
ApicSpec.v
Pci.v
PciSpec.v
PciScan.v
E1000.v
E1000Spec.v
Vmm.v
VmmSpec.v
VmmEntry.v
Fs.v
FsSpec.v
Initrd.v
InitrdSpec.v
Thread.v
ThreadSpec.v
ThreadTimer.v
ThreadTimerSpec.v
Printf.v
PrintfSpec.v
Console.v
ConsoleSpec.v
Debug.v
BootConsole.v
Drivers.v
Keyboard.v
KeyboardSpec.v
UserLib.v
DriversSpec.v
ExamplesMem.v
ExamplesIpc.v
ExamplesServers.v
ExamplesMisc.v
ExamplesVm.v
ExamplesBoot.v
ExamplesHw.v
ExamplesNet.v
ExamplesStart.v
