(* ===== verification/Prelude.v ===== *)
(** * Savannah: a verification library

    Savannah is a multi-server operating system for x86-64 machines with
    several cores.  Every core runs one program inside its own virtual
    machine; isolation comes from the extended page tables (EPT) of that
    machine, and programs cooperate by shared pages that the system maps for
    them.  The parts, and how they interact:

    - the first boot stage (boot/stage1) checks the processor and loads the
      second one from the modules GRUB brought;
    - the second boot stage (boot/stage2) finds the cores, gives each a
      [struct cpu_info] page, loads the virtual machine monitors and the first
      programs, builds their page tables with a bump allocator, and starts
      the other cores;
    - the virtual machine monitor (vmm) of a core sets up VMX, enters the
      core's program and takes its exits;
    - the process manager (vms/pm, CPU 0) owns the rest of memory: a page
      allocator, page tables and EPTs, processes (fork, exec, exit, waitpid)
      and channels between programs and drivers;
    - the file server (vms/fs, CPU 1) serves a read-only image written by
      initrd/create_initrd.c and forwards device files to drivers;
    - the drivers (drivers/console, keyboard, junk) serve channels; the
      network driver (drivers/net/e1000) finds its card by the PCI scan
      (drivers/pci) and feeds the lwIP stack;
    - the library (lib) carries messages, channels, system calls, strings,
      formatted output, debug output and threads.

    ** Files

    - [Prelude]: machine integers, the monad, tactics, generic lemmas.
    - [PhysMem], [CString]: byte memory and lib/string.c.
    - [MemMgr], [MemMgrSpec]: vms/pm/memory.c, the page allocator.
    - [Paging], [PageWalk], [PagingSpec]: vms/pm/pmap.c (and
      boot/stage2/pmap.c, the same code), the hardware's table walk, and what
      the mapping functions do to it; [EptSpec]: what a sequence of their
      calls maps.  [PmAlloc] connects them to the page allocator through the
      class [PageAllocLaws].
    - [BootMem], [BootMemSpec]: boot/stage2 memory.c, pmap.c, cpuinfo.c.
    - [CpuInfo]: include/cpu.h, lib/lib_mem.c, lib/misc.c, and the machine
      state that programs share.
    - [Ipc], [IpcSpec]: lib/ipc.c and lib/bitmap.c, messages.
    - [Channel], [ChannelSpec]: lib/channel.c, channels and their protocol.
    - [Pm], [PmProc] (definitions), [PmEpt], [PmFrame], [PmSpec],
      [PmChannels] (theorems): vms/pm/main.c, the process manager; [PmEpt]
      is about the memory of a new virtual machine.  [PmFork], [PmForkSpec]:
      fork from call to reply.
    - [Boot] (definitions), [BootSpec], [BootEpt], [BootElf] (theorems):
      boot/stage2 main.c and mp.c, the machine's tables, message pages,
      memory of the first programs, and loading of executables.
    - [Startup], [StartupSpec]: boot/stage2 mp.c ([mp_bootothers]),
      dev/lapic.c, dev/i8253.c and [get_cpu_freq], starting the other cores.
    - [Stage1], [Stage1Spec]: boot/stage1, the first boot stage.
    - [Descriptors], [DescriptorsSpec]: lib and boot/stage2 gdt.c and
      interrupt.c, descriptor tables; [Apic], [ApicSpec]: lib/ioapic.c,
      lib/include/lapic.h, lib/timer.c and boot/stage2/dev, the interrupt
      controllers and timers.
    - [Vmm] (definitions), [VmmSpec], [VmmEntry] (theorems): vmm/vmx.c and
      vmm/main.c, the virtual machine monitor.
    - [Pci] (definitions), [PciSpec], [PciScan] (theorems): drivers/pci,
      the scan of the PCI buses; [E1000], [E1000Spec]: drivers/net/e1000, the
      network driver.
    - [Fs], [FsSpec]: vms/fs/main.c, the file server.
    - [Initrd], [InitrdSpec]: initrd/create_initrd.c, the image writer.
    - [Thread], [ThreadSpec]: lib/thread/thread.c, user-level threads;
      [ThreadTimer], [ThreadTimerSpec]: their start with tables and timer.
    - [Printf], [PrintfSpec]: lib/printf.c and lib/stdlib.c.
    - [Console], [ConsoleSpec], [Debug], [BootConsole]: the consoles of
      drivers/console, lib/debug_console.c (with lib/debug.c, lib/panic.c) and
      boot/stage2/console.c (with printk.c).
    - [Drivers], [Keyboard], [KeyboardSpec], [UserLib], [DriversSpec]: the
      request loops of the drivers, the system call library (lib/fs.c,
      lib/pm.c), and calls from a program through to a driver.
    - [ExamplesMem], [ExamplesIpc], [ExamplesServers], [ExamplesMisc],
      [ExamplesVm], [ExamplesBoot], [ExamplesHw], [ExamplesNet],
      [ExamplesStart]: the theorems applied to concrete states.

    ** How the code is modelled

    C functions are functions in a state and outcome monad [M S A]: [Ok] with
    a value and the new state, or [Stop] with the reason.  A call of panic is
    [Stop (Panic _)] and [halt] is [Stop Halt]; what C leaves undefined (a
    null pointer, an index outside an object) is [Stop (Fault _)]; a loop that
    would poll for ever is [Stop Diverge].  Integers are [Z] with the
    wrap-around of their width written out ([w32], [w64], [s32]).

    Whatever is reached through a pointer into allocated memory (page tables,
    message and channel pages, descriptor tables, the file system image,
    video memory, thread frames) is bytes of one physical memory, a [gmap Z Z]
    in which cells never written read as zero.  The kernel programs run on an
    identity map, so addresses there are physical.  Structures private to
    one component are records: the allocator's node array, [struct cpu_info]
    (its address is the pool's base plus 4096 times the CPU number).

    The other CPUs are visible to a program only when it polls shared memory:
    the state carries a list of their actions, one per unsuccessful poll, and
    every theorem quantifies over it.  Where interleaving of single writes
    matters, the protocol is a step relation instead ([ChannelSpec]).
    Devices that answer (the network card, the local APIC and the interval
    timer while other cores are started) are functions of the accesses made
    so far; what the code relies on of them is a class
    ([E1000Spec.EthernetCard], [StartupSpec.Platform]).  Registers that only
    keep what is written, configuration space and the VMCS are state.
    A theorem about the outcome of a call is total unless its text says
    "whenever it returns": it states that the call returns, and for the page
    table code that the only other outcome is the panic for lack of pages,
    with how many pages prevent it.

    Loops that the code bounds are structural recursion on that bound.  The
    string loops use the number of written memory cells plus one as fuel,
    which is proved enough (a cell never written is a terminator); polling
    loops use the list of the other CPUs' actions.  Loops that wait for a
    device have a bound as parameter, and the theorems say what the device
    must do within it.  Nothing else has fuel.

    ** What the theorems show

    - Memory: allocation is exclusive and first fit, release merges blocks
      and gives back exactly the block's pages, allocation and release are
      inverse; the initial state satisfies the invariant of the allocator.
    - Page tables: after each mapping call the hardware walk translates
      exactly the requested region as requested, and every other address as
      before, and no other page in use is touched; page tables take their
      pages from the allocator through an interface that both allocators are
      proved to satisfy.
    - Virtual machines: what the process manager maps for a new program, and
      so what the program can reach: nothing that belongs to another one
      except what its description shares.
    - Communication: a message or a channel request arrives intact at the
      right place, once and in order; the channel protocol gives exclusive
      use of the data area, cannot deadlock, and the library's code follows
      it.
    - Servers: open, read, close and load on every branch against an abstract
      file system; what the image writer writes is what the file server
      finds; which CPU fork takes, what exit and waitpid report.
    - Devices: the console code refines an abstract terminal; a write from a
      program reaches the screen; the keyboard delivers what was typed;
      formatted output stays in its buffer.
    - Boot: the first stage hands over the loaded second stage or halts; the
      machine's tables give one description per core; message pages, server
      images and the first program are where their users expect them, and the
      first program reaches only its own memory; what the boot stage passes
      to the process manager is what it manages; every other core is sent
      the start-up sequence once, in order, before the first virtual machine
      monitor is entered.
    - Virtual machine monitor: the feature check passes exactly on suitable
      processors, and entry and re-entry put the program into the guest with
      the state its description holds.
    - Processes: fork gives the child the parent's registers and bytes in
      memory of its own, and leaves every other program alone.
    - Hardware tables: interrupt gates, segments and interrupt routing mean
      to the processor what the code intends; the PCI scan lists what is on
      the buses; the network card finds its rings, and the frames sent.
    - Threads: the timer interrupt implements round robin over independent
      register contexts.

    Where the code does not do what it means to, a theorem or lemma shows
    what it does.

    ** Not modelled

    Assembly files (their effect on registers is part of the functions that
    use them); lwIP, which is third party, and the callbacks of lwip-input.c
    that configure it; the printing of trap handlers; the command-line
    programs and init, which only call the library; the build tools;
    vms/pm/mp.c, which is not compiled. *)

From stdpp Require Export base tactics numbers list list_numbers gmap sets strings.
From Stdlib Require Export ZArith Lia.

#[global] Open Scope Z_scope.

(** ** Machine integers *)

(** Unsigned wrap-around at 8, 16, 32 and 64 bits, and the conversion to a
    signed 32-bit [int] (gcc reduces modulo 2^32). *)
Definition w8 (x : Z) : Z := x mod 2 ^ 8.
Definition w16 (x : Z) : Z := x mod 2 ^ 16.
Definition w32 (x : Z) : Z := x mod 2 ^ 32.
Definition w64 (x : Z) : Z := x mod 2 ^ 64.
Definition s32 (x : Z) : Z := (x + 2 ^ 31) mod 2 ^ 32 - 2 ^ 31.
Definition s8 (x : Z) : Z := (x + 2 ^ 7) mod 2 ^ 8 - 2 ^ 7.

Lemma w64_small x : 0 <= x < 2 ^ 64 -> w64 x = x.
Proof. apply Z.mod_small. Qed.
Lemma w32_small x : 0 <= x < 2 ^ 32 -> w32 x = x.
Proof. apply Z.mod_small. Qed.
Lemma w16_small x : 0 <= x < 2 ^ 16 -> w16 x = x.
Proof. apply Z.mod_small. Qed.
Lemma w8_small x : 0 <= x < 2 ^ 8 -> w8 x = x.
Proof. apply Z.mod_small. Qed.
Lemma s32_small x : - 2 ^ 31 <= x < 2 ^ 31 -> s32 x = x.
Proof. intros. unfold s32. rewrite Z.mod_small; lia. Qed.
Lemma w64_bound x : 0 <= w64 x < 2 ^ 64.
Proof. apply Z.mod_pos_bound. lia. Qed.
Lemma w8_bound x : 0 <= w8 x < 2 ^ 8.
Proof. apply Z.mod_pos_bound. lia. Qed.

(** Bit masks as arithmetic: clearing the low [n] bits, keeping them, and
    joining an aligned base with a value below the alignment. *)
Lemma land_lnot_low x n :
  0 <= n -> Z.land x (Z.lnot (2 ^ n - 1)) = x - x mod 2 ^ n.
Proof.
  intros Hn.
  replace (2 ^ n - 1) with (Z.ones n) by (rewrite Z.ones_equiv; lia).
  rewrite <-Z.ldiff_land, Z.ldiff_ones_r, Z.shiftl_mul_pow2, Z.shiftr_div_pow2 by lia.
  pose proof (Z.div_mod x (2 ^ n)). lia.
Qed.

Lemma land_low x n : 0 <= n -> Z.land x (2 ^ n - 1) = x mod 2 ^ n.
Proof.
  intros Hn. rewrite <-Z.land_ones by lia. f_equal. rewrite Z.ones_equiv. lia.
Qed.

Lemma lor_low_add a b n :
  0 <= n -> a mod 2 ^ n = 0 -> 0 <= b < 2 ^ n -> Z.lor a b = a + b.
Proof.
  intros Hn Ha Hb.
  assert (Hl : Z.land a b = 0).
  { apply Z.bits_inj'. intros i Hi. rewrite Z.land_spec, Z.bits_0.
    destruct (Z.ltb_spec i n).
    - replace (Z.testbit a i) with false; [done |].
      rewrite <-(Z.mod_pow2_bits_low a n i) by lia. by rewrite Ha, Z.bits_0.
    - replace (Z.testbit b i) with false; [apply andb_false_r |].
      rewrite <-(Z.mod_small b (2 ^ n)) by lia.
      by rewrite Z.mod_pow2_bits_high by lia. }
  by rewrite <-(Z.lxor_lor a b Hl), Z.add_nocarry_lxor.
Qed.

Lemma lor_bound a b n : 0 <= n -> 0 <= a < 2 ^ n -> 0 <= b < 2 ^ n -> 0 <= Z.lor a b < 2 ^ n.
Proof.
  intros Hn Ha Hb.
  assert (H : Z.lor a b = Z.lor a b mod 2 ^ n).
  { by rewrite <-Z.land_ones, Z.land_lor_distr_l, !Z.land_ones, !Z.mod_small by lia. }
  rewrite H. apply Z.mod_pos_bound. lia.
Qed.

Lemma shiftr_land_field x s n :
  0 <= s -> 0 <= n -> Z.land (Z.shiftr x s) (2 ^ n - 1) = (x / 2 ^ s) mod 2 ^ n.
Proof. intros. by rewrite land_low, Z.shiftr_div_pow2 by lia. Qed.

(** ** Outcomes of C code

    A computation over a state [S] returns a value and the new state, or
    stops.  [Panic] is the kernel's [panic()] (message, then [cli;hlt]);
    [Halt] is [halt()]; [Fault] marks an access outside the object it is
    made through, or another operation C leaves undefined; [Diverge] is a
    loop that ran out of its iteration bound. *)
Inductive stop : Type :=
| Panic (why : string)
| Halt
| Fault (why : string)
| Diverge.

#[global] Instance stop_eq_dec : EqDecision stop.
Proof. solve_decision. Defined.

Inductive outcome (S A : Type) : Type :=
| Ok (a : A) (s : S)
| Stop (e : stop).
Arguments Ok {S A} a s.
Arguments Stop {S A} e.

Definition M (S A : Type) : Type := S -> outcome S A.

#[global] Instance M_ret S : MRet (M S) := fun A a s => Ok a s.
#[global] Instance M_bind S : MBind (M S) := fun A B f m s =>
  match m s with
  | Ok a s' => f a s'
  | Stop e => Stop e
  end.

Definition get {S} : M S S := fun s => Ok s s.
Definition gets {S A} (f : S -> A) : M S A := fun s => Ok (f s) s.
Definition modify {S} (f : S -> S) : M S unit := fun s => Ok tt (f s).
Definition stop_with {S A} (e : stop) : M S A := fun _ => Stop e.
Definition panic {S A} (why : string) : M S A := stop_with (Panic why).
Definition when {S} (b : bool) (m : M S unit) : M S unit :=
  if b then m else mret tt.
Definition of_option {S A} (e : stop) (o : option A) : M S A :=
  match o with Some a => mret a | None => stop_with e end.

(** Run a computation on a component of the state. *)
Definition zoom {S T A} (sel : S -> T) (upd : T -> S -> S) (m : M T A) : M S A :=
  fun s =>
    match m (sel s) with
    | Ok a t => Ok a (upd t s)
    | Stop e => Stop e
    end.

(** A counted [for] loop over the listed index values. *)
Fixpoint forM {S X} (l : list X) (body : X -> M S unit) : M S unit :=
  match l with
  | [] => mret tt
  | x :: l' => body x ≫= fun _ => forM l' body
  end.

(** ** Postconditions

    [wp] demands that the computation returns; [wlp] constrains the result
    only when it returns. *)
Definition post {S A} (E : stop -> Prop) (m : M S A) (s : S) (Q : A -> S -> Prop) : Prop :=
  match m s with
  | Ok a s' => Q a s'
  | Stop e => E e
  end.
Abbreviation wp := (post (fun _ => False)).
Abbreviation wlp := (post (fun _ => True)).

Section Post.
Context {S : Type} (E : stop -> Prop).

Lemma post_ret {A} (a : A) s (Q : A -> S -> Prop) : Q a s -> post E (mret a) s Q.
Proof. done. Qed.

Lemma post_bind {A B} (m : M S A) (f : A -> M S B) s Q :
  post E m s (fun a s' => post E (f a) s' Q) -> post E (m ≫= f) s Q.
Proof. unfold post, mbind, M_bind. by destruct (m s). Qed.

Lemma post_bind_inv {A B} (m : M S A) (f : A -> M S B) s Q :
  post E (m ≫= f) s Q -> post E m s (fun a s' => post E (f a) s' Q).
Proof. unfold post, mbind, M_bind. by destruct (m s). Qed.

Lemma post_mono {A} (m : M S A) s (Q Q' : A -> S -> Prop) :
  post E m s Q -> (forall a s', m s = Ok a s' -> Q a s' -> Q' a s') -> post E m s Q'.
Proof. unfold post. destruct (m s); eauto. Qed.

Lemma post_stop {A} e s (Q : A -> S -> Prop) : E e -> post E (stop_with e) s Q.
Proof. done. Qed.

Lemma post_gets {A} (f : S -> A) s (Q : A -> S -> Prop) :
  Q (f s) s -> post E (gets f) s Q.
Proof. done. Qed.

Lemma post_modify f s (Q : unit -> S -> Prop) :
  Q tt (f s) -> post E (modify f) s Q.
Proof. done. Qed.

Lemma post_when b m s (Q : unit -> S -> Prop) :
  (b = true -> post E m s Q) -> (b = false -> Q tt s) -> post E (when b m) s Q.
Proof. destruct b; unfold when; auto using post_ret. Qed.

(** Loop rule: an invariant indexed by the remaining iterations. *)
Lemma post_forM {X} (I : list X -> S -> Prop) (body : X -> M S unit) l s :
  I l s ->
  (forall x l' s', I (x :: l') s' -> post E (body x) s' (fun _ s'' => I l' s'')) ->
  post E (forM l body) s (fun _ s' => I [] s').
Proof.
  revert s. induction l as [|x l IH]; intros s HI Hstep; [done |].
  apply post_bind. eapply post_mono; [by apply Hstep |]. eauto.
Qed.
End Post.

Lemma post_conseq {S A} (E E' : stop -> Prop) (m : M S A) s (Q Q' : A -> S -> Prop) :
  post E m s Q -> (forall e, E e -> E' e) -> (forall a s', Q a s' -> Q' a s') -> post E' m s Q'.
Proof. unfold post. destruct (m s); eauto. Qed.

(** Two specifications with exclusive failures leave none. *)
Lemma post_total {S A} (E : stop -> Prop) (m : M S A) s (Q Q' : A -> S -> Prop) :
  post E m s Q -> post (fun e => ~ E e) m s Q' -> wp m s (fun a s' => Q a s' /\ Q' a s').
Proof. unfold post. destruct (m s); [done |]. auto. Qed.

Lemma post_zoom {S T A} E (sel : S -> T) upd (m : M T A) s (Q : A -> S -> Prop) :
  post E m (sel s) (fun a t => Q a (upd t s)) -> post E (zoom sel upd m) s Q.
Proof. unfold post, zoom. by destruct (m (sel s)). Qed.

Lemma bind_step {S A B} (m : M S A) (f : A -> M S B) s a s' :
  m s = Ok a s' -> (m ≫= f) s = f a s'.
Proof. unfold mbind, M_bind. by intros ->. Qed.

Lemma bind_stop {S A B} (m : M S A) (f : A -> M S B) s e : m s = Stop e -> (m ≫= f) s = Stop e.
Proof. unfold mbind, M_bind. by intros ->. Qed.

(** A run, or a run of another computation, decides a postcondition. *)
Lemma post_run {S A} E (m : M S A) s a s' (Q : A -> S -> Prop) : m s = Ok a s' -> Q a s' -> post E m s Q.
Proof. unfold post. by intros ->. Qed.
Lemma post_eq {S A} E (m m' : M S A) s s' (Q : A -> S -> Prop) : m s = m' s' -> post E m' s' Q -> post E m s Q.
Proof. unfold post. by intros ->. Qed.

Lemma bind_ok {S A B} (m : M S A) (f : A -> M S B) s b s'' :
  (m ≫= f) s = Ok b s'' -> exists a s', m s = Ok a s' /\ f a s' = Ok b s''.
Proof. unfold mbind, M_bind. destruct (m s); naive_solver. Qed.

Lemma wlp_intro {S A} (m : M S A) s Q :
  (forall a s', m s = Ok a s' -> Q a s') -> wlp m s Q.
Proof. unfold post. destruct (m s); eauto. Qed.

Lemma wlp_elim {S A} (m : M S A) s Q a s' : wlp m s Q -> m s = Ok a s' -> Q a s'.
Proof. unfold post. intros H Heq. by rewrite Heq in H. Qed.

Lemma wp_elim {S A} (m : M S A) s Q :
  wp m s Q -> exists a s', m s = Ok a s' /\ Q a s'.
Proof. unfold post. destruct (m s); naive_solver. Qed.

(** ** Preservation

    [preserves I m]: running [m] from a state that satisfies [I] ends, if it
    returns, in a state that satisfies [I]. *)
Definition preserves {S A} (I : S -> Prop) (m : M S A) : Prop :=
  forall s, I s -> wlp m s (fun _ s' => I s').

Section Preserves.
Context {S : Type} (I : S -> Prop).

Lemma pres_ret {A} (a : A) : preserves I (mret a).
Proof. intros s Hs. exact Hs. Qed.
Lemma pres_bind {A B} (m : M S A) (f : A -> M S B) :
  preserves I m -> (forall a, preserves I (f a)) -> preserves I (m ≫= f).
Proof.
  intros Hm Hf s Hs. apply post_bind. eapply post_mono; [by apply Hm |].
  intros a s' _ Hs'. by apply Hf.
Qed.
Lemma pres_gets {A} (f : S -> A) : preserves I (gets f).
Proof. intros s Hs. exact Hs. Qed.
Lemma pres_get : preserves I get.
Proof. intros s Hs. exact Hs. Qed.
Lemma pres_stop {A} e : preserves I (stop_with e : M S A).
Proof. intros s Hs. exact Logic.I. Qed.
Lemma pres_modify f : (forall s, I s -> I (f s)) -> preserves I (modify f).
Proof. intros H s Hs. by apply H. Qed.
Lemma pres_when b m : preserves I m -> preserves I (when b m).
Proof. intros H. destruct b; [done | apply pres_ret]. Qed.
Lemma pres_forM {X} (l : list X) body :
  (forall x, preserves I (body x)) -> preserves I (forM l body).
Proof.
  intros H. induction l as [|x l IH]; [apply pres_ret |]. by apply pres_bind.
Qed.
Lemma pres_option {A} e (o : option A) : preserves I (of_option e o).
Proof. destruct o; [apply pres_ret | apply pres_stop]. Qed.
End Preserves.

Lemma pres_zoom {S T A} (I : S -> Prop) (J : T -> Prop) sel upd (m : M T A) :
  preserves J m -> (forall s, I s -> J (sel s)) -> (forall s t, I s -> J t -> I (upd t s)) ->
  preserves I (zoom sel upd m).
Proof.
  intros Hm Hsel Hupd s Hs. apply post_zoom. eapply post_mono; [by apply Hm, Hsel |].
  intros a t _ Ht. by apply Hupd.
Qed.

(** ** Automation *)

Create HintDb savannah discriminated.
#[export] Hint Resolve post_ret post_gets post_modify : savannah.

Create HintDb preserves discriminated.
#[export] Hint Constants Opaque : preserves.
#[export] Hint Resolve pres_ret pres_gets pres_get pres_stop pres_option : preserves.

(** Follow the structure of a computation down to its basic operations, which
    the hint database settles. *)
Ltac preserve :=
  repeat lazymatch goal with
  | |- forall _, _ => intro
  | |- preserves _ (mbind _ _) => apply pres_bind
  | |- preserves _ (when _ _) => apply pres_when
  | |- preserves _ (forM _ _) => apply pres_forM
  | |- preserves _ (if ?b then _ else _) => destruct b
  | |- preserves _ (match ?x with _ => _ end) => destruct x
  | |- preserves _ (let _ := _ in _) => cbn zeta
  | |- preserves _ (panic _) => apply pres_stop
  | |- preserves _ _ => solve [ eauto 2 with preserves nocore ]
  end.

(** One structural step of a [post] goal. *)
Ltac wp_step :=
  lazymatch goal with
  | |- post _ (mret _) _ _ => apply post_ret
  | |- post _ (mbind _ _) _ _ => apply post_bind
  | |- post _ (gets _) _ _ => apply post_gets
  | |- post _ (modify _) _ _ => apply post_modify
  | |- post _ (zoom _ _ _) _ _ => apply post_zoom
  | |- post _ (when _ _) _ _ => apply post_when; intros
  | |- post (fun _ => True) (panic _) _ _ => exact I
  | |- post (fun _ => True) (stop_with _) _ _ => exact I
  end.
Ltac wp_steps := repeat (wp_step; cbn beta iota).

(** Turn boolean comparisons in the context into propositions. *)
Ltac bool_to_prop :=
  repeat match goal with
  | H : (_ <? _) = true |- _ => apply Z.ltb_lt in H
  | H : (_ <? _) = false |- _ => apply Z.ltb_ge in H
  | H : (_ <=? _) = true |- _ => apply Z.leb_le in H
  | H : (_ <=? _) = false |- _ => apply Z.leb_gt in H
  | H : (_ =? _) = true |- _ => apply Z.eqb_eq in H
  | H : (_ =? _) = false |- _ => apply Z.eqb_neq in H
  | H : (_ >? _) = _ |- _ => rewrite Z.gtb_ltb in H
  | H : (_ >=? _) = _ |- _ => rewrite Z.geb_leb in H
  | H : negb _ = true |- _ => apply negb_true_iff in H
  | H : negb _ = false |- _ => apply negb_false_iff in H
  | H : _ && _ = true |- _ => apply andb_true_iff in H as [? ?]
  | H : _ || _ = false |- _ => apply orb_false_iff in H as [? ?]
  end.

(** Case analysis on the next conditional of the goal, in propositional form. *)
Ltac case_if :=
  match goal with
  | |- context [if ?b then _ else _] =>
      lazymatch type of b with
      | bool => destruct b eqn:?; bool_to_prop
      end
  end.
