(* ===== verification/PhysMem.v ===== *)
(** * Byte-addressed physical memory

    The kernel's programs run with an identity map, so every pointer they
    follow is a physical address.  Memory is a finite map from addresses to
    byte values; a cell that was never written reads as zero.  This file
    holds little-endian loads and stores of machine words, the byte loops of
    [lib/string.c] ([memset], [memcpy]) and the frame lemmas about them. *)

From S2P Require Import Prelude.

Abbreviation memory := (gmap Z Z).

(** The byte stored at [a]. *)
Definition byte_at (m : memory) (a : Z) : Z := w8 (default 0 (m !! a)).

(** Little-endian words of [n] bytes. *)
Fixpoint load (n : nat) (m : memory) (a : Z) : Z :=
  match n with
  | O => 0
  | S n' => byte_at m a + 2 ^ 8 * load n' m (a + 1)
  end.

Fixpoint store (n : nat) (m : memory) (a v : Z) : memory :=
  match n with
  | O => m
  | S n' => store n' (<[a := w8 v]> m) (a + 1) (v / 2 ^ 8)
  end.

Definition load32 (m : memory) (a : Z) : Z := load 4 m a.
Definition load64 (m : memory) (a : Z) : Z := load 8 m a.
Definition store32 (m : memory) (a v : Z) : memory := store 4 m a v.
Definition store64 (m : memory) (a v : Z) : memory := store 8 m a v.

(** [memset]: [while (count--) *xs++ = c;] *)
Fixpoint set_bytes (n : nat) (m : memory) (a c : Z) : memory :=
  match n with
  | O => m
  | S n' => set_bytes n' (<[a := w8 c]> m) (a + 1) c
  end.
Definition memset (m : memory) (s c count : Z) : memory :=
  set_bytes (Z.to_nat count) m s c.

(** [memcpy]: [while (count--) *tmp++ = *s++;], lowest address first. *)
Fixpoint copy_bytes (n : nat) (m : memory) (d s : Z) : memory :=
  match n with
  | O => m
  | S n' => copy_bytes n' (<[d := byte_at m s]> m) (d + 1) (s + 1)
  end.
Definition memcpy (m : memory) (dest src count : Z) : memory :=
  copy_bytes (Z.to_nat count) m dest src.

(** Writing a list of byte values, and reading one back. *)
Fixpoint put_bytes (m : memory) (a : Z) (bs : list Z) : memory :=
  match bs with
  | [] => m
  | b :: bs' => put_bytes (<[a := w8 b]> m) (a + 1) bs'
  end.
Definition get_bytes (m : memory) (a : Z) (n : nat) : list Z :=
  (fun i => byte_at m (a + i)) <$> seqZ 0 (Z.of_nat n).

(** ** Agreement of two memories on an address range *)

Definition same_on (P : Z -> Prop) (m1 m2 : memory) : Prop :=
  forall a, P a -> byte_at m1 a = byte_at m2 a.

#[global] Instance same_on_equiv P : Equivalence (same_on P).
Proof.
  split; unfold same_on.
  - done.
  - intros m1 m2 H a Ha. by rewrite H.
  - intros m1 m2 m3 H1 H2 a Ha. by rewrite H1, H2.
Qed.

Lemma same_on_mono (P Q : Z -> Prop) m1 m2 :
  (forall a, Q a -> P a) -> same_on P m1 m2 -> same_on Q m1 m2.
Proof. unfold same_on. eauto. Qed.

Lemma byte_at_insert m a v x :
  byte_at (<[a := v]> m) x = if decide (a = x) then w8 v else byte_at m x.
Proof. unfold byte_at. rewrite lookup_insert. by case_decide. Qed.

Lemma byte_at_bound m a : 0 <= byte_at m a < 2 ^ 8.
Proof. apply w8_bound. Qed.

Lemma w8_w8 v : w8 (w8 v) = w8 v.
Proof. apply w8_small, w8_bound. Qed.

Lemma w8_byte_at m a : w8 (byte_at m a) = byte_at m a.
Proof. apply w8_w8. Qed.

(** ** Words *)

Lemma load_ext n m1 m2 a :
  same_on (fun x => a <= x < a + Z.of_nat n) m1 m2 -> load n m1 a = load n m2 a.
Proof.
  revert a. induction n as [|n IH]; intros a H; [done |]. simpl.
  rewrite (H a) by lia. rewrite (IH (a + 1)); [done |].
  eapply same_on_mono; [|exact H]. simpl. lia.
Qed.

Lemma load_bound n m a : 0 <= load n m a < 2 ^ (8 * Z.of_nat n).
Proof.
  revert a. induction n as [|n IH]; intros a; [done |]. simpl load.
  pose proof (IH (a + 1)). pose proof (byte_at_bound m a).
  replace (8 * Z.of_nat (S n)) with (8 + 8 * Z.of_nat n) by lia.
  rewrite Z.pow_add_r by lia. nia.
Qed.

Lemma byte_at_store_out n m a v x :
  ~ (a <= x < a + Z.of_nat n) -> byte_at (store n m a v) x = byte_at m x.
Proof.
  revert m a v. induction n as [|n IH]; intros m a v Hx; [done |]. simpl.
  rewrite IH by lia. rewrite byte_at_insert, decide_False by lia. done.
Qed.

Lemma load_store_eq n m a v : load n (store n m a v) a = v mod 2 ^ (8 * Z.of_nat n).
Proof.
  revert m a v. induction n as [|n IH]; intros m a v.
  { simpl. by rewrite Z.mod_1_r. }
  simpl load. simpl store.
  rewrite IH, byte_at_store_out by lia.
  rewrite byte_at_insert, decide_True, w8_w8 by done.
  replace (8 * Z.of_nat (S n)) with (8 + 8 * Z.of_nat n) by lia.
  rewrite Z.pow_add_r, Z.rem_mul_r by lia. done.
Qed.

Lemma load_store_ne n k m a b v :
  b + Z.of_nat n <= a \/ a + Z.of_nat k <= b -> load n (store k m a v) b = load n m b.
Proof. intros H. apply load_ext. intros x Hx. apply byte_at_store_out. lia. Qed.

Lemma load64_store64_eq m a v : load64 (store64 m a v) a = w64 v.
Proof. apply (load_store_eq 8). Qed.

Lemma load64_store64_ne m a b v :
  b + 8 <= a \/ a + 8 <= b -> load64 (store64 m a v) b = load64 m b.
Proof. intros. by apply load_store_ne. Qed.

Lemma load64_bound m a : 0 <= load64 m a < 2 ^ 64.
Proof. apply (load_bound 8). Qed.

Lemma load32_bound m a : 0 <= load32 m a < 2 ^ 32.
Proof. apply (load_bound 4). Qed.

Lemma load_zero n m a :
  (forall x, a <= x < a + Z.of_nat n -> byte_at m x = 0) -> load n m a = 0.
Proof.
  revert a. induction n as [|n IH]; intros a H; [done |]. simpl.
  rewrite H, IH by (intros; try apply H; lia). done.
Qed.

(** ** Byte loops *)

Lemma byte_at_memset m s c count x :
  byte_at (memset m s c count) x =
  if decide (s <= x < s + count) then w8 c else byte_at m x.
Proof.
  unfold memset.
  assert (Hgen : forall n m' s', byte_at (set_bytes n m' s' c) x =
    if decide (s' <= x < s' + Z.of_nat n) then w8 c else byte_at m' x).
  { induction n as [|n IH]; intros m' s'; simpl.
    - rewrite decide_False by lia. done.
    - rewrite IH, byte_at_insert, w8_w8. repeat case_decide; lia || done. }
  rewrite Hgen. repeat case_decide; lia || done.
Qed.

(** Copying between disjoint ranges copies the source bytes and nothing else. *)
Lemma byte_at_memcpy m d s count x :
  s + count <= d \/ d + count <= s ->
  byte_at (memcpy m d s count) x =
  if decide (d <= x < d + count) then byte_at m (s + (x - d)) else byte_at m x.
Proof.
  unfold memcpy. intros Hd.
  assert (Hgen : forall n m' d' s',
    s' + Z.of_nat n <= d' \/ d' + Z.of_nat n <= s' ->
    byte_at (copy_bytes n m' d' s') x =
    if decide (d' <= x < d' + Z.of_nat n) then byte_at m' (s' + (x - d')) else byte_at m' x).
  { induction n as [|n IH]; intros m' d' s' H; simpl.
    - rewrite decide_False by lia. done.
    - rewrite IH by lia. rewrite !byte_at_insert, w8_byte_at.
      repeat case_decide; try lia; try done; f_equal; lia. }
  destruct (decide (0 <= count)).
  - rewrite Hgen by lia. by rewrite Z2Nat.id.
  - replace (Z.to_nat count) with O by lia. simpl. rewrite decide_False by lia. done.
Qed.

Lemma byte_at_put_bytes m a bs x :
  byte_at (put_bytes m a bs) x =
  if decide (a <= x < a + Z.of_nat (length bs))
  then w8 (default 0 (bs !! Z.to_nat (x - a))) else byte_at m x.
Proof.
  revert m a. induction bs as [|b bs IH]; intros m a; simpl.
  { rewrite decide_False by lia. done. }
  rewrite IH, byte_at_insert. rewrite w8_w8.
  destruct (decide (a = x)) as [->|Hne].
  - rewrite Z.sub_diag. repeat case_decide; lia || done.
  - repeat case_decide; try lia.
    assert (Z.to_nat (x - a) = S (Z.to_nat (x - (a + 1)))) as -> by lia. done.
Qed.

Lemma length_get_bytes m a n : length (get_bytes m a n) = n.
Proof. unfold get_bytes. rewrite length_fmap, length_seqZ. lia. Qed.

Definition is_byte (b : Z) : Prop := 0 <= b < 2 ^ 8.

Lemma get_put_bytes m a bs : Forall is_byte bs -> get_bytes (put_bytes m a bs) a (length bs) = bs.
Proof.
  intros Hbs. apply list_eq_same_length with (n := length bs); [done | apply length_get_bytes |].
  intros i x y Hi Hx Hy. unfold get_bytes in Hx. apply list_lookup_fmap_Some in Hx as (j & -> & Hj).
  apply lookup_seqZ in Hj as [-> _]. rewrite byte_at_put_bytes, decide_True by lia.
  replace (Z.to_nat (a + (0 + Z.of_nat i) - a)) with i by lia. rewrite Hy. simpl.
  apply w8_small. by eapply (Forall_lookup_1 _ _ _ _ Hbs).
Qed.

Lemma get_bytes_ext m1 m2 a n :
  same_on (fun x => a <= x < a + Z.of_nat n) m1 m2 -> get_bytes m1 a n = get_bytes m2 a n.
Proof.
  intros H. unfold get_bytes. apply list_fmap_ext. intros i x Hi.
  apply lookup_seqZ in Hi. apply H. lia.
Qed.

(** The bytes [l] at [a]. *)
Definition text_at (m : memory) (a : Z) (l : list Z) : Prop :=
  forall i c, l !! i = Some c -> byte_at m (a + Z.of_nat i) = c.

Lemma text_at_nil m a : text_at m a [].
Proof. intros i c. by rewrite lookup_nil. Qed.

Lemma text_at_app m a l1 l2 :
  text_at m a l1 -> text_at m (a + Z.of_nat (length l1)) l2 -> text_at m a (l1 ++ l2).
Proof.
  intros H1 H2 i c [Hi | [Hlen Hi]]%lookup_app_Some; [by apply H1 |].
  rewrite <-(H2 _ _ Hi). f_equal. lia.
Qed.

Lemma text_at_ext m m' a l :
  same_on (fun x => a <= x < a + Z.of_nat (length l)) m' m -> text_at m a l -> text_at m' a l.
Proof.
  intros Hs H i c Hi. pose proof (lookup_lt_Some _ _ _ Hi). rewrite Hs by lia. by apply H.
Qed.

Lemma text_at_take m a k l : text_at m a l -> text_at m a (take k l).
Proof. intros H i c Hi. apply H. by apply lookup_take_Some in Hi as [? _]. Qed.

#[export] Hint Resolve load64_bound load32_bound byte_at_bound : savannah.
