(* ===== verification/CString.v ===== *)
(** * C strings (lib/string.c)

    The loops run over byte memory.  A cell that was never written reads as
    zero, so a scan for the terminator visits at most [size m] cells before it
    stops: [S (size m)] is enough fuel for every loop that does not write
    ahead of itself, and the theorems prove it is. *)

From S2P Require Import Prelude PhysMem.

(** [for (sc = s; *sc != 0; ++sc);  return sc - s;] *)
Fixpoint strlen_loop (fuel : nat) (m : memory) (sc n : Z) : option Z :=
  match fuel with
  | O => None
  | S fuel' => if byte_at m sc =? 0 then Some n else strlen_loop fuel' m (sc + 1) (n + 1)
  end.
Definition strlen (m : memory) (s : Z) : option Z :=
  s32 <$> strlen_loop (S (size m)) m s 0.

Fixpoint strcmp_loop (fuel : nat) (m : memory) (cs ct : Z) : option Z :=
  match fuel with
  | O => None
  | S fuel' =>
      let c1 := byte_at m cs in
      let c2 := byte_at m ct in
      if negb (c1 =? c2) then Some (if c1 <? c2 then -1 else 1)
      else if c1 =? 0 then Some 0 else strcmp_loop fuel' m (cs + 1) (ct + 1)
  end.
Definition strcmp (m : memory) (cs ct : Z) : option Z := strcmp_loop (S (size m)) m cs ct.

(** Copy up to and including the terminator. *)
Fixpoint strcpy_loop (fuel : nat) (m : memory) (dest src : Z) : option memory :=
  match fuel with
  | O => None
  | S fuel' =>
      let c := byte_at m src in
      let m' := <[dest := c]> m in
      if c =? 0 then Some m' else strcpy_loop fuel' m' (dest + 1) (src + 1)
  end.
Definition strcpy (m : memory) (dest src : Z) : option memory :=
  strcpy_loop (S (size m)) m dest src.

(** The source pointer stops at the terminator, the rest is padded. *)
Fixpoint strncpy_loop (count : nat) (m : memory) (tmp src : Z) : memory :=
  match count with
  | O => m
  | S count' =>
      let c := byte_at m src in
      strncpy_loop count' (<[tmp := c]> m) (tmp + 1) (if c =? 0 then src else src + 1)
  end.
Definition strncpy (m : memory) (dest src count : Z) : memory :=
  strncpy_loop (Z.to_nat count) m dest src.

Fixpoint memcmp_loop (count : nat) (m : memory) (su1 su2 : Z) : Z :=
  match count with
  | O => 0
  | S count' =>
      let res := byte_at m su1 - byte_at m su2 in
      if negb (res =? 0) then res else memcmp_loop count' m (su1 + 1) (su2 + 1)
  end.
Definition memcmp (m : memory) (cs ct count : Z) : Z := memcmp_loop (Z.to_nat count) m cs ct.

(** ** Specification *)

(** The bytes [l] followed by a terminator at [s]. *)
Fixpoint cstring (m : memory) (s : Z) (l : list Z) : Prop :=
  match l with
  | [] => byte_at m s = 0
  | c :: l' => byte_at m s = c /\ c <> 0 /\ cstring m (s + 1) l'
  end.

(** Comparison of byte strings as [strcmp] orders them. *)
Fixpoint str_compare (l1 l2 : list Z) : Z :=
  match l1, l2 with
  | [], [] => 0
  | [], _ => -1
  | _, [] => 1
  | c1 :: l1', c2 :: l2' =>
      if c1 =? c2 then str_compare l1' l2' else if c1 <? c2 then -1 else 1
  end.

Lemma byte_at_nonzero_dom m a : byte_at m a <> 0 -> a ∈ dom m.
Proof. unfold byte_at. intros H. apply elem_of_dom. by destruct (m !! a). Qed.

Lemma cstring_byte m s l i :
  cstring m s l -> (i < length l)%nat -> byte_at m (s + Z.of_nat i) <> 0.
Proof.
  revert s i. induction l as [|c l IH]; intros s i; simpl; [lia |].
  intros (Hc & Hz & Hl) Hi. destruct i as [|i]; [rewrite Z.add_0_r; congruence |].
  replace (s + Z.of_nat (S i)) with (s + 1 + Z.of_nat i) by lia. apply IH; [done | lia].
Qed.

Lemma cstring_end m s l : cstring m s l -> byte_at m (s + Z.of_nat (length l)) = 0.
Proof.
  revert s. induction l as [|c l IH]; intros s; simpl; [by rewrite Z.add_0_r |].
  intros (_ & _ & Hl). replace (s + Z.of_nat (S (length l))) with (s + 1 + Z.of_nat (length l)) by lia.
  by apply IH.
Qed.

Lemma cstring_lookup m s l i :
  cstring m s l -> (i < length l)%nat -> l !! i = Some (byte_at m (s + Z.of_nat i)).
Proof.
  revert s i. induction l as [|c l IH]; intros s i; simpl; [lia |].
  intros (Hc & _ & Hl) Hi. destruct i as [|i]; simpl; [by rewrite Z.add_0_r, Hc |].
  replace (s + Z.of_nat (S i)) with (s + 1 + Z.of_nat i) by lia. apply IH; [done | lia].
Qed.

(** The fuel bound: a string is no longer than the memory that holds it. *)
Lemma cstring_size m s l : cstring m s l -> (length l <= size m)%nat.
Proof.
  intros Hs. rewrite <-size_dom.
  set (X := list_to_set ((fun i => s + i) <$> seqZ 0 (Z.of_nat (length l))) : gset Z).
  assert (HX : size X = length l).
  { unfold X. rewrite size_list_to_set, length_fmap, length_seqZ; [lia |].
    apply NoDup_fmap_2; [intros x y; lia | apply NoDup_seqZ]. }
  rewrite <-HX. apply subseteq_size. intros x. unfold X.
  rewrite elem_of_list_to_set, list_elem_of_fmap. intros (i & -> & Hi%elem_of_seqZ).
  apply byte_at_nonzero_dom. replace i with (Z.of_nat (Z.to_nat i)) by lia.
  eapply cstring_byte; [done | lia].
Qed.

Lemma cstring_ext m m' s l :
  same_on (fun x => s <= x <= s + Z.of_nat (length l)) m m' -> cstring m s l -> cstring m' s l.
Proof.
  revert s. induction l as [|c l IH]; intros s Hsame; simpl.
  - intros <-. symmetry. apply Hsame. simpl. lia.
  - intros (Hc & Hz & Hl). split_and!; [rewrite <-Hc; symmetry; apply Hsame; simpl; lia | done |].
    apply IH; [|done]. eapply same_on_mono; [|done]. simpl. lia.
Qed.

Lemma strlen_loop_spec fuel m s l n :
  cstring m s l -> (length l < fuel)%nat -> strlen_loop fuel m s n = Some (n + Z.of_nat (length l)).
Proof.
  revert fuel s n. induction l as [|c l IH]; intros [|fuel] s n; simpl; try lia.
  - intros -> _. simpl. f_equal. lia.
  - intros (-> & Hz & Hl) Hf. destruct (Z.eqb_spec c 0); [done |].
    rewrite IH by (done || lia). f_equal. lia.
Qed.

(** [strlen] terminates on every string and returns its length, as long
    as the length fits in an [int]. *)
Theorem strlen_correct m s l :
  cstring m s l -> Z.of_nat (length l) < 2 ^ 31 -> strlen m s = Some (Z.of_nat (length l)).
Proof.
  intros Hs Hl. unfold strlen. pose proof (cstring_size _ _ _ Hs).
  rewrite (strlen_loop_spec _ _ _ l) by (done || lia). simpl. by rewrite s32_small by lia.
Qed.

Lemma strcmp_loop_spec fuel m cs ct l1 l2 :
  cstring m cs l1 -> cstring m ct l2 -> Forall (fun c => 0 <= c) l1 -> Forall (fun c => 0 <= c) l2 ->
  (length l1 < fuel)%nat -> strcmp_loop fuel m cs ct = Some (str_compare l1 l2).
Proof.
  revert fuel cs ct l2. induction l1 as [|c1 l1 IH]; intros [|fuel] cs ct l2 H1 H2 P1 P2 Hf;
    [simpl in Hf; lia | | simpl in Hf; lia |]; cbn [cstring strcmp_loop str_compare length] in *.
  - rewrite H1. destruct l2 as [|c2 l2]; cbn [cstring] in *; [by rewrite H2 |].
    destruct H2 as (-> & Hz & _). inversion P2; subst.
    destruct (Z.eqb_spec 0 c2); [congruence |]. cbn [negb].
    destruct (Z.ltb_spec 0 c2); [done | lia].
  - destruct H1 as (-> & Hz1 & H1). inversion P1; subst.
    destruct l2 as [|c2 l2]; cbn [cstring] in *.
    + rewrite H2. destruct (Z.eqb_spec c1 0); [done |]. cbn [negb].
      destruct (Z.ltb_spec c1 0); [lia | done].
    + destruct H2 as (-> & Hz2 & H2). inversion P2; subst.
      destruct (Z.eqb_spec c1 c2) as [<-|]; cbn [negb]; [|done].
      destruct (Z.eqb_spec c1 0); [done |]. apply IH; done || lia.
Qed.

Lemma cstring_nonneg m s l : cstring m s l -> Forall (fun c => 0 <= c) l.
Proof.
  revert s. induction l as [|c l IH]; intros s; [done |]. intros (<- & _ & Hl).
  constructor; [apply byte_at_bound | eauto].
Qed.

Lemma str_compare_eq l1 l2 : str_compare l1 l2 = 0 <-> l1 = l2.
Proof.
  revert l2. induction l1 as [|c1 l1 IH]; intros [|c2 l2]; simpl; [done | done | done |].
  destruct (Z.eqb_spec c1 c2) as [->|Hne].
  - rewrite IH. split; [by intros -> | by intros [= ->]].
  - split; [by destruct (c1 <? c2) | by intros [= -> _]].
Qed.

Lemma strcmp_spec m cs ct l1 l2 :
  cstring m cs l1 -> cstring m ct l2 ->
  strcmp m cs ct = Some (str_compare l1 l2) /\ (strcmp m cs ct = Some 0 <-> l1 = l2).
Proof.
  intros H1 H2. pose proof (cstring_size _ _ _ H1).
  assert (Hr : strcmp m cs ct = Some (str_compare l1 l2)).
  { apply strcmp_loop_spec; eauto using cstring_nonneg. lia. }
  split; [done |]. rewrite Hr, <-str_compare_eq. split; congruence.
Qed.

(** [strcmp] terminates on any two strings in memory, returns their
    lexicographic order (as unsigned bytes) as -1, 0 or 1, and returns 0
    exactly when the strings are equal. *)
Theorem strcmp_correct m cs ct l1 l2 :
  cstring m cs l1 -> cstring m ct l2 ->
  strcmp m cs ct = Some (str_compare l1 l2) /\ (strcmp m cs ct = Some 0 <-> l1 = l2).
Proof. apply strcmp_spec. Qed.

Lemma strcpy_loop_spec fuel m dest src l :
  cstring m src l -> (length l < fuel)%nat ->
  src + Z.of_nat (length l) < dest \/ dest + Z.of_nat (length l) < src ->
  exists m', strcpy_loop fuel m dest src = Some m' /\
    forall x, byte_at m' x =
      if decide (dest <= x <= dest + Z.of_nat (length l)) then byte_at m (src + (x - dest))
      else byte_at m x.
Proof.
  revert fuel m dest src. induction l as [|c l IH]; intros [|fuel] m dest src; simpl; try lia.
  - intros Hs _ Hd. rewrite Hs. simpl. eexists. split; [done |]. intros x.
    rewrite byte_at_insert. repeat case_decide; try lia; try done.
    subst. rewrite Z.sub_diag, Z.add_0_r, Hs. done.
  - intros (Hc & Hz & Hl) Hf Hd. rewrite Hc. destruct (Z.eqb_spec c 0); [done |].
    destruct (IH fuel (<[dest := c]> m) (dest + 1) (src + 1)) as (m' & Hrun & Hb);
      [| lia | lia |].
    { eapply cstring_ext; [|done]. intros x Hx. rewrite byte_at_insert, decide_False by lia. done. }
    exists m'. split; [done |]. intros x. rewrite Hb, !byte_at_insert.
    assert (Hw : w8 c = c) by (rewrite <-Hc; apply w8_byte_at).
    repeat case_decide; try lia; try done; try (f_equal; lia).
    subst x. rewrite Z.sub_diag, Z.add_0_r. congruence.
Qed.

(** [strcpy] between ranges that do not overlap terminates, leaves the
    source's string at the destination and changes no other byte. *)
Theorem strcpy_correct m dest src l :
  cstring m src l ->
  src + Z.of_nat (length l) < dest \/ dest + Z.of_nat (length l) < src ->
  exists m', strcpy m dest src = Some m' /\ cstring m' dest l /\
    same_on (fun x => ~ (dest <= x <= dest + Z.of_nat (length l))) m m'.
Proof.
  intros Hs Hd. pose proof (cstring_size _ _ _ Hs).
  destruct (strcpy_loop_spec (S (size m)) m dest src l) as (m' & Hrun & Hb); [done | lia | done |].
  exists m'. split_and!; [done | |].
  - clear Hrun H. assert (Hb' : forall i, 0 <= i <= Z.of_nat (length l) ->
      byte_at m' (dest + i) = byte_at m (src + i)).
    { intros i Hi. rewrite Hb, decide_True by lia. f_equal. lia. }
    clear Hb Hd. revert dest src Hs Hb'. induction l as [|c l IH]; intros dest src; simpl.
    + intros Hs Hb. specialize (Hb 0 ltac:(lia)). rewrite !Z.add_0_r in Hb. congruence.
    + intros (Hc & Hz & Hl) Hb. split_and!; [|done |].
      * specialize (Hb 0 ltac:(lia)). rewrite !Z.add_0_r in Hb. congruence.
      * apply (IH (dest + 1) (src + 1)); [done |]. intros i Hi.
        specialize (Hb (1 + i) ltac:(lia)). by rewrite !Z.add_assoc in Hb.
  - intros x Hx. by rewrite Hb, decide_False.
Qed.
