(* ===== verification/MemMgr.v ===== *)
(** * The process manager's page allocator (vms/pm/memory.c)

    Physical memory above the boot image is handed out in blocks of whole
    4KB pages.  Each page has a [struct block_node] in [block_node_array];
    the nodes of the first pages of the blocks are linked into the doubly
    linked list [blist], in address order.  A block carries a reference
    count; blocks with count zero are free and are merged with their free
    neighbours when they are released.

    The file models every function of memory.c; [MemMgrSpec] states and
    proves what they guarantee. *)

From S2P Require Import Prelude PhysMem.

Abbreviation _4KB_ := 4096.
Abbreviation MIN_MEM_BLOCK_SIZE := 4096.
(** [sizeof (struct block_node)] *)
Abbreviation BLOCK_NODE_SIZE := 32.

(** A [struct block_node]; the pointers [next] and [pre] point into
    [block_node_array] and are kept as indices, [None] being [NULL]. *)
Record block_node := Block {
  b_start_addr : Z;
  b_pages : Z;
  b_ref : Z;
  next : option Z;
  pre : option Z
}.

Definition set_pages (v : Z) (b : block_node) : block_node :=
  Block (b_start_addr b) v (b_ref b) (next b) (pre b).
Definition set_ref (v : Z) (b : block_node) : block_node :=
  Block (b_start_addr b) (b_pages b) v (next b) (pre b).
Definition set_next (v : option Z) (b : block_node) : block_node :=
  Block (b_start_addr b) (b_pages b) (b_ref b) v (pre b).
Definition set_pre (v : option Z) (b : block_node) : block_node :=
  Block (b_start_addr b) (b_pages b) (b_ref b) (next b) v.

(** The static variables of memory.c. *)
Record mm_state := MM {
  block_node_array_addr : Z;
  block_node_array : gmap Z block_node;
  blist : option Z;
  block_node_array_last_idx : Z;
  first_free_addr : Z;
  all_nodes : Z;
  available_memory : Z;
  available_free_memory : Z
}.

Definition set_array (a : gmap Z block_node) (s : mm_state) : mm_state :=
  MM (block_node_array_addr s) a (blist s) (block_node_array_last_idx s)
     (first_free_addr s) (all_nodes s) (available_memory s) (available_free_memory s).

(** [ALIGN(N, BASE)] of include/macro.h on 64-bit operands. *)
Definition ALIGN (n base : Z) : Z := Z.land (w64 (n + (base - 1))) (Z.lnot (base - 1)).

(** ** Operations *)

Definition get_node (i : Z) : M mm_state block_node :=
  a ← gets block_node_array;
  of_option (Fault "block_node_array") (a !! i).

Definition update_node (i : Z) (f : block_node -> block_node) : M mm_state unit :=
  b ← get_node i;
  modify (fun s => set_array (<[i := f b]> (block_node_array s)) s).

Definition alloc_block_node (paddr : Z) : M mm_state Z :=
  if negb (Z.land paddr 0xFFF =? 0) then panic "memory address is not 4KB aligned" else
  ffa ← gets first_free_addr;
  if paddr <? ffa then panic "physical address under range" else
  let idx := s32 (w64 (paddr - ffa) / MIN_MEM_BLOCK_SIZE) in
  last ← gets block_node_array_last_idx;
  if last <? idx then panic "block index is over block array size" else
  block ← get_node idx;
  if 0 <? b_ref block then panic "block is already allocated" else
  mret idx.

Definition init_block_node (junk : Z -> block_node) : M mm_state unit :=
  s ← get;
  let free := available_free_memory s in
  let all := free / MIN_MEM_BLOCK_SIZE + (if free mod MIN_MEM_BLOCK_SIZE =? 0 then 0 else 1) in
  let array_addr := first_free_addr s in
  if available_memory s <? w64 (w64 (all * BLOCK_NODE_SIZE) + first_free_addr s)
  then panic "Not enough memory" else
  let last_idx := s32 all in
  let ffa := ALIGN (w64 (first_free_addr s + w64 (all * BLOCK_NODE_SIZE))) MIN_MEM_BLOCK_SIZE in
  let array := list_to_map
    ((fun i => (i, set_ref 0 (set_pages 0 (junk i)))) <$> seqZ 0 last_idx) in
  modify (fun s => MM array_addr array (blist s) last_idx ffa all
                      (available_memory s) (w64 (available_memory s - ffa))).

Definition init_block_list : M mm_state unit :=
  free ← gets available_free_memory;
  let all_free_pages := free / MIN_MEM_BLOCK_SIZE in
  ffa ← gets first_free_addr;
  b ← alloc_block_node ffa;
  update_node b (fun _ => Block ffa (s32 all_free_pages) 0 None None) ;;
  modify (fun s => MM (block_node_array_addr s) (block_node_array s) (Some b)
                      (block_node_array_last_idx s) (first_free_addr s) (all_nodes s)
                      (available_memory s) (available_free_memory s)).

(** [junk] is the content of the node array before it is initialised. *)
Definition memory_init (junk : Z -> block_node) (last_allocated_byte mem_size : Z)
  : M mm_state unit :=
  modify (fun s => MM (block_node_array_addr s) (block_node_array s) (blist s)
                      (block_node_array_last_idx s) last_allocated_byte (all_nodes s)
                      mem_size (available_free_memory s)) ;;
  if mem_size <? last_allocated_byte then panic "Misconfigured memory parameters" else
  modify (fun s => MM (block_node_array_addr s) (block_node_array s) (blist s)
                      (block_node_array_last_idx s) (first_free_addr s) (all_nodes s)
                      (available_memory s) (w64 (mem_size - last_allocated_byte))) ;;
  init_block_node junk ;;
  init_block_list.

(** [if (node) node->pre = p;] *)
Definition relink (node : option Z) (p : Z) : M mm_state unit :=
  match node with
  | Some nx => update_node nx (set_pre (Some p))
  | None => mret tt
  end.

(** The [while] loop of [alloc_mem_pages]; [fuel] bounds its iterations. *)
Fixpoint find_block (fuel : nat) (n : Z) (current : option Z) : M mm_state Z :=
  match current, fuel with
  | None, _ => mret 0
  | Some _, O => stop_with Diverge
  | Some c, S fuel' =>
      current_node ← get_node c;
      if (0 <? b_ref current_node) || (w64 (b_pages current_node) <? n) then
        find_block fuel' n (next current_node)
      else if w64 (b_pages current_node) =? n then
        update_node c (set_ref 1) ;;
        mret (b_start_addr current_node)
      else
        let new_node_paddr := w64 (b_start_addr current_node + w64 (n * MIN_MEM_BLOCK_SIZE)) in
        new_node ← alloc_block_node new_node_paddr;
        update_node new_node (fun _ =>
          Block new_node_paddr (s32 (b_pages current_node - n)) 0 (next current_node) (Some c)) ;;
        relink (next current_node) new_node ;;
        update_node c (fun b => set_next (Some new_node) (set_ref 1 (set_pages (s32 n) b))) ;;
        mret (b_start_addr current_node)
  end.

Definition alloc_mem_pages (n : Z) : M mm_state Z :=
  if n =? 0 then mret 0 else
  s ← get;
  find_block (Z.to_nat (all_nodes s)) n (blist s).

Definition reallocable (paddr : Z) (s : mm_state) : bool :=
  let idx := s32 (w64 (paddr - first_free_addr s) / MIN_MEM_BLOCK_SIZE) in
  (first_free_addr s <? paddr) && (idx <? block_node_array_last_idx s).

(** The address checks shared by [realloc_mem_block] and [free_mem_pages];
    the result is the index of the block's node. *)
Definition block_index (paddr : Z) : M mm_state Z :=
  if negb (Z.land paddr 0xFFF =? 0) then panic "memory address is not 4KB aligned" else
  ffa ← gets first_free_addr;
  if paddr <? ffa then panic "physical address under range" else
  let idx := s32 (w64 (paddr - ffa) / _4KB_) in
  last ← gets block_node_array_last_idx;
  if last <? idx then panic "block index is over block array size" else
  mret idx.

Definition realloc_mem_block (paddr : Z) : M mm_state Z :=
  idx ← block_index paddr;
  block ← get_node idx;
  if b_ref block =? 0 then panic "Can't reallocate a free memory block" else
  update_node idx (fun b => set_ref (w32 (b_ref b + 1)) b) ;;
  mret paddr.

(** [free_mem_pages], first half: absorb a free successor. *)
Definition merge_next (idx : Z) : M mm_state unit :=
  block ← get_node idx;
  match next block with
  | None => mret tt
  | Some nx =>
      next_node ← get_node nx;
      if b_ref next_node =? 0 then
        bl ← gets blist;
        if decide (Some nx = bl) then panic "Memory block list is corrupted" else
        if decide (pre next_node <> Some idx) then panic "Memory block list is corrupted" else
        update_node idx (fun b =>
          set_next (next next_node) (set_pages (s32 (b_pages b + b_pages next_node)) b)) ;;
        relink (next next_node) idx ;;
        update_node nx (set_ref 0)
      else mret tt
  end.

(** [free_mem_pages], second half: be absorbed by a free predecessor. *)
Definition merge_pre (idx : Z) : M mm_state unit :=
  block ← get_node idx;
  match pre block with
  | None => mret tt
  | Some pv =>
      previous_node ← get_node pv;
      if b_ref previous_node =? 0 then
        if decide (next previous_node <> Some idx) then panic "Memory block list is corrupted" else
        update_node pv (fun b =>
          set_next (next block) (set_pages (s32 (b_pages b + b_pages block)) b)) ;;
        relink (next block) pv ;;
        update_node pv (set_ref 0)
      else mret tt
  end.

Definition free_mem_pages (paddr : Z) : M mm_state unit :=
  idx ← block_index paddr;
  block ← get_node idx;
  if b_ref block =? 0 then panic "Can't free a free memory block" else
  if 1 <? b_ref block then update_node idx (fun b => set_ref (b_ref b - 1) b) else
  merge_next idx ;;
  merge_pre idx ;;
  update_node idx (set_ref 0).

(** Allocations that also clear the block: the allocator together with
    physical memory. *)
Record kmem := KMem { k_mm : mm_state; k_mem : memory }.
Definition set_mm (x : mm_state) (k : kmem) : kmem := KMem x (k_mem k).
Definition set_mem (x : memory) (k : kmem) : kmem := KMem (k_mm k) x.
Definition on_mm {A} (m : M mm_state A) : M kmem A := zoom k_mm set_mm m.

Abbreviation PAGE_TABLE_SIZE := 4096.

Definition alloc_clean_mem_pages (n : Z) : M kmem Z :=
  found_block ← on_mm (alloc_mem_pages n);
  when (0 <? found_block)
    (modify (fun k => set_mem (memset (k_mem k) found_block 0 (w64 (n * MIN_MEM_BLOCK_SIZE))) k)) ;;
  mret found_block.

Definition alloc_page_table : M kmem Z :=
  found_block ← on_mm (alloc_mem_pages 1);
  when (0 <? found_block)
    (modify (fun k => set_mem (memset (k_mem k) found_block 0 PAGE_TABLE_SIZE) k)) ;;
  mret found_block.
