(* ===== verification/MemMgrSpec.v ===== *)
(** * Correctness of the page allocator

    The abstract view of the allocator of [MemMgr] (the list of blocks as
    pairs of page count and reference count), the representation invariant
    that links it to the node array and the list threaded through it, and
    the proof that every operation of vms/pm/memory.c implements its
    operation on the abstract list. *)

From S2P Require Import Prelude PhysMem MemMgr.

(** ** Abstract view: the list of blocks, as (pages, references) *)

Abbreviation blocks := (list (Z * Z)).

Fixpoint npages (bl : blocks) : Z :=
  match bl with
  | [] => 0
  | (pg, _) :: tl => pg + npages tl
  end.

(** First fit: the offset (in pages) of the block handed out, and the list
    after it. *)
Fixpoint spec_alloc (off n : Z) (bl : blocks) : option (Z * blocks) :=
  match bl with
  | [] => None
  | (pg, rf) :: tl =>
      if (0 <? rf) || (pg <? n) then
        '(o, tl') ← spec_alloc (off + pg) n tl; Some (o, (pg, rf) :: tl')
      else if pg =? n then Some (off, (pg, 1) :: tl)
      else Some (off, (n, 1) :: (pg - n, 0) :: tl)
  end.

(** Release of the block between [l1] and [l2]. *)
Definition join_right (pg : Z) (l2 : blocks) : blocks :=
  match l2 with
  | (pg2, 0) :: tl => (pg + pg2, 0) :: tl
  | _ => (pg, 0) :: l2
  end.
Fixpoint join_left (l1 l : blocks) : blocks :=
  match l1 with
  | [] => l
  | [(pg0, rf0)] =>
      match l with
      | (pg, rf) :: tl =>
          if (rf0 =? 0) && (rf =? 0) then (pg0 + pg, 0) :: tl else (pg0, rf0) :: l
      | [] => [(pg0, rf0)]
      end
  | b :: l1' => b :: join_left l1' l
  end.
Definition spec_free (l1 : blocks) (pg rf : Z) (l2 : blocks) : blocks :=
  if 1 <? rf then l1 ++ (pg, rf - 1) :: l2 else join_left l1 (join_right pg l2).

(** Is page [j] part of a block that is in use? *)
Fixpoint page_live (off : Z) (bl : blocks) (j : Z) : bool :=
  match bl with
  | [] => false
  | (pg, rf) :: tl =>
      if j <? off + pg then (off <=? j) && (0 <? rf) else page_live (off + pg) tl j
  end.

(** No two neighbouring free blocks. *)
Definition head_free (bl : blocks) : Prop :=
  match bl with
  | (_, rf) :: _ => rf = 0
  | [] => False
  end.
Fixpoint coalesced (bl : blocks) : Prop :=
  match bl with
  | [] => True
  | (_, rf) :: tl => ~ (rf = 0 /\ head_free tl) /\ coalesced tl
  end.

(** The node a segment starts with, [qn] when it is empty. *)
Definition seg_first (i : Z) (bl : blocks) (qn : option Z) : option Z :=
  match bl with [] => qn | _ => Some i end.

(** [dseg a ffa pp i bl qn]: the nodes of the blocks [bl], the first one at
    index [i], linked from [pp] to [qn]; the nodes inside a block are not
    referenced. *)
Fixpoint dseg (a : gmap Z block_node) (ffa : Z) (pp : option Z) (i : Z)
    (bl : blocks) (qn : option Z) : Prop :=
  match bl with
  | [] => True
  | (pg, rf) :: tl =>
      0 < pg /\ 0 <= rf < 2 ^ 32 /\
      a !! i = Some (Block (ffa + i * 4096) pg rf (seg_first (i + pg) tl qn) pp) /\
      (forall j, i < j < i + pg -> exists b, a !! j = Some b /\ b_ref b = 0) /\
      dseg a ffa (Some i) (i + pg) tl qn
  end.

(** The representation invariant of memory.c. *)
Record mm_repr (s : mm_state) (bl : blocks) : Prop := {
  mr_list : blist s = Some 0;
  mr_nonempty : bl <> [];
  mr_seg : dseg (block_node_array s) (first_free_addr s) None 0 bl None;
  mr_coalesced : coalesced bl;
  mr_aligned : first_free_addr s mod 4096 = 0;
  mr_positive : 0 < first_free_addr s;
  mr_last : block_node_array_last_idx s = all_nodes s;
  mr_pages : npages bl <= all_nodes s;
  mr_small : all_nodes s < 2 ^ 31;
  mr_top : first_free_addr s + npages bl * 4096 < 2 ^ 63
}.

(** ** Segments *)

Lemma dseg_npages a ffa pp i bl qn : dseg a ffa pp i bl qn -> 0 <= npages bl.
Proof.
  revert pp i. induction bl as [|[pg rf] tl IH]; intros pp i; simpl; [done |].
  intros (? & _ & _ & _ & H). apply IH in H. lia.
Qed.

Lemma dseg_ext a1 a2 ffa pp i bl qn :
  (forall j, i <= j < i + npages bl -> a1 !! j = a2 !! j) ->
  dseg a1 ffa pp i bl qn -> dseg a2 ffa pp i bl qn.
Proof.
  revert pp i. induction bl as [|[pg rf] tl IH]; intros pp i Heq; [done |].
  simpl in *. intros (Hpg & Hrf & Hn & Hin & Htl).
  pose proof (dseg_npages _ _ _ _ _ _ Htl).
  rewrite <-Heq by lia. repeat split; try done; try lia.
  - intros j Hj. rewrite <-Heq by lia. by apply Hin.
  - eapply IH; [|done]. intros j Hj. apply Heq. lia.
Qed.

Lemma dseg_npages_pos a ffa pp i bl qn :
  dseg a ffa pp i bl qn -> bl <> [] -> 0 < npages bl.
Proof.
  destruct bl as [|[pg rf] tl]; [done |]. intros (? & _ & _ & _ & H) _.
  apply dseg_npages in H. simpl. lia.
Qed.

(** Every page index of a segment has a node. *)
Lemma dseg_lookup a ffa pp i bl qn j :
  dseg a ffa pp i bl qn -> i <= j < i + npages bl -> is_Some (a !! j).
Proof.
  revert pp i. induction bl as [|[pg rf] tl IH]; intros pp i; simpl; [lia |].
  intros (Hpg & _ & Hn & Hin & Htl) Hj.
  destruct (decide (j = i)) as [->|]; [eauto |].
  destruct (decide (j < i + pg)).
  - destruct (Hin j) as (b & Hb & _); [lia | eauto].
  - eapply IH; [done | lia].
Qed.

(** Redirecting the back pointer of the first node. *)
Lemma dseg_set_pre a ffa pp pp' i bl qn b :
  dseg a ffa pp i bl qn -> bl <> [] -> a !! i = Some b ->
  dseg (<[i := set_pre pp' b]> a) ffa pp' i bl qn.
Proof.
  destruct bl as [|[pg rf] tl]; [done |].
  intros (Hpg & Hrf & Hn & Hin & Htl) _ Hb. rewrite Hn in Hb. simplify_eq/=.
  repeat split; try lia.
  - by rewrite lookup_insert_eq.
  - intros j Hj. rewrite lookup_insert_ne by lia. by apply Hin.
  - eapply dseg_ext; [|exact Htl]. intros j Hj. rewrite lookup_insert_ne; [done | lia].
Qed.

(** Splitting a segment; [seg_last] is the index of its last node. *)
Fixpoint seg_last (pp : option Z) (i : Z) (bl : blocks) : option Z :=
  match bl with
  | [] => pp
  | (pg, _) :: tl => seg_last (Some i) (i + pg) tl
  end.

Lemma npages_app l1 l2 : npages (l1 ++ l2) = npages l1 + npages l2.
Proof. induction l1 as [|[pg rf] l1 IH]; simpl; lia. Qed.

Lemma dseg_app a ffa pp i l1 l2 qn :
  dseg a ffa pp i (l1 ++ l2) qn <->
  dseg a ffa pp i l1 (seg_first (i + npages l1) l2 qn) /\
  dseg a ffa (seg_last pp i l1) (i + npages l1) l2 qn.
Proof.
  revert pp i. induction l1 as [|[pg rf] l1 IH]; intros pp i; simpl.
  { rewrite Z.add_0_r. tauto. }
  rewrite (IH (Some i) (i + pg)), !Z.add_assoc.
  assert (Hn : seg_first (i + pg) (l1 ++ l2) qn =
    seg_first (i + pg) l1 (seg_first (i + pg + npages l1) l2 qn)).
  { destruct l1; simpl; [|done]. by rewrite Z.add_0_r. }
  rewrite Hn. tauto.
Qed.

Lemma seg_last_app pp i l1 pg rf :
  seg_last pp i (l1 ++ [(pg, rf)]) = Some (i + npages l1).
Proof.
  revert pp i. induction l1 as [|[p r] l1 IH]; intros pp i; simpl.
  - f_equal. lia.
  - rewrite IH. f_equal. lia.
Qed.

(** ** Single steps *)

Lemma get_node_ok s i b :
  block_node_array s !! i = Some b -> get_node i s = Ok b s.
Proof. intros H. unfold get_node, gets, mbind, M_bind. by rewrite H. Qed.

Lemma update_node_ok s i f b :
  block_node_array s !! i = Some b ->
  update_node i f s = Ok tt (set_array (<[i := f b]> (block_node_array s)) s).
Proof.
  intros H. unfold update_node, mbind, M_bind. by rewrite (get_node_ok s i b).
Qed.

(** A page address of the managed range passes the address checks. *)
Record page_index (s : mm_state) (idx : Z) : Prop := {
  pi_idx : 0 <= idx < 2 ^ 31;
  pi_last : idx <= block_node_array_last_idx s;
  pi_aligned : first_free_addr s mod 4096 = 0;
  pi_ffa : 0 <= first_free_addr s;
  pi_top : first_free_addr s + idx * 4096 < 2 ^ 63
}.

Lemma page_addr_aligned x : x mod 4096 = 0 -> Z.land x 0xFFF = 0.
Proof. intros H. change 0xFFF with (2 ^ 12 - 1). by rewrite land_low. Qed.

Lemma page_index_idx s idx :
  page_index s idx ->
  s32 (w64 (first_free_addr s + idx * 4096 - first_free_addr s) / 4096) = idx.
Proof.
  intros []. replace (_ + _ - _) with (idx * 4096) by lia.
  rewrite w64_small, Z.div_mul, s32_small by lia. done.
Qed.

Lemma page_index_land s idx :
  page_index s idx -> Z.land (first_free_addr s + idx * 4096) 0xFFF = 0.
Proof. intros []. apply page_addr_aligned. rewrite Z.mod_add; lia. Qed.

Lemma alloc_block_node_ok s idx b :
  page_index s idx -> block_node_array s !! idx = Some b -> b_ref b = 0 ->
  alloc_block_node (first_free_addr s + idx * 4096) s = Ok idx s.
Proof.
  intros Hp Hb Hr. unfold alloc_block_node. rewrite page_index_land by done. simpl.
  erewrite bind_step by done. pose proof Hp as [].
  destruct (Z.ltb_spec (first_free_addr s + idx * 4096) (first_free_addr s)); [lia |].
  rewrite page_index_idx by done. erewrite bind_step by done.
  destruct (Z.ltb_spec (block_node_array_last_idx s) idx); [lia |].
  erewrite bind_step by by apply get_node_ok. by rewrite Hr.
Qed.

Lemma block_index_ok s idx :
  page_index s idx -> block_index (first_free_addr s + idx * 4096) s = Ok idx s.
Proof.
  intros Hp. unfold block_index. rewrite page_index_land by done. simpl.
  erewrite bind_step by done. pose proof Hp as [].
  destruct (Z.ltb_spec (first_free_addr s + idx * 4096) (first_free_addr s)); [lia |].
  rewrite page_index_idx by done. erewrite bind_step by done.
  destruct (Z.ltb_spec (block_node_array_last_idx s) idx); [lia | done].
Qed.

(** ** Allocation *)

(** Block lists of a represented state: non-empty blocks, counts not negative. *)
Definition wf_blocks (bl : blocks) : Prop := Forall (fun b => 0 < b.1 /\ 0 <= b.2) bl.

Lemma dseg_wf a ffa pp i bl qn : dseg a ffa pp i bl qn -> wf_blocks bl.
Proof.
  revert pp i. induction bl as [|[pg rf] tl IH]; intros pp i; simpl; [constructor |].
  intros (? & ? & _ & _ & H). constructor; simpl; [lia | by eapply IH].
Qed.

(** The three ways a block is treated by first fit. *)
Inductive alloc_case (n pg rf : Z) : Prop :=
| alloc_skip : (0 <? rf) || (pg <? n) = true -> alloc_case n pg rf
| alloc_exact : rf <= 0 -> pg = n -> alloc_case n pg rf
| alloc_split : rf <= 0 -> n < pg -> alloc_case n pg rf.

Lemma alloc_cases n pg rf : alloc_case n pg rf.
Proof.
  destruct ((0 <? rf) || (pg <? n)) eqn:E; [by apply alloc_skip |].
  bool_to_prop. destruct (decide (pg = n)); [by apply alloc_exact | apply alloc_split; lia].
Qed.

Lemma spec_alloc_skip off n pg rf tl :
  (0 <? rf) || (pg <? n) = true ->
  spec_alloc off n ((pg, rf) :: tl) =
  '(o, tl') ← spec_alloc (off + pg) n tl; Some (o, (pg, rf) :: tl').
Proof. simpl. by intros ->. Qed.

Lemma spec_alloc_exact off n pg rf tl :
  rf <= 0 -> pg = n -> spec_alloc off n ((pg, rf) :: tl) = Some (off, (pg, 1) :: tl).
Proof.
  intros Hr ->. simpl. destruct (Z.ltb_spec 0 rf); [lia |].
  by rewrite Z.ltb_irrefl, Z.eqb_refl.
Qed.

Lemma spec_alloc_split off n pg rf tl :
  rf <= 0 -> n < pg ->
  spec_alloc off n ((pg, rf) :: tl) = Some (off, (n, 1) :: (pg - n, 0) :: tl).
Proof.
  intros Hr Hn. simpl. destruct (Z.ltb_spec 0 rf); [lia |].
  destruct (Z.ltb_spec pg n); [lia |]. by destruct (Z.eqb_spec pg n); [lia |].
Qed.

(** The successful runs of [spec_alloc], for rule induction. *)
Inductive alloc_run (n : Z) : Z -> blocks -> Z -> blocks -> Prop :=
| run_skip off pg rf tl o tl' :
    (0 <? rf) || (pg <? n) = true -> alloc_run n (off + pg) tl o tl' ->
    alloc_run n off ((pg, rf) :: tl) o ((pg, rf) :: tl')
| run_exact off rf tl : rf <= 0 -> alloc_run n off ((n, rf) :: tl) off ((n, 1) :: tl)
| run_split off pg rf tl :
    rf <= 0 -> n < pg ->
    alloc_run n off ((pg, rf) :: tl) off ((n, 1) :: (pg - n, 0) :: tl).

Lemma spec_alloc_run off n bl o bl' :
  spec_alloc off n bl = Some (o, bl') -> alloc_run n off bl o bl'.
Proof.
  revert off o bl'. induction bl as [|[pg rf] tl IH]; intros off o bl' H; [done |].
  destruct (alloc_cases n pg rf) as [Hs | Hr -> | Hr Hn].
  - rewrite spec_alloc_skip in H by done.
    destruct (spec_alloc (off + pg) n tl) as [[o' tl']|] eqn:E; [|done].
    simplify_eq/=. apply run_skip; auto.
  - rewrite spec_alloc_exact in H by done. simplify_eq. by constructor.
  - rewrite spec_alloc_split in H by done. simplify_eq. by constructor.
Qed.

Lemma alloc_run_npages n off bl o bl' :
  alloc_run n off bl o bl' -> npages bl' = npages bl.
Proof. induction 1; simpl; lia. Qed.

(** The first count only changes from free to used. *)
Lemma alloc_run_head n off bl o bl' :
  alloc_run n off bl o bl' ->
  exists pg rf pg' rf' tl tl', bl = (pg, rf) :: tl /\ bl' = (pg', rf') :: tl' /\
    (rf' = rf \/ rf' = 1).
Proof. destruct 1; repeat eexists; auto. Qed.

Lemma alloc_run_coalesced n off bl o bl' :
  alloc_run n off bl o bl' -> wf_blocks bl -> coalesced bl -> coalesced bl'.
Proof.
  induction 1 as [off pg rf tl o tl' _ Htl IH | off rf tl Hr | off pg rf tl Hr Hn];
    intros Hw [Hc Hc']; inversion Hw as [|? ? [_ Hrf] Hw']; simpl in *.
  - split; [|by apply IH].
    apply alloc_run_head in Htl as (p & r & p' & r' & t & t' & -> & -> & Hr).
    simpl in *. lia.
  - split; [lia | done].
  - repeat split; try done; try lia. intros [_ ?]. apply Hc. split; [lia | done].
Qed.

Lemma page_live_below off bl j : wf_blocks bl -> j < off -> page_live off bl j = false.
Proof.
  intros Hw. revert off. induction Hw as [|[pg rf] tl [Hpg _] Hw IH]; intros off Hj; [done |].
  simpl in *. destruct (Z.ltb_spec j (off + pg)); [|lia].
  by destruct (Z.leb_spec off j); [lia |].
Qed.

Lemma wf_blocks_npages bl : wf_blocks bl -> 0 <= npages bl.
Proof. induction 1 as [|[pg rf] tl [? ?] _ IH]; simpl in *; lia. Qed.

(** What a client sees of an allocation: the pages handed out were not in
    use, are in use afterwards, and the use of no other page changes. *)
Lemma alloc_run_live n off bl o bl' :
  alloc_run n off bl o bl' -> 0 < n -> wf_blocks bl ->
  off <= o /\ o + n <= off + npages bl /\
  (forall j, o <= j < o + n -> page_live off bl j = false) /\
  (forall j, page_live off bl' j = page_live off bl j || ((o <=? j) && (j <? o + n))).
Proof.
  intros Hrun Hn.
  induction Hrun as [off pg rf tl o tl' _ Htl IH | off rf tl Hr | off pg rf tl Hr Hpg];
    intros Hw; inversion Hw as [|? ? [Hp Hrf] Hw']; subst; simpl in *.
  - destruct (IH Hw') as (Ho & Htop & Hfree & Hlive). repeat split; [lia.. | |].
    + intros j Hj. destruct (Z.ltb_spec j (off + pg)); [lia |]. by apply Hfree.
    + intros j. rewrite Hlive. destruct (Z.ltb_spec j (off + pg)); [|done].
      destruct (Z.leb_spec o j); [lia |]. by rewrite orb_false_r.
  - pose proof (wf_blocks_npages _ Hw'). repeat split; [lia.. | |].
    + intros j Hj. destruct (Z.ltb_spec j (off + n)); [|lia].
      destruct (Z.ltb_spec 0 rf); [lia |]. apply andb_false_r.
    + intros j. destruct (Z.ltb_spec j (off + n)); [|by rewrite andb_false_r, orb_false_r].
      destruct (Z.ltb_spec 0 rf); [lia |]. rewrite andb_false_r. done.
  - pose proof (wf_blocks_npages _ Hw'). repeat split; [lia.. | |].
    + intros j Hj. destruct (Z.ltb_spec j (off + pg)); [|lia].
      destruct (Z.ltb_spec 0 rf); [lia |]. apply andb_false_r.
    + intros j. replace (off + n + (pg - n)) with (off + pg) by lia.
      destruct (Z.ltb_spec 0 rf); [lia |].
      destruct (Z.ltb_spec j (off + n)), (Z.ltb_spec j (off + pg)); try lia;
        rewrite ?andb_false_r, ?andb_true_r; simpl; try done.
      by rewrite orb_false_r.
Qed.

(** The static bounds a segment of the list lives in. *)
Record seg_bounds (s : mm_state) (i : Z) (bl : blocks) : Prop := {
  sb_low : 0 <= i;
  sb_last : i + npages bl <= block_node_array_last_idx s;
  sb_small : block_node_array_last_idx s < 2 ^ 31;
  sb_aligned : first_free_addr s mod 4096 = 0;
  sb_positive : 0 < first_free_addr s;
  sb_top : first_free_addr s + (i + npages bl) * 4096 < 2 ^ 63
}.

Lemma seg_bounds_index s i bl j :
  seg_bounds s i bl -> i <= j < i + npages bl -> page_index s j.
Proof. intros [] Hj. split; lia. Qed.

Lemma seg_bounds_tail s i pg rf tl :
  0 < pg -> seg_bounds s i ((pg, rf) :: tl) -> seg_bounds s (i + pg) tl.
Proof. intros ? []. simpl in *. split; lia. Qed.

(** Relinking the first node of a segment, if there is one. *)
Lemma relink_ok s ffa pp i bl p :
  dseg (block_node_array s) ffa pp i bl None ->
  exists a', relink (seg_first i bl None) p s = Ok tt (set_array a' s) /\
    dseg a' ffa (Some p) i bl None /\
    (forall j, ~ (i <= j < i + npages bl) \/ j <> i -> a' !! j = block_node_array s !! j).
Proof.
  intros Hseg. destruct bl as [|[pg rf] tl].
  - exists (block_node_array s). repeat split. unfold relink. by destruct s.
  - pose proof Hseg as (Hpg & _ & Hn & _ & Htl). apply dseg_npages in Htl.
    eexists. split; [|split].
    + by apply update_node_ok.
    + by eapply dseg_set_pre.
    + intros j Hj. rewrite lookup_insert_ne; [done |]. simpl in Hj. lia.
Qed.

(** Reads through the array updates of a state, by address arithmetic. *)
Ltac lookup_ne := rewrite lookup_insert_ne by lia.

(** The branch of [find_block] that splits the current block. *)
Lemma find_block_split s i pp pg rf tl n fuel :
  dseg (block_node_array s) (first_free_addr s) pp i ((pg, rf) :: tl) None ->
  seg_bounds s i ((pg, rf) :: tl) -> rf <= 0 -> 0 < n < pg ->
  exists a', find_block (S fuel) n (Some i) s =
      Ok (first_free_addr s + i * 4096) (set_array a' s) /\
    dseg a' (first_free_addr s) pp i ((n, 1) :: (pg - n, 0) :: tl) None /\
    (forall j, ~ (i <= j < i + npages ((pg, rf) :: tl)) -> a' !! j = block_node_array s !! j).
Proof.
  intros Hseg Hb Hr Hn. pose proof Hb as [Hlow _ _ _ Hpos Htop].
  destruct Hseg as (Hpg & Hrf & Hnode & Hin & Htl). simpl npages in *.
  pose proof (dseg_npages _ _ _ _ _ _ Htl) as Htln.
  set (ffa := first_free_addr s) in *. set (a := block_node_array s) in *.
  simpl find_block. erewrite bind_step by by apply get_node_ok. simpl.
  destruct (Z.ltb_spec 0 rf); [lia |]. rewrite (w64_small pg) by lia.
  destruct (Z.ltb_spec pg n); [lia |]. destruct (Z.eqb_spec pg n); [lia |]. simpl.
  assert (w64 (ffa + i * 4096 + w64 (n * 4096)) = ffa + (i + n) * 4096) as ->
    by (rewrite (w64_small (n * 4096)), w64_small by lia; lia).
  destruct (Hin (i + n)) as (b & Hbn & Hbr); [lia |].
  erewrite bind_step by (eapply (alloc_block_node_ok s (i + n)); [|done..];
    eapply seg_bounds_index; [done | simpl; lia]).
  erewrite bind_step by (apply update_node_ok; done).
  rewrite (s32_small (pg - n)), (s32_small n) by (destruct Hb; simpl in *; lia).
  fold a. set (a1 := <[i + n := _]> a).
  destruct (relink_ok (set_array a1 s) ffa (Some i) (i + pg) tl (i + n))
    as (a2 & Hstep & Htl2 & Hsame).
  { eapply dseg_ext; [|exact Htl]. intros j Hj. simpl. unfold a1. by lookup_ne. }
  erewrite bind_step by exact Hstep. simpl in Hsame.
  erewrite bind_step by (apply update_node_ok; simpl;
    rewrite Hsame by lia; unfold a1; lookup_ne; exact Hnode).
  eexists. split; [done |]. unfold set_next, set_ref, set_pages; simpl. split.
  - repeat split; try lia.
    + by rewrite lookup_insert_eq.
    + intros j Hj. lookup_ne. rewrite Hsame by lia. unfold a1. lookup_ne. apply Hin. lia.
    + lookup_ne. rewrite Hsame by lia. unfold a1. rewrite lookup_insert_eq.
      replace (i + n + (pg - n)) with (i + pg) by lia. done.
    + intros j Hj. lookup_ne. rewrite Hsame by lia. unfold a1. lookup_ne. apply Hin. lia.
    + replace (i + n + (pg - n)) with (i + pg) by lia.
      eapply dseg_ext; [|exact Htl2]. intros j Hj. by lookup_ne.
  - intros j Hj. lookup_ne. rewrite Hsame by lia. unfold a1. by lookup_ne.
Qed.

(** The search started at any node of the list. *)
Lemma find_block_ok n : 0 < n -> forall bl s pp i fuel,
  dseg (block_node_array s) (first_free_addr s) pp i bl None ->
  seg_bounds s i bl -> (length bl <= fuel)%nat ->
  match spec_alloc i n bl with
  | None => find_block fuel n (seg_first i bl None) s = Ok 0 s
  | Some (o, bl') => exists a',
      find_block fuel n (seg_first i bl None) s =
        Ok (first_free_addr s + o * 4096) (set_array a' s) /\
      dseg a' (first_free_addr s) pp i bl' None /\
      (forall j, ~ (i <= j < i + npages bl) -> a' !! j = block_node_array s !! j)
  end.
Proof.
  intros Hn. induction bl as [|[pg rf] tl IH]; intros s pp i fuel Hseg Hb Hf.
  { by destruct fuel. }
  destruct fuel as [|fuel]; [simpl in Hf; lia |].
  destruct (alloc_cases n pg rf) as [Hs | Hr -> | Hr Hlt].
  - rewrite spec_alloc_skip by done.
    destruct Hseg as (Hpg & Hrf & Hnode & Hin & Htl).
    pose proof (dseg_npages _ _ _ _ _ _ Htl) as Htln.
    assert (Hstep : find_block (S fuel) n (Some i) s = find_block fuel n (seg_first (i + pg) tl None) s).
    { simpl. erewrite bind_step by by apply get_node_ok. simpl.
      rewrite w64_small by (destruct Hb; simpl in *; lia). by rewrite Hs. }
    simpl seg_first. rewrite Hstep.
    specialize (IH s (Some i) (i + pg) fuel Htl (seg_bounds_tail _ _ _ _ _ Hpg Hb) ltac:(simpl in Hf; lia)).
    destruct (spec_alloc (i + pg) n tl) as [[o tl']|] eqn:E; [|done]. simpl.
    destruct IH as (a' & Hrun & Hseg' & Hsame). exists a'. split; [done |]. split.
    + repeat split; try lia; try done.
      * rewrite Hsame by lia. rewrite Hnode. do 2 f_equal.
        apply spec_alloc_run, alloc_run_head in E as (? & ? & ? & ? & ? & ? & -> & -> & _). done.
      * intros j Hj. rewrite Hsame by lia. by apply Hin.
    + intros j Hj. apply Hsame. lia.
  - rewrite spec_alloc_exact by done.
    destruct Hseg as (Hpg & Hrf & Hnode & Hin & Htl).
    pose proof (dseg_npages _ _ _ _ _ _ Htl) as Htln.
    eexists. split; [|split].
    + simpl. erewrite bind_step by by apply get_node_ok. simpl.
      destruct (Z.ltb_spec 0 rf); [lia |]. rewrite w64_small by (destruct Hb; simpl in *; lia).
      rewrite Z.ltb_irrefl, Z.eqb_refl. simpl.
      by erewrite bind_step by by apply update_node_ok.
    + simpl. repeat split; try lia; [by rewrite lookup_insert_eq | |].
      * intros j Hj. lookup_ne. by apply Hin.
      * eapply dseg_ext; [|exact Htl]. intros j Hj. by lookup_ne.
    + intros j Hj. simpl in Hj. by lookup_ne.
  - rewrite spec_alloc_split by done. by apply find_block_split.
Qed.

Lemma wf_blocks_length bl : wf_blocks bl -> Z.of_nat (length bl) <= npages bl.
Proof. induction 1 as [|[pg rf] tl [? ?] _ IH]; simpl in *; lia. Qed.

Lemma mm_repr_wf s bl : mm_repr s bl -> wf_blocks bl.
Proof. intros []. by eapply dseg_wf. Qed.

Lemma mm_repr_bounds s bl : mm_repr s bl -> seg_bounds s 0 bl.
Proof. intros []. split; lia. Qed.

(** Replacing the node array of a represented state. *)
Lemma mm_repr_array s bl bl' a' :
  mm_repr s bl -> dseg a' (first_free_addr s) None 0 bl' None ->
  npages bl' = npages bl -> coalesced bl' -> mm_repr (set_array a' s) bl'.
Proof.
  intros [] Hseg Hn Hc. split; simpl; try done; try lia.
  intros ->. pose proof (dseg_npages_pos _ _ _ _ _ _ mr_seg0 mr_nonempty0). simpl in Hn. lia.
Qed.

Lemma alloc_mem_pages_repr s bl n :
  mm_repr s bl -> 0 < n ->
  match spec_alloc 0 n bl with
  | None => alloc_mem_pages n s = Ok 0 s
  | Some (o, bl') => exists a',
      alloc_mem_pages n s = Ok (first_free_addr s + o * 4096) (set_array a' s) /\
      mm_repr (set_array a' s) bl'
  end.
Proof.
  intros Hr Hn. pose proof (mm_repr_wf _ _ Hr) as Hw. pose proof Hr as [].
  pose proof (find_block_ok n Hn bl s None 0 (Z.to_nat (all_nodes s)) mr_seg0
                (mm_repr_bounds _ _ Hr)) as Hfind.
  pose proof (wf_blocks_length _ Hw). specialize (Hfind ltac:(lia)).
  unfold alloc_mem_pages. destruct (Z.eqb_spec n 0); [lia |].
  erewrite bind_step by done. rewrite mr_list0.
  destruct bl as [|b tl]; [done |]. simpl seg_first in Hfind.
  destruct (spec_alloc 0 n (b :: tl)) as [[o bl']|] eqn:E; [|done].
  destruct Hfind as (a' & Hrun & Hseg & _). exists a'. split; [done |].
  apply spec_alloc_run in E. eapply mm_repr_array; [done | done | |].
  - by eapply alloc_run_npages.
  - by eapply alloc_run_coalesced.
Qed.

(** ** Release *)

Lemma join_left_app l1 b l : join_left (l1 ++ [b]) l = l1 ++ join_left [b] l.
Proof.
  induction l1 as [|[pg rf] l1 IH]; [done |].
  rewrite <-!app_comm_cons. rewrite <-IH. by destruct l1 as [|[] l1].
Qed.

Lemma join_left_free pg0 pg l : join_left [(pg0, 0)] ((pg, 0) :: l) = (pg0 + pg, 0) :: l.
Proof. done. Qed.

Lemma join_left_used pg0 r l : r <> 0 -> join_left [(pg0, r)] l = (pg0, r) :: l.
Proof. by destruct r, l as [|[]]. Qed.

Lemma join_right_free pg pg2 l : join_right pg ((pg2, 0) :: l) = (pg + pg2, 0) :: l.
Proof. done. Qed.

Lemma join_right_used pg pg2 r l :
  r <> 0 -> join_right pg ((pg2, r) :: l) = (pg, 0) :: (pg2, r) :: l.
Proof. by destruct r. Qed.

(** The pages and the list left of [join_right], the block still in use. *)
Definition absorb (pg rf : Z) (l2 : blocks) : blocks :=
  match l2 with
  | (pg2, 0) :: tl => (pg + pg2, rf) :: tl
  | _ => (pg, rf) :: l2
  end.

Lemma absorb_used pg rf pg2 r l :
  r <> 0 -> absorb pg rf ((pg2, r) :: l) = (pg, rf) :: (pg2, r) :: l.
Proof. by destruct r. Qed.

(** Evaluate the fields of explicit nodes. *)
Ltac node_simpl :=
  cbn [next pre b_ref b_pages b_start_addr set_next set_pre set_ref set_pages].

(** [update_node] on a state whose array was replaced before. *)
Lemma update_array_ok s a i f b :
  a !! i = Some b ->
  update_node i f (set_array a s) = Ok tt (set_array (<[i := f b]> a) s).
Proof. intros H. by rewrite (update_node_ok _ _ _ b). Qed.

Lemma set_array_same s : set_array (block_node_array s) s = s.
Proof. by destruct s. Qed.

Lemma merge_next_ok s pp i pg rf l2 :
  dseg (block_node_array s) (first_free_addr s) pp i ((pg, rf) :: l2) None ->
  seg_bounds s i ((pg, rf) :: l2) -> blist s = Some 0 ->
  exists a', merge_next i s = Ok tt (set_array a' s) /\
    dseg a' (first_free_addr s) pp i (absorb pg rf l2) None /\
    (forall j, ~ (i <= j < i + npages ((pg, rf) :: l2)) -> a' !! j = block_node_array s !! j).
Proof.
  intros Hseg Hb Hl. pose proof Hb as [Hlow Hlast Hsmall _ _ _].
  pose proof Hseg as (Hpg & Hrf & Hnode & Hin & Htl).
  unfold merge_next. erewrite bind_step by by apply get_node_ok.
  destruct l2 as [|[pg2 rf2] tl]; cbn [next seg_first].
  { exists (block_node_array s). by rewrite set_array_same. }
  pose proof Htl as (Hpg2 & Hrf2 & Hnode2 & Hin2 & Htl2).
  erewrite bind_step by by apply get_node_ok. cbn [b_ref].
  destruct (Z.eqb_spec rf2 0) as [->|Hne].
  2: { exists (block_node_array s). by rewrite set_array_same, absorb_used. }
  pose proof (dseg_npages _ _ _ _ _ _ Htl2) as Hnn. simpl in Hlast.
  erewrite bind_step by done. rewrite Hl.
  rewrite decide_False by (intros [=]; lia).
  rewrite decide_False by (node_simpl; congruence).
  erewrite bind_step by (apply update_node_ok; done). node_simpl.
  rewrite (s32_small (pg + pg2)) by lia. set (a1 := <[i := _]> _).
  destruct (relink_ok (set_array a1 s) (first_free_addr s) (Some (i + pg)) (i + pg + pg2) tl i)
    as (a2 & Hstep & Htl3 & Hsame).
  { eapply dseg_ext; [|exact Htl2]. intros j Hj. simpl. unfold a1. by lookup_ne. }
  simpl in Hsame. erewrite bind_step by exact Hstep.
  eexists. split; [apply (update_array_ok s a2); rewrite Hsame by lia;
    unfold a1; lookup_ne; exact Hnode2 |].
  simpl. replace (i + (pg + pg2)) with (i + pg + pg2) by lia. split.
  - repeat split; try lia.
    + lookup_ne. rewrite Hsame by lia. unfold a1. by rewrite lookup_insert_eq.
    + intros j Hj. destruct (decide (j = i + pg)) as [->|].
      * rewrite lookup_insert_eq. eauto.
      * lookup_ne. rewrite Hsame by lia. unfold a1. lookup_ne.
        destruct (decide (j < i + pg)); [apply Hin | apply Hin2]; lia.
    + eapply dseg_ext; [|exact Htl3]. intros j Hj. by lookup_ne.
  - intros j Hj. lookup_ne. rewrite Hsame by lia. unfold a1. by lookup_ne.
Qed.

(** Changing the count of one block of the list. *)
Lemma dseg_set_ref a ffa pp i l1 pg rf r l2 qn b :
  dseg a ffa pp i (l1 ++ (pg, rf) :: l2) qn -> 0 <= r < 2 ^ 32 ->
  a !! (i + npages l1) = Some b ->
  b_ref b = rf /\
  dseg (<[i + npages l1 := set_ref r b]> a) ffa pp i (l1 ++ (pg, r) :: l2) qn.
Proof.
  rewrite !dseg_app. intros [H1 (Hpg & Hrf & Hn & Hin & Htl)] Hr Hb.
  rewrite Hn in Hb. simplify_eq/=. split; [done |]. split.
  - eapply dseg_ext; [|exact H1]. intros j Hj. by lookup_ne.
  - repeat split; try lia; [by rewrite lookup_insert_eq | |].
    + intros j Hj. lookup_ne. by apply Hin.
    + eapply dseg_ext; [|exact Htl]. intros j Hj. by lookup_ne.
Qed.

Lemma dseg_mid a ffa pp i l1 pg rf l2 qn :
  dseg a ffa pp i (l1 ++ (pg, rf) :: l2) qn ->
  a !! (i + npages l1) =
    Some (Block (ffa + (i + npages l1) * 4096) pg rf
            (seg_first (i + npages l1 + pg) l2 qn) (seg_last pp i l1)).
Proof. rewrite dseg_app. by intros [_ (_ & _ & H & _)]. Qed.

(** A used (or absent) predecessor: only the count changes. *)
Lemma release_alone s l1 pg rf l2 :
  dseg (block_node_array s) (first_free_addr s) None 0 (l1 ++ (pg, rf) :: l2) None ->
  (forall l0 pg0 rf0, l1 = l0 ++ [(pg0, rf0)] -> rf0 <> 0) ->
  exists a', (merge_pre (npages l1) ;; update_node (npages l1) (set_ref 0)) s
      = Ok tt (set_array a' s) /\
    dseg a' (first_free_addr s) None 0 (l1 ++ (pg, 0) :: l2) None.
Proof.
  intros Hseg Hused. pose proof (dseg_mid _ _ _ _ _ _ _ _ _ Hseg) as Hn.
  rewrite Z.add_0_l in Hn.
  assert (Hm : merge_pre (npages l1) s = Ok tt s).
  { unfold merge_pre. erewrite bind_step by by apply get_node_ok. node_simpl.
    destruct l1 as [|[pg0 rf0] l0 _] using rev_ind; [done |].
    rewrite seg_last_app. rewrite <-app_assoc in Hseg. simpl in Hseg.
    apply dseg_mid in Hseg. erewrite bind_step by by apply get_node_ok. node_simpl.
    specialize (Hused _ _ _ eq_refl). by destruct (Z.eqb_spec rf0 0). }
  erewrite bind_step by exact Hm. eexists. split; [by apply update_node_ok |].
  eapply (dseg_set_ref _ _ _ 0 l1 _ _ 0); [done | lia | done].
Qed.

(** [merge_pre] with a free predecessor [pv]: it takes over the pages and the
    successor of the block [idx]. *)
Lemma merge_pre_left s pv pp pg0 idx pg rf l2 :
  let a := block_node_array s in
  let ffa := first_free_addr s in
  idx = pv + pg0 -> 0 < pg0 -> 0 < pg -> pg0 + pg < 2 ^ 31 ->
  a !! pv = Some (Block (ffa + pv * 4096) pg0 0 (Some idx) pp) ->
  a !! idx = Some (Block (ffa + idx * 4096) pg rf (seg_first (idx + pg) l2 None) (Some pv)) ->
  dseg a ffa (Some idx) (idx + pg) l2 None ->
  exists a', merge_pre idx s = Ok tt (set_array a' s) /\
    a' !! idx = a !! idx /\
    a' !! pv = Some (Block (ffa + pv * 4096) (pg0 + pg) 0 (seg_first (idx + pg) l2 None) pp) /\
    dseg a' ffa (Some pv) (idx + pg) l2 None /\
    (forall j, ~ (idx + pg <= j < idx + pg + npages l2) -> j <> pv -> a' !! j = a !! j).
Proof.
  intros a ffa Hidx Hpg0 Hpg Hsum Hn0 Hn Htl. pose proof (dseg_npages _ _ _ _ _ _ Htl).
  unfold merge_pre. erewrite bind_step by by apply get_node_ok. node_simpl.
  erewrite bind_step by by apply get_node_ok. node_simpl. rewrite Z.eqb_refl.
  rewrite decide_False by (simpl; congruence).
  erewrite bind_step by by apply update_node_ok. node_simpl.
  rewrite (s32_small (pg0 + pg)) by lia. set (a1 := <[pv := _]> _).
  destruct (relink_ok (set_array a1 s) ffa (Some idx) (idx + pg) l2 pv)
    as (a2 & Hstep & Hl2 & Hsame).
  { eapply dseg_ext; [|exact Htl]. intros j Hj. simpl. unfold a1. by lookup_ne. }
  simpl in Hsame. erewrite bind_step by exact Hstep.
  assert (Hpv : a2 !! pv = a1 !! pv) by (apply Hsame; lia).
  unfold a1 in Hpv. rewrite lookup_insert_eq in Hpv.
  eexists. split; [by apply (update_array_ok s a2) |]. repeat split.
  - lookup_ne. rewrite Hsame by lia. unfold a1. by lookup_ne.
  - by rewrite lookup_insert_eq.
  - eapply dseg_ext; [|exact Hl2]. intros j Hj. by lookup_ne.
  - intros j Hj Hne. lookup_ne. rewrite Hsame by lia. unfold a1. by lookup_ne.
Qed.

(** A free predecessor absorbs the block. *)
Lemma release_left s l0 pg0 pg rf l2 :
  dseg (block_node_array s) (first_free_addr s) None 0 (l0 ++ (pg0, 0) :: (pg, rf) :: l2) None ->
  seg_bounds s 0 (l0 ++ (pg0, 0) :: (pg, rf) :: l2) ->
  let idx := npages l0 + pg0 in
  exists a', (merge_pre idx ;; update_node idx (set_ref 0)) s = Ok tt (set_array a' s) /\
    dseg a' (first_free_addr s) None 0 (l0 ++ (pg0 + pg, 0) :: l2) None.
Proof.
  intros Hseg Hb. rewrite dseg_app in Hseg.
  destruct Hseg as [H0 (Hpg0 & _ & Hn0 & Hin0 & (Hpg & Hrf & Hn & Hin & Htl))].
  pose proof (dseg_npages _ _ _ _ _ _ Htl). pose proof (dseg_npages _ _ _ _ _ _ H0).
  destruct Hb as [_ Hlast Hsmall _ _ _]. rewrite npages_app in Hlast. simpl npages in Hlast.
  rewrite Z.add_0_l in *. set (pv := npages l0) in *. cbn zeta. set (idx := pv + pg0) in *.
  destruct (merge_pre_left s pv (seg_last None 0 l0) pg0 idx pg rf l2)
    as (a' & Hm & Hidx & Hpv & Hl2 & Hsame); [done || lia .. |].
  erewrite bind_step by exact Hm.
  eexists. split; [apply (update_array_ok s a'); by rewrite Hidx |].
  rewrite dseg_app, Z.add_0_l. fold pv. split.
  - eapply dseg_ext; [|exact H0]. intros j Hj. lookup_ne. symmetry. apply Hsame; lia.
  - simpl. replace (pv + (pg0 + pg)) with (idx + pg) by lia. repeat split; try lia.
    + by lookup_ne.
    + intros j Hj. destruct (decide (j = idx)) as [->|]; [rewrite lookup_insert_eq; eauto |].
      lookup_ne. rewrite Hsame by lia. destruct (decide (j < idx)); [apply Hin0 | apply Hin]; lia.
    + eapply dseg_ext; [|exact Hl2]. intros j Hj. by lookup_ne.
Qed.

Lemma absorb_shape pg rf l2 :
  exists pg' l2', absorb pg rf l2 = (pg', rf) :: l2' /\ join_right pg l2 = (pg', 0) :: l2' /\
    pg' + npages l2' = pg + npages l2.
Proof.
  destruct l2 as [|[pg2 [| |]] tl]; simpl; repeat eexists; simpl; lia.
Qed.

Lemma npages_join_left l1 l : npages (join_left l1 l) = npages l1 + npages l.
Proof.
  destruct l1 as [|[pg0 rf0] l0 _] using rev_ind; [done |].
  rewrite join_left_app, !npages_app. simpl. destruct l as [|[pg rf] l]; simpl; [lia |].
  destruct ((rf0 =? 0) && (rf =? 0)); simpl; lia.
Qed.

Lemma npages_spec_free l1 pg rf l2 :
  npages (spec_free l1 pg rf l2) = npages (l1 ++ (pg, rf) :: l2).
Proof.
  unfold spec_free. rewrite npages_app. simpl.
  destruct (1 <? rf); [rewrite npages_app; simpl; lia |].
  rewrite npages_join_left. destruct (absorb_shape pg rf l2) as (pg' & l2' & _ & -> & ?).
  simpl. lia.
Qed.

Lemma coalesced_app l1 m m' :
  coalesced (l1 ++ m) -> coalesced m' -> (head_free m' -> head_free m) -> coalesced (l1 ++ m').
Proof.
  induction l1 as [|[pg rf] l1 IH]; [done |]. simpl. intros [H1 H2] Hm Hh.
  split; [|by apply IH]. destruct l1 as [|[] l1]; [naive_solver | done].
Qed.

Lemma coalesced_app_r l1 m : coalesced (l1 ++ m) -> coalesced m.
Proof. induction l1 as [|[] l1 IH]; [done |]. simpl. naive_solver. Qed.

Lemma join_right_coalesced pg rf l2 :
  coalesced ((pg, rf) :: l2) ->
  exists pg' l2', join_right pg l2 = (pg', 0) :: l2' /\ ~ head_free l2' /\ coalesced l2'.
Proof.
  intros [_ Hc]. destruct l2 as [|[pg2 [| |]] tl]; simpl in *;
    eexists _, _; split_and!; try done; naive_solver.
Qed.

Lemma coalesced_spec_free l1 pg rf l2 :
  0 < rf -> coalesced (l1 ++ (pg, rf) :: l2) -> coalesced (spec_free l1 pg rf l2).
Proof.
  intros Hrf Hc. pose proof (coalesced_app_r _ _ Hc) as Hm. unfold spec_free.
  destruct (Z.ltb_spec 1 rf).
  { eapply coalesced_app; [done | |]; simpl in *; [split; [lia | apply Hm] | lia]. }
  destruct (join_right_coalesced _ _ _ Hm) as (pg' & l2' & -> & Hh & Hc2).
  destruct l1 as [|[pg0 rf0] l0 _] using rev_ind; [simpl; tauto |].
  rewrite join_left_app. rewrite <-app_assoc in Hc.
  destruct (decide (rf0 = 0)) as [->|Hne].
  - rewrite join_left_free. eapply coalesced_app; [done | simpl; tauto | done].
  - rewrite join_left_used by done. eapply coalesced_app; [done | simpl; tauto | done].
Qed.

Lemma wf_blocks_app l1 l2 : wf_blocks (l1 ++ l2) <-> wf_blocks l1 /\ wf_blocks l2.
Proof. apply Forall_app. Qed.

Lemma page_live_app off l1 l2 j :
  wf_blocks (l1 ++ l2) ->
  page_live off (l1 ++ l2) j =
  if j <? off + npages l1 then page_live off l1 j else page_live (off + npages l1) l2 j.
Proof.
  intros [Hw Hw2]%wf_blocks_app. revert off.
  induction Hw as [|[pg rf] l1 [Hpg _] Hw IH]; intros off; simpl in *.
  - rewrite Z.add_0_r. destruct (Z.ltb_spec j off); [|done]. by apply page_live_below.
  - pose proof (wf_blocks_npages _ Hw). rewrite Z.add_assoc, IH.
    destruct (Z.ltb_spec j (off + pg)), (Z.ltb_spec j (off + pg + npages l1)); lia || done.
Qed.

(** Merging two neighbouring free blocks does not change which pages are used. *)
Lemma page_live_merge off a b tl j :
  0 < a -> 0 < b -> page_live off ((a + b, 0) :: tl) j = page_live off ((a, 0) :: (b, 0) :: tl) j.
Proof.
  intros Ha Hb. simpl. rewrite !andb_false_r, Z.add_assoc.
  destruct (Z.ltb_spec j (off + a)), (Z.ltb_spec j (off + a + b)); lia || done.
Qed.

Lemma page_live_join_right off pg l2 j :
  wf_blocks ((pg, 0) :: l2) ->
  wf_blocks (join_right pg l2) /\
  page_live off (join_right pg l2) j = page_live off ((pg, 0) :: l2) j.
Proof.
  intros Hw. inversion Hw as [|? ? [Hpg _] Hw2]; subst. simpl in Hpg.
  destruct l2 as [|[pg2 [| |]] tl]; [done | | done | done].
  inversion Hw2 as [|? ? [Hpg2 _] Hw3]; subst. simpl in Hpg2. split.
  - constructor; simpl; [lia | done].
  - apply page_live_merge; lia.
Qed.

Lemma page_live_join_left off l1 l j :
  wf_blocks (l1 ++ l) -> page_live off (join_left l1 l) j = page_live off (l1 ++ l) j.
Proof.
  intros Hw. destruct l1 as [|[pg0 rf0] l0 _] using rev_ind; [done |].
  rewrite join_left_app, <-app_assoc in *. simpl app in *.
  destruct l as [|[pg rf] l]; [done |].
  cbn [join_left]. destruct ((rf0 =? 0) && (rf =? 0)) eqn:E; [|done]. bool_to_prop. subst.
  pose proof Hw as [Hw0 Hw1]%wf_blocks_app.
  inversion Hw1 as [|? ? [? _] Hw2]; inversion Hw2 as [|? ? [? _] Hw3]; subst. simpl in *.
  rewrite !page_live_app; [|done|].
  - case_if; [done | apply page_live_merge; lia].
  - apply wf_blocks_app. split; [done |]. constructor; simpl; [lia | done].
Qed.

(** What a client sees of a release: when the last reference goes, exactly
    the pages of the block stop being used. *)
Lemma page_live_spec_free l1 pg rf l2 j :
  wf_blocks (l1 ++ (pg, rf) :: l2) -> 0 < rf ->
  page_live 0 (spec_free l1 pg rf l2) j =
  page_live 0 (l1 ++ (pg, rf) :: l2) j &&
  negb ((rf =? 1) && (npages l1 <=? j) && (j <? npages l1 + pg)).
Proof.
  intros Hw Hrf. pose proof Hw as [Hw1 Hw2]%wf_blocks_app.
  inversion Hw2 as [|? ? [Hpg _] Hw3]; subst. simpl in Hpg.
  assert (Hw' : forall r, 0 <= r -> wf_blocks (l1 ++ (pg, r) :: l2)).
  { intros r Hr. apply wf_blocks_app. split; [done |]. by constructor. }
  unfold spec_free. destruct (Z.ltb_spec 1 rf), (Z.eqb_spec rf 1); try lia.
  - rewrite !page_live_app by (apply Hw'; lia). simpl. rewrite andb_true_r.
    repeat case_if; try done. f_equal.
    destruct (Z.ltb_spec 0 (rf - 1)), (Z.ltb_spec 0 rf); lia || done.
  - destruct (page_live_join_right (npages l1) pg l2 j) as [Hwj Hj].
    { by pose proof (Hw' 0 ltac:(lia)) as [_ ?]%wf_blocks_app. }
    rewrite page_live_join_left by (by apply wf_blocks_app).
    rewrite !page_live_app by (try apply wf_blocks_app; done). rewrite Z.add_0_l, Hj. simpl.
    subst rf. simpl. destruct (Z.ltb_spec j (npages l1)).
    + destruct (Z.leb_spec (npages l1) j); [lia |]. by rewrite andb_true_r.
    + destruct (Z.ltb_spec j (npages l1 + pg)); rewrite ?andb_false_r, ?andb_true_r; [|done].
      by destruct (npages l1 <=? j).
Qed.

(** The node of a block of a represented state passes the address checks. *)
Lemma mm_repr_index s l1 pg rf l2 :
  mm_repr s (l1 ++ (pg, rf) :: l2) ->
  page_index s (npages l1) /\
  block_node_array s !! npages l1 =
    Some (Block (first_free_addr s + npages l1 * 4096) pg rf
            (seg_first (npages l1 + pg) l2 None) (seg_last None 0 l1)).
Proof.
  intros Hr. pose proof (mm_repr_bounds _ _ Hr) as Hb. destruct Hr.
  pose proof (dseg_mid _ _ _ _ _ _ _ _ _ mr_seg0) as Hn. split; [|done].
  eapply seg_bounds_index; [done |]. rewrite npages_app. simpl.
  rewrite dseg_app in mr_seg0. destruct mr_seg0 as [H1 (? & _ & _ & _ & H2)].
  apply dseg_npages in H1, H2. lia.
Qed.

(** The part of [free_mem_pages] that runs when the last reference goes. *)
Lemma release_ok s l1 pg rf l2 :
  mm_repr s (l1 ++ (pg, rf) :: l2) ->
  let idx := npages l1 in
  exists a', (merge_next idx ;; merge_pre idx ;; update_node idx (set_ref 0)) s
      = Ok tt (set_array a' s) /\
    dseg a' (first_free_addr s) None 0 (join_left l1 (join_right pg l2)) None.
Proof.
  intros Hr. destruct (mm_repr_index _ _ _ _ _ Hr) as [Hp Hn].
  pose proof (mm_repr_bounds _ _ Hr) as Hb. destruct Hr as [Hl _ Hseg _ _ _ _ _ _ _].
  cbn zeta. apply dseg_app in Hseg as [H1 H2]. rewrite Z.add_0_l in *.
  assert (Hb2 : seg_bounds s (npages l1) ((pg, rf) :: l2)).
  { destruct Hb, Hp. rewrite npages_app in *. split; simpl in *; lia. }
  destruct (merge_next_ok s _ _ _ _ _ H2 Hb2 Hl) as (a1 & Hm & H2' & Hsame).
  erewrite bind_step by exact Hm.
  destruct (absorb_shape pg rf l2) as (pg' & l2' & Habs & -> & Hsum). rewrite Habs in H2'.
  assert (Hs1 : dseg a1 (first_free_addr s) None 0 (l1 ++ (pg', rf) :: l2') None).
  { apply dseg_app. split; [|done]. eapply dseg_ext; [|exact H1].
    intros j Hj. symmetry. apply Hsame. lia. }
  destruct l1 as [|[pg0 rf0] l0 _] using rev_ind.
  { apply (release_alone (set_array a1 s) [] pg' rf); [done |]. intros [] ? ?; done. }
  rewrite join_left_app. destruct (decide (rf0 = 0)) as [->|Hne].
  - rewrite join_left_free. rewrite <-app_assoc in Hs1. rewrite npages_app. simpl npages.
    rewrite Z.add_0_r. apply (release_left (set_array a1 s) l0 pg0 pg' rf); [done |].
    destruct Hb. split; simpl in *; rewrite ?npages_app in *; simpl in *; lia.
  - rewrite join_left_used by done. 
    assert (l0 ++ (pg0, rf0) :: (pg', 0) :: l2' = (l0 ++ [(pg0, rf0)]) ++ (pg', 0) :: l2') as ->
      by by rewrite <-app_assoc.
    apply (release_alone (set_array a1 s) (l0 ++ [(pg0, rf0)]) pg' rf); [done |].
    intros l pgl rfl [? [=]]%app_inj_tail. by subst.
Qed.

Lemma free_mem_pages_repr s l1 pg rf l2 :
  mm_repr s (l1 ++ (pg, rf) :: l2) -> 0 < rf ->
  exists a', free_mem_pages (first_free_addr s + npages l1 * 4096) s = Ok tt (set_array a' s) /\
    mm_repr (set_array a' s) (spec_free l1 pg rf l2).
Proof.
  intros Hr Hrf. destruct (mm_repr_index _ _ _ _ _ Hr) as [Hp Hn].
  assert (Hgoal : exists a', free_mem_pages (first_free_addr s + npages l1 * 4096) s
      = Ok tt (set_array a' s) /\
    dseg a' (first_free_addr s) None 0 (spec_free l1 pg rf l2) None).
  { unfold free_mem_pages. erewrite bind_step by by apply block_index_ok.
    erewrite bind_step by by apply get_node_ok. node_simpl.
    destruct (Z.eqb_spec rf 0); [lia |]. unfold spec_free.
    destruct (Z.ltb_spec 1 rf); [|by eapply release_ok].
    destruct Hr as [_ _ Hseg _ _ _ _ _ _ _].
    eexists. split; [by apply update_node_ok |]. node_simpl.
    eapply (dseg_set_ref _ _ _ 0 l1 pg rf); [done | | done].
    apply dseg_app in Hseg as [_ (_ & ? & _)]. lia. }
  destruct Hgoal as (a' & Hrun & Hseg). exists a'. split; [done |].
  eapply mm_repr_array; [done | done | |].
  - apply npages_spec_free.
  - apply coalesced_spec_free; [done | apply Hr].
Qed.

Lemma realloc_mem_block_repr s l1 pg rf l2 :
  mm_repr s (l1 ++ (pg, rf) :: l2) -> 0 < rf -> rf + 1 < 2 ^ 32 ->
  let paddr := first_free_addr s + npages l1 * 4096 in
  exists a', realloc_mem_block paddr s = Ok paddr (set_array a' s) /\
    mm_repr (set_array a' s) (l1 ++ (pg, rf + 1) :: l2).
Proof.
  intros Hr Hrf Hmax. destruct (mm_repr_index _ _ _ _ _ Hr) as [Hp Hn].
  pose proof Hr as []. cbn zeta. unfold realloc_mem_block.
  erewrite bind_step by by apply block_index_ok.
  erewrite bind_step by by apply get_node_ok. node_simpl.
  destruct (Z.eqb_spec rf 0); [lia |].
  erewrite bind_step by by apply update_node_ok. node_simpl. rewrite w32_small by lia.
  eexists. split; [done |]. eapply mm_repr_array; [done | | |].
  - eapply (dseg_set_ref _ _ _ 0 l1 pg rf); [done | lia | done].
  - by rewrite !npages_app.
  - eapply coalesced_app; [done | |]; simpl; [|lia].
    apply coalesced_app_r in mr_coalesced0. simpl in *. split; [lia | tauto].
Qed.

(** ** Initialisation *)

Lemma ALIGN_4096 x :
  0 <= x < 2 ^ 63 -> ALIGN x 4096 mod 4096 = 0 /\ x <= ALIGN x 4096 < x + 4096.
Proof.
  intros Hx. unfold ALIGN. rewrite w64_small by lia.
  change (4096 - 1) with (2 ^ 12 - 1). rewrite land_lnot_low by lia.
  change (2 ^ 12 - 1) with 4095. change (2 ^ 12) with 4096.
  pose proof (Z.div_mod (x + 4095) 4096 ltac:(lia)).
  pose proof (Z.mod_pos_bound (x + 4095) 4096 ltac:(lia)). split; [|lia].
  replace (_ - _) with ((x + 4095) / 4096 * 4096) by lia. apply Z.mod_mul. lia.
Qed.

(** The fresh node array: one unreferenced node per index. *)
Lemma init_array_lookup (f : Z -> block_node) n i :
  0 <= i < n ->
  (list_to_map ((fun i => (i, f i)) <$> seqZ 0 n) : gmap Z block_node) !! i = Some (f i).
Proof.
  intros Hi. apply elem_of_list_to_map_1.
  - rewrite <-list_fmap_compose.
    replace (_ <$> seqZ 0 n) with (seqZ 0 n) by (symmetry; exact (list_fmap_id _)).
    apply NoDup_seqZ.
  - apply list_elem_of_fmap. exists i. split; [done |]. apply elem_of_seqZ. lia.
Qed.

(** The number of nodes [init_block_node] reserves for [free] bytes. *)
Definition node_count (free : Z) : Z := free / 4096 + (if free mod 4096 =? 0 then 0 else 1).

Lemma node_count_bound free :
  0 <= free -> node_count free * 4096 < free + 4096 /\ free <= node_count free * 4096.
Proof.
  intros H. unfold node_count.
  pose proof (Z.div_mod free 4096 ltac:(lia)). pose proof (Z.mod_pos_bound free 4096 ltac:(lia)).
  destruct (Z.eqb_spec (free mod 4096) 0); lia.
Qed.

Section Init.
Context (junk : Z -> block_node) (last mem_size : Z).
Context (Hlast : 0 <= last) (Hmem : mem_size mod 4096 = 0) (Hmax : mem_size <= 2 ^ 42).
Let all := node_count (mem_size - last).
Context (Hroom : last + all * 32 + 4096 <= mem_size).
Let ffa := ALIGN (last + all * 32) 4096.

Lemma init_bounds :
  last <= mem_size /\ 0 < all < 2 ^ 31 /\ mem_size - last <= all * 4096 /\
  ffa mod 4096 = 0 /\ last + all * 32 <= ffa < mem_size /\ ffa < last + all * 32 + 4096.
Proof.
  assert (Hle : last <= mem_size).
  { destruct (Z.le_gt_cases last mem_size); [done |]. unfold all, node_count in Hroom.
    pose proof (Z.div_mod (mem_size - last) 4096 ltac:(lia)).
    pose proof (Z.mod_pos_bound (mem_size - last) 4096 ltac:(lia)).
    destruct (_ =? 0) in Hroom; lia. }
  destruct (node_count_bound (mem_size - last)) as [H1 H2]; [lia |].
  fold all in H1, H2.
  destruct (ALIGN_4096 (last + all * 32)) as [Hal Hffa]; [lia |].
  fold ffa in Hal, Hffa. repeat split; lia.
Qed.

(** The array after [init_block_node]. *)
Definition init_array : gmap Z block_node :=
  list_to_map ((fun i => (i, set_ref 0 (set_pages 0 (junk i)))) <$> seqZ 0 all).

Lemma init_block_node_ok s :
  available_memory s = mem_size -> first_free_addr s = last ->
  available_free_memory s = mem_size - last ->
  init_block_node junk s =
    Ok tt (MM last init_array (blist s) all ffa all mem_size (mem_size - ffa)).
Proof.
  intros H1 H2 H3. destruct init_bounds as (Hle & Hall & Hall2 & Hal & Hffa & Hffa2).
  unfold init_block_node. erewrite bind_step by done. rewrite H1, H2, H3.
  fold (node_count (mem_size - last)). fold all.
  rewrite (w64_small (all * 32)), (w64_small (all * 32 + last)),
    (w64_small (last + all * 32)), s32_small by lia.
  fold ffa. destruct (Z.ltb_spec mem_size (all * 32 + last)); [lia |].
  unfold modify. rewrite H1, w64_small by lia. done.
Qed.

Lemma memory_init_repr s0 :
  exists s' n, memory_init junk last mem_size s0 = Ok tt s' /\ mm_repr s' [(n, 0)] /\
    block_node_array_addr s' = last /\
    all_nodes s' = node_count (mem_size - last) /\
    last + all_nodes s' * 32 <= first_free_addr s' < last + all_nodes s' * 32 + 4096 /\
    first_free_addr s' + n * 4096 = mem_size.
Proof.
  destruct init_bounds as (Hle & Hall & Hall2 & Hal & Hffa & Hffa2).
  set (n := (mem_size - ffa) / 4096).
  assert (Hn : n * 4096 = mem_size - ffa /\ 0 < n).
  { assert ((mem_size - ffa) mod 4096 = 0) as Hz by (rewrite Zminus_mod, Hmem, Hal; done).
    pose proof (Z.div_mod (mem_size - ffa) 4096 ltac:(lia)). unfold n. lia. }
  assert (Hlk : forall i, 0 <= i < all -> exists b, init_array !! i = Some b /\ b_ref b = 0).
  { intros i Hi. unfold init_array. rewrite init_array_lookup by done. eauto. }
  unfold memory_init. erewrite bind_step by done.
  destruct (Z.ltb_spec mem_size last); [lia |]. erewrite bind_step by done.
  rewrite w64_small by lia. erewrite bind_step by by apply init_block_node_ok.
  cbn [blist]. set (s1 := MM _ _ _ _ _ _ _ _).
  unfold init_block_list. erewrite bind_step by done. erewrite bind_step by done.
  change (available_free_memory s1 / 4096) with n.
  destruct (Hlk 0) as (b0 & Hb0 & Hr0); [lia |].
  assert (Hp : page_index s1 0) by (split; cbn; lia).
  pose proof (alloc_block_node_ok s1 0 b0 Hp Hb0 Hr0) as Ha.
  rewrite Z.mul_0_l, Z.add_0_r in Ha. erewrite bind_step by exact Ha.
  erewrite bind_step by by apply update_node_ok. rewrite (s32_small n) by lia.
  eexists _, n. split; [done |]. split; [|simpl; split_and!; done || lia].
  split; simpl; try done; try lia. repeat split; try lia.
  - rewrite lookup_insert_eq. f_equal. f_equal. lia.
  - intros j Hj. lookup_ne. apply Hlk. lia.
Qed.
End Init.

(** Freeing what an allocation run handed out. *)
Lemma alloc_run_free n off bl o bl' :
  alloc_run n off bl o bl' -> wf_blocks bl -> coalesced bl ->
  exists l1 l2, bl' = l1 ++ (n, 1) :: l2 /\ off + npages l1 = o /\ spec_free l1 n 1 l2 = bl.
Proof.
  induction 1 as [off pg rf tl o tl' _ Htl IH | off rf tl Hr | off pg rf tl Hr Hn];
    intros Hw [Hc Hc']; inversion Hw as [|? ? [Hpg Hrf] Hw']; subst; simpl in Hpg, Hrf.
  - destruct (IH Hw' Hc') as (l1 & l2 & -> & <- & <-). exists ((pg, rf) :: l1), l2.
    split; [done |]. split; [simpl; lia |]. unfold spec_free in *. simpl (1 <? 1) in *.
    cbn iota in *. destruct l1 as [|b l1]; [|done].
    destruct (absorb_shape n 1 l2) as (p & t & _ & Hj & _). simpl join_left in Hc.
    rewrite Hj in *. apply join_left_used. simpl in Hc. tauto.
  - exists [], tl. assert (rf = 0) as -> by lia. split; [done |]. split; [simpl; lia |].
    unfold spec_free. simpl. destruct tl as [|[p r] tl]; [done |].
    apply join_right_used. simpl in Hc. tauto.
  - exists [], ((pg - n, 0) :: tl). assert (rf = 0) as -> by lia.
    split; [done |]. split; [simpl; lia |].
    unfold spec_free. simpl. do 2 f_equal. lia.
Qed.

(** The node of a page that is not the first one of a used block. *)
Lemma dseg_unused a ffa pp i bl qn j :
  dseg a ffa pp i bl qn -> i <= j < i + npages bl ->
  (forall l1 pg rf l2, bl = l1 ++ (pg, rf) :: l2 -> i + npages l1 = j -> rf = 0) ->
  exists b, a !! j = Some b /\ b_ref b = 0.
Proof.
  revert pp i. induction bl as [|[pg rf] tl IH]; intros pp i; simpl; [lia |].
  intros (Hpg & Hrf & Hn & Hin & Htl) Hj Hfree.
  destruct (decide (j = i)) as [->|].
  { eexists. split; [done |]. eapply (Hfree []); [done | simpl; lia]. }
  destruct (decide (j < i + pg)); [apply Hin; lia |].
  eapply IH; [done | lia |]. intros l1 pg1 rf1 l2 -> Hl.
  eapply (Hfree ((pg, rf) :: l1)); [done | simpl; lia].
Qed.

(** ** The allocator's guarantees *)

(** C2: [alloc_mem_pages] implements first fit on the abstract block list: on
    a well-formed allocator state it returns 0 and changes nothing when no
    free block has [n] pages, and otherwise returns the address of the first
    such block and leaves a well-formed state for the updated list. *)
Theorem alloc_refines s bl n :
  mm_repr s bl -> 0 < n ->
  match spec_alloc 0 n bl with
  | None => alloc_mem_pages n s = Ok 0 s
  | Some (o, bl') => exists s',
      alloc_mem_pages n s = Ok (first_free_addr s + o * 4096) s' /\ mm_repr s' bl'
  end.
Proof.
  intros Hr Hn. pose proof (alloc_mem_pages_repr s bl n Hr Hn) as H.
  destruct (spec_alloc 0 n bl) as [[o bl']|]; [|done].
  destruct H as (a' & ? & ?). eauto.
Qed.

(** C1: memory handed out is exclusive: a block returned by
    [alloc_mem_pages] is page aligned, lies in managed memory, none of its
    pages belonged to a block in use, and no other page changes hands. *)
Theorem alloc_exclusive s bl n p s' :
  mm_repr s bl -> 0 < n -> alloc_mem_pages n s = Ok p s' -> p <> 0 ->
  exists bl' o, mm_repr s' bl' /\ p = first_free_addr s + o * 4096 /\ p mod 4096 = 0 /\
    0 <= o /\ o + n <= npages bl /\ first_free_addr s' = first_free_addr s /\
    (forall j, o <= j < o + n -> page_live 0 bl j = false) /\
    (forall j, page_live 0 bl' j = page_live 0 bl j || ((o <=? j) && (j <? o + n))).
Proof.
  intros Hr Hn Hrun Hp. pose proof (alloc_mem_pages_repr s bl n Hr Hn) as H.
  destruct (spec_alloc 0 n bl) as [[o bl']|] eqn:E; [|congruence].
  destruct H as (a' & Ha & Hr'). rewrite Hrun in Ha. simplify_eq.
  apply spec_alloc_run, alloc_run_live in E as (Ho & Htop & Hold & Hnew);
    [|done | by eapply mm_repr_wf].
  exists bl', o. split_and!; try done; try lia.
  destruct Hr. by rewrite Z.mod_add.
Qed.

(** C3: [free_mem_pages] on the address of a used block drops one reference;
    when it was the last one the block becomes free and is merged with its
    free neighbours, and exactly its pages stop being in use. *)
Theorem free_refines s l1 pg rf l2 :
  mm_repr s (l1 ++ (pg, rf) :: l2) -> 0 < rf ->
  exists s', free_mem_pages (first_free_addr s + npages l1 * 4096) s = Ok tt s' /\
    mm_repr s' (spec_free l1 pg rf l2) /\
    (forall j, page_live 0 (spec_free l1 pg rf l2) j =
       page_live 0 (l1 ++ (pg, rf) :: l2) j &&
       negb ((rf =? 1) && (npages l1 <=? j) && (j <? npages l1 + pg))).
Proof.
  intros Hr Hrf. destruct (free_mem_pages_repr _ _ _ _ _ Hr Hrf) as (a' & H & Hr').
  eexists. split; [done |]. split; [done |]. intros j.
  apply page_live_spec_free; [by eapply mm_repr_wf | done].
Qed.

(** Allocation followed by release is the identity: freeing a block that
    was just allocated restores the block list as it was. *)
Theorem alloc_free_roundtrip s bl n p s' :
  mm_repr s bl -> 0 < n -> alloc_mem_pages n s = Ok p s' -> p <> 0 ->
  exists s'', free_mem_pages p s' = Ok tt s'' /\ mm_repr s'' bl.
Proof.
  intros Hr Hn Hrun Hp. pose proof (alloc_mem_pages_repr s bl n Hr Hn) as H.
  destruct (spec_alloc 0 n bl) as [[o bl']|] eqn:E; [|congruence].
  destruct H as (a' & Ha & Hr'). rewrite Hrun in Ha. simplify_eq.
  destruct (alloc_run_free n 0 bl o bl') as (l1 & l2 & -> & <- & Hbl);
    [by apply spec_alloc_run | by eapply mm_repr_wf | apply Hr |].
  destruct (free_mem_pages_repr _ _ _ _ _ Hr') as (a2 & Hf & Hr2); [lia |].
  rewrite Hbl in Hr2. eauto.
Qed.

(** [realloc_mem_block] adds one reference to a used block and returns its
    address; the next [free_mem_pages] of that address takes it away again, so
    the block stays in use until every holder has released it. *)
Theorem realloc_free_roundtrip s l1 pg rf l2 :
  mm_repr s (l1 ++ (pg, rf) :: l2) -> 0 < rf -> rf + 1 < 2 ^ 32 ->
  let paddr := first_free_addr s + npages l1 * 4096 in
  exists s' s'', realloc_mem_block paddr s = Ok paddr s' /\
    mm_repr s' (l1 ++ (pg, rf + 1) :: l2) /\
    free_mem_pages paddr s' = Ok tt s'' /\ mm_repr s'' (l1 ++ (pg, rf) :: l2).
Proof.
  intros Hr Hrf Hmax. destruct (realloc_mem_block_repr _ _ _ _ _ Hr Hrf Hmax) as (a1 & H1 & Hr1).
  destruct (free_mem_pages_repr _ _ _ _ _ Hr1) as (a2 & H2 & Hr2); [lia |].
  unfold spec_free in Hr2. destruct (Z.ltb_spec 1 (rf + 1)); [|lia].
  replace (rf + 1 - 1) with rf in Hr2 by lia. eauto 10.
Qed.

(** Releasing a page of managed memory that is not the first page of a
    used block (an interior page, or a block already free) panics. *)
Theorem free_rejects_unused s bl j :
  mm_repr s bl -> 0 <= j < npages bl ->
  (forall l1 pg rf l2, bl = l1 ++ (pg, rf) :: l2 -> npages l1 = j -> rf = 0) ->
  exists why, free_mem_pages (first_free_addr s + j * 4096) s = Stop (Panic why).
Proof.
  intros Hr Hj Hfree.
  assert (exists b, block_node_array s !! j = Some b /\ b_ref b = 0) as (b & Hb & Hb0).
  { destruct Hr as [_ _ Hseg _ _ _ _ _ _ _].
    eapply dseg_unused; [exact Hseg | done |]. intros; eapply Hfree; [done | lia]. }
  unfold free_mem_pages. erewrite bind_step.
  2: { apply block_index_ok. eapply seg_bounds_index; [by apply mm_repr_bounds | lia]. }
  erewrite bind_step by by apply get_node_ok. rewrite Hb0. by eexists.
Qed.

(** The bounds check of [free_mem_pages] is off by one: the page right
    after the last node of [block_node_array] passes it, and the node read
    there lies outside the array. *)
Theorem free_bound_off_by_one s bl :
  mm_repr s bl -> first_free_addr s + all_nodes s * 4096 < 2 ^ 63 ->
  block_node_array s !! all_nodes s = None ->
  free_mem_pages (first_free_addr s + all_nodes s * 4096) s = Stop (Fault "block_node_array").
Proof.
  intros Hr Htop Hnone. pose proof (wf_blocks_npages _ (mm_repr_wf _ _ Hr)). pose proof Hr as [].
  unfold free_mem_pages. erewrite bind_step by (apply block_index_ok; split; lia).
  unfold get_node, mbind, M_bind, gets. by rewrite Hnone.
Qed.

(** C36: [memory_init] turns a page-aligned memory with room for the node array
    into one free block that ends at the top of memory, and places the node
    array below the first page it hands out. *)
Theorem memory_init_ok junk last mem_size s0 :
  0 <= last -> mem_size mod 4096 = 0 -> mem_size <= 2 ^ 42 ->
  last + node_count (mem_size - last) * 32 + 4096 <= mem_size ->
  exists s' n, memory_init junk last mem_size s0 = Ok tt s' /\ mm_repr s' [(n, 0)] /\
    block_node_array_addr s' = last /\
    all_nodes s' = node_count (mem_size - last) /\
    last + all_nodes s' * 32 <= first_free_addr s' < last + all_nodes s' * 32 + 4096 /\
    first_free_addr s' + n * 4096 = mem_size.
Proof. intros. by apply memory_init_repr. Qed.
