(* ===== verification/Paging.v ===== *)
(** * Page tables (vms/pm/pmap.c and boot/stage2/pmap.c)

    The boot loader and the process manager carry the same page-table code,
    over two different allocators.  [PageAlloc] is what that code uses of an
    allocator; the operations are written against it and are instantiated
    with [alloc_page_table] of the process manager (below) and with
    [calloc_align] of the boot stage ([BootMem]).

    The root of a set of page tables lives in a field of [struct cpu_info];
    the operations take its value ([*pml4_paddr]) and return the new one. *)

From S2P Require Import Prelude PhysMem MemMgr.

Abbreviation _2MB_ := (512 * 4096).
Abbreviation _1GB_ := (512 * (512 * 4096)).

Abbreviation PAGE_PRESENT := 1.
Abbreviation PAGE_RW := 2.
Abbreviation PAGE_PCD := 16.
Abbreviation PAGE_PSE := 128.
Abbreviation EPT_PAGE_READ := 1.
Abbreviation EPT_PAGE_WRITE := 2.
Abbreviation EPT_PAGE_EXEC := 4.
Abbreviation EPT_PAGE_PSE := 128.
Abbreviation EPT_MTYPE_UC := 0.
Abbreviation EPT_MTYPE_WT := 4.
Abbreviation EPT_MTYPE_WB := 6.
Abbreviation MAP_NEW := 0.
Abbreviation MAP_UPDATE := 1.
Abbreviation PAGE_TABLE_ENTRIES := 512.

(** What the page-table code uses of its environment: physical memory and a
    source of cleared pages (0 when there is none left). *)
Class PageAlloc (S : Type) := {
  pa_mem : S -> memory;
  pa_set_mem : memory -> S -> S;
  pa_alloc : M S Z
}.

Section Ops.
Context {S : Type} `{!PageAlloc S}.

(** [table[idx]] and [table[idx] = v] for a [page_table_entry_t *]. *)
Definition pte_get (table idx : Z) : M S Z :=
  gets (fun s => load64 (pa_mem s) (table + 8 * idx)).
Definition pte_set (table idx v : Z) : M S unit :=
  modify (fun s => pa_set_mem (store64 (pa_mem s) (table + 8 * idx) v) s).

(** [(page_table_entry_t * )(e & ~0xFFF)] *)
Definition pte_table (e : Z) : Z := Z.land e (Z.lnot 0xFFF).

Definition pml4_idx (vaddr : Z) : Z := Z.land (Z.shiftr vaddr 39) 0x1FF.
Definition pdpe_idx (vaddr : Z) : Z := Z.land (Z.shiftr vaddr 30) 0x1FF.
Definition pde_idx (vaddr : Z) : Z := Z.land (Z.shiftr vaddr 21) 0x1FF.
Definition pte_idx (vaddr : Z) : Z := Z.land (Z.shiftr vaddr 12) 0x1FF.

(** The table an entry points to; an empty entry first gets a new table,
    with the flags [tflags]. *)
Definition ensure_table (tflags table idx : Z) : M S Z :=
  e ← pte_get table idx;
  when (e =? 0)
    (new ← pa_alloc;
     if new =? 0 then panic "Memory Allocation Failed" else
     pte_set table idx (Z.lor new tflags)) ;;
  e ← pte_get table idx;
  mret (pte_table e).

(** The body of the mapping loop: create the tables on the way to [vaddr]
    and write its entry. *)
Definition map_page (tflags page_size pml4 vaddr entry : Z) : M S unit :=
  pdpe ← ensure_table tflags pml4 (pml4_idx vaddr);
  if page_size <? _1GB_ then
    pde ← ensure_table tflags pdpe (pdpe_idx vaddr);
    if page_size <? _2MB_ then
      pte ← ensure_table tflags pde (pde_idx vaddr);
      pte_set pte (pte_idx vaddr) entry
    else pte_set pde (pde_idx vaddr) entry
  else pte_set pdpe (pdpe_idx vaddr) entry.

(** [while (page != last_pages)]; [leaf] builds the entry of a frame. *)
Fixpoint map_pages (n : nat) (tflags page_size : Z) (leaf : Z -> Z) (pml4 vaddr paddr : Z)
  : M S unit :=
  match n with
  | O => mret tt
  | Datatypes.S n' =>
      map_page tflags page_size pml4 vaddr (leaf paddr) ;;
      map_pages n' tflags page_size leaf pml4 (w64 (vaddr + page_size)) (w64 (paddr + page_size))
  end.

(** The checks before the loop; the result is the protection with the
    large-page bit added. *)
Definition check_region (start_vaddr end_vaddr paddr page_size protection pse : Z) : M S Z :=
  if end_vaddr <? start_vaddr then panic "start address greater than end address" else
  if start_vaddr =? end_vaddr then panic "Can't map a memory region of zero size" else
  protection ←
    (if page_size =? _4KB_ then mret protection
     else if (page_size =? _2MB_) || (page_size =? _1GB_) then mret (Z.lor protection pse)
     else panic "Bad page size");
  if (page_size =? _4KB_) && negb (Z.land paddr (_4KB_ - 1) =? 0)
  then panic "Address is not 4KB aligned" else
  if (page_size =? _2MB_) && negb (Z.land paddr (_2MB_ - 1) =? 0)
  then panic "Address is not 2MB aligned" else
  if (page_size =? _1GB_) && negb (Z.land paddr (_1GB_ - 1) =? 0)
  then panic "Address is not 1GB aligned" else
  mret protection.

(** The root to work on: a fresh table, or the existing one. *)
Definition map_root (flags root : Z) : M S Z :=
  if flags =? MAP_NEW then
    pml4 ← pa_alloc;
    if pml4 =? 0 then panic "Memory Allocation Failed" else mret pml4
  else if flags =? MAP_UPDATE then
    e ← pte_get root 0;
    if e =? 0 then panic "Trying to update null page tables" else mret root
  else panic "Undefined memory map flag".

(** The number of iterations; [int last_pages = pages] truncates, and a
    negative bound would count up through an integer overflow. *)
Definition region_pages (start_vaddr end_vaddr page_size : Z) : Z :=
  let size := end_vaddr - start_vaddr in
  s32 (size / page_size + (if size mod page_size =? 0 then 0 else 1)).

Definition map_loop (tflags page_size : Z) (leaf : Z -> Z) (pml4 start_vaddr end_vaddr paddr : Z)
  : M S unit :=
  let last_pages := region_pages start_vaddr end_vaddr page_size in
  if last_pages <? 0 then stop_with (Fault "signed overflow of page") else
  map_pages (Z.to_nat last_pages) tflags page_size leaf pml4 start_vaddr paddr.

Definition map_memory (root start_vaddr end_vaddr start_paddr page_size protection flags : Z)
  : M S Z :=
  protection ← check_region start_vaddr end_vaddr start_paddr page_size protection PAGE_PSE;
  pml4 ← map_root flags root;
  map_loop (Z.lor PAGE_PRESENT PAGE_RW) page_size
    (fun paddr => Z.lor paddr protection) pml4 start_vaddr end_vaddr start_paddr ;;
  mret pml4.

Definition ept_map_memory
    (root start_vaddr end_vaddr start_paddr page_size mtype protection flags : Z) : M S Z :=
  protection ← check_region start_vaddr end_vaddr start_paddr page_size protection EPT_PAGE_PSE;
  pml4 ← map_root flags root;
  map_loop (Z.lor (Z.lor EPT_PAGE_READ EPT_PAGE_WRITE) EPT_PAGE_EXEC) page_size
    (fun paddr => Z.lor (Z.lor paddr (Z.shiftl mtype 3)) protection)
    pml4 start_vaddr end_vaddr start_paddr ;;
  mret pml4.

Definition unmap_memory (pml4 vaddr : Z) : M S unit :=
  e4 ← pte_get pml4 (pml4_idx vaddr);
  let pdpe := pte_table e4 in
  if pdpe =? 0 then mret tt else
  e3 ← pte_get pdpe (pdpe_idx vaddr);
  if e3 =? 0 then mret tt else
  if Z.land e3 PAGE_PSE =? 0 then
    let pde := pte_table e3 in
    if pde =? 0 then mret tt else
    e2 ← pte_get pde (pde_idx vaddr);
    if e2 =? 0 then mret tt else
    if Z.land e2 PAGE_PSE =? 0 then pte_set (pte_table e2) (pte_idx vaddr) 0
    else pte_set pde (pde_idx vaddr) 0
  else pte_set pdpe (pdpe_idx vaddr) 0.

(** Identity-map one page table into the EPT. *)
Definition ept_map_table (ept table protection : Z) : M S Z :=
  ept_map_memory ept table (w64 (table + PAGE_TABLE_SIZE)) table _4KB_ EPT_MTYPE_WB
    protection MAP_UPDATE.

(** [for (pde_idx = 0; pde_idx < 512; pde_idx++)] *)
Fixpoint ept_map_ptes (idxs : list Z) (ept pde protection : Z) : M S Z :=
  match idxs with
  | [] => mret ept
  | i :: idxs' =>
      e ← pte_get pde i;
      ept ← (if negb (e =? 0) && (Z.land e PAGE_PSE =? 0)
             then ept_map_table ept (pte_table e) protection else mret ept);
      ept_map_ptes idxs' ept pde protection
  end.

(** [for (pdpe_idx = 0; pdpe_idx < 4; pdpe_idx++)] *)
Fixpoint ept_map_pdes (idxs : list Z) (ept pdpe protection : Z) : M S Z :=
  match idxs with
  | [] => mret ept
  | i :: idxs' =>
      e ← pte_get pdpe i;
      let pde := pte_table e in
      ept ← (if negb (e =? 0) && (Z.land e PAGE_PSE =? 0) && negb (pde =? 0)
             then ept ← ept_map_table ept pde protection;
                  ept_map_ptes (seqZ 0 PAGE_TABLE_ENTRIES) ept pde protection
             else mret ept);
      ept_map_pdes idxs' ept pdpe protection
  end.

(** Only the first PML4 entry and the first four PDPT entries are visited. *)
Definition ept_map_page_tables (ept pml4_paddr protection : Z) : M S Z :=
  if pml4_paddr =? 0 then panic "page tables are not yet created" else
  ept ← ept_map_table ept pml4_paddr protection;
  e ← pte_get pml4_paddr 0;
  let pdpe := pte_table e in
  if pdpe =? 0 then mret ept else
  ept ← ept_map_table ept pdpe protection;
  ept_map_pdes (seqZ 0 4) ept pdpe protection.
End Ops.

(** The process manager's page tables come from its page allocator. *)
#[global] Instance pm_page_alloc : PageAlloc kmem := {|
  pa_mem := k_mem;
  pa_set_mem := set_mem;
  pa_alloc := alloc_page_table
|}.

(** ** Releasing page tables *)

Fixpoint free_ptes (idxs : list Z) (pde : Z) : M kmem unit :=
  match idxs with
  | [] => mret tt
  | i :: idxs' =>
      e ← pte_get pde i;
      when (negb (e =? 0) && (Z.land e PAGE_PSE =? 0)) (on_mm (free_mem_pages (pte_table e))) ;;
      free_ptes idxs' pde
  end.

Fixpoint free_pdes (idxs : list Z) (pdpe : Z) : M kmem unit :=
  match idxs with
  | [] => mret tt
  | i :: idxs' =>
      e ← pte_get pdpe i;
      let pde := pte_table e in
      when (negb (e =? 0) && (Z.land e PAGE_PSE =? 0) && negb (pde =? 0))
        (free_ptes (seqZ 0 PAGE_TABLE_ENTRIES) pde ;; on_mm (free_mem_pages pde)) ;;
      free_pdes idxs' pdpe
  end.

Definition free_page_tables (base : Z) : M kmem unit :=
  e ← pte_get base 0;
  let pdpe := pte_table e in
  when (negb (pdpe =? 0)) (free_pdes (seqZ 0 4) pdpe) ;;
  on_mm (free_mem_pages pdpe) ;;
  on_mm (free_mem_pages base).
