(* ===== verification/PageWalk.v ===== *)
(** * The hardware's view of page tables

    How a processor reads four levels of 512-entry tables from physical
    memory, and what one entry write does to it.  Depth 0 is the PML4,
    depths 1 to 3 are the PDPT, the page directory and the page table.  An
    entry of zero is absent; bit 7 of an entry at depth 1 or 2 marks a 1GB or
    2MB page.  EPT tables have the same shape, with bit 7 in the same role. *)

From S2P Require Import Prelude PhysMem MemMgr Paging.

(** The address bits that select an entry at depth [d]. *)
Definition pt_index (d : nat) (va : Z) : Z := (va / 2 ^ (39 - 9 * Z.of_nat d)) mod 512.

Definition is_leaf (d : nat) (e : Z) : bool :=
  match d with
  | O => false
  | S (S (S _)) => true
  | _ => Z.testbit e 7
  end.

(** The table at depth [d] on the path of [va]. *)
Fixpoint table_at (m : memory) (root : Z) (d : nat) (va : Z) : option Z :=
  match d with
  | O => Some root
  | S d' =>
      t ← table_at m root d' va;
      let e := load64 m (t + 8 * pt_index d' va) in
      if (e =? 0) || is_leaf d' e then None else Some (pte_table e)
  end.

Definition entry_at (m : memory) (root : Z) (d : nat) (va : Z) : option Z :=
  t ← table_at m root d va; Some (load64 m (t + 8 * pt_index d va)).

(** The bytes covered by an entry at depth [d]. *)
Definition page_bytes (d : nat) : Z := 2 ^ (39 - 9 * Z.of_nat d).

(** The leaf entry that translates [va], with the size of its page. *)
Definition leaf_at (m : memory) (root : Z) (d : nat) (va : Z) : option (Z * Z) :=
  e ← entry_at m root d va;
  if negb (e =? 0) && is_leaf d e then Some (e, page_bytes d) else None.
Definition walk (m : memory) (root va : Z) : option (Z * Z) :=
  match leaf_at m root 1 va, leaf_at m root 2 va with
  | Some r, _ => Some r
  | None, Some r => Some r
  | None, None => leaf_at m root 3 va
  end.

(** The physical address [va] is translated to. *)
Definition translate (m : memory) (root va : Z) : option Z :=
  '(e, size) ← walk m root va; Some (e - e mod size + va mod size).

Lemma table_below_none m root d1 d2 va :
  (d1 <= d2)%nat -> table_at m root d1 va = None -> table_at m root d2 va = None.
Proof. intros Hle H. induction Hle as [|d2 _ IH]; [done |]. simpl. by rewrite IH. Qed.

(** Entries above a table of the path are neither absent nor leaves. *)
Lemma leaf_at_above m root d1 d2 va t :
  (d1 < d2)%nat -> table_at m root d2 va = Some t -> leaf_at m root d1 va = None.
Proof.
  intros Hlt H. unfold leaf_at, entry_at.
  destruct (table_at m root (S d1) va) as [t1|] eqn:E.
  - simpl in E. destruct (table_at m root d1 va) as [t0|]; [|done]. simpl in *.
    destruct (_ =? 0); simpl in *; [done |]. by destruct (is_leaf d1 _).
  - rewrite (table_below_none m root (S d1) d2) in H; [done | lia | done].
Qed.

(** The walk, decided by the entry of the last table on the path. *)
Lemma walk_entry m root d va e :
  (d <= 3)%nat -> entry_at m root d va = Some e -> e = 0 \/ is_leaf d e = true ->
  walk m root va = if e =? 0 then None else Some (e, page_bytes d).
Proof.
  intros Hd He Hl. unfold entry_at in He.
  destruct (table_at m root d va) as [t|] eqn:Ht; [|done]. simpl in He.
  assert (Habove : forall k, (k < d)%nat -> leaf_at m root k va = None)
    by (intros k Hk; by eapply leaf_at_above).
  assert (Hat : leaf_at m root d va = if e =? 0 then None else Some (e, page_bytes d)).
  { unfold leaf_at, entry_at. rewrite Ht. simpl. injection He as ->.
    destruct (Z.eqb_spec e 0); [done |]. destruct Hl as [Hl|Hl]; [done | by rewrite Hl]. }
  assert (Hbelow : forall k, (d < k)%nat -> leaf_at m root k va = None).
  { intros k Hk. unfold leaf_at, entry_at. rewrite (table_below_none m root (S d)); [done | lia |].
    simpl. rewrite Ht. simpl. injection He as ->.
    destruct Hl as [-> | ->]; [done | by rewrite orb_true_r]. }
  unfold walk. destruct d as [|[|[|[|]]]]; [| | | | lia].
  - rewrite !Hbelow by lia. destruct Hl as [-> |]; done.
  - rewrite Hat, (Hbelow 2%nat), (Hbelow 3%nat) by lia. by destruct (e =? 0).
  - rewrite (Habove 1%nat), Hat, (Hbelow 3%nat) by lia. by destruct (e =? 0).
  - by rewrite (Habove 1%nat), (Habove 2%nat), Hat by lia.
Qed.

(** Two addresses that share the tables down to depth [d]. *)
Definition same_path (d : nat) (va va' : Z) : Prop :=
  forall k, (k < d)%nat -> pt_index k va = pt_index k va'.

#[global] Instance same_path_dec d va va' : Decision (same_path d va va').
Proof.
  refine (cast_if (decide (Forall (fun k => pt_index k va = pt_index k va') (seq 0 d))));
    unfold same_path; rewrite Forall_forall in *.
  - intros k Hk. apply f. apply elem_of_seq. lia.
  - intros H. apply n. intros k Hk%elem_of_seq. apply H. lia.
Defined.

#[global] Instance same_path_equiv d : Equivalence (same_path d).
Proof. split; unfold same_path; repeat intro; [done | by rewrite H | by rewrite H, H0]. Qed.

Lemma same_path_mono d d' va va' : (d' <= d)%nat -> same_path d va va' -> same_path d' va va'.
Proof. intros Hd H k Hk. apply H. lia. Qed.

Lemma same_path_S d va va' :
  same_path (S d) va va' <-> same_path d va va' /\ pt_index d va = pt_index d va'.
Proof.
  split.
  - intros H. split; [by eapply same_path_mono; [|exact H]; lia | apply H; lia].
  - intros [H1 H2] k Hk. destruct (decide (k = d)) as [->|]; [done | apply H1; lia].
Qed.

Lemma table_at_path m root d va va' :
  same_path d va va' -> table_at m root d va = table_at m root d va'.
Proof.
  induction d as [|d IH]; [done |]. intros [H1 H2]%same_path_S. simpl.
  by rewrite (IH H1), H2.
Qed.

Lemma pt_index_bound d va : 0 <= pt_index d va < 512.
Proof. apply Z.mod_pos_bound. lia. Qed.

(** ** Well-formed tables

    [owned] are the pages the tables may live in.  Distinct table positions
    never share a page. *)
Record pt_wf (owned : Z -> Prop) (m : memory) (root : Z) : Prop := {
  wf_owned : forall d va t, (d <= 3)%nat -> table_at m root d va = Some t -> owned t;
  wf_inj : forall d d' va va' t, (d <= 3)%nat -> (d' <= 3)%nat ->
    table_at m root d va = Some t -> table_at m root d' va' = Some t ->
    d = d' /\ same_path d va va'
}.

(** No page of a larger size on the path of [va] above depth [D]. *)
Definition no_leaf (m : memory) (root : Z) (D : nat) (va : Z) : Prop :=
  forall d e, (d < D)%nat -> entry_at m root d va = Some e -> is_leaf d e = false.

Section Store.
Context (owned : Z -> Prop).
Context (Howned : forall p, owned p -> p mod 4096 = 0 /\ 0 < p < 2 ^ 63).

(** Entries of two tables, or of one table, do not overlap. *)
Lemma entry_disjoint t t' i i' :
  owned t -> owned t' -> 0 <= i < 512 -> 0 <= i' < 512 -> t <> t' \/ i <> i' ->
  t + 8 * i + 8 <= t' + 8 * i' \/ t' + 8 * i' + 8 <= t + 8 * i.
Proof.
  intros [Ht _]%Howned [Ht' _]%Howned Hi Hi' Hne.
  pose proof (Z.div_mod t 4096 ltac:(lia)). pose proof (Z.div_mod t' 4096 ltac:(lia)).
  destruct (Z.lt_trichotomy (t / 4096) (t' / 4096)) as [|[]]; [lia | | lia].
  assert (t = t') by lia. lia.
Qed.

(** Memories that agree on the owned pages have the same tables. *)
Lemma table_at_same m m' root d va :
  pt_wf owned m root -> (d <= 3)%nat ->
  same_on (fun x => exists p, owned p /\ p <= x < p + 4096) m m' ->
  table_at m' root d va = table_at m root d va /\
  entry_at m' root d va = entry_at m root d va.
Proof.
  intros Hwf Hd Hsame.
  assert (Hload : forall t i, owned t -> 0 <= i < 512 ->
    load64 m' (t + 8 * i) = load64 m (t + 8 * i)).
  { intros t i Ht Hi. apply load_ext. intros x Hx. symmetry. apply Hsame. exists t. split; [done | lia]. }
  assert (Ht : table_at m' root d va = table_at m root d va).
  { induction d as [|d IH]; [done |]. simpl. rewrite IH by lia.
    destruct (table_at m root d va) as [t|] eqn:E; [|done]. simpl.
    rewrite Hload; [done | | apply pt_index_bound]. eapply wf_owned; [done | | done]. lia. }
  split; [done |]. unfold entry_at. rewrite Ht.
  destruct (table_at m root d va) as [t|] eqn:E; [|done]. simpl.
  rewrite Hload; [done | | apply pt_index_bound]. by eapply wf_owned.
Qed.

Lemma pt_wf_same m m' root :
  pt_wf owned m root ->
  same_on (fun x => exists p, owned p /\ p <= x < p + 4096) m m' -> pt_wf owned m' root.
Proof.
  intros Hwf Hsame. split.
  - intros d va t Hd Ht. destruct (table_at_same m m' root d va Hwf Hd Hsame) as [E _].
    rewrite E in Ht. by eapply wf_owned.
  - intros d d' va va' t Hd Hd' Ht Ht'.
    destruct (table_at_same m m' root d va Hwf Hd Hsame) as [E _].
    destruct (table_at_same m m' root d' va' Hwf Hd' Hsame) as [E' _].
    rewrite E in Ht. rewrite E' in Ht'. by eapply wf_inj.
Qed.

(** ** One entry write *)
Context (m : memory) (root : Z) (Hwf : pt_wf owned m root).
Context (d : nat) (va t v : Z) (Hd : (d <= 3)%nat) (Ht : table_at m root d va = Some t).
Let m' := store64 m (t + 8 * pt_index d va) v.

Lemma load_other_entry d' va' t' :
  (d' <= 3)%nat -> table_at m root d' va' = Some t' ->
  ~ (d' = d /\ same_path (S d) va va') ->
  load64 m' (t' + 8 * pt_index d' va') = load64 m (t' + 8 * pt_index d' va').
Proof.
  intros Hd' Ht' Hne. apply load64_store64_ne.
  apply entry_disjoint; [exact (wf_owned _ _ _ Hwf _ _ _ Hd' Ht') |
    exact (wf_owned _ _ _ Hwf _ _ _ Hd Ht) | apply pt_index_bound | apply pt_index_bound |].
  destruct (decide (t' = t)) as [->|]; [|by left]. right.
  destruct (wf_inj _ _ _ Hwf _ _ _ _ _ Hd Hd' Ht Ht') as [-> Hsp].
  intros E. apply Hne. split; [done |]. by apply same_path_S.
Qed.

(** Tables that are not below the written entry stay where they are. *)
Lemma table_at_store d' va' :
  (d' <= 3)%nat -> ~ ((d < d')%nat /\ same_path (S d) va va') ->
  table_at m' root d' va' = table_at m root d' va'.
Proof.
  induction d' as [|d' IH]; intros Hd' Hne; [done |]. simpl.
  rewrite IH by (first [lia | intros [? ?]; apply Hne; split; [lia | done]]).
  destruct (table_at m root d' va') as [t'|] eqn:E; [|done]. simpl.
  rewrite load_other_entry; [done | lia | done |].
  intros [-> Hsp]. apply Hne. split; [lia | done].
Qed.

Lemma entry_at_store d' va' :
  (d' <= 3)%nat -> ~ ((d <= d')%nat /\ same_path (S d) va va') ->
  entry_at m' root d' va' = entry_at m root d' va'.
Proof.
  intros Hd' Hne. unfold entry_at.
  rewrite table_at_store by (first [lia | intros [? ?]; apply Hne; split; [lia | done]]).
  destruct (table_at m root d' va') as [t'|] eqn:E; [|done]. simpl.
  rewrite load_other_entry; [done | lia | done |].
  intros [-> Hsp]. apply Hne. split; [lia | done].
Qed.

Lemma entry_at_store_eq va' : same_path (S d) va va' -> entry_at m' root d va' = Some (w64 v).
Proof.
  intros Hsp. unfold entry_at. apply same_path_S in Hsp as [Hsp Hi].
  rewrite table_at_store by lia.
  rewrite <-(table_at_path _ _ _ _ _ Hsp), Ht. simpl. rewrite <-Hi.
  unfold m'. by rewrite load64_store64_eq.
Qed.

(** The table right below the written entry. *)
Lemma table_at_store_below va' :
  same_path (S d) va va' ->
  table_at m' root (S d) va' =
  if (w64 v =? 0) || is_leaf d (w64 v) then None else Some (pte_table (w64 v)).
Proof.
  intros Hsp. pose proof (entry_at_store_eq va' Hsp) as He. unfold entry_at in He.
  simpl. destruct (table_at m' root d va') as [t'|]; [|done]. simpl in *.
  injection He as ->. done.
Qed.

(** ** Writing a page: the entry becomes a leaf *)
Section Leaf.
Context (Hleaf : is_leaf d (w64 v) = true).

Lemma table_at_leaf d' va' :
  (d' <= 3)%nat ->
  table_at m' root d' va' =
  if decide ((d < d')%nat /\ same_path (S d) va va') then None else table_at m root d' va'.
Proof.
  intros Hd'. case_decide as Hc; [|by apply table_at_store]. destruct Hc as [Hlt Hsp].
  apply (table_below_none m' root (S d)); [lia |].
  rewrite table_at_store_below by done. by rewrite Hleaf, orb_true_r.
Qed.

Lemma pt_wf_leaf : pt_wf owned m' root.
Proof.
  split.
  - intros d' va' t' Hd' H. rewrite table_at_leaf in H by done. case_decide; [done |].
    exact (wf_owned _ _ _ Hwf _ _ _ Hd' H).
  - intros d1 d2 va1 va2 t' Hd1 Hd2 H1 H2.
    rewrite table_at_leaf in H1, H2 by done. repeat case_decide; try done.
    exact (wf_inj _ _ _ Hwf _ _ _ _ _ Hd1 Hd2 H1 H2).
Qed.

Lemma leaf_at_other d' va' :
  (d' <= 3)%nat -> ~ same_path (S d) va va' ->
  leaf_at m' root d' va' = leaf_at m root d' va'.
Proof. intros Hd' Hne. unfold leaf_at. by rewrite entry_at_store by (done || by intros []). Qed.

Lemma walk_leaf va' :
  (1 <= d)%nat -> w64 v <> 0 -> same_path (S d) va va' ->
  walk m' root va' = Some (w64 v, page_bytes d).
Proof.
  intros Hd1 Hv Hsp.
  rewrite (walk_entry m' root d va' (w64 v)) by (done || (by apply entry_at_store_eq) || by right).
  by destruct (Z.eqb_spec (w64 v) 0).
Qed.

(** Entries above the written one keep their value. *)
Lemma no_leaf_store D va' : (D <= d)%nat -> no_leaf m root D va' -> no_leaf m' root D va'.
Proof.
  intros HD H d1 e Hd1 He. rewrite entry_at_store in He by lia. by eapply H.
Qed.
End Leaf.

(** ** Clearing an entry that has no table below it *)
Section Clear.
Context (Hv : w64 v = 0) (Hnone : table_at m root (S d) va = None).

Lemma table_at_clear d' va' :
  (d' <= 3)%nat -> table_at m' root d' va' = table_at m root d' va'.
Proof.
  intros Hd'. destruct (decide ((d < d')%nat /\ same_path (S d) va va')) as [[Hlt Hsp]|Hn];
    [|by apply table_at_store].
  rewrite (table_below_none m' root (S d) d') by (lia || by rewrite table_at_store_below, Hv).
  rewrite (table_below_none m root (S d) d'); [done | lia |].
  by rewrite <-(table_at_path _ _ _ _ _ Hsp).
Qed.

Lemma pt_wf_clear : pt_wf owned m' root.
Proof.
  split.
  - intros d' va' t' Hd' H. rewrite table_at_clear in H by done. by eapply wf_owned.
  - intros d1 d2 va1 va2 t' Hd1 Hd2 H1 H2.
    rewrite table_at_clear in H1, H2 by done. by eapply wf_inj.
Qed.

Lemma walk_clear va' :
  walk m' root va' = if decide (same_path (S d) va va') then None else walk m root va'.
Proof.
  case_decide as Hsp.
  - rewrite (walk_entry m' root d va' 0); [done | done | | by left].
    rewrite <-Hv. by apply entry_at_store_eq.
  - unfold walk, leaf_at. by rewrite !entry_at_store by (lia || by intros []).
Qed.
End Clear.

(** ** Writing a pointer to a new, empty table *)
Section Table.
Context (p : Z) (Hp : ~ owned p) (Hpal : p mod 4096 = 0) (Hprange : 0 < p < 2 ^ 63).
Context (Hzero : forall x, p <= x < p + 4096 -> byte_at m x = 0).
Context (Hv : pte_table (w64 v) = p) (Hv0 : w64 v <> 0) (Hvl : is_leaf d (w64 v) = false).
Context (Hd3 : (d < 3)%nat) (Hold : load64 m (t + 8 * pt_index d va) = 0).

Lemma load_new_table i : 0 <= i < 512 -> load64 m' (p + 8 * i) = 0.
Proof.
  intros Hi. pose proof (wf_owned _ _ _ Hwf _ _ _ Hd Ht) as Hto.
  destruct (Howned t Hto) as [Htal _]. pose proof (pt_index_bound d va).
  unfold m'. rewrite load64_store64_ne.
  - apply load_zero. intros x Hx. apply Hzero. lia.
  - assert (t <> p) by (intros ->; done).
    pose proof (Z.div_mod t 4096 ltac:(lia)). pose proof (Z.div_mod p 4096 ltac:(lia)).
    destruct (Z.lt_trichotomy (t / 4096) (p / 4096)) as [|[]]; lia.
Qed.

Lemma old_below_none d' va' :
  (d < d')%nat -> same_path (S d) va va' -> table_at m root d' va' = None.
Proof.
  intros Hlt Hsp. apply (table_below_none m root (S d)); [lia |]. simpl.
  apply same_path_S in Hsp as [Hsp Hi]. rewrite <-(table_at_path _ _ _ _ _ Hsp), Ht. simpl.
  by rewrite <-Hi, Hold.
Qed.

Lemma table_at_new d' va' :
  (d' <= 3)%nat ->
  table_at m' root d' va' =
  if decide (d' = S d /\ same_path (S d) va va') then Some p else table_at m root d' va'.
Proof.
  intros Hd'. case_decide as Hc.
  { destruct Hc as [-> Hsp]. rewrite table_at_store_below by done.
    rewrite Hvl, Hv. by destruct (Z.eqb_spec (w64 v) 0). }
  destruct (decide ((d < d')%nat /\ same_path (S d) va va')) as [[Hlt Hsp]|Hn];
    [|by apply table_at_store].
  assert (d' <> S d) by (intros ->; by apply Hc).
  rewrite old_below_none by done. apply (table_below_none m' root (S (S d))); [lia |]. simpl.
  pose proof (table_at_store_below va' Hsp) as Hb. simpl in Hb. rewrite Hb, Hvl, Hv.
  destruct (Z.eqb_spec (w64 v) 0); [done |]. simpl.
  by rewrite load_new_table by apply pt_index_bound.
Qed.

Lemma pt_wf_table : pt_wf (fun x => owned x \/ x = p) m' root.
Proof.
  split.
  - intros d' va' t' Hd' H. rewrite table_at_new in H by done.
    case_decide; [simplify_eq; by right | left].
    exact (wf_owned _ _ _ Hwf _ _ _ Hd' H).
  - intros d1 d2 va1 va2 t' Hd1 Hd2 H1 H2. rewrite table_at_new in H1 by done.
    case_decide as C1; rewrite table_at_new in H2 by done; case_decide as C2.
    + destruct C1 as [-> C1], C2 as [-> C2]. split; [done |]. by etrans; [symmetry|].
    + injection H1 as <-. by pose proof (wf_owned _ _ _ Hwf _ _ _ Hd2 H2).
    + injection H2 as <-. by pose proof (wf_owned _ _ _ Hwf _ _ _ Hd1 H1).
    + exact (wf_inj _ _ _ Hwf _ _ _ _ _ Hd1 Hd2 H1 H2).
Qed.

(** The entries seen afterwards: the old ones, or not leaves. *)
Lemma entry_at_new d' va' e :
  (d' <= 3)%nat -> entry_at m' root d' va' = Some e ->
  entry_at m root d' va' = Some e \/
  (d' = d /\ same_path (S d) va va' /\ e = w64 v) \/
  (d' = S d /\ same_path (S d) va va' /\ e = 0).
Proof.
  intros Hd' He.
  destruct (decide ((d <= d')%nat /\ same_path (S d) va va')) as [[Hle Hsp]|Hn];
    [|left; by rewrite <-(entry_at_store d' va') by done].
  destruct (decide (d' = d)) as [->|Hne].
  { rewrite entry_at_store_eq in He by done. injection He as <-. auto. }
  unfold entry_at in *. rewrite table_at_new in He by done. case_decide as Hc.
  - destruct Hc as [-> _]. simpl in He. rewrite load_new_table in He by apply pt_index_bound.
    injection He as <-. auto.
  - rewrite old_below_none in He by (done || lia). done.
Qed.

Lemma leaf_at_new d' va' :
  (d' <= 3)%nat -> leaf_at m' root d' va' = leaf_at m root d' va'.
Proof.
  intros Hd'. destruct (decide ((d <= d')%nat /\ same_path (S d) va va')) as [[Hle Hsp]|Hn];
    [|unfold leaf_at; by rewrite entry_at_store by done].
  assert (Hnew : leaf_at m' root d' va' = None).
  { unfold leaf_at. destruct (entry_at m' root d' va') as [e|] eqn:E; [|done]. simpl.
    destruct (decide (d' = d)) as [->|].
    - rewrite entry_at_store_eq in E by done. simplify_eq. by rewrite Hvl, andb_false_r.
    - unfold entry_at in E. rewrite table_at_new in E by done. case_decide as Hc.
      + simpl in E. rewrite load_new_table in E by apply pt_index_bound. by simplify_eq.
      + by rewrite old_below_none in E by (done || lia). }
  rewrite Hnew. unfold leaf_at, entry_at. destruct (decide (d' = d)) as [->|].
  - apply same_path_S in Hsp as [Hsp Hi]. rewrite <-(table_at_path _ _ _ _ _ Hsp), Ht. simpl.
    by rewrite <-Hi, Hold.
  - by rewrite old_below_none by (done || lia).
Qed.

Lemma no_leaf_new D va' : (D <= 3)%nat -> no_leaf m root D va' -> no_leaf m' root D va'.
Proof.
  intros HD H d1 e Hd1 He. apply entry_at_new in He; [|lia].
  destruct He as [He | [(-> & _ & ->) | (-> & _ & ->)]]; [by eapply H | done |].
  destruct d as [|[|[|]]]; try lia; done.
Qed.
End Table.
End Store.

Lemma walk_ext m m' root va :
  (forall d, (d <= 3)%nat -> leaf_at m' root d va = leaf_at m root d va) ->
  walk m' root va = walk m root va.
Proof. intros H. unfold walk. by rewrite !H by lia. Qed.
