(* ===== verification/PagingSpec.v ===== *)
(** * Correctness of the page-table code

    [PageAllocLaws] states what the page-table code expects of its allocator;
    against it, [map_memory] and [ept_map_memory] are shown to install
    exactly the requested translation (as the hardware walk of [PageWalk]
    sees it) and to leave every other address alone.  [PmAlloc] and
    [BootMemSpec] discharge the laws. *)

From S2P Require Import Prelude PhysMem MemMgr MemMgrSpec Paging PageWalk.

(** The allocator's promise: pages it hands out are page aligned, were not
    owned before, are owned afterwards and cleared, and lie below the end of
    its memory; the rest of memory and the ownership of every other page are
    unchanged; while it has pages left it hands them out. *)
Class PageAllocLaws (S : Type) `{PA : !PageAlloc S} := {
  pa_ok : S -> Prop;
  pa_owned : S -> Z -> Prop;
  pa_mem_set m s : pa_mem (pa_set_mem m s) = m;
  pa_ok_set m s : pa_ok s -> pa_ok (pa_set_mem m s);
  pa_owned_set m s q : pa_owned (pa_set_mem m s) q <-> pa_owned s q;
  pa_owned_page s q : pa_ok s -> pa_owned s q -> q mod 4096 = 0 /\ 0 < q < 2 ^ 63;
  pa_top : S -> Z;  (* the end of the memory pages are taken from *)
  pa_top_set m s : pa_top (pa_set_mem m s) = pa_top s;
  pa_alloc_returns s : pa_ok s -> exists p s', pa_alloc s = Ok p s' /\ (p <> 0 ->
    pa_ok s' /\ ~ pa_owned s p /\
    (forall q, pa_owned s' q <-> pa_owned s q \/ q = p) /\
    (forall x, p <= x < p + 4096 -> byte_at (pa_mem s') x = 0) /\
    (forall x, ~ (p <= x < p + 4096) -> byte_at (pa_mem s') x = byte_at (pa_mem s) x) /\
    p + 4096 <= pa_top s /\ pa_top s' = pa_top s);
  pa_avail : S -> Z -> Prop;  (* at least so many pages can be handed out *)
  pa_avail_set m s n : pa_avail s n -> pa_avail (pa_set_mem m s) n;
  pa_avail_less s n k : k <= n -> pa_avail s n -> pa_avail s k;
  pa_alloc_avail s n : 0 < n -> pa_avail s n ->
    exists p s', pa_alloc s = Ok p s' /\ p <> 0 /\ pa_avail s' (n - 1)
}.

(** The only way these operations stop: no page left. *)
Definition oom (e : stop) : Prop := e = Panic "Memory Allocation Failed".
Abbreviation not_oom := (fun e => ~ oom e).

(** ** Entries as numbers *)

Lemma testbit_aligned p k i : 0 <= i < k -> p mod 2 ^ k = 0 -> Z.testbit p i = false.
Proof.
  intros Hi Hp. rewrite <-(Z.mod_pow2_bits_low p k i) by lia. by rewrite Hp, Z.bits_0.
Qed.

(** A page address joined with flags below 4096. *)
Lemma table_entry p f :
  p mod 4096 = 0 -> 0 < p < 2 ^ 63 -> 0 <= f < 4096 ->
  w64 (Z.lor p f) = p + f /\ pte_table (p + f) = p.
Proof.
  intros Hp Hr Hf. rewrite (lor_low_add p f 12) by (done || lia).
  rewrite w64_small by lia. split; [done |]. unfold pte_table.
  change 0xFFF with (2 ^ 12 - 1). rewrite land_lnot_low by lia. change (2 ^ 12) with 4096.
  rewrite <-Zplus_mod_idemp_l, Hp, Z.add_0_l, (Z.mod_small f) by lia. lia.
Qed.

Lemma is_leaf_flags d p f :
  (d <= 2)%nat -> p mod 4096 = 0 -> 0 <= f < 4096 -> Z.testbit f 7 = false ->
  is_leaf d (p + f) = false.
Proof.
  intros Hd Hp Hf H7. rewrite <-(lor_low_add p f 12) by (done || lia).
  assert (Z.testbit (Z.lor p f) 7 = false).
  { rewrite Z.lor_spec, H7, (testbit_aligned p 12 7); done || lia. }
  destruct d as [|[|[|]]]; done || lia.
Qed.

(** The index macros of pmap.c. *)
Lemma pt_index_macros va :
  pml4_idx va = pt_index 0 va /\ pdpe_idx va = pt_index 1 va /\
  pde_idx va = pt_index 2 va /\ pte_idx va = pt_index 3 va.
Proof.
  unfold pml4_idx, pdpe_idx, pde_idx, pte_idx, pt_index.
  change 0x1FF with (2 ^ 9 - 1). rewrite !shiftr_land_field by lia. done.
Qed.

(** For 48-bit addresses, sharing the path means lying in the same page. *)
Lemma same_path_div D va va' :
  (D <= 3)%nat -> 0 <= va < 2 ^ 48 -> 0 <= va' < 2 ^ 48 ->
  same_path (S D) va va' <-> va / page_bytes D = va' / page_bytes D.
Proof.
  unfold page_bytes. intros HD Hva Hva'. revert HD.
  assert (Hsplit : forall k x, (k < 3)%nat ->
    x / 2 ^ (39 - 9 * Z.of_nat (S k)) =
    512 * (x / 2 ^ (39 - 9 * Z.of_nat k)) + pt_index (S k) x).
  { intros k x Hk. unfold pt_index.
    rewrite (Z.div_mod (x / 2 ^ (39 - 9 * Z.of_nat (S k))) 512) at 1 by lia.
    rewrite Z.div_div by lia. do 2 f_equal.
    replace 512 with (2 ^ 9) by done. rewrite <-Z.pow_add_r by lia. do 2 f_equal. lia. }
  induction D as [|D IH]; intros HD.
  - rewrite same_path_S. unfold pt_index.
    change (39 - 9 * Z.of_nat 0) with 39.
    rewrite !Z.mod_small by (split; [apply Z.div_pos; lia | apply Z.div_lt_upper_bound; lia]).
    split; [by intros [_ ?] | intros ?; split; [intros k Hk; lia | done]].
  - rewrite same_path_S, (IH ltac:(lia)), !(Hsplit D) by lia.
    pose proof (pt_index_bound (S D) va). pose proof (pt_index_bound (S D) va'). lia.
Qed.

Section Spec.
Context {S : Type} `{!PageAlloc S, !PageAllocLaws S}.

(** Owned pages that are none of the tables at hand: the code must leave
    them alone. *)
Context (P : Z -> Prop).

Definition kept (s s' : S) : Prop :=
  (forall q, pa_owned s q -> pa_owned s' q) /\ pa_top s' = pa_top s /\
  same_on (fun x => exists q, P q /\ q <= x < q + 4096) (pa_mem s) (pa_mem s').

#[global] Instance kept_preorder : PreOrder kept.
Proof.
  split; [by intros s |]. intros s1 s2 s3 (A & B & C) (A' & B' & C').
  split_and!; [auto | by rewrite B' | by etransitivity].
Qed.

(** The pages that may be tables. *)
Definition mine (s : S) (q : Z) : Prop := pa_owned s q /\ ~ P q /\ q + 4096 <= pa_top s.

(** The state of the tables under [root]. *)
Record tables_ok (root : Z) (s : S) : Prop := {
  to_ok : pa_ok s;
  to_kept : forall q, P q -> pa_owned s q;
  to_wf : pt_wf (mine s) (pa_mem s) root
}.

Lemma mine_page s q : pa_ok s -> mine s q -> q mod 4096 = 0 /\ 0 < q < 2 ^ 63.
Proof. intros Hok [Hq _]. by apply (pa_owned_page s). Qed.

Lemma mine_kept s s' q : kept s s' -> mine s q -> mine s' q.
Proof. intros (H1 & H2 & _) (A & B & C). split_and!; [auto | done | lia]. Qed.

(** Writing an entry of a table. *)
Lemma kept_store s t i v :
  pa_ok s -> (forall q, P q -> pa_owned s q) -> mine s t -> 0 <= i < 512 ->
  kept s (pa_set_mem (store64 (pa_mem s) (t + 8 * i) v) s).
Proof.
  intros Hok HP (Ht & HnP & _) Hi. split_and!; [intros q ?; by apply pa_owned_set | apply pa_top_set |].
  intros x (q & Hq & Hx). rewrite pa_mem_set. symmetry. apply byte_at_store_out. simpl.
  destruct (pa_owned_page s q Hok (HP q Hq)) as [Hq4 _]. destruct (pa_owned_page s t Hok Ht) as [Ht4 _].
  assert (q <> t) by (intros ->; done).
  pose proof (Z.div_mod q 4096 ltac:(lia)). pose proof (Z.div_mod t 4096 ltac:(lia)). lia.
Qed.

(** [s'] extends [s] by tables only: no translation changes, no large page
    appears. *)
Definition grows (root : Z) (s s' : S) : Prop :=
  (forall d va, (d <= 3)%nat -> leaf_at (pa_mem s') root d va = leaf_at (pa_mem s) root d va) /\
  (forall D va, (D <= 3)%nat -> no_leaf (pa_mem s) root D va -> no_leaf (pa_mem s') root D va) /\
  kept s s'.

Lemma grows_refl root s : grows root s s.
Proof. done. Qed.

Lemma grows_trans root s1 s2 s3 : grows root s1 s2 -> grows root s2 s3 -> grows root s1 s3.
Proof.
  intros (L1 & N1 & O1) (L2 & N2 & O2). split_and!; [|auto | by etransitivity].
  intros d va Hd. by rewrite L2, L1.
Qed.

(** A cleared page added to memory does not disturb the tables. *)
Lemma alloc_preserves s p s1 :
  pa_ok s -> pa_ok s1 -> ~ pa_owned s p ->
  (forall x, ~ (p <= x < p + 4096) -> byte_at (pa_mem s1) x = byte_at (pa_mem s) x) ->
  p mod 4096 = 0 ->
  same_on (fun x => exists q, pa_owned s q /\ q <= x < q + 4096) (pa_mem s) (pa_mem s1).
Proof.
  intros Hok Hok1 Hnew Hsame Hp x (q & Hq & Hx). symmetry. apply Hsame.
  destruct (pa_owned_page s q Hok Hq) as [Hqal _]. intros Hpx.
  assert (q <> p) by (intros ->; done).
  pose proof (Z.div_mod q 4096 ltac:(lia)). pose proof (Z.div_mod p 4096 ltac:(lia)). lia.
Qed.

Lemma alloc_kept s p s1 :
  pa_ok s -> (forall q, P q -> pa_owned s q) -> pa_ok s1 -> ~ pa_owned s p ->
  (forall q, pa_owned s1 q <-> pa_owned s q \/ q = p) ->
  (forall x, ~ (p <= x < p + 4096) -> byte_at (pa_mem s1) x = byte_at (pa_mem s) x) ->
  pa_top s1 = pa_top s -> kept s s1.
Proof.
  intros Hok HP Hok1 Hnew Hown Hsame Htop. destruct (pa_owned_page s1 p Hok1) as [Hpal _]; [apply Hown; auto |].
  split_and!; [intros q Hq; apply Hown; auto | done |].
  eapply same_on_mono; [|by apply (alloc_preserves s p s1)]. intros x (q & Hq & Hx). eauto.
Qed.

Section Ensure.
Context (tflags : Z) (Hf : 0 < tflags < 4096) (Hf7 : Z.testbit tflags 7 = false).

(** Installing a page just received from the allocator as a table. *)
Lemma install_table root d va t s p s1 :
  tables_ok root s -> (d < 3)%nat -> table_at (pa_mem s) root d va = Some t ->
  load64 (pa_mem s) (t + 8 * pt_index d va) = 0 ->
  pa_ok s1 -> ~ pa_owned s p ->
  (forall q, pa_owned s1 q <-> pa_owned s q \/ q = p) ->
  (forall x, p <= x < p + 4096 -> byte_at (pa_mem s1) x = 0) ->
  (forall x, ~ (p <= x < p + 4096) -> byte_at (pa_mem s1) x = byte_at (pa_mem s) x) ->
  p + 4096 <= pa_top s -> pa_top s1 = pa_top s ->
  let m2 := store64 (pa_mem s1) (t + 8 * pt_index d va) (Z.lor p tflags) in
  load64 m2 (t + 8 * pt_index d va) = p + tflags /\ pte_table (p + tflags) = p /\
  tables_ok root (pa_set_mem m2 s1) /\ grows root s (pa_set_mem m2 s1) /\
  table_at m2 root (Datatypes.S d) va = Some p.
Proof.
  intros Hto Hd Ht Hz Hok1 Hnew Hown Hzero Hsame Hptop Htop1 m2. pose proof Hto as [Hok HP Hwf].
  destruct (pa_owned_page s1 p Hok1) as [Hpal Hpr]; [apply Hown; auto |].
  pose proof (alloc_preserves s p s1 Hok Hok1 Hnew Hsame Hpal) as Hag0.
  assert (Hag : same_on (fun x => exists q, mine s q /\ q <= x < q + 4096) (pa_mem s) (pa_mem s1)).
  { eapply same_on_mono; [|exact Hag0]. intros x (q & [Hq _] & Hx). eauto. }
  assert (Hk1 : kept s s1) by by apply (alloc_kept s p s1).
  assert (HP1 : forall q, P q -> pa_owned s1 q) by (intros q Hq; apply Hown; auto).
  assert (HnP : ~ P p) by (intros Hp; apply Hnew; auto).
  pose proof (pt_wf_same _ _ _ _ Hwf Hag) as Hwf1.
  pose proof (fun d' va' Hd' => table_at_same _ (pa_mem s) (pa_mem s1) root d' va' Hwf Hd' Hag)
    as Htab.
  assert (Ht1 : table_at (pa_mem s1) root d va = Some t)
    by (rewrite (proj1 (Htab d va ltac:(lia))); done).
  assert (Hmt : mine s t) by (eapply wf_owned; [done | | done]; lia).
  destruct (table_entry p tflags Hpal Hpr ltac:(lia)) as [Hv1 Hv2].
  pose proof (fun q => mine_page s q Hok) as Hown0. pose proof (pt_index_bound d va) as Hi.
  assert (Hload : load64 (pa_mem s1) (t + 8 * pt_index d va) = 0).
  { rewrite <-Hz. apply load_ext. intros x Hx. symmetry. apply Hag.
    exists t. split; [done | simpl in Hx; lia]. }
  assert (Hk2 : kept s (pa_set_mem m2 s1)).
  { etransitivity; [exact Hk1 |]. apply kept_store; [done | done | by eapply mine_kept | done]. }
  unfold m2 in *. set (v := Z.lor p tflags) in *.
  assert (Hvl : is_leaf d (w64 v) = false) by (rewrite Hv1; apply is_leaf_flags; done || lia).
  assert (Hpt : pte_table (w64 v) = p) by by rewrite Hv1.
  assert (Hv0 : w64 v <> 0) by lia.
  assert (Hd3 : (d <= 3)%nat) by lia.
  assert (Hnm : ~ mine s p) by (by intros [? _]).
  rewrite load64_store64_eq. split_and!; [done | done | | |].
  - split; [by apply pa_ok_set | intros q Hq; by apply pa_owned_set, HP1 |]. rewrite pa_mem_set.
    assert (Hw : pt_wf (fun x => mine s x \/ x = p)
                   (store64 (pa_mem s1) (t + 8 * pt_index d va) v) root)
      by (eapply pt_wf_table; eauto).
    destruct Hw as [W1 W2]. split; [|exact W2].
    intros d' va' t' Hd' H'. destruct (W1 _ _ _ Hd' H') as [Hm | ->]; [by eapply mine_kept |].
    split_and!; [apply pa_owned_set, Hown; auto | done | rewrite pa_top_set; lia].
  - unfold grows. rewrite pa_mem_set. split_and!; [| | done].
    + intros d' va' Hd'. erewrite leaf_at_new by eauto. unfold leaf_at.
      by rewrite (proj2 (Htab d' va' Hd')).
    + intros D va' HD Hn. eapply no_leaf_new; eauto.
      intros d' e' Hd' He'. rewrite (proj2 (Htab d' va' ltac:(lia))) in He'. by eapply Hn.
  - erewrite table_at_new by eauto. by rewrite decide_True.
Qed.

Lemma ensure_table_spec root d va t s :
  tables_ok root s -> (d < 3)%nat -> table_at (pa_mem s) root d va = Some t ->
  no_leaf (pa_mem s) root (Datatypes.S d) va ->
  post oom (ensure_table tflags t (pt_index d va)) s (fun t' s' =>
    tables_ok root s' /\ grows root s s' /\
    table_at (pa_mem s') root (Datatypes.S d) va = Some t').
Proof.
  intros Hto Hd Ht Hnl. pose proof Hto as [Hok _ Hwf].
  set (e := load64 (pa_mem s) (t + 8 * pt_index d va)).
  assert (He : is_leaf d e = false).
  { apply (Hnl d); [lia |]. unfold entry_at. by rewrite Ht. }
  unfold ensure_table. wp_step. unfold pte_get. wp_step. fold e. wp_step.
  apply post_when; intros Hz; bool_to_prop.
  2: { repeat (wp_step; fold e). split_and!; [done | apply grows_refl |].
       simpl. rewrite Ht. simpl. fold e. rewrite He.
       by destruct (Z.eqb_spec e 0). }
  wp_step. destruct (pa_alloc_returns s Hok) as (p & s1 & Ha & Hspec).
  unfold post at 1. rewrite Ha. destruct (Z.eqb_spec p 0) as [|Hp0]; [done |].
  destruct (Hspec Hp0) as (Hok1 & Hnew & Hown & Hzero & Hsame & Hptop & Htop1).
  unfold pte_set, pte_get. repeat wp_step. rewrite !pa_mem_set.
  destruct (install_table root d va t s p s1) as (-> & -> & ? & ? & ?); done.
Qed.

(** [page_size] is the size of the pages at depth [D]. *)
Definition size_depth (page_size : Z) (D : nat) : Prop :=
  (page_size = _4KB_ /\ D = 3%nat) \/ (page_size = _2MB_ /\ D = 2%nat) \/
  (page_size = _1GB_ /\ D = 1%nat).

Lemma size_depth_bytes page_size D :
  size_depth page_size D -> page_size = page_bytes D /\ (1 <= D <= 3)%nat.
Proof. intros [[-> ->]|[[-> ->]|[-> ->]]]; (split; [done | lia]). Qed.

(** From [s] to [s'] the page of [va] was mapped by [entry] at depth [D],
    and no other translation changed. *)
Definition page_mapped (root : Z) (D : nat) (va entry : Z) (s s' : S) : Prop :=
  tables_ok root s' /\
  (forall va', same_path (Datatypes.S D) va va' ->
     walk (pa_mem s') root va' = Some (w64 entry, page_bytes D)) /\
  (forall va', ~ same_path (Datatypes.S D) va va' ->
     walk (pa_mem s') root va' = walk (pa_mem s) root va') /\
  (forall va', no_leaf (pa_mem s) root D va' -> no_leaf (pa_mem s') root D va') /\
  kept s s'.

(** The last step of [map_page]: the leaf entry. *)
Lemma write_leaf root D va t entry s :
  tables_ok root s -> (1 <= D <= 3)%nat -> table_at (pa_mem s) root D va = Some t ->
  is_leaf D (w64 entry) = true -> w64 entry <> 0 ->
  post oom (pte_set t (pt_index D va) entry) s (fun _ s' => page_mapped root D va entry s s').
Proof.
  intros [Hok HP Hwf] HD Ht Hl Hz. assert (HD3 : (D <= 3)%nat) by lia.
  pose proof (fun q => mine_page s q Hok) as Hown0.
  assert (Hk : kept s (pa_set_mem (store64 (pa_mem s) (t + 8 * pt_index D va) entry) s)).
  { apply kept_store; [done | done | by eapply wf_owned | apply pt_index_bound]. }
  unfold pte_set, page_mapped. wp_step. rewrite pa_mem_set. split_and!.
  - split; [by apply pa_ok_set | intros q Hq; apply pa_owned_set; auto |]. rewrite pa_mem_set.
    assert (Hw : pt_wf (mine s) (store64 (pa_mem s) (t + 8 * pt_index D va) entry) root)
      by (eapply pt_wf_leaf; eauto).
    destruct Hw as [W1 W2]. split; [|exact W2]. intros. eapply mine_kept; eauto.
  - intros va' Hsp. eapply walk_leaf; eauto. lia.
  - intros va' Hsp. apply walk_ext. intros d Hd. eapply leaf_at_other; eauto.
  - intros va' Hn. eapply no_leaf_store; eauto.
  - done.
Qed.

(** Tables added before the leaf write do not show. *)
Lemma page_mapped_grows root D va entry s s1 s' :
  (D <= 3)%nat -> grows root s s1 -> page_mapped root D va entry s1 s' ->
  page_mapped root D va entry s s'.
Proof.
  intros HD (G1 & G2 & G3) (H1 & H2 & H3 & H4 & H5). split_and!; [done | done | | auto | by etransitivity].
  intros va' Hsp. rewrite H3 by done. apply walk_ext. auto.
Qed.

Lemma no_leaf_mono m root D D' va : (D' <= D)%nat -> no_leaf m root D va -> no_leaf m root D' va.
Proof. intros HD H d e Hd. apply H. lia. Qed.

(** One more table on the way down, the rest of the body as [k]. *)
Lemma descend root D d va t s s0 entry (k : Z -> M S unit) :
  tables_ok root s -> grows root s0 s -> (d < D <= 3)%nat ->
  table_at (pa_mem s) root d va = Some t -> no_leaf (pa_mem s0) root D va ->
  (forall t' s', tables_ok root s' -> grows root s0 s' ->
     table_at (pa_mem s') root (Datatypes.S d) va = Some t' ->
     post oom (k t') s' (fun _ s'' => page_mapped root D va entry s0 s'')) ->
  post oom (ensure_table tflags t (pt_index d va) ≫= k) s
    (fun _ s'' => page_mapped root D va entry s0 s'').
Proof.
  intros Hto Hg Hd Ht Hnl Hk. wp_step.
  eapply post_mono; [apply (ensure_table_spec root d va t s); [done | lia | done |]|].
  - eapply no_leaf_mono; [|apply Hg; [|exact Hnl]]; lia.
  - intros t' s' _ (H1 & H2 & H3). eauto using grows_trans.
Qed.

Lemma map_page_spec root page_size D va entry s :
  tables_ok root s -> size_depth page_size D -> no_leaf (pa_mem s) root D va ->
  is_leaf D (w64 entry) = true -> w64 entry <> 0 ->
  post oom (map_page tflags page_size root va entry) s
    (fun _ s' => page_mapped root D va entry s s').
Proof.
  intros Hto Hsd Hnl Hl Hz.
  assert (Hend : forall t s1, (1 <= D <= 3)%nat -> tables_ok root s1 -> grows root s s1 ->
    table_at (pa_mem s1) root D va = Some t ->
    post oom (pte_set t (pt_index D va) entry) s1 (fun _ s' => page_mapped root D va entry s s')).
  { intros t s1 HD H1 Hg Ht. eapply post_mono; [by apply write_leaf |].
    intros [] s' _ H. eapply page_mapped_grows; [lia | done | done]. }
  unfold map_page. destruct (pt_index_macros va) as (-> & -> & -> & ->).
  destruct Hsd as [[-> ->]|[[-> ->]|[-> ->]]]; simpl.
  - apply descend; [done | apply grows_refl | lia | done | done |]. intros t1 s1 H1 G1 T1.
    apply descend; [done | done | lia | done | done |]. intros t2 s2 H2 G2 T2.
    apply descend; [done | done | lia | done | done |]. intros t3 s3 H3 G3 T3.
    apply Hend; done || lia.
  - apply descend; [done | apply grows_refl | lia | done | done |]. intros t1 s1 H1 G1 T1.
    apply descend; [done | done | lia | done | done |]. intros t2 s2 H2 G2 T2.
    apply Hend; done || lia.
  - apply descend; [done | apply grows_refl | lia | done | done |]. intros t1 s1 H1 G1 T1.
    apply Hend; done || lia.
Qed.

(** From [s] to [s'] the [n] pages from [va] were mapped to the frames
    from [pa], and no other translation changed. *)
Definition region_mapped (root : Z) (D : nat) (n va pa : Z) (leaf : Z -> Z) (s s' : S) : Prop :=
  let ps := page_bytes D in
  tables_ok root s' /\
  (forall k va', 0 <= k < n -> 0 <= va' < 2 ^ 48 -> va' / ps = va / ps + k ->
     walk (pa_mem s') root va' = Some (w64 (leaf (pa + k * ps)), ps)) /\
  (forall va', 0 <= va' < 2 ^ 48 -> ~ (va / ps <= va' / ps < va / ps + n) ->
     walk (pa_mem s') root va' = walk (pa_mem s) root va') /\
  (forall va', no_leaf (pa_mem s) root D va' -> no_leaf (pa_mem s') root D va') /\
  kept s s'.

Lemma map_pages_spec root D leaf page_size :
  size_depth page_size D -> forall (n : nat) va pa s,
  tables_ok root s ->
  0 <= va -> va + Z.of_nat n * page_size <= 2 ^ 48 ->
  0 <= pa -> pa + Z.of_nat n * page_size <= 2 ^ 63 ->
  (forall k, 0 <= k < Z.of_nat n -> no_leaf (pa_mem s) root D (va + k * page_size)) ->
  (forall k, 0 <= k < Z.of_nat n ->
     is_leaf D (w64 (leaf (pa + k * page_size))) = true /\
     w64 (leaf (pa + k * page_size)) <> 0) ->
  post oom (map_pages n tflags page_size leaf root va pa) s
    (fun _ s' => region_mapped root D (Z.of_nat n) va pa leaf s s').
Proof.
  intros Hsd. destruct (size_depth_bytes _ _ Hsd) as [Hps HD].
  assert (Hpos : 0 < page_bytes D) by (rewrite <-Hps; destruct Hsd as [[-> _]|[[-> _]|[-> _]]]; lia).
  induction n as [|n IH]; intros va pa s Hto Hva Htop Hpa Hptop Hnl Hleaf.
  { cbn [map_pages]. wp_step. unfold region_mapped. split_and!; [done | lia | done | done | done]. }
  cbn [map_pages]. wp_step.
  rewrite Nat2Z.inj_succ, Z.mul_succ_l in Htop, Hptop.
  assert (Hn : 0 <= Z.of_nat n * page_size) by nia.
  destruct (Hleaf 0) as [Hl0 Hz0]; [lia |]. rewrite Z.mul_0_l, Z.add_0_r in Hl0, Hz0.
  eapply post_mono; [eapply map_page_spec; try done|].
  { specialize (Hnl 0 ltac:(lia)). by rewrite Z.mul_0_l, Z.add_0_r in Hnl. }
  intros [] s1 _ (H1 & W1 & F1 & N1 & O1).
  rewrite (w64_small (va + page_size)), (w64_small (pa + page_size)) by lia.
  eapply post_mono; [apply IH; try done; try lia|].
  { intros k Hk. apply N1. specialize (Hnl (k + 1) ltac:(lia)).
    by replace (va + page_size + k * page_size) with (va + (k + 1) * page_size) by lia. }
  { intros k Hk. specialize (Hleaf (k + 1) ltac:(lia)).
    by replace (pa + page_size + k * page_size) with (pa + (k + 1) * page_size) by lia. }
  rewrite <-Hps in *. intros [] s2 _ (H2 & W2 & F2 & N2 & O2). cbn zeta in *.
  assert (Hdiv : (va + page_size) / page_size = va / page_size + 1)
    by (replace (va + page_size) with (va + 1 * page_size) by lia; apply Z.div_add; lia).
  rewrite Hps, Hdiv in *. unfold region_mapped. split_and!; [done | | | auto | by etransitivity].
  - intros k va' Hk Hva' Hq. destruct (decide (k = 0)) as [->|].
    + rewrite F2 by lia. rewrite Z.mul_0_l, Z.add_0_r. apply W1.
      apply same_path_div; lia.
    + rewrite (W2 (k - 1)) by lia. do 3 f_equal. f_equal. lia.
  - intros va' Hva' Hq. rewrite F2 by lia. apply F1.
    rewrite same_path_div by lia. lia.
Qed.
End Ensure.

(** ** The two mapping functions *)

(** Arguments the checks accept, in the 48-bit address space. *)
Record region_args (page_size : Z) (D : nat) (start_va end_va pa f : Z) : Prop := {
  ra_size : size_depth page_size D;
  ra_order : 0 <= start_va < end_va;
  ra_pages : end_va - start_va <= (2 ^ 31 - 1) * page_size;
  ra_top : start_va + region_pages start_va end_va page_size * page_size <= 2 ^ 48;
  ra_aligned : pa mod page_size = 0;
  ra_frames : 0 <= pa /\ pa + region_pages start_va end_va page_size * page_size <= 2 ^ 63;
  ra_flags : 0 < f < 4096
}.

Definition with_pse (page_size f : Z) : Z := if page_size =? _4KB_ then f else Z.lor f 128.

Lemma with_pse_bound page_size f : 0 < f < 4096 -> 0 < with_pse page_size f < 4096.
Proof.
  intros Hf. unfold with_pse. destruct (page_size =? _4KB_); [done |].
  pose proof (lor_bound f 128 12). assert (Z.lor f 128 <> 0) by (rewrite Z.lor_eq_0_iff; lia). lia.
Qed.

(** The page count is the size rounded up to whole pages. *)
Lemma region_pages_pos page_size D start_va end_va pa f :
  region_args page_size D start_va end_va pa f ->
  let n := region_pages start_va end_va page_size in
  0 < n /\ (n - 1) * page_size < end_va - start_va <= n * page_size.
Proof.
  intros []. unfold region_pages. cbn zeta. set (sz := end_va - start_va) in *.
  assert (0 < page_size) by (destruct ra_size0 as [[-> _]|[[-> _]|[-> _]]]; lia).
  pose proof (Z.div_mod sz page_size ltac:(lia)).
  pose proof (Z.mod_pos_bound sz page_size ltac:(lia)).
  assert (0 <= sz / page_size) by (apply Z.div_pos; lia).
  assert (sz / page_size <= 2 ^ 31 - 1) by (apply Z.div_le_upper_bound; lia).
  assert (sz mod page_size <> 0 -> sz / page_size < 2 ^ 31 - 1) by nia.
  destruct (Z.eqb_spec (sz mod page_size) 0); rewrite s32_small by lia; nia.
Qed.

Lemma region_pages_nonneg page_size D start_va end_va pa f :
  region_args page_size D start_va end_va pa f -> 0 <= region_pages start_va end_va page_size.
Proof. intros H%region_pages_pos. simpl in H. lia. Qed.

Lemma check_region_ok page_size D start_va end_va pa f (s : S) :
  region_args page_size D start_va end_va pa f ->
  check_region start_va end_va pa page_size f 128 s = Ok (with_pse page_size f) s.
Proof.
  intros []. unfold check_region, with_pse.
  destruct (Z.ltb_spec end_va start_va); [lia |].
  destruct (Z.eqb_spec start_va end_va); [lia |].
  assert (Hal : Z.land pa (page_size - 1) = 0).
  { destruct ra_size0 as [[-> _]|[[-> _]|[-> _]]]; rewrite <-ra_aligned0;
      [apply (land_low pa 12) | apply (land_low pa 21) | apply (land_low pa 30)]; lia. }
  destruct ra_size0 as [[-> _]|[[-> _]|[-> _]]]; erewrite bind_step by done; simpl in *;
    by rewrite Hal.
Qed.

(** The leaf entries built by the mapping functions. *)
Lemma leaf_entry page_size D pa f :
  size_depth page_size D -> pa mod page_size = 0 -> 0 <= pa < 2 ^ 63 -> 0 < f < 4096 ->
  (page_size <> _4KB_ -> Z.testbit f 7 = true) ->
  w64 (Z.lor pa f) = pa + f /\ is_leaf D (pa + f) = true /\ pa + f <> 0.
Proof.
  intros Hsd Hpa Hr Hf H7.
  assert (Hpa4 : pa mod 4096 = 0).
  { destruct Hsd as [[-> _]|[[-> _]|[-> _]]]; [done | |];
      apply Z.mod_divide in Hpa as [q ->]; try lia.
    - replace (q * _2MB_) with (q * 512 * 4096) by lia. by apply Z.mod_mul.
    - replace (q * _1GB_) with (q * 512 * 512 * 4096) by lia. by apply Z.mod_mul. }
  pose proof (lor_low_add pa f 12 ltac:(lia) Hpa4 ltac:(lia)) as Hadd.
  split_and!; [rewrite Hadd; apply w64_small; lia | | lia].
  rewrite <-Hadd. destruct Hsd as [[-> ->]|[[-> ->]|[-> ->]]]; [done | |];
    unfold is_leaf; rewrite Z.lor_spec, H7 by done; apply orb_true_r.
Qed.

Lemma with_pse_testbit page_size f :
  page_size <> _4KB_ -> Z.testbit (with_pse page_size f) 7 = true.
Proof.
  intros H. unfold with_pse. destruct (Z.eqb_spec page_size _4KB_); [done |].
  by rewrite Z.lor_spec, orb_true_r.
Qed.

(** The mapping loop over a region, with leaf flags [f] (large-page bit
    included). *)
Lemma map_loop_spec tflags root page_size D start_va end_va pa f0 f leaf s :
  0 < tflags < 4096 -> Z.testbit tflags 7 = false ->
  region_args page_size D start_va end_va pa f0 ->
  0 < f < 4096 -> (page_size <> _4KB_ -> Z.testbit f 7 = true) ->
  (forall p, leaf p = Z.lor p f) ->
  let n := region_pages start_va end_va page_size in
  tables_ok root s ->
  (forall k, 0 <= k < n -> no_leaf (pa_mem s) root D (start_va + k * page_size)) ->
  post oom (map_loop tflags page_size leaf root start_va end_va pa) s (fun _ s' =>
    region_mapped root D n start_va pa (fun p => p + f) s s').
Proof.
  intros Htf Htf7 Hargs Hf Hf7 Hleaf n Hto Hnl. pose proof (region_pages_pos _ _ _ _ _ _ Hargs) as [Hn _].
  pose proof Hargs as []. fold n in Hn, ra_top0, ra_frames0. destruct (size_depth_bytes _ _ ra_size0) as [Hps _].
  assert (Hpos : 0 < page_size) by (destruct ra_size0 as [[-> _]|[[-> _]|[-> _]]]; lia).
  unfold map_loop. fold n. destruct (Z.ltb_spec n 0); [lia |].
  assert (Hent : forall k, 0 <= k < n ->
    w64 (leaf (pa + k * page_size)) = pa + k * page_size + f /\
    is_leaf D (pa + k * page_size + f) = true /\ pa + k * page_size + f <> 0).
  { intros k Hk. rewrite Hleaf. apply (leaf_entry page_size); try done; [|nia].
    by rewrite Z.mod_add by lia. }
  eapply post_mono.
  - eapply (map_pages_spec tflags Htf Htf7 root D leaf page_size); try done; rewrite ?Z2Nat.id by lia; try lia; try done.
    intros k Hk. destruct (Hent k Hk) as (-> & ? & ?). done.
  - rewrite Z2Nat.id by lia. intros [] s' _ (H1 & H2 & H3). split_and!; [done | | apply H3..].
    intros k va' Hk Hva' Hq. rewrite (H2 k) by done. rewrite <-Hps.
    destruct (Hent k Hk) as (-> & _). rewrite w64_small; [done |].
    assert (k * page_size <= (n - 1) * page_size) by nia. nia.
Qed.
(** A cleared page as a root: no tables below it, nothing mapped. *)
Lemma fresh_root s p :
  pa_ok s -> (forall q, P q -> pa_owned s q) -> mine s p ->
  (forall x, p <= x < p + 4096 -> byte_at (pa_mem s) x = 0) ->
  tables_ok p s /\ (forall va, walk (pa_mem s) p va = None) /\
  (forall D va, no_leaf (pa_mem s) p D va).
Proof.
  intros Hok HP Hown Hzero.
  assert (Hz : forall va, load64 (pa_mem s) (p + 8 * pt_index 0 va) = 0).
  { intros va. apply load_zero. intros x Hx. apply Hzero.
    pose proof (pt_index_bound 0 va). lia. }
  assert (Hnone : forall d va, table_at (pa_mem s) p (Datatypes.S d) va = None).
  { induction d as [|d IH]; intros va; cbn [table_at].
    - simpl. by rewrite Hz.
    - cbn [table_at] in IH. by rewrite IH. }
  assert (Htab : forall d va t, table_at (pa_mem s) p d va = Some t -> d = 0%nat /\ t = p).
  { intros [|d] va t; [by intros [= ->] | by rewrite Hnone]. }
  split_and!.
  - split; [done | done |]. split.
    + by intros d va t _ [-> ->]%Htab.
    + intros d d' va va' t _ _ [-> _]%Htab [-> _]%Htab. split; [done |]. intros k Hk. lia.
  - intros va. unfold walk, leaf_at, entry_at. by rewrite !Hnone.
  - intros D va d e _. unfold entry_at.
    destruct (table_at (pa_mem s) p d va) as [t|] eqn:E; [|done].
    by apply Htab in E as [-> ->].
Qed.

(** The part [map_memory] and [ept_map_memory] share, for leaf flags [f]. *)
Lemma map_region_spec tflags (leaf : Z -> Z) page_size D start_va end_va pa f0 f flags root s :
  0 < tflags < 4096 -> Z.testbit tflags 7 = false ->
  region_args page_size D start_va end_va pa f0 ->
  0 < f < 4096 -> (page_size <> _4KB_ -> Z.testbit f 7 = true) ->
  (forall p, leaf p = Z.lor p f) ->
  let n := region_pages start_va end_va page_size in
  let body := pml4 ← map_root flags root;
              map_loop tflags page_size leaf pml4 start_va end_va pa ;; mret pml4 in
  (flags = MAP_NEW -> pa_ok s -> (forall q, P q -> pa_owned s q) ->
   post oom body s (fun root' s' => ~ pa_owned s root' /\
     exists s0, (forall va, walk (pa_mem s0) root' va = None) /\
     (forall D va, no_leaf (pa_mem s0) root' D va) /\ kept s s0 /\
     region_mapped root' D n start_va pa (fun p => p + f) s0 s')) /\
  (flags = MAP_UPDATE -> tables_ok root s -> load64 (pa_mem s) root <> 0 ->
   (forall k, 0 <= k < n -> no_leaf (pa_mem s) root D (start_va + k * page_size)) ->
   post oom body s (fun root' s' => root' = root /\
     region_mapped root D n start_va pa (fun p => p + f) s s')).
Proof.
  intros Ht Ht7 Hargs Hf Hf7 Hleaf n. split.
  - intros -> Hok HP. unfold map_root. simpl. wp_step. wp_step.
    destruct (pa_alloc_returns s Hok) as (p & s1 & Ha & Hspec).
    unfold post at 1. rewrite Ha. destruct (Z.eqb_spec p 0) as [|Hp0]; [done |].
    destruct (Hspec Hp0) as (Hok1 & Hnew & Hown & Hzero & Hsame & Hptop & Htop).
    assert (Hk : kept s s1) by by apply (alloc_kept s p s1).
    destruct (fresh_root s1 p) as (Hto & Hw & Hnl); [done | intros q Hq; apply Hown; auto | | done |].
    { split_and!; [apply Hown; by right | by intros Hp; apply Hnew, HP | lia]. }
    wp_step. wp_step. eapply post_mono; [eapply map_loop_spec; eauto|].
    intros [] s2 _ Hr. wp_step. split; [done |]. exists s1.
    split_and!; done.
  - intros -> Hto Hnz Hnl. unfold map_root. simpl. wp_step.
    unfold pte_get. wp_step. wp_step. rewrite Z.add_0_r.
    destruct (Z.eqb_spec (load64 (pa_mem s) root) 0); [done |].
    wp_step. wp_step. eapply post_mono; [eapply map_loop_spec; eauto|].
    intros [] s2 _ Hr. by wp_step.
Qed.

(** ** Running out of pages *)

Lemma post_both {A} E1 E2 (m : M S A) s Q1 Q2 :
  post E1 m s Q1 -> post E2 m s Q2 ->
  post (fun e => E1 e /\ E2 e) m s (fun a s' => Q1 a s' /\ Q2 a s').
Proof. unfold post. destruct (m s); tauto. Qed.

Lemma ensure_table_avail tflags t i (s : S) n :
  0 <= n -> pa_avail s (n + 1) ->
  post not_oom (ensure_table tflags t i) s (fun _ s' => pa_avail s' n).
Proof.
  intros Hn Ha. unfold ensure_table, pte_get, pte_set. do 2 wp_step. wp_step. wp_step.
  - wp_step. destruct (pa_alloc_avail s (n + 1)) as (p & s1 & Hp & Hnz & Ha1); [lia | done |].
    unfold post at 1. rewrite Hp. destruct (Z.eqb_spec p 0); [done |].
    repeat wp_step. apply pa_avail_set. by replace (n + 1 - 1) with n in Ha1 by lia.
  - repeat wp_step. eapply pa_avail_less; [|done]. lia.
Qed.

Lemma map_page_avail tflags ps t va e (s : S) n :
  0 <= n -> pa_avail s (n + 3) ->
  post not_oom (map_page tflags ps t va e) s (fun _ s' => pa_avail s' n).
Proof.
  intros Hn Ha. unfold map_page.
  assert (Hset : forall t i v (s' : S) k, n <= k -> pa_avail s' k ->
    post not_oom (pte_set t i v) s' (fun _ s'' => pa_avail s'' n)).
  { intros. unfold pte_set. wp_step. apply pa_avail_set. by eapply pa_avail_less. }
  wp_step. eapply post_mono; [apply (ensure_table_avail _ _ _ s (n + 2)); [lia | by rewrite <-Z.add_assoc] |].
  intros t1 s1 _ H1. destruct (ps <? _1GB_); [|by apply (Hset _ _ _ _ (n + 2)); [lia |]].
  wp_step. eapply post_mono; [apply (ensure_table_avail _ _ _ s1 (n + 1)); [lia | by rewrite <-Z.add_assoc] |].
  intros t2 s2 _ H2. destruct (ps <? _2MB_); [|by apply (Hset _ _ _ _ (n + 1)); [lia |]].
  wp_step. eapply post_mono; [by apply (ensure_table_avail _ _ _ s2 n) |].
  intros t3 s3 _ H3. by apply (Hset _ _ _ _ n).
Qed.

Lemma map_pages_avail tflags ps leaf t (k : nat) va pa (s : S) r :
  0 <= r -> pa_avail s (3 * Z.of_nat k + r) ->
  post not_oom (map_pages k tflags ps leaf t va pa) s (fun _ s' => pa_avail s' r).
Proof.
  intros Hr. revert va pa s. induction k as [|k IH]; intros va pa s Ha; cbn [map_pages]; [done |].
  wp_step. eapply post_mono.
  - apply (map_page_avail _ _ _ _ _ s (3 * Z.of_nat k + r)); [lia |].
    by replace (3 * Z.of_nat k + r + 3) with (3 * Z.of_nat (Datatypes.S k) + r) by lia.
  - intros [] s1 _ H1. by apply IH.
Qed.

(** Three tables for every page and the root are always enough. *)
Lemma map_region_avail tflags leaf page_size start_va end_va pa flags root (s : S) r :
  let n := region_pages start_va end_va page_size in
  0 <= n -> 0 <= r -> pa_avail s (3 * n + 1 + r) ->
  post not_oom (pml4 ← map_root flags root;
    map_loop tflags page_size leaf pml4 start_va end_va pa ;; mret pml4) s (fun _ s' => pa_avail s' r).
Proof.
  intros n Hn Hr Ha.
  assert (Hloop : forall t (s1 : S), pa_avail s1 (3 * n + r) ->
    post not_oom (map_loop tflags page_size leaf t start_va end_va pa ;; mret t) s1 (fun _ s' => pa_avail s' r)).
  { intros t s1 H1. wp_step. unfold map_loop. fold n. destruct (Z.ltb_spec n 0); [lia |].
    eapply post_mono; [apply (map_pages_avail _ _ _ _ _ _ _ _ r); [done | rewrite Z2Nat.id by lia; done] |]. done. }
  wp_step. unfold map_root, pte_get. destruct (flags =? MAP_NEW); [|destruct (flags =? MAP_UPDATE)].
  - wp_step. destruct (pa_alloc_avail s (3 * n + 1 + r)) as (p & s1 & Hp & Hnz & Ha1); [lia | done |].
    unfold post at 1. rewrite Hp. destruct (Z.eqb_spec p 0); [done |]. wp_step. apply Hloop.
    by replace (3 * n + 1 + r - 1) with (3 * n + r) in Ha1 by lia.
  - wp_step. wp_step. case_if; [by unfold oom |]. wp_step. apply Hloop. eapply pa_avail_less; [|done]. lia.
  - by unfold oom.
Qed.

Lemma check_region_avail {A} start_va end_va pa page_size f b (s : S) (k : Z -> M S A) Q :
  (forall prot, post not_oom (k prot) s Q) ->
  post not_oom (prot ← check_region start_va end_va pa page_size f b; k prot) s Q.
Proof.
  intros Hk. unfold check_region. wp_step.
  assert (Hp : forall msg, msg <> "Memory Allocation Failed"%string ->
    post not_oom (panic msg) s (fun prot s' => post not_oom (k prot) s' Q)).
  { intros msg Hm [= E]. done. }
  repeat (case_if || (apply Hp; done) || wp_step); try done.
Qed.

(** Running out is the only way to fail, and it needs a real shortage. *)
Definition shortage (s : S) (n : Z) (e : stop) : Prop := oom e /\ ~ pa_avail s (3 * n + 1).

Lemma post_shortage {A} (m : M S A) (s : S) n Q :
  post oom m s Q -> (pa_avail s (3 * n + 1 + 0) -> post not_oom m s (fun _ s' => pa_avail s' 0)) ->
  post (shortage s n) m s Q.
Proof.
  unfold post, shortage. intros H1 H2. destruct (m s); [done |]. split; [done |].
  intros Ha. apply H2; [by rewrite Z.add_0_r | done].
Qed.

(** ** The theorems *)

(** What a mapping call asks for: the leaf entry of [va], if [va] lies in
    one of the [n] pages from [start_va]. *)
Definition region_walk (page_size start_va n pa f va : Z) : option (Z * Z) :=
  let k := va / page_size - start_va / page_size in
  if (0 <=? k) && (k <? n) then Some (pa + k * page_size + f, page_size) else None.

Lemma region_mapped_walk root page_size D start_va end_va pa f0 f s s' va :
  region_args page_size D start_va end_va pa f0 -> 0 < f < 4096 -> 0 <= va < 2 ^ 48 ->
  let n := region_pages start_va end_va page_size in
  region_mapped root D n start_va pa (fun p => p + f) s s' ->
  walk (pa_mem s') root va =
    match region_walk page_size start_va n pa f va with
    | Some r => Some r
    | None => walk (pa_mem s) root va
    end.
Proof.
  intros Hargs Hf Hva n (_ & Hin & Hout & _).
  destruct (region_pages_pos _ _ _ _ _ _ Hargs) as [Hn _]. fold n in Hn.
  destruct Hargs. fold n in ra_frames0.
  destruct (size_depth_bytes _ _ ra_size0) as [Hps HD].
  assert (Hpos : 0 < page_size) by (destruct ra_size0 as [[-> _]|[[-> _]|[-> _]]]; lia).
  rewrite <-Hps in *. unfold region_walk. set (k := va / page_size - start_va / page_size).
  destruct (Z.leb_spec 0 k); simpl; [destruct (Z.ltb_spec k n)|].
  - rewrite (Hin k) by lia. rewrite w64_small by nia. done.
  - apply Hout; lia.
  - apply Hout; lia.
Qed.

(** What both mapping functions do after their checks, for leaf flags [f];
    [flags] tells whether the tables are new. *)
Definition mapped (root page_size : Z) (D : nat) (start_va end_va pa f flags : Z) (s : S)
    (root' : Z) (s' : S) : Prop :=
  tables_ok root' s' /\ (flags = MAP_UPDATE -> root' = root) /\
  (flags = MAP_NEW -> ~ pa_owned s root') /\ kept s s' /\
  (forall va, flags = MAP_NEW \/ no_leaf (pa_mem s) root D va -> no_leaf (pa_mem s') root' D va) /\
  forall va, 0 <= va < 2 ^ 48 -> walk (pa_mem s') root' va =
    match region_walk page_size start_va (region_pages start_va end_va page_size) pa f va with
    | Some r => Some r
    | None => if flags =? MAP_NEW then None else walk (pa_mem s) root va
    end.

(** Tables the call can work on: new ones, or existing ones in which no page
    of the region is covered by a larger page. *)
Definition mappable (root page_size : Z) (D : nat) (start_va end_va flags : Z) (s : S) : Prop :=
  flags = MAP_NEW /\ pa_ok s /\ (forall q, P q -> pa_owned s q) \/
  flags = MAP_UPDATE /\ tables_ok root s /\ load64 (pa_mem s) root <> 0 /\
    (forall k, 0 <= k < region_pages start_va end_va page_size ->
       no_leaf (pa_mem s) root D (start_va + k * page_size)).

Lemma map_body_spec tflags leaf root page_size D start_va end_va pa f0 f flags s :
  0 < tflags < 4096 -> Z.testbit tflags 7 = false ->
  region_args page_size D start_va end_va pa f0 ->
  0 < f < 4096 -> (page_size <> _4KB_ -> Z.testbit f 7 = true) -> (forall p, leaf p = Z.lor p f) ->
  mappable root page_size D start_va end_va flags s ->
  post (shortage s (region_pages start_va end_va page_size))
    (pml4 ← map_root flags root; map_loop tflags page_size leaf pml4 start_va end_va pa ;; mret pml4) s
    (mapped root page_size D start_va end_va pa f flags s).
Proof.
  intros Ht Ht7 Hargs Hf Hf7 Hleaf Hcase.
  destruct (map_region_spec tflags leaf page_size D start_va end_va pa f0 f flags root s) as [Hnew Hupd]; try done.
  apply post_shortage; [|by apply map_region_avail; [eapply region_pages_nonneg |]].
  destruct Hcase as [(-> & Hok & HP)|(-> & Hto & Hnz & Hnl)].
  - eapply post_mono; [by apply Hnew |].
    intros root' s' _ (Hr & s0 & Hw & Hn0 & Ho & Hmap). split_and!; [apply Hmap | done | done | | |].
    + etransitivity; [exact Ho | apply Hmap].
    + intros va _. by apply Hmap.
    + intros va Hva. erewrite region_mapped_walk by done. rewrite Hw. by destruct (region_walk _ _ _ _ _ _).
  - eapply post_mono; [by apply Hupd |].
    intros root' s' _ (-> & Hmap). split_and!; [apply Hmap | done | done | apply Hmap | |].
    + intros va [?|Hva]; [done | by apply Hmap].
    + intros va Hva. by erewrite region_mapped_walk.
Qed.

Lemma map_memory_spec root page_size D start_va end_va pa f flags s :
  region_args page_size D start_va end_va pa f -> mappable root page_size D start_va end_va flags s ->
  post (shortage s (region_pages start_va end_va page_size))
    (map_memory root start_va end_va pa page_size f flags) s
    (mapped root page_size D start_va end_va pa (with_pse page_size f) flags s).
Proof.
  intros Hargs Hcase. unfold map_memory. wp_step. unfold post at 1. erewrite check_region_ok by done.
  eapply map_body_spec; try done; [by eapply with_pse_bound, ra_flags | by apply with_pse_testbit].
Qed.

(** C7: mapping a region of [n] pages into a new set of tables with
    [map_memory] returns (it can fail only when the allocator cannot provide
    [3 n + 1] pages) with a root that was not in use, under which exactly
    the pages of the requested region are mapped: to consecutive frames from
    [pa], with the requested protection (and the page-size bit for large
    pages); every other address of the 48-bit space is unmapped.  No page of
    [P], any set of pages in use before, is touched. *)
Theorem map_memory_new root page_size D start_va end_va pa f s :
  region_args page_size D start_va end_va pa f -> pa_ok s -> (forall q, P q -> pa_owned s q) ->
  post (shortage s (region_pages start_va end_va page_size)) (map_memory root start_va end_va pa page_size f MAP_NEW) s (fun root' s' =>
    tables_ok root' s' /\ ~ pa_owned s root' /\ kept s s' /\
    forall va, 0 <= va < 2 ^ 48 -> walk (pa_mem s') root' va =
      region_walk page_size start_va (region_pages start_va end_va page_size) pa
        (with_pse page_size f) va).
Proof.
  intros Hargs Hok HP. eapply post_mono; [by apply (map_memory_spec root page_size D); [|left] |].
  intros root' s' _ (H1 & _ & H3 & H4 & _ & H6). split_and!; [done | by apply H3 | done |].
  intros va Hva. rewrite H6 by done. by destruct (region_walk _ _ _ _ _ _).
Qed.

(** Updating existing tables with [map_memory], where no larger page
    lies in the region, keeps the root, maps the region's pages as
    requested and leaves the translation of every other address as it was,
    and every page in use that is not one of the tables untouched;
    the only failure is an allocator that cannot provide three tables for
    each page. *)
Theorem map_memory_update root page_size D start_va end_va pa f s :
  region_args page_size D start_va end_va pa f -> tables_ok root s ->
  load64 (pa_mem s) root <> 0 ->
  (forall k, 0 <= k < region_pages start_va end_va page_size ->
     no_leaf (pa_mem s) root D (start_va + k * page_size)) ->
  post (shortage s (region_pages start_va end_va page_size)) (map_memory root start_va end_va pa page_size f MAP_UPDATE) s (fun root' s' =>
    root' = root /\ tables_ok root s' /\ kept s s' /\
    forall va, 0 <= va < 2 ^ 48 -> walk (pa_mem s') root va =
      match region_walk page_size start_va (region_pages start_va end_va page_size) pa
              (with_pse page_size f) va with
      | Some r => Some r
      | None => walk (pa_mem s) root va
      end).
Proof.
  intros Hargs Hto Hnz Hnl. eapply post_mono; [by apply (map_memory_spec root page_size D); [|right] |].
  intros root' s' _ (H1 & H2 & _ & H4 & _ & H6). by rewrite (H2 eq_refl) in *.
Qed.


Definition ept_flags (page_size mtype f : Z) : Z := Z.lor (Z.shiftl mtype 3) (with_pse page_size f).

Lemma ept_flags_bound page_size mtype f :
  0 <= mtype < 8 -> 0 < f < 4096 -> 0 < ept_flags page_size mtype f < 4096.
Proof.
  intros Hm Hf. pose proof (with_pse_bound page_size f Hf) as Hw. unfold ept_flags.
  assert (0 <= Z.shiftl mtype 3 < 2 ^ 12) by (rewrite Z.shiftl_mul_pow2; lia).
  pose proof (lor_bound (Z.shiftl mtype 3) (with_pse page_size f) 12).
  assert (Z.lor (Z.shiftl mtype 3) (with_pse page_size f) <> 0) by (rewrite Z.lor_eq_0_iff; lia). lia.
Qed.

Lemma ept_flags_testbit page_size mtype f :
  page_size <> _4KB_ -> Z.testbit (ept_flags page_size mtype f) 7 = true.
Proof. intros. unfold ept_flags. by rewrite Z.lor_spec, with_pse_testbit, orb_true_r. Qed.

Lemma ept_map_memory_spec root page_size D start_va end_va pa mtype f flags s :
  region_args page_size D start_va end_va pa f -> 0 <= mtype < 8 ->
  mappable root page_size D start_va end_va flags s ->
  post (shortage s (region_pages start_va end_va page_size))
    (ept_map_memory root start_va end_va pa page_size mtype f flags) s
    (mapped root page_size D start_va end_va pa (ept_flags page_size mtype f) flags s).
Proof.
  intros Hargs Hm Hcase. unfold ept_map_memory. wp_step. unfold post at 1. erewrite check_region_ok by done.
  eapply map_body_spec; try done; [eapply ept_flags_bound; [done | by eapply ra_flags] |
    by apply ept_flags_testbit | intros p; symmetry; apply Z.lor_assoc].
Qed.

(** Three tables for every page and the root are always enough. *)
Lemma ept_map_memory_avail root start_va end_va pa page_size mtype f flags (s : S) r :
  0 <= region_pages start_va end_va page_size -> 0 <= r ->
  pa_avail s (3 * region_pages start_va end_va page_size + 1 + r) ->
  post not_oom (ept_map_memory root start_va end_va pa page_size mtype f flags) s (fun _ s' => pa_avail s' r).
Proof.
  intros Hn Hr Ha. unfold ept_map_memory. apply check_region_avail. intros prot. by apply map_region_avail.
Qed.

Lemma map_memory_avail root start_va end_va pa page_size f flags (s : S) r :
  0 <= region_pages start_va end_va page_size -> 0 <= r ->
  pa_avail s (3 * region_pages start_va end_va page_size + 1 + r) ->
  post not_oom (map_memory root start_va end_va pa page_size f flags) s (fun _ s' => pa_avail s' r).
Proof.
  intros Hn Hr Ha. unfold map_memory. apply check_region_avail. intros prot. by apply map_region_avail.
Qed.

(** The same guarantee for [ept_map_memory], for a new EPT and for an
    update: the region's pages carry the memory type in bits 3 to 5 next to
    the protection, and nothing else changes, neither a translation nor a
    page in use that is not one of the EPT's tables. *)
Theorem ept_map_memory_correct root page_size D start_va end_va pa mtype f flags s :
  region_args page_size D start_va end_va pa f -> 0 <= mtype < 8 ->
  mappable root page_size D start_va end_va flags s ->
  post (shortage s (region_pages start_va end_va page_size)) (ept_map_memory root start_va end_va pa page_size mtype f flags) s (fun root' s' =>
    tables_ok root' s' /\ (flags = MAP_UPDATE -> root' = root) /\ kept s s' /\
    forall va, 0 <= va < 2 ^ 48 -> walk (pa_mem s') root' va =
      match region_walk page_size start_va (region_pages start_va end_va page_size) pa
              (ept_flags page_size mtype f) va with
      | Some r => Some r
      | None => if flags =? MAP_NEW then None else walk (pa_mem s) root va
      end).
Proof.
  intros Hargs Hm Hcase. eapply post_mono; [by apply (ept_map_memory_spec root page_size D) |].
  intros root' s' _ (H1 & H2 & _ & H3 & _ & H4). done.
Qed.

(** ** Unmapping *)

(** [va'] lies in the page that maps [va]. *)
Definition same_page (m : memory) (root va va' : Z) : bool :=
  match walk m root va with
  | Some (_, size) => va / size =? va' / size
  | None => false
  end.

(** What [unmap_memory] leaves behind. *)
Definition unmapped (root va : Z) (s s' : S) : Prop :=
  tables_ok root s' /\ kept s s' /\ walk (pa_mem s') root va = None /\
  forall va', 0 <= va' < 2 ^ 48 -> walk (pa_mem s') root va' =
    if same_page (pa_mem s) root va va' then None else walk (pa_mem s) root va'.

Lemma unmapped_absent root d va s :
  (d <= 3)%nat -> entry_at (pa_mem s) root d va = Some 0 -> tables_ok root s ->
  unmapped root va s s.
Proof.
  intros Hd He Hto. unfold unmapped, same_page.
  by rewrite (walk_entry _ _ _ _ _ Hd He) by by left.
Qed.

Lemma clear_entry root d va t e s :
  tables_ok root s -> (1 <= d <= 3)%nat -> 0 <= va < 2 ^ 48 ->
  table_at (pa_mem s) root d va = Some t ->
  entry_at (pa_mem s) root d va = Some e -> is_leaf d e = true ->
  wp (pte_set t (pt_index d va) 0) s (fun _ s' => unmapped root va s s').
Proof.
  intros [Hok HP Hwf] Hd Hva Ht He Hl. assert (Hd3 : (d <= 3)%nat) by lia.
  pose proof (fun q => mine_page s q Hok) as Hown.
  assert (Hk : kept s (pa_set_mem (store64 (pa_mem s) (t + 8 * pt_index d va) 0) s)).
  { apply kept_store; [done | done | by eapply wf_owned | apply pt_index_bound]. }
  assert (Hnone : table_at (pa_mem s) root (Datatypes.S d) va = None).
  { simpl. unfold entry_at in He. rewrite Ht in *. simpl in *. injection He as ->.
    by rewrite Hl, orb_true_r. }
  assert (Hw : forall va', walk (store64 (pa_mem s) (t + 8 * pt_index d va) 0) root va' =
    if decide (same_path (Datatypes.S d) va va') then None else walk (pa_mem s) root va')
    by (intros va'; by eapply (walk_clear (mine s))).
  unfold pte_set. wp_step. unfold unmapped. rewrite pa_mem_set. split_and!.
  - split; [by apply pa_ok_set | intros q Hq; apply pa_owned_set; auto |]. rewrite pa_mem_set.
    assert (pt_wf (mine s) (store64 (pa_mem s) (t + 8 * pt_index d va) 0) root) as [W1 W2]
      by (by eapply pt_wf_clear). split; [|exact W2]. intros. eapply mine_kept; eauto.
  - done.
  - rewrite Hw. by rewrite decide_True.
  - intros va' Hva'. rewrite Hw. unfold same_page.
    rewrite (walk_entry _ _ _ _ _ Hd3 He) by by right.
    pose proof (same_path_div d va va' Hd3 Hva Hva') as Hiff.
    destruct (Z.eqb_spec e 0) as [->|]; cycle 1.
    { destruct Hiff as [Hi1 Hi2]. destruct (Z.eqb_spec (va / page_bytes d) (va' / page_bytes d));
        [rewrite decide_True by auto | rewrite decide_False by auto]; done. }
    case_decide as Hc; [|done]. symmetry.
    rewrite (walk_entry (pa_mem s) root d va' 0); [done | done | | by left].
    apply same_path_S in Hc as [Hc Hi]. unfold entry_at in *.
    by rewrite <-(table_at_path _ _ _ _ _ Hc), <-Hi.
Qed.

Lemma land_pse e : (Z.land e PAGE_PSE =? 0) = negb (Z.testbit e 7).
Proof.
  destruct (Z.eqb_spec (Z.land e 128) 0) as [H|H].
  - assert (Hb : Z.testbit (Z.land e 128) 7 = false) by by rewrite H.
    rewrite Z.land_spec, andb_true_r in Hb. by rewrite Hb.
  - destruct (Z.testbit e 7) eqn:Hb; [done |]. exfalso. apply H.
    change 128 with (2 ^ 7). apply Z.bits_inj'. intros i Hi. rewrite Z.land_spec, Z.bits_0, Z.pow2_bits_eqb by lia.
    destruct (Z.eqb_spec 7 i) as [<-|]; [by rewrite Hb | apply andb_false_r].
Qed.

(** [unmap_memory] always returns; afterwards [va] is unmapped, together
    with exactly the addresses of the (4KB, 2MB or 1GB) page that mapped
    it, and every other translation, and every page in use that is not one
    of the tables, is what it was. *)
Theorem unmap_memory_correct root va s :
  tables_ok root s -> 0 <= va < 2 ^ 48 ->
  wp (unmap_memory root va) s (fun _ s' => unmapped root va s s').
Proof.
  intros Hto Hva. pose proof Hto as [Hok _ Hwf].
  assert (Hdown : forall d t, (d < 3)%nat -> table_at (pa_mem s) root d va = Some t ->
    let e := load64 (pa_mem s) (t + 8 * pt_index d va) in
    entry_at (pa_mem s) root d va = Some e /\
    (e <> 0 -> is_leaf d e = false ->
      table_at (pa_mem s) root (Datatypes.S d) va = Some (pte_table e) /\ pte_table e <> 0)).
  { intros d t Hd Ht e. unfold entry_at. rewrite Ht. split; [done |]. intros He Hl.
    assert (Htab : table_at (pa_mem s) root (Datatypes.S d) va = Some (pte_table e)).
    { simpl. rewrite Ht. simpl. fold e. rewrite Hl. by destruct (Z.eqb_spec e 0). }
    split; [done |]. eapply (wf_owned _ _ _ Hwf) in Htab; [|lia].
    apply mine_page in Htab; [lia | done]. }
  unfold unmap_memory, pte_get. destruct (pt_index_macros va) as (-> & -> & -> & ->).
  wp_steps. destruct (Hdown 0%nat root) as [He0 Hn0]; [lia | done |].
  set (e0 := load64 _ _) in *. destruct (decide (e0 = 0)) as [E|Hz0].
  { rewrite E in *. change (pte_table 0 =? 0) with true. cbv iota. wp_step. eapply (unmapped_absent root 0); done || lia. }
  destruct (Hn0 Hz0 eq_refl) as [Ht1 Hp1]. destruct (Z.eqb_spec (pte_table e0) 0); [done |].
  wp_steps. destruct (Hdown 1%nat _ ltac:(lia) Ht1) as [He1 Hn1].
  set (e1 := load64 (pa_mem s) (pte_table e0 + 8 * pt_index 1 va)) in *. destruct (Z.eqb_spec e1 0) as [E|Hz1].
  { rewrite E in He1. wp_step. eapply (unmapped_absent root 1); done || lia. }
  rewrite land_pse. destruct (Z.testbit e1 7) eqn:Hb1; simpl.
  { eapply clear_entry; done || lia. }
  destruct (Hn1 Hz1 Hb1) as [Ht2 Hp2]. destruct (Z.eqb_spec (pte_table e1) 0); [done |].
  wp_steps. destruct (Hdown 2%nat _ ltac:(lia) Ht2) as [He2 Hn2].
  set (e2 := load64 (pa_mem s) (pte_table e1 + 8 * pt_index 2 va)) in *. destruct (Z.eqb_spec e2 0) as [E|Hz2].
  { rewrite E in He2. wp_step. eapply (unmapped_absent root 2); done || lia. }
  rewrite land_pse. destruct (Z.testbit e2 7) eqn:Hb2; simpl.
  { eapply clear_entry; done || lia. }
  destruct (Hn2 Hz2 Hb2) as [Ht3 Hp3].
  eapply (clear_entry root 3); try done; try lia. unfold entry_at. by rewrite Ht3.
Qed.
End Spec.
