(* ===== verification/EptSpec.v ===== *)
(** * What a sequence of mapping calls maps

    Page tables and EPTs are built by sequences of [map_memory] and
    [ept_map_memory] calls.  Here a sequence is a list of regions, the later
    ones over the earlier ones, and the walk of the finished tables is the
    overlay of the list.  The pages of a guest's own page tables are one such
    group of regions in its EPT. *)

From S2P Require Import Prelude PhysMem MemMgr Paging PageWalk PagingSpec.

(** One call: addresses, frames, and the flags of the leaf entries. *)
Record region := Region {
  r_start : Z;
  r_end : Z;
  r_pa : Z;
  r_flags : Z
}.

Section Overlay.
Context (ps : Z).

Definition r_walk (r : region) (va : Z) : option (Z * Z) :=
  region_walk ps (r_start r) (region_pages (r_start r) (r_end r) ps) (r_pa r) (r_flags r) va.

Fixpoint overlay (rs : list region) (va : Z) : option (Z * Z) :=
  match rs with
  | [] => None
  | r :: rs' =>
      match overlay rs' va with
      | Some x => Some x
      | None => r_walk r va
      end
  end.

Lemma overlay_app rs1 rs2 va :
  overlay (rs1 ++ rs2) va = match overlay rs2 va with Some x => Some x | None => overlay rs1 va end.
Proof. induction rs1 as [|r rs1 IH]; simpl; [|rewrite IH]; by destruct (overlay rs2 va). Qed.

(** A translation comes from one of the regions. *)
Lemma overlay_in rs va x : overlay rs va = Some x -> exists r, r ∈ rs /\ r_walk r va = Some x.
Proof.
  induction rs as [|r rs IH]; simpl; [done |]. destruct (overlay rs va) as [y|].
  - intros [= ->]. destruct IH as (r' & Hr' & ?); [done |]. exists r'. split; [by right | done].
  - intros Hx. exists r. split; [by left | done].
Qed.
End Overlay.

(** The region of an [ept_map_memory] call with 4KB pages. *)
Definition ept_region (start end_ pa mtype prot : Z) : region :=
  Region start end_ pa (ept_flags _4KB_ mtype prot).

(** A page mapped to itself. *)
Definition ident (mtype prot p : Z) : region := ept_region p (p + _4KB_) p mtype prot.

Lemma region_pages_one a : region_pages a (a + _4KB_) _4KB_ = 1.
Proof. unfold region_pages. by replace (a + _4KB_ - a) with _4KB_ by lia. Qed.

Lemma ident_args prot p :
  p mod 4096 = 0 -> 0 <= p -> p + 4096 <= 2 ^ 48 -> 0 < prot < 4096 ->
  region_args _4KB_ 3 p (p + _4KB_) p prot.
Proof.
  intros Hp H0 H48 Hf. split; rewrite ?region_pages_one; try done; try lia. by left.
Qed.

(** The tables of a guest's page tables that [ept_map_page_tables] visits. *)
Definition points_to_table (e : Z) : bool := negb (e =? 0) && (Z.land e PAGE_PSE =? 0).
Definition pde_tables (m : memory) (pde : Z) (idxs : list Z) : list Z :=
  flat_map (fun i => let e := load64 m (pde + 8 * i) in
    if points_to_table e then [pte_table e] else []) idxs.
Definition pdpe_tables (m : memory) (pdpe : Z) (idxs : list Z) : list Z :=
  flat_map (fun i => let e := load64 m (pdpe + 8 * i) in
    if points_to_table e && negb (pte_table e =? 0)
    then pte_table e :: pde_tables m (pte_table e) (seqZ 0 512) else []) idxs.
Definition guest_tables (m : memory) (pml4 : Z) : list Z :=
  let pdpe := pte_table (load64 m pml4) in
  pml4 :: (if pdpe =? 0 then [] else pdpe :: pdpe_tables m pdpe (seqZ 0 4)).

Section Spec.
Context {S : Type} `{!PageAlloc S, !PageAllocLaws S}.
Context (P : Z -> Prop).
Abbreviation kept := (kept P).

(** The tables at [root] map exactly the regions [rs], with pages of one size. *)
Record maps (ps : Z) (D : nat) (root : Z) (rs : list region) (s : S) : Prop := {
  em_tables : tables_ok P root s;
  em_small : forall va, no_leaf (pa_mem s) root D va;
  em_low : exists va, 0 <= va < 2 ^ 39 /\ is_Some (overlay ps rs va);
  em_walk : forall va, 0 <= va < 2 ^ 48 -> walk (pa_mem s) root va = overlay ps rs va
}.
Abbreviation ept_maps := (maps _4KB_ 3).

(** Something is mapped below 2^39, so the first entry of the root is used. *)
Lemma root_used ps D root rs s : maps ps D root rs s -> load64 (pa_mem s) root <> 0.
Proof.
  intros [_ _ (va & Hva & x & Hx) Hw] Hz. rewrite <-Hw in Hx by lia.
  assert (Hi : pt_index 0 va = 0).
  { unfold pt_index. change (39 - 9 * Z.of_nat 0) with 39. by rewrite Z.div_small. }
  assert (Ht : table_at (pa_mem s) root 1 va = None).
  { simpl. rewrite Hi, Z.mul_0_r, Z.add_0_r, Hz. done. }
  unfold walk, leaf_at, entry_at in Hx.
  rewrite Ht, (table_below_none _ _ 1 2), (table_below_none _ _ 1 3) in Hx by (done || lia). done.
Qed.

Lemma maps_mappable ps D root rs start end_ s :
  maps ps D root rs s -> mappable P root ps D start end_ MAP_UPDATE s.
Proof. intros H. right. split_and!; [done | apply H | by eapply root_used | intros; apply H]. Qed.

(** The first call makes the tables ... *)
Lemma maps_new ps D root start end_ pa f0 f s root' s' :
  region_args ps D start end_ pa f0 -> start < 2 ^ 39 ->
  mapped P root ps D start end_ pa f MAP_NEW s root' s' ->
  maps ps D root' [Region start end_ pa f] s'.
Proof.
  intros Ha Hlow (H1 & _ & _ & _ & H5 & H6).
  split; [done | by auto | | intros va Hva; rewrite H6 by done; unfold overlay, r_walk; simpl;
    by destruct (region_walk _ _ _ _ _ _)].
  exists start. pose proof (ra_order _ _ _ _ _ _ Ha). split; [lia |].
  pose proof (region_pages_pos _ _ _ _ _ _ Ha) as [Hn _]. simpl. unfold r_walk, region_walk.
  rewrite Z.sub_diag. simpl. destruct (Z.ltb_spec 0 (region_pages start end_ ps)); [by eexists | lia].
Qed.

(** ... and every further one adds a region. *)
Lemma maps_add ps D root rs start end_ pa f s root' s' :
  maps ps D root rs s -> mapped P root ps D start end_ pa f MAP_UPDATE s root' s' ->
  root' = root /\ maps ps D root (rs ++ [Region start end_ pa f]) s'.
Proof.
  intros [Ht Hs (v0 & Hv0 & x0 & Hx0) Hw] (H1 & H2 & _ & _ & H5 & H6). rewrite (H2 eq_refl) in *. split; [done |].
  assert (Hstep : forall va, overlay ps (rs ++ [Region start end_ pa f]) va =
    match r_walk ps (Region start end_ pa f) va with Some x => Some x | None => overlay ps rs va end)
    by (intros va; by rewrite overlay_app).
  split; [done | by auto | |].
  - exists v0. split; [done |]. rewrite Hstep, Hx0. by destruct (r_walk _ _ v0); eexists.
  - intros va Hva. rewrite H6, Hstep, <-Hw by done. done.
Qed.

Lemma mapped_kept root ps D start end_ pa f flags s root' s' :
  mapped P root ps D start end_ pa f flags s root' s' -> kept s s'.
Proof. intros H. apply H. Qed.

Lemma ept_new root ps D start end_ pa mtype prot s :
  pa_ok s -> (forall q, P q -> pa_owned s q) -> region_args ps D start end_ pa prot ->
  0 <= mtype < 8 -> start < 2 ^ 39 ->
  post oom (ept_map_memory root start end_ pa ps mtype prot MAP_NEW) s
    (fun root' s' => maps ps D root' [Region start end_ pa (ept_flags ps mtype prot)] s' /\ kept s s').
Proof.
  intros Hok HP Ha Hm Hlow.
  eapply post_conseq; [by apply (ept_map_memory_spec P root _ D); [done | done | left] | by intros e [] |].
  intros root' s' H. split; [by eapply maps_new | by eapply mapped_kept].
Qed.

Lemma ept_add root rs ps D start end_ pa mtype prot s :
  maps ps D root rs s -> region_args ps D start end_ pa prot -> 0 <= mtype < 8 ->
  post oom (ept_map_memory root start end_ pa ps mtype prot MAP_UPDATE) s
    (fun root' s' => root' = root /\ maps ps D root (rs ++ [Region start end_ pa (ept_flags ps mtype prot)]) s' /\ kept s s').
Proof.
  intros He Ha Hm.
  eapply post_conseq; [apply (ept_map_memory_spec P root _ D); [done | done | by eapply maps_mappable] | by intros e [] |].
  intros root' s' H. pose proof (mapped_kept _ _ _ _ _ _ _ _ _ _ _ H). eapply maps_add in H as [-> H]; done.
Qed.

Lemma pt_new root ps D start end_ pa f s :
  pa_ok s -> (forall q, P q -> pa_owned s q) -> region_args ps D start end_ pa f -> start < 2 ^ 39 ->
  post oom (map_memory root start end_ pa ps f MAP_NEW) s
    (fun root' s' => maps ps D root' [Region start end_ pa (with_pse ps f)] s' /\ kept s s').
Proof.
  intros Hok HP Ha Hlow.
  eapply post_conseq; [by apply (map_memory_spec P root _ D); [done | left] | by intros e [] |].
  intros root' s' H. split; [by eapply maps_new | by eapply mapped_kept].
Qed.

Lemma pt_add root rs ps D start end_ pa f s :
  maps ps D root rs s -> region_args ps D start end_ pa f ->
  post oom (map_memory root start end_ pa ps f MAP_UPDATE) s
    (fun root' s' => root' = root /\ maps ps D root (rs ++ [Region start end_ pa (with_pse ps f)]) s' /\ kept s s').
Proof.
  intros He Ha.
  eapply post_conseq; [apply (map_memory_spec P root _ D); [done | by eapply maps_mappable] | by intros e [] |].
  intros root' s' H. pose proof (mapped_kept _ _ _ _ _ _ _ _ _ _ _ H). eapply maps_add in H as [-> H]; done.
Qed.

(** A group of identity regions, one call each. *)
Definition idents (mtype prot : Z) (ps : list Z) : list region := ident mtype prot <$> ps.

(** ** A guest's page tables in its EPT *)

Section Tables.
Context (prot : Z) (Hprot : 0 < prot < 4096).

(** A page that can be mapped to itself and is not one of the EPT's tables. *)
Definition guest_page (p : Z) : Prop := P p /\ p mod 4096 = 0 /\ 0 <= p /\ p + 4096 <= 2 ^ 48.

Definition adds (root : Z) (rs : list region) (s : S) (ps : list Z) (root' : Z) (s' : S) : Prop :=
  root' = root /\ ept_maps root (rs ++ idents EPT_MTYPE_WB prot ps) s' /\ kept s s'.

Lemma adds_nil root rs s : ept_maps root rs s -> adds root rs s [] root s.
Proof. intros H. unfold adds, idents. simpl. by rewrite app_nil_r. Qed.

(** One group after another. *)
Lemma adds_bind root rs s ps1 ps2 (m : M S Z) (k : Z -> M S Z) :
  post oom m s (adds root rs s ps1) ->
  (forall s1, ept_maps root (rs ++ idents EPT_MTYPE_WB prot ps1) s1 -> kept s s1 ->
     post oom (k root) s1 (adds root (rs ++ idents EPT_MTYPE_WB prot ps1) s1 ps2)) ->
  post oom (m ≫= k) s (adds root rs s (ps1 ++ ps2)).
Proof.
  intros Hm Hk. apply post_bind. eapply post_mono; [exact Hm |]. intros ? s1 _ (-> & He & Hk1).
  eapply post_mono; [by apply Hk |]. intros ? s2 _ (-> & He2 & Hk2). split_and!; [done | | by etransitivity].
  unfold idents in *. by rewrite fmap_app, app_assoc.
Qed.

Lemma ept_map_table_spec root rs t s :
  ept_maps root rs s -> guest_page t -> post oom (ept_map_table root t prot) s (adds root rs s [t]).
Proof.
  intros He (HP & Hal & H0 & H48). unfold ept_map_table. rewrite w64_small by lia.
  apply (ept_add root rs _4KB_ 3); [done | by apply ident_args | done].
Qed.

(** Words of protected pages are not affected by the mapping. *)
Lemma kept_load s s' p i : kept s s' -> P p -> 0 <= i < 512 ->
  load64 (pa_mem s') (p + 8 * i) = load64 (pa_mem s) (p + 8 * i).
Proof.
  intros (_ & _ & H) Hp Hi. symmetry. apply load_ext. intros x Hx. apply H. exists p.
  split; [done | simpl in Hx; lia].
Qed.

Lemma ept_map_ptes_spec m0 s0 root pde idxs rs s :
  (forall i, i ∈ idxs -> 0 <= i < 512) -> P pde -> m0 = pa_mem s0 -> kept s0 s -> ept_maps root rs s ->
  (forall t, t ∈ pde_tables m0 pde idxs -> guest_page t) ->
  post oom (ept_map_ptes idxs root pde prot) s (adds root rs s (pde_tables m0 pde idxs)).
Proof.
  intros Hi Hpde ->. revert rs s. induction idxs as [|i idxs IH]; intros rs s Hk He Hg.
  { apply post_ret. by apply adds_nil. }
  cbn [ept_map_ptes pde_tables flat_map] in *. unfold pte_get. wp_step. wp_step.
  rewrite (kept_load s0 s) by (done || apply Hi; by left). set (e := load64 _ _) in *.
  fold (points_to_table e). cbv zeta in *. apply adds_bind.
  - destruct (points_to_table e); [|by apply adds_nil].
    apply ept_map_table_spec; [done | apply Hg, elem_of_app; left; by left].
  - intros s1 He1 Hk1. apply IH; [intros j Hj; apply Hi; by right | by etransitivity | done |].
    intros t Ht. apply Hg, elem_of_app. by right.
Qed.

Lemma ept_map_pdes_spec m0 s0 root pdpe idxs rs s :
  (forall i, i ∈ idxs -> 0 <= i < 512) -> P pdpe -> m0 = pa_mem s0 -> kept s0 s -> ept_maps root rs s ->
  (forall t, t ∈ pdpe_tables m0 pdpe idxs -> guest_page t) ->
  post oom (ept_map_pdes idxs root pdpe prot) s (adds root rs s (pdpe_tables m0 pdpe idxs)).
Proof.
  intros Hi Hp ->. revert rs s. induction idxs as [|i idxs IH]; intros rs s Hk He Hg.
  { apply post_ret. by apply adds_nil. }
  cbn [ept_map_pdes pdpe_tables flat_map] in *. unfold pte_get. wp_step. wp_step.
  rewrite (kept_load s0 s) by (done || apply Hi; by left). set (e := load64 _ _) in *.
  fold (points_to_table e). fold (pdpe_tables (pa_mem s0) pdpe idxs) in *. cbv zeta in *.
  assert (Hg1 : forall t, t ∈ pdpe_tables (pa_mem s0) pdpe idxs -> guest_page t)
    by (intros t Ht; apply Hg, elem_of_app; by right).
  assert (Hg0 := fun t Ht => Hg t (proj2 (elem_of_app _ _ _) (or_introl Ht))). clear Hg.
  apply adds_bind.
  - destruct (points_to_table e && negb (pte_table e =? 0)); [|by apply adds_nil].
    apply (adds_bind root rs s [pte_table e]).
    + apply ept_map_table_spec; [done | apply Hg0; by left].
    + intros s1 He1 Hk1. apply (ept_map_ptes_spec (pa_mem s0) s0);
        [| apply Hg0; by left | done | by etransitivity | done | intros t Ht; apply Hg0; by right].
      intros j. rewrite elem_of_seqZ. lia.
  - intros s1 He1 Hk1. apply IH; [intros j Hj; apply Hi; by right | by etransitivity | done | done].
Qed.

(** [ept_map_page_tables] maps exactly the guest's tables, each to itself. *)
Lemma ept_map_page_tables_spec root rs pml4 s :
  ept_maps root rs s -> pml4 <> 0 -> (forall t, t ∈ guest_tables (pa_mem s) pml4 -> guest_page t) ->
  post oom (ept_map_page_tables root pml4 prot) s (adds root rs s (guest_tables (pa_mem s) pml4)).
Proof.
  intros He Hnz Hg. unfold ept_map_page_tables, guest_tables in *. cbv zeta in *.
  destruct (Z.eqb_spec pml4 0); [done |]. destruct (Hg pml4) as (Hp & _); [by left |].
  apply (adds_bind root rs s [pml4]); [apply ept_map_table_spec; [done | apply Hg; by left] |].
  intros s1 He1 Hk1. unfold pte_get. wp_step. wp_step.
  rewrite (kept_load s s1 pml4 0) by (done || lia). rewrite Z.mul_0_r, Z.add_0_r.
  set (pdpe := pte_table _) in *. destruct (Z.eqb_spec pdpe 0); [by apply adds_nil |].
  apply (adds_bind root _ s1 [pdpe]); [apply ept_map_table_spec; [done | apply Hg; right; by left] |].
  intros s2 He2 Hk2. apply (ept_map_pdes_spec (pa_mem s) s); [| | done | by etransitivity | done |].
  - intros j. rewrite elem_of_seqZ. lia.
  - apply (Hg pdpe). right. by left.
  - intros t Ht. apply Hg. right. by right.
Qed.
End Tables.
End Spec.

(** ** The guest's tables are tables of the guest's page tables *)

Section Guest.
Context {S : Type} `{!PageAlloc S, !PageAllocLaws S}.

Lemma guest_index i j : 0 <= i < 4 -> 0 <= j < 512 ->
  let va := i * 2 ^ 30 + j * 2 ^ 21 in pt_index 0 va = 0 /\ pt_index 1 va = i /\ pt_index 2 va = j.
Proof.
  intros Hi Hj va. unfold pt_index.
  change (39 - 9 * Z.of_nat 0) with 39. change (39 - 9 * Z.of_nat 1) with 30. change (39 - 9 * Z.of_nat 2) with 21.
  assert (E2 : va / 2 ^ 21 = i * 512 + j).
  { unfold va. replace (i * 2 ^ 30 + j * 2 ^ 21) with ((i * 512 + j) * 2 ^ 21) by lia. by apply Z.div_mul. }
  assert (E1 : va / 2 ^ 30 = i) by (symmetry; apply (Z.div_unique_pos va (2 ^ 30) i (j * 2 ^ 21)); unfold va; lia).
  rewrite E1, E2, (Z.div_small va) by (unfold va; lia). split_and!; [done | apply Z.mod_small; lia |].
  rewrite Z.add_comm, Z.mod_add by lia. apply Z.mod_small. lia.
Qed.

(** The next table on the path, as the visiting code finds it. *)
Lemma table_below m root d va t e :
  table_at m root d va = Some t -> load64 m (t + 8 * pt_index d va) = e ->
  e <> 0 -> is_leaf d e = false -> table_at m root (Datatypes.S d) va = Some (pte_table e).
Proof. intros Ht He Hz Hl. simpl. rewrite Ht. simpl. rewrite He, Hl. by destruct (Z.eqb_spec e 0). Qed.

Lemma points_to_table_spec d e : (1 <= d <= 2)%nat -> points_to_table e = true -> e <> 0 /\ is_leaf d e = false.
Proof.
  unfold points_to_table. rewrite land_pse. intros Hd [H1 H2]%andb_true_iff.
  apply negb_true_iff in H1, H2. apply Z.eqb_neq in H1. split; [done |]. destruct d as [|[|[|]]]; done || lia.
Qed.

Lemma guest_tables_at m root t : t ∈ guest_tables m root -> exists d va, (d <= 3)%nat /\ table_at m root d va = Some t.
Proof.
  unfold guest_tables. set (e0 := load64 m root). cbv zeta.
  intros [->|Ht]%elem_of_cons; [by exists 0%nat, 0; split; [lia |] |].
  destruct (Z.eqb_spec (pte_table e0) 0) as [|Hp]; [by apply not_elem_of_nil in Ht |].
  assert (Hz : e0 <> 0) by (intros E; rewrite E in Hp; done).
  assert (T1 : forall i j, 0 <= i < 4 -> 0 <= j < 512 ->
    table_at m root 1 (i * 2 ^ 30 + j * 2 ^ 21) = Some (pte_table e0)).
  { intros i j Hi Hj. destruct (guest_index i j Hi Hj) as [E0 _].
    apply (table_below m root 0 _ root); [done | by rewrite E0, Z.mul_0_r, Z.add_0_r | done | done]. }
  apply elem_of_cons in Ht as [->|Ht]; [exists 1%nat, 0; split; [lia | apply (T1 0 0); lia] |].
  unfold pdpe_tables in Ht. apply list_elem_of_In, in_flat_map in Ht as (i & Hi & Ht).
  apply list_elem_of_In, elem_of_seqZ in Hi. apply list_elem_of_In in Ht.
  set (e1 := load64 m (pte_table e0 + 8 * i)) in *. cbv zeta in Ht.
  destruct (points_to_table e1) eqn:Hpt; [|by apply not_elem_of_nil in Ht].
  destruct (points_to_table_spec 1 e1 ltac:(lia) Hpt) as [Hz1 Hl1].
  assert (T2 : forall j, 0 <= j < 512 -> table_at m root 2 (i * 2 ^ 30 + j * 2 ^ 21) = Some (pte_table e1)).
  { intros j Hj. destruct (guest_index i j) as (_ & E1 & _); [lia | done |].
    apply (table_below m root 1 _ (pte_table e0)); [apply T1; lia | by rewrite E1 | done | done]. }
  cbn [andb] in Ht. destruct (negb _); [|by apply not_elem_of_nil in Ht].
  apply elem_of_cons in Ht as [->|Ht]; [exists 2%nat, (i * 2 ^ 30 + 0 * 2 ^ 21); split; [lia | apply T2; lia] |].
  unfold pde_tables in Ht. apply list_elem_of_In, in_flat_map in Ht as (j & Hj & Ht).
  apply list_elem_of_In, elem_of_seqZ in Hj. apply list_elem_of_In in Ht.
  set (e2 := load64 m (pte_table e1 + 8 * j)) in *. cbv zeta in Ht.
  destruct (points_to_table e2) eqn:Hpt2; [|by apply not_elem_of_nil in Ht].
  destruct (points_to_table_spec 2 e2 ltac:(lia) Hpt2) as [Hz2 Hl2].
  apply list_elem_of_singleton in Ht as ->. exists 3%nat, (i * 2 ^ 30 + j * 2 ^ 21). split; [lia |].
  destruct (guest_index i j) as (_ & _ & E2); [lia | lia |].
  apply (table_below m root 2 _ (pte_table e1)); [apply T2; lia | by rewrite E2 | done | done].
Qed.

Lemma guest_tables_mine P root (s : S) t :
  tables_ok P root s -> t ∈ guest_tables (pa_mem s) root -> mine P s t.
Proof. intros [_ _ Hwf] (d & va & Hd & Ht)%guest_tables_at. by apply (wf_owned _ _ _ Hwf d va). Qed.
End Guest.

(** ** Enough pages *)

Section Avail.
Context {S : Type} `{!PageAlloc S, !PageAllocLaws S}.

Lemma pte_table_nonneg e : 0 <= e -> 0 <= pte_table e.
Proof. intros He. unfold pte_table. apply Z.land_nonneg. by left. Qed.

(** A table takes at most four pages to map. *)
Lemma ept_map_table_avail root t prot (s : S) r :
  0 <= t -> 0 <= r -> pa_avail s (r + 4) ->
  post not_oom (ept_map_table root t prot) s (fun _ s' => pa_avail s' r).
Proof.
  intros Ht Hr Ha. unfold ept_map_table. destruct (decide (t + 4096 < 2 ^ 64)) as [H|H].
  - rewrite w64_small by lia. apply ept_map_memory_avail; [rewrite region_pages_one; lia | done |].
    rewrite region_pages_one. eapply pa_avail_less; [|exact Ha]. lia.
  - assert (Hw : w64 (t + 4096) < t).
    { unfold w64. pose proof (Z.mod_pos_bound (t + 4096) (2 ^ 64) ltac:(lia)).
      pose proof (Z.div_mod (t + 4096) (2 ^ 64) ltac:(lia)). assert (1 <= (t + 4096) / 2 ^ 64) by (apply Z.div_le_lower_bound; lia). lia. }
    unfold ept_map_memory, check_region. destruct (Z.ltb_spec (w64 (t + PAGE_TABLE_SIZE)) t); [|lia].
    by intros [= E].
Qed.

Lemma ept_map_ptes_avail idxs root pde prot (s : S) r :
  0 <= r -> pa_avail s (r + 4 * Z.of_nat (length idxs)) ->
  post not_oom (ept_map_ptes idxs root pde prot) s (fun _ s' => pa_avail s' r).
Proof.
  intros Hr. revert root s. induction idxs as [|i idxs IH]; intros root s Ha; cbn [ept_map_ptes length] in *.
  { apply post_ret. by rewrite Z.add_0_r in Ha. }
  unfold pte_get. wp_step. wp_step. wp_step.
  eapply (post_mono _ _ _ (fun _ s' => pa_avail s' (r + 4 * Z.of_nat (length idxs)))).
  - destruct (negb _ && _); [|apply post_ret; eapply pa_avail_less; [|exact Ha]; lia].
    apply ept_map_table_avail; [apply pte_table_nonneg, load64_bound | lia |].
    eapply pa_avail_less; [|exact Ha]. lia.
  - intros root' s' _ Ha'. by apply IH.
Qed.

Lemma ept_map_pdes_avail idxs root pdpe prot (s : S) r :
  0 <= r -> pa_avail s (r + 4 * 513 * Z.of_nat (length idxs)) ->
  post not_oom (ept_map_pdes idxs root pdpe prot) s (fun _ s' => pa_avail s' r).
Proof.
  intros Hr. revert root s. induction idxs as [|i idxs IH]; intros root s Ha; cbn [ept_map_pdes length] in *.
  { apply post_ret. by rewrite Z.add_0_r in Ha. }
  unfold pte_get. wp_step. wp_step. wp_step. set (n := Z.of_nat (length idxs)) in *.
  eapply (post_mono _ _ _ (fun _ s' => pa_avail s' (r + 4 * 513 * n))).
  - destruct (_ && _); [|apply post_ret; eapply pa_avail_less; [|exact Ha]; lia]. wp_step.
    eapply post_mono; [apply (ept_map_table_avail _ _ _ _ (r + 4 * 513 * n + 4 * 512));
      [apply pte_table_nonneg, load64_bound | lia | eapply pa_avail_less; [|exact Ha]; lia] |].
    intros root' s1 _ Ha1. apply ept_map_ptes_avail; [lia |]. rewrite length_seqZ. done.
  - intros root' s' _ Ha'. by apply IH.
Qed.

(** At most 2054 tables are mapped. *)
Abbreviation TABLES_DEMAND := 8216.
Lemma ept_map_page_tables_avail root pml4 prot (s : S) r :
  0 <= pml4 -> 0 <= r -> pa_avail s (r + TABLES_DEMAND) ->
  post not_oom (ept_map_page_tables root pml4 prot) s (fun _ s' => pa_avail s' r).
Proof.
  intros Hp Hr Ha. unfold ept_map_page_tables. destruct (Z.eqb_spec pml4 0); [by intros [= E] |].
  wp_step. eapply post_mono; [apply (ept_map_table_avail _ _ _ _ (r + 4 + 4 * 513 * 4)); [done | lia |] |].
  { eapply pa_avail_less; [|exact Ha]. lia. }
  intros root' s1 _ Ha1. unfold pte_get. wp_step. wp_step. case_if.
  { apply post_ret. eapply pa_avail_less; [|exact Ha1]. lia. }
  wp_step. eapply post_mono; [apply (ept_map_table_avail _ _ _ _ (r + 4 * 513 * 4));
    [apply pte_table_nonneg, load64_bound | lia | eapply pa_avail_less; [|exact Ha1]; lia] |].
  intros root'' s2 _ Ha2. by apply ept_map_pdes_avail.
Qed.

(** ** Mapping calls that have the pages they need *)

Lemma ept_new_total P root ps D start end_ pa mtype prot (s : S) r :
  pa_ok s -> (forall q, P q -> pa_owned s q) -> region_args ps D start end_ pa prot ->
  0 <= mtype < 8 -> start < 2 ^ 39 -> 0 <= r -> pa_avail s (3 * region_pages start end_ ps + 1 + r) ->
  wp (ept_map_memory root start end_ pa ps mtype prot MAP_NEW) s (fun root' s' =>
    (maps P ps D root' [Region start end_ pa (ept_flags ps mtype prot)] s' /\ kept P s s') /\ pa_avail s' r).
Proof.
  intros. eapply post_total; [by apply ept_new |].
  apply ept_map_memory_avail; [by eapply region_pages_nonneg | done | done].
Qed.

Lemma ept_add_total P root rs ps D start end_ pa mtype prot (s : S) r :
  maps P ps D root rs s -> region_args ps D start end_ pa prot -> 0 <= mtype < 8 ->
  0 <= r -> pa_avail s (3 * region_pages start end_ ps + 1 + r) ->
  wp (ept_map_memory root start end_ pa ps mtype prot MAP_UPDATE) s (fun root' s' =>
    (root' = root /\ maps P ps D root (rs ++ [Region start end_ pa (ept_flags ps mtype prot)]) s' /\ kept P s s') /\
    pa_avail s' r).
Proof.
  intros. eapply post_total; [by apply ept_add |].
  apply ept_map_memory_avail; [by eapply region_pages_nonneg | done | done].
Qed.

Lemma pt_new_total P root ps D start end_ pa f (s : S) r :
  pa_ok s -> (forall q, P q -> pa_owned s q) -> region_args ps D start end_ pa f -> start < 2 ^ 39 ->
  0 <= r -> pa_avail s (3 * region_pages start end_ ps + 1 + r) ->
  wp (map_memory root start end_ pa ps f MAP_NEW) s (fun root' s' =>
    (maps P ps D root' [Region start end_ pa (with_pse ps f)] s' /\ kept P s s') /\ pa_avail s' r).
Proof.
  intros. eapply post_total; [by apply pt_new |].
  apply map_memory_avail; [by eapply region_pages_nonneg | done | done].
Qed.

Lemma pt_add_total P root rs ps D start end_ pa f (s : S) r :
  maps P ps D root rs s -> region_args ps D start end_ pa f ->
  0 <= r -> pa_avail s (3 * region_pages start end_ ps + 1 + r) ->
  wp (map_memory root start end_ pa ps f MAP_UPDATE) s (fun root' s' =>
    (root' = root /\ maps P ps D root (rs ++ [Region start end_ pa (with_pse ps f)]) s' /\ kept P s s') /\
    pa_avail s' r).
Proof.
  intros. eapply post_total; [by apply pt_add |].
  apply map_memory_avail; [by eapply region_pages_nonneg | done | done].
Qed.

(** Page tables that nothing was written to still translate the same way. *)
Lemma walk_kept P Q root (s s' : S) va :
  tables_ok P root s -> (forall q, mine P s q -> Q q) -> kept Q s s' ->
  walk (pa_mem s') root va = walk (pa_mem s) root va.
Proof.
  intros [_ _ Hwf] HQ (_ & _ & Hs). apply walk_ext. intros d Hd. unfold leaf_at.
  destruct (table_at_same _ (pa_mem s) (pa_mem s') root d va Hwf Hd) as [_ ->]; [|done].
  eapply same_on_mono; [|exact Hs]. intros x (q & Hq & Hx). eauto.
Qed.
End Avail.
