(* ===== verification/PmAlloc.v ===== *)
(** * The process manager's allocator serves its page-table code

    Discharges [PageAllocLaws] for the allocator of vms/pm/memory.c, so that
    the page-table theorems of [PagingSpec] hold for the process manager, and
    states what the two clearing allocators return. *)

From S2P Require Import Prelude PhysMem MemMgr MemMgrSpec Paging PageWalk PagingSpec.

(** The block list is determined by the allocator's state. *)
Lemma dseg_unique a ffa pp i bl1 bl2 :
  bl1 <> [] -> bl2 <> [] -> dseg a ffa pp i bl1 None -> dseg a ffa pp i bl2 None -> bl1 = bl2.
Proof.
  revert pp i bl2. induction bl1 as [|[pg rf] tl IH]; intros pp i bl2 H1 H2; [done |].
  destruct bl2 as [|[pg2 rf2] tl2]; [done |]. simpl.
  intros (_ & _ & Ha & _ & Ht) (_ & _ & Ha2 & _ & Ht2). rewrite Ha in Ha2.
  injection Ha2 as <- <- Hn. f_equal.
  destruct tl as [|b tl], tl2 as [|b2 tl2]; [done | done | done |].
  by eapply IH.
Qed.

Lemma mm_repr_unique s bl1 bl2 : mm_repr s bl1 -> mm_repr s bl2 -> bl1 = bl2.
Proof. intros [] []. by eapply dseg_unique. Qed.

(** A page inside a block in use. *)
Definition in_use (mm : mm_state) (q : Z) : Prop :=
  exists bl j, mm_repr mm bl /\ q = first_free_addr mm + j * 4096 /\ page_live 0 bl j = true.

Lemma page_live_range off bl j :
  wf_blocks bl -> page_live off bl j = true -> off <= j < off + npages bl.
Proof.
  intros Hw. revert off. induction Hw as [|[pg rf] tl [Hpg _] Hw IH]; intros off; [done |].
  pose proof (wf_blocks_npages _ Hw). simpl in *. destruct (Z.ltb_spec j (off + pg)).
  - intros [? _]%andb_true_iff. bool_to_prop. lia.
  - intros ?%IH. lia.
Qed.

Lemma in_use_page mm q : in_use mm q -> q mod 4096 = 0 /\ 0 < q < 2 ^ 63.
Proof.
  intros (bl & j & Hr & -> & Hl). pose proof (mm_repr_wf _ _ Hr) as Hw.
  apply page_live_range in Hl; [|done]. destruct Hr. rewrite Z.mod_add by done. lia.
Qed.

(** The allocator's memory, and its end as the code computes it. *)
Definition managed (mm : mm_state) (q : Z) : Prop :=
  exists bl, mm_repr mm bl /\ first_free_addr mm <= q < first_free_addr mm + npages bl * 4096.
Definition mm_top (mm : mm_state) : Z := first_free_addr mm + all_nodes mm * 4096.

(** What an allocation leaves as it was. *)
Record same_area (mm mm' : mm_state) : Prop := {
  sa_managed : forall q, managed mm' q <-> managed mm q;
  sa_top : mm_top mm' = mm_top mm
}.
#[global] Instance same_area_refl : Reflexive same_area.
Proof. by split. Qed.

Lemma set_array_area a bl bl' mm :
  mm_repr mm bl -> mm_repr (set_array a mm) bl' -> npages bl' = npages bl -> same_area mm (set_array a mm).
Proof.
  intros Hr Hr' Hn. split; [|done]. intros q. split; intros (bl2 & Hr2 & Hq).
  - rewrite (mm_repr_unique _ _ _ Hr2 Hr') in Hq. exists bl. rewrite <-Hn. done.
  - rewrite (mm_repr_unique _ _ _ Hr2 Hr) in Hq. exists bl'. rewrite Hn. done.
Qed.

(** An allocation that succeeds, in terms of pages in use. *)
Lemma alloc_in_use mm n :
  0 < n -> (exists bl, mm_repr mm bl) ->
  exists p mm', alloc_mem_pages n mm = Ok p mm' /\ (exists bl', mm_repr mm' bl') /\
    same_area mm mm' /\
    (p = 0 /\ mm' = mm \/
     0 < p /\ p mod 4096 = 0 /\ p + n * 4096 < 2 ^ 63 /\
     (forall k, 0 <= k < n -> ~ in_use mm (p + k * 4096) /\ managed mm (p + k * 4096)) /\
     (forall q, in_use mm' q <-> in_use mm q \/ exists k, 0 <= k < n /\ q = p + k * 4096)).
Proof.
  intros Hn [bl Hr]. pose proof (alloc_mem_pages_repr mm bl n Hr Hn) as H.
  destruct (spec_alloc 0 n bl) as [[o bl']|] eqn:E; [|].
  2: { exists 0, mm. split_and!; [done | eauto | done |]. by left. }
  destruct H as (a' & Ha & Hr'). exists (first_free_addr mm + o * 4096), (set_array a' mm).
  apply spec_alloc_run in E. pose proof (alloc_run_npages _ _ _ _ _ E) as Hnp.
  split; [done |]. split; [eauto |]. split; [by eapply set_array_area |]. right.
  apply alloc_run_live in E as (Ho & Htop & Hold & Hnew);
    [|done | by eapply mm_repr_wf].
  pose proof Hr as []. split_and!; [lia | by rewrite Z.mod_add | lia | |].
  - intros k Hk. split; [|exists bl; split; [done | lia]].
    intros (bl2 & j & Hr2 & Hq & Hl). rewrite (mm_repr_unique _ _ _ Hr2 Hr) in Hl.
    rewrite Hold in Hl; [done | lia].
  - intros q. split.
    + intros (bl2 & j & Hr2 & -> & Hl). rewrite (mm_repr_unique _ _ _ Hr2 Hr'), Hnew in Hl.
      apply orb_true_iff in Hl as [Hl|Hl]; [left; by exists bl, j |].
      right. bool_to_prop. exists (j - o). simpl. lia.
    + intros [(bl2 & j & Hr2 & -> & Hl) | (k & Hk & ->)].
      * rewrite (mm_repr_unique _ _ _ Hr2 Hr) in Hl. exists bl', j.
        split_and!; [done | done |]. by rewrite Hnew, Hl.
      * exists bl', (o + k). split_and!; [done | simpl; lia |]. rewrite Hnew.
        apply orb_true_iff. right. apply andb_true_iff. lia.
Qed.

(** Allocating and clearing [len] bytes of an [n]-page block. *)
Lemma alloc_clear_spec n len (k : kmem) :
  0 < n -> len = n * 4096 -> (exists bl, mm_repr (k_mm k) bl) ->
  exists p k', (found_block ← on_mm (alloc_mem_pages n);
    when (0 <? found_block)
      (modify (fun k => set_mem (memset (k_mem k) found_block 0 len) k)) ;;
    mret found_block) k = Ok p k' /\ (exists bl', mm_repr (k_mm k') bl') /\
    same_area (k_mm k) (k_mm k') /\
    (p = 0 /\ k' = k \/
     0 < p /\ p mod 4096 = 0 /\ p + len < 2 ^ 63 /\
     (forall i, 0 <= i < n -> ~ in_use (k_mm k) (p + i * 4096) /\ managed (k_mm k) (p + i * 4096)) /\
     (forall q, in_use (k_mm k') q <-> in_use (k_mm k) q \/ exists i, 0 <= i < n /\ q = p + i * 4096) /\
     (forall x, p <= x < p + len -> byte_at (k_mem k') x = 0) /\
     (forall x, ~ (p <= x < p + len) -> byte_at (k_mem k') x = byte_at (k_mem k) x)).
Proof.
  intros Hn -> Hr. destruct (alloc_in_use (k_mm k) n Hn Hr) as (p & mm' & Ha & Hr' & Hsame & Hcase).
  unfold on_mm. erewrite bind_step by (unfold zoom; by rewrite Ha).
  destruct Hcase as [[-> ->]|(Hp & Hal & Htop & Hfree & Huse)].
  - exists 0, k. split; [by destruct k |]. split_and!; [done | done |]. by left.
  - destruct (Z.ltb_spec 0 p); [|lia].
    eexists p, _. split; [done |]. split; [done |]. split; [done |]. right. simpl.
    split_and!; [done.. | |]; intros x Hx; rewrite byte_at_memset;
      [by rewrite decide_True | by rewrite decide_False].
Qed.

(** The pages of free blocks, and one of them being handed out. *)
Fixpoint avail_pages (bl : blocks) : Z :=
  match bl with
  | [] => 0
  | (pg, rf) :: tl => (if rf =? 0 then pg else 0) + avail_pages tl
  end.

Lemma spec_alloc_one off bl :
  wf_blocks bl -> 0 < avail_pages bl ->
  exists o bl', spec_alloc off 1 bl = Some (o, bl') /\ avail_pages bl' = avail_pages bl - 1.
Proof.
  intros Hw. revert off. induction Hw as [|[pg rf] tl [Hpg Hrf] Hw IH]; intros off Hf; simpl in *; [lia |].
  destruct (Z.ltb_spec 0 rf), (Z.eqb_spec rf 0); try lia; simpl.
  - destruct (IH (off + pg)) as (o & bl' & -> & E); [lia |]. eexists _, _. split; [done |]. simpl.
    destruct (Z.eqb_spec rf 0); lia.
  - destruct (Z.ltb_spec pg 1); [lia |]. destruct (Z.eqb_spec pg 1).
    + eexists _, _. split; [done |]. simpl. lia.
    + eexists _, _. split; [done |]. simpl. lia.
Qed.

(** The allocator hands out only pages of its free blocks: every other page is
    in somebody's use, be it inside a block in use or outside the allocator's
    memory. *)
Definition taken (mm : mm_state) (q : Z) : Prop :=
  q mod 4096 = 0 /\ 0 < q < 2 ^ 63 /\ (in_use mm q \/ ~ managed mm q).

Lemma managed_top mm q : managed mm q -> q mod 4096 = 0 -> q + 4096 <= mm_top mm.
Proof.
  intros (bl & [] & Hq) Ha. unfold mm_top.
  pose proof (Z.div_mod q 4096 ltac:(lia)). pose proof (Z.div_mod (first_free_addr mm) 4096 ltac:(lia)). lia.
Qed.

#[global] Program Instance pm_page_alloc_laws : PageAllocLaws kmem := {|
  pa_ok k := exists bl, mm_repr (k_mm k) bl;
  pa_owned k q := taken (k_mm k) q;
  pa_top k := mm_top (k_mm k);
  pa_avail k n := exists bl, mm_repr (k_mm k) bl /\ n <= avail_pages bl
|}.
Next Obligation. done. Qed.
Next Obligation. done. Qed.
Next Obligation. done. Qed.
Next Obligation. intros k q _ (? & ? & _). done. Qed.
Next Obligation. done. Qed.
Next Obligation.
  intros k Hok. destruct (alloc_clear_spec 1 4096 k) as (p & k' & Ha & Hr & [Hman Htop] & Hcase); [done.. |].
  exists p, k'. split; [done |]. intros Hp.
  destruct Hcase as [[? _]|(Hp0 & Hal & Hp63 & Hfree & Huse & Hin & Hout)]; [done |].
  destruct (Hfree 0 ltac:(lia)) as [Hfree0 Hman0]. rewrite Z.mul_0_l, Z.add_0_r in *.
  split_and!; [done | | | done | done | by apply managed_top | done].
  - intros (_ & _ & [?|?]); done.
  - intros q. unfold taken. rewrite Huse, Hman. split.
    + intros (H1 & H2 & [[?|(i & Hi & ->)]|?]); [by left; eauto | right; lia | by left; eauto].
    + intros [(H1 & H2 & [?|?])| ->]; [by eauto | by eauto |].
      split_and!; [done | lia | lia |]. left. right. exists 0. lia.
Qed.
Next Obligation. done. Qed.
Next Obligation. intros k n j Hj (bl & Hr & Hn). exists bl. split; [done | lia]. Qed.
Next Obligation.
  intros k n Hn (bl & Hr & Hf).
  destruct (spec_alloc_one 0 bl) as (o & bl' & E & Hf'); [by eapply mm_repr_wf | lia |].
  pose proof (alloc_mem_pages_repr _ bl 1 Hr ltac:(lia)) as H. rewrite E in H.
  destruct H as (a' & Ha & Hr'). apply spec_alloc_run, alloc_run_live in E as (Ho & _);
    [|done | by eapply mm_repr_wf]. pose proof Hr as [].
  eexists _, _. split.
  - simpl. unfold alloc_page_table, on_mm. erewrite bind_step by (unfold zoom; by rewrite Ha).
    destruct (Z.ltb_spec 0 (first_free_addr (k_mm k) + o * 4096)); [done | lia].
  - split; [lia |]. exists bl'. split; [done | lia].
Qed.

(** [alloc_clean_mem_pages] always returns; unless it returns 0 (and
    changes nothing) the block is page aligned, was free, is in use
    afterwards, reads as zero over its whole length, and no other byte of
    memory and no other page's ownership changes. *)
Theorem alloc_clean_correct n (k : kmem) :
  0 < n < 2 ^ 31 -> (exists bl, mm_repr (k_mm k) bl) ->
  exists p k', alloc_clean_mem_pages n k = Ok p k' /\ (exists bl', mm_repr (k_mm k') bl') /\
    (p = 0 /\ k' = k \/
     0 < p /\ p mod 4096 = 0 /\ p + n * 4096 < 2 ^ 63 /\
     (forall i, 0 <= i < n -> ~ in_use (k_mm k) (p + i * 4096)) /\
     (forall q, in_use (k_mm k') q <->
        in_use (k_mm k) q \/ exists i, 0 <= i < n /\ q = p + i * 4096) /\
     (forall x, p <= x < p + n * 4096 -> byte_at (k_mem k') x = 0) /\
     (forall x, ~ (p <= x < p + n * 4096) -> byte_at (k_mem k') x = byte_at (k_mem k) x)).
Proof.
  intros Hn Hr. unfold alloc_clean_mem_pages. rewrite (w64_small (n * _4KB_)) by lia.
  destruct (alloc_clear_spec n (n * _4KB_) k) as (p & k' & Ha & Hok & _ & Hcase); [lia | done | done |].
  exists p, k'. split_and!; [done | done |].
  destruct Hcase as [?|(H1 & H2 & H3 & H4 & H5 & H6 & H7)]; [by left | right].
  split_and!; try done. intros i Hi. by apply H4.
Qed.
