(* ===== verification/BootMem.v ===== *)
(** * Memory of the second boot stage (boot/stage2/memory.c, pmap.c, cpuinfo.c)

    A bump allocator over the memory above the boot image, the page-table
    code instantiated with it, and the table of [struct cpu_info] pages it
    hands to the rest of the system. *)

From S2P Require Import Prelude PhysMem CString MemMgr Paging.

(** boot/stage2/string.c has the loops of lib/string.c once more. *)
Definition boot_memcpy (m : memory) (dst src count : Z) : memory := memcpy m dst src count.
Definition boot_memset (m : memory) (ptr c count : Z) : memory := memset m ptr c count.
Definition boot_memcmp (m : memory) (cs ct count : Z) : Z := memcmp m cs ct count.

(** The two static variables of memory.c, and physical memory. *)
Record boot_mem := BootMem {
  memory_size : Z;
  boot_free_addr : Z;  (* first_free_addr *)
  boot_memory : memory
}.
Definition set_boot_free (v : Z) (s : boot_mem) : boot_mem :=
  BootMem (memory_size s) v (boot_memory s).
Definition set_boot_memory (m : memory) (s : boot_mem) : boot_mem :=
  BootMem (memory_size s) (boot_free_addr s) m.

Definition get_mem_size : M boot_mem Z := gets memory_size.
Definition get_last_used_addr : M boot_mem Z := gets boot_free_addr.

Definition boot_uninitialized (s : boot_mem) : bool :=
  (memory_size s =? 0) && (boot_free_addr s =? 0).

(** [first_free_addr += size; first_free_addr = ALIGN (first_free_addr, 16)] *)
Definition bump (size : Z) : M boot_mem unit :=
  modify (fun s => set_boot_free (ALIGN (w64 (boot_free_addr s + size)) 16) s).

Definition malloc (size : Z) : M boot_mem Z :=
  if size =? 0 then mret 0 else
  s ← get;
  if boot_uninitialized s then panic "Memory is not initialized" else
  if memory_size s <? w64 (boot_free_addr s + size) then mret 0 else
  bump size ;;
  mret (boot_free_addr s).

Definition malloc_align (size alignment : Z) : M boot_mem Z :=
  if size =? 0 then mret 0 else
  s ← get;
  if boot_uninitialized s then panic "Memory is not initialized" else
  if memory_size s <=? alignment then mret 0 else
  modify (fun s => set_boot_free (ALIGN (boot_free_addr s) alignment) s) ;;
  s ← get;
  if memory_size s <? w64 (boot_free_addr s + size) then mret 0 else
  bump size ;;
  mret (boot_free_addr s).

Definition calloc (nmemb size : Z) : M boot_mem Z :=
  if (size =? 0) || (nmemb =? 0) then mret 0 else
  s ← get;
  if boot_uninitialized s then panic "Memory is not initialized" else
  let total_size := w64 (nmemb * size) in
  if memory_size s <? w64 (boot_free_addr s + total_size) then mret 0 else
  modify (fun s => set_boot_memory (boot_memset (boot_memory s) (boot_free_addr s) 0 total_size) s) ;;
  bump total_size ;;
  mret (boot_free_addr s).

Definition calloc_align (nmemb size alignment : Z) : M boot_mem Z :=
  if (size =? 0) || (nmemb =? 0) then mret 0 else
  s ← get;
  if boot_uninitialized s then panic "Memory is not initialized" else
  if memory_size s <=? alignment then mret 0 else
  let total_size := w64 (nmemb * size) in
  modify (fun s => set_boot_free (ALIGN (boot_free_addr s) alignment) s) ;;
  s ← get;
  if memory_size s <? w64 (boot_free_addr s + total_size) then mret 0 else
  modify (fun s => set_boot_memory (boot_memset (boot_memory s) (boot_free_addr s) 0 total_size) s) ;;
  bump total_size ;;
  mret (boot_free_addr s).

(** [mem_size] is in kilobytes. *)
Definition boot_memory_init (last_allocated_byte mem_size : Z) : M boot_mem unit :=
  modify (fun s => BootMem (w64 (Z.shiftl mem_size 10)) (ALIGN last_allocated_byte 16)
                     (boot_memory s)).

(** ** Page tables of the boot stage *)

#[global] Instance boot_page_alloc : PageAlloc boot_mem := {|
  pa_mem := boot_memory;
  pa_set_mem := set_boot_memory;
  pa_alloc := calloc_align 1 PAGE_TABLE_SIZE PAGE_TABLE_SIZE
|}.

Definition boot_map_memory : Z -> Z -> Z -> Z -> Z -> Z -> Z -> M boot_mem Z := map_memory.
Definition boot_ept_map_memory : Z -> Z -> Z -> Z -> Z -> Z -> Z -> Z -> M boot_mem Z :=
  ept_map_memory.
Definition boot_ept_map_page_tables : Z -> Z -> Z -> M boot_mem Z := ept_map_page_tables.

(** ** The CPU table *)

Abbreviation MAX_CPUS := 255.

Record cpu_table := CpuTable {
  ct_mem : boot_mem;
  cpuinfo_table : gmap Z Z;     (* the slots of the array that were written *)
  ct_ncpus : Z;
  cpuinfo_pool : Z;
  ct_first_time : bool
}.
Definition set_ct_mem (m : boot_mem) (s : cpu_table) : cpu_table :=
  CpuTable m (cpuinfo_table s) (ct_ncpus s) (cpuinfo_pool s) (ct_first_time s).
Definition set_cpu_slot (i v : Z) (s : cpu_table) : cpu_table :=
  CpuTable (ct_mem s) (<[i := v]> (cpuinfo_table s)) (ct_ncpus s) (cpuinfo_pool s) (ct_first_time s).

(** The size checks on [struct cpu_info] (below 4KB) and on the pool (255
    pages, below 2MB) compare constants and never fire. *)
Definition allocate_cpuinfo_pool : M cpu_table unit :=
  pool ← zoom ct_mem set_ct_mem (calloc_align 1 _2MB_ _2MB_);
  modify (fun s => CpuTable (ct_mem s) (cpuinfo_table s) (ct_ncpus s) pool (ct_first_time s)) ;;
  modify (set_cpu_slot 0 pool).

Definition add_cpu : M cpu_table Z :=
  n ← gets ct_ncpus;
  if MAX_CPUS <? n then panic "Too many CPUs" else
  first ← gets ct_first_time;
  when first
    (modify (fun s => CpuTable (ct_mem s) (cpuinfo_table s) (ct_ncpus s) (cpuinfo_pool s) false) ;;
     allocate_cpuinfo_pool) ;;
  if MAX_CPUS <=? n then stop_with (Fault "cpuinfo_table") else
  pool ← gets cpuinfo_pool;
  modify (set_cpu_slot n (w64 (pool + n * _4KB_))) ;;
  modify (fun s => CpuTable (ct_mem s) (cpuinfo_table s) (n + 1) (cpuinfo_pool s) (ct_first_time s)) ;;
  mret (w64 (pool + n * _4KB_)).

Definition get_ncpus : M cpu_table Z := gets ct_ncpus.

(** Slots that were never written are null ([static] storage). *)
Definition boot_get_cpu_info (cpuid : Z) : M cpu_table Z :=
  if MAX_CPUS <? cpuid then panic "No CPU with this id" else
  if MAX_CPUS <=? cpuid then stop_with (Fault "cpuinfo_table") else
  t ← gets cpuinfo_table;
  mret (default 0 (t !! cpuid)).
