(* ===== verification/BootMemSpec.v ===== *)
(** * Correctness of the boot stage's memory

    Blocks handed out by the bump allocator never overlap, whatever sequence
    of requests is made; the allocator satisfies [PageAllocLaws], so that the
    page tables built during boot translate as requested; the CPU table gives
    each CPU a page of its own. *)

From S2P Require Import Prelude PhysMem MemMgr MemMgrSpec Paging PageWalk PagingSpec BootMem.

(** Memory and alignments stay below 2^62, so no address computation wraps. *)
Record boot_ok (s : boot_mem) : Prop := {
  bo_free : 0 < boot_free_addr s <= 2 ^ 62;
  bo_size : memory_size s <= 2 ^ 62
}.

Lemma ALIGN_pow2 x k :
  0 <= k <= 62 -> 0 <= x <= 2 ^ 62 ->
  ALIGN x (2 ^ k) mod 2 ^ k = 0 /\ x <= ALIGN x (2 ^ k) < x + 2 ^ k /\ ALIGN x (2 ^ k) <= 2 ^ 62.
Proof.
  intros Hk Hx. assert (0 < 2 ^ k <= 2 ^ 62) by (split; [|apply Z.pow_le_mono_r]; lia).
  unfold ALIGN. rewrite w64_small, land_lnot_low by lia.
  set (y := x + (2 ^ k - 1)). pose proof (Z.div_mod y (2 ^ k) ltac:(lia)) as Hd.
  pose proof (Z.mod_pos_bound y (2 ^ k) ltac:(lia)).
  replace (y - y mod 2 ^ k) with (y / 2 ^ k * 2 ^ k) by lia.
  split_and!; [apply Z.mod_mul; lia | lia | lia |].
  assert (Htop : 2 ^ 62 = 2 ^ (62 - k) * 2 ^ k) by (rewrite <-Z.pow_add_r by lia; f_equal; lia).
  rewrite Htop in *. apply Z.mul_le_mono_nonneg_r; [lia |].
  assert (y / 2 ^ k < 2 ^ (62 - k) + 1); [|lia]. apply Z.div_lt_upper_bound; lia.
Qed.

(** ** Requests *)

Inductive request :=
| Malloc (size : Z)
| MallocAlign (size k : Z)          (* alignment 2^k *)
| Calloc (nmemb size : Z)
| CallocAlign (nmemb size k : Z).

Definition serve (r : request) : M boot_mem Z :=
  match r with
  | Malloc size => malloc size
  | MallocAlign size k => malloc_align size (2 ^ k)
  | Calloc nmemb size => calloc nmemb size
  | CallocAlign nmemb size k => calloc_align nmemb size (2 ^ k)
  end.

Definition request_size (r : request) : Z :=
  match r with
  | Malloc size | MallocAlign size _ => size
  | Calloc nmemb size | CallocAlign nmemb size _ => nmemb * size
  end.
Definition request_align (r : request) : Z :=
  match r with
  | MallocAlign _ k | CallocAlign _ _ k => k
  | _ => 0
  end.
Definition request_cleared (r : request) : bool :=
  match r with
  | Calloc _ _ | CallocAlign _ _ _ => true
  | _ => false
  end.

Definition request_ok (r : request) : Prop :=
  0 <= request_size r < 2 ^ 62 /\ 0 <= request_align r <= 62.

(** What one request returns: null, or the block [p]. *)
Definition served (r : request) (s : boot_mem) (p : Z) (s' : boot_mem) : Prop :=
  boot_ok s' /\ memory_size s' = memory_size s /\ boot_free_addr s <= boot_free_addr s' /\
  (p = 0 /\ boot_memory s' = boot_memory s \/
   boot_free_addr s <= p < boot_free_addr s + 2 ^ request_align r /\
   p mod 2 ^ request_align r = 0 /\ 0 < request_size r /\ p + request_size r <= memory_size s /\
   boot_free_addr s' = ALIGN (p + request_size r) 16 /\
   (forall x, byte_at (boot_memory s') x =
      if request_cleared r && bool_decide (p <= x < p + request_size r) then 0
      else byte_at (boot_memory s) x)).

Lemma served_null r s s0 :
  boot_ok s0 -> memory_size s0 = memory_size s -> boot_free_addr s <= boot_free_addr s0 ->
  boot_memory s0 = boot_memory s -> served r s 0 s0.
Proof. intros. split_and!; [done.. |]. by left. Qed.

Lemma served_block r s s0 m' size :
  boot_ok s0 -> memory_size s0 = memory_size s ->
  boot_free_addr s <= boot_free_addr s0 < boot_free_addr s + 2 ^ request_align r ->
  boot_free_addr s0 mod 2 ^ request_align r = 0 -> size = request_size r -> 0 < size < 2 ^ 62 ->
  w64 (boot_free_addr s0 + size) <= memory_size s0 ->
  (forall x, byte_at m' x =
     if request_cleared r && bool_decide (boot_free_addr s0 <= x < boot_free_addr s0 + size)
     then 0 else byte_at (boot_memory s) x) ->
  served r s (boot_free_addr s0)
    (BootMem (memory_size s0) (ALIGN (w64 (boot_free_addr s0 + size)) 16) m').
Proof.
  intros [Hf Hs] Hms Hle Hal -> Hsz Hfit Hm. rewrite w64_small in * by lia.
  destruct (ALIGN_pow2 (boot_free_addr s0 + request_size r) 4) as (_ & Hup & Hmax); [lia.. |].
  change (2 ^ 4) with 16 in *.
  split_and!; [split; simpl; lia | done | simpl; lia |]. right. simpl.
  split_and!; try done; lia.
Qed.

(** Aligning the free address first. *)
Lemma align_free s k :
  boot_ok s -> 0 <= k <= 62 ->
  let s0 := set_boot_free (ALIGN (boot_free_addr s) (2 ^ k)) s in
  boot_ok s0 /\ boot_free_addr s <= boot_free_addr s0 < boot_free_addr s + 2 ^ k /\
  boot_free_addr s0 mod 2 ^ k = 0.
Proof.
  intros [Hf Hs] Hk s0. destruct (ALIGN_pow2 (boot_free_addr s) k) as (Hal & Hup & Hmax); [lia.. |].
  simpl. split_and!; [split; simpl; lia | lia | lia | done].
Qed.

(** The four allocation functions share this case analysis. *)
Lemma serve_spec r s :
  boot_ok s -> request_ok r -> wp (serve r) s (fun p s' => served r s p s').
Proof.
  intros Hok [Hsz Hal]. pose proof Hok as [Hf Hs].
  assert (Hinit : boot_uninitialized s = false).
  { unfold boot_uninitialized. destruct (Z.eqb_spec (boot_free_addr s) 0); [lia |]. apply andb_false_r. }
  assert (Hnull : served r s 0 s) by (by apply served_null).
  destruct r as [size | size k | nmemb size | nmemb size k]; simpl in *;
    unfold malloc, malloc_align, calloc, calloc_align.
  - destruct (Z.eqb_spec size 0); [done |]. apply post_bind. unfold get, post at 1. rewrite Hinit.
    destruct (Z.ltb_spec (memory_size s) (w64 (boot_free_addr s + size))); [done |].
    eapply (served_block (Malloc size) s s); simpl; try done; try lia. by rewrite Z.mod_1_r.
  - destruct (Z.eqb_spec size 0); [done |]. apply post_bind. unfold get, post at 1. rewrite Hinit.
    destruct (Z.leb_spec (memory_size s) (2 ^ k)); [done |].
    wp_steps. destruct (align_free s k Hok Hal) as (Hok0 & Hle & Hmod).
    set (s0 := set_boot_free _ s) in *. unfold get, post at 1.
    destruct (Z.ltb_spec (memory_size s0) (w64 (boot_free_addr s0 + size))); [by apply served_null; (done || lia) |].
    eapply (served_block (MallocAlign size k) s s0); done || lia.
  - destruct (Z.eqb_spec size 0) as [|Hs0]; [done |]. destruct (Z.eqb_spec nmemb 0) as [|Hn0]; [done |].
    simpl. apply post_bind. unfold get, post at 1. rewrite Hinit. rewrite (w64_small (nmemb * size)) by lia.
    destruct (Z.ltb_spec (memory_size s) (w64 (boot_free_addr s + nmemb * size))); [done |].
    eapply (served_block (Calloc nmemb size) s s); simpl; try done; try nia; [by rewrite Z.mod_1_r |].
    intros x. rewrite byte_at_memset. by case_decide; [rewrite bool_decide_true | rewrite bool_decide_false].
  - destruct (Z.eqb_spec size 0) as [|Hs0]; [done |]. destruct (Z.eqb_spec nmemb 0) as [|Hn0]; [done |].
    simpl. apply post_bind. unfold get, post at 1. rewrite Hinit.
    destruct (Z.leb_spec (memory_size s) (2 ^ k)); [done |]. rewrite (w64_small (nmemb * size)) by lia.
    wp_steps. destruct (align_free s k Hok Hal) as (Hok0 & Hle & Hmod).
    set (s0 := set_boot_free _ s) in *. unfold get, post at 1.
    destruct (Z.ltb_spec (memory_size s0) (w64 (boot_free_addr s0 + nmemb * size))); [by apply served_null; (done || lia) |].
    eapply (served_block (CallocAlign nmemb size k) s s0); simpl; try done; try nia.
    intros x. rewrite byte_at_memset. by case_decide; [rewrite bool_decide_true | rewrite bool_decide_false].
Qed.

(** A sequence of requests; the blocks that were handed out, in order. *)
Fixpoint serve_all (rs : list request) : M boot_mem (list (Z * Z)) :=
  match rs with
  | [] => mret []
  | r :: rs' =>
      p ← serve r;
      blocks ← serve_all rs';
      mret (if p =? 0 then blocks else (p, request_size r) :: blocks)
  end.

Definition disjoint_blocks (b1 b2 : Z * Z) : Prop :=
  b1.1 + b1.2 <= b2.1 \/ b2.1 + b2.2 <= b1.1.

(** Blocks in increasing order, above [lo] and below [hi]. *)
Fixpoint ascending (lo hi : Z) (l : list (Z * Z)) : Prop :=
  match l with
  | [] => True
  | (p, size) :: l' => lo <= p /\ 0 < size /\ p + size <= hi /\ ascending (p + size) hi l'
  end.

Lemma ascending_weaken lo lo' hi l : lo' <= lo -> ascending lo hi l -> ascending lo' hi l.
Proof. destruct l as [|[p size] l]; simpl; [done |]. intros ? (? & ? & ? & ?). split_and!; done || lia. Qed.

Lemma ascending_elem lo hi l b :
  ascending lo hi l -> b ∈ l -> lo <= b.1 /\ 0 < b.2 /\ b.1 + b.2 <= hi.
Proof.
  revert lo. induction l as [|[p size] l IH]; intros lo; simpl; [set_solver |].
  intros (? & ? & ? & Ht) [->|Hb]%elem_of_cons; [simpl; lia |].
  destruct (IH _ Ht Hb) as (? & ? & ?). lia.
Qed.

Lemma ascending_disjoint lo hi l i j b1 b2 :
  ascending lo hi l -> (i < j)%nat -> l !! i = Some b1 -> l !! j = Some b2 -> disjoint_blocks b1 b2.
Proof.
  revert lo i j. induction l as [|[p size] l IH]; intros lo i j; simpl; [done |].
  intros (? & ? & ? & Ht) Hij. destruct i, j; simpl; try lia.
  - intros [= <-] Hj%list_elem_of_lookup_2. destruct (ascending_elem _ _ _ _ Ht Hj) as (? & ? & ?).
    left. simpl. lia.
  - intros Hi Hj. apply (IH (p + size) i j); [done | lia | done | done].
Qed.

Lemma serve_all_spec rs s :
  boot_ok s -> Forall request_ok rs ->
  wp (serve_all rs) s (fun bl s' => boot_ok s' /\ memory_size s' = memory_size s /\
    ascending (boot_free_addr s) (memory_size s) bl).
Proof.
  intros Hok Hrs. revert s Hok. induction Hrs as [|r rs Hr Hrs IH]; intros s Hok; [done |].
  cbn [serve_all]. wp_step. eapply post_mono; [by apply serve_spec |].
  intros p s1 _ (Hok1 & Hms1 & Hle & Hcase). cbv beta. wp_step.
  eapply post_mono; [by apply IH |]. intros bl s2 _ (Hok2 & Hms2 & Hasc). wp_step.
  rewrite Hms1 in *. split_and!; [done | done |]. destruct (Z.eqb_spec p 0).
  - by eapply ascending_weaken.
  - destruct Hcase as [[? _]|(Hp & _ & Hpos & Htop & Hbump & _)]; [done |]. simpl.
    split_and!; [lia | done | done |]. eapply ascending_weaken; [|done]. rewrite Hbump.
    destruct Hok. apply (ALIGN_pow2 _ 4); lia.
Qed.

(** Whatever sequence of [malloc], [malloc_align], [calloc] and
    [calloc_align] requests the boot stage makes (no request of 2^62 bytes or
    more), every request returns, and the blocks handed out lie above the
    initial free address and below the top of memory and are pairwise
    disjoint. *)
Theorem boot_blocks_disjoint rs s :
  boot_ok s -> Forall request_ok rs ->
  exists bl s', serve_all rs s = Ok bl s' /\
    (forall i j b1 b2, i <> j -> bl !! i = Some b1 -> bl !! j = Some b2 -> disjoint_blocks b1 b2) /\
    (forall b, b ∈ bl -> boot_free_addr s <= b.1 /\ 0 < b.2 /\ b.1 + b.2 <= memory_size s).
Proof.
  intros Hok Hrs. destruct (wp_elim _ _ _ (serve_all_spec rs s Hok Hrs)) as (bl & s' & Hrun & _ & _ & Hasc).
  exists bl, s'. split_and!; [done | |].
  - intros i j b1 b2 Hij Hi Hj. destruct (Nat.lt_trichotomy i j) as [H|[H|H]]; [|done |].
    + by eapply ascending_disjoint.
    + destruct (ascending_disjoint _ _ _ _ _ _ _ Hasc H Hj Hi); [by right | by left].
  - intros b Hb. by apply (ascending_elem _ _ _ _ Hasc).
Qed.

(** A single aligned request on the boot allocator: [calloc_align] returns
    null without touching memory, or an aligned, zeroed block at the first
    multiple of the alignment from the free address, that ends below the top of memory; other bytes keep their
    value. *)
Theorem calloc_align_correct nmemb size k s :
  boot_ok s -> 0 <= nmemb * size < 2 ^ 62 -> 0 <= k <= 62 ->
  exists p s', calloc_align nmemb size (2 ^ k) s = Ok p s' /\ boot_ok s' /\
    (p = 0 /\ boot_memory s' = boot_memory s \/
     boot_free_addr s <= p < boot_free_addr s + 2 ^ k /\ p mod 2 ^ k = 0 /\ p + nmemb * size <= memory_size s /\
     p + nmemb * size <= boot_free_addr s' /\
     (forall x, p <= x < p + nmemb * size -> byte_at (boot_memory s') x = 0) /\
     (forall x, ~ (p <= x < p + nmemb * size) ->
        byte_at (boot_memory s') x = byte_at (boot_memory s) x)).
Proof.
  intros Hok Hsz Hk.
  destruct (wp_elim _ _ _ (serve_spec (CallocAlign nmemb size k) s Hok (conj Hsz Hk)))
    as (p & s' & Hrun & Hok' & _ & _ & Hcase).
  exists p, s'. split_and!; [done.. |].
  destruct Hcase as [?|(Hp & Hal & Hpos & Htop & Hbump & Hbytes)]; [by left | right]. simpl in *.
  split_and!; [lia | lia | done | done | | |].
  - rewrite Hbump. destruct Hok. apply (ALIGN_pow2 _ 4); lia.
  - intros x Hx. by rewrite Hbytes, bool_decide_true.
  - intros x Hx. by rewrite Hbytes, bool_decide_false.
Qed.

(** The size check of [malloc] wraps around: a request close to 2^64
    bytes passes it, is granted the current free address and moves the free
    address below it, so that memory already in use is handed out again. *)
Theorem malloc_wraps s size :
  boot_ok s -> 32 < boot_free_addr s -> boot_free_addr s - 16 <= memory_size s ->
  boot_free_addr s mod 16 = 0 -> size = 2 ^ 64 - 32 ->
  malloc size s = Ok (boot_free_addr s) (set_boot_free (boot_free_addr s - 32) s).
Proof.
  intros [Hf Hs] Hlow Htop Hal ->. unfold malloc.
  change (2 ^ 64 - 32 =? 0) with false. cbv iota. erewrite bind_step by done.
  unfold boot_uninitialized. destruct (Z.eqb_spec (boot_free_addr s) 0); [lia |].
  rewrite andb_false_r.
  assert (Hw : w64 (boot_free_addr s + (2 ^ 64 - 32)) = boot_free_addr s - 32).
  { unfold w64. replace (_ + _) with (boot_free_addr s - 32 + 1 * 2 ^ 64) by lia.
    rewrite Z.mod_add by lia. apply Z.mod_small. lia. }
  rewrite Hw. destruct (Z.ltb_spec (memory_size s) (boot_free_addr s - 32)); [lia |].
  erewrite bind_step by done. rewrite Hw. unfold mret, M_ret. do 2 f_equal.
  destruct (ALIGN_pow2 (boot_free_addr s - 32) 4) as (Hmod & Hup & _); [lia.. |].
  change (2 ^ 4) with 16 in *. set (a := ALIGN _ _) in *.
  pose proof (Z.div_mod a 16 ltac:(lia)). pose proof (Z.div_mod (boot_free_addr s) 16 ltac:(lia)). lia.
Qed.

(** ** The page-table code's allocator *)

#[global] Program Instance boot_page_alloc_laws : PageAllocLaws boot_mem := {|
  pa_ok := boot_ok;
  pa_owned s q := q mod 4096 = 0 /\ 0 < q < boot_free_addr s;
  pa_top s := memory_size s;
  pa_avail s n := boot_ok s /\ (0 < n -> 4096 < memory_size s /\
    ALIGN (boot_free_addr s) 4096 + n * 4096 <= memory_size s)
|}.
Next Obligation. done. Qed.
Next Obligation. intros m s []. by split. Qed.
Next Obligation. done. Qed.
Next Obligation. intros s q [] [? ?]. split; [done | lia]. Qed.
Next Obligation. done. Qed.
Next Obligation.
  intros s Hok. destruct (wp_elim _ _ _ (serve_spec (CallocAlign 1 4096 12) s Hok ltac:(done)))
    as (p & s' & Hrun & Hok' & Hms & _ & Hcase).
  exists p, s'. split; [done |]. intros Hp. pose proof Hok as [].
  destruct Hcase as [[? _]|(Hle & Hal & _ & Htop & Hbump & Hbytes)]; [done |]. simpl in *.
  change (2 ^ 12) with 4096 in *.
  assert (Hfree : boot_free_addr s' = p + 4096).
  { rewrite Hbump. destruct (ALIGN_pow2 (p + 4096) 4) as (Hm & Hup & _); [lia.. |].
    change (2 ^ 4) with 16 in *. set (a := ALIGN _ _) in *.
    pose proof (Z.div_mod a 16 ltac:(lia)). pose proof (Z.div_mod p 4096 ltac:(lia)). lia. }
  split_and!; [done | lia | | | | lia | done].
  - intros q. rewrite Hfree. pose proof (Z.div_mod p 4096 ltac:(lia)).
    pose proof (Z.div_mod q 4096 ltac:(lia)).
    split; [intros [Hq Hr] | intros [[Hq Hr]| ->]; split; done || lia].
    destruct (decide (q = p)); [by right | left]. split; [done | lia].
  - intros x Hx. by rewrite Hbytes, bool_decide_true.
  - intros x Hx. by rewrite Hbytes, bool_decide_false.
Qed.
Next Obligation. intros m s n [[] H]. split; [by split | done]. Qed.
Next Obligation. intros s n k Hk [Hok H]. split; [done |]. intros Hk0. specialize (H ltac:(lia)). lia. Qed.
Next Obligation.
  intros s n Hn [Hok Ha]. pose proof Hok as [Hf Hs]. specialize (Ha Hn).
  destruct (align_free s 12 Hok ltac:(lia)) as (Hok0 & Hle & Hmod). simpl in Hok0, Hle, Hmod.
  change (2 ^ 12) with 4096 in *. set (p := ALIGN (boot_free_addr s) 4096) in *.
  destruct (ALIGN_pow2 (p + 4096) 4) as (Hm16 & Hup & Hmax); [lia.. |]. change (2 ^ 4) with 16 in *.
  assert (Hf' : ALIGN (p + 4096) 16 = p + 4096).
  { clearbody p. set (a := ALIGN (p + 4096) 16) in *. clearbody a.
    pose proof (Z.div_mod a 16 ltac:(lia)). pose proof (Z.div_mod p 4096 ltac:(lia)). lia. }
  exists p. eexists. split.
  - simpl. unfold calloc_align. cbn [Z.eqb orb]. erewrite bind_step by done.
    assert (boot_uninitialized s = false) as ->.
    { unfold boot_uninitialized. destruct (Z.eqb_spec (boot_free_addr s) 0); [lia |]. apply andb_false_r. }
    destruct (Z.leb_spec (memory_size s) 4096); [lia |]. erewrite bind_step by done. erewrite bind_step by done.
    cbn [memory_size set_boot_free boot_free_addr]. fold p. rewrite (w64_small (1 * 4096)), (w64_small (p + 1 * 4096)) by lia.
    destruct (Z.ltb_spec (memory_size s) (p + 1 * 4096)); [lia |]. done.
  - split; [lia |]. simpl. change (1 * 4096) with 4096. rewrite (w64_small (p + 4096)), Hf' by lia.
    split; [split; simpl; lia |]. intros Hn1. split; [lia |].
    destruct (ALIGN_pow2 (p + 4096) 12) as (Hm & Hup2 & Hmax2); [lia.. |]. change (2 ^ 12) with 4096 in *.
    set (a := ALIGN (p + 4096) 4096) in *. pose proof (Z.div_mod a 4096 ltac:(lia)). pose proof (Z.div_mod p 4096 ltac:(lia)). lia.
Qed.

(** ** The CPU table *)

(** [n] calls of [add_cpu], as made while the MP tables are parsed. *)
Fixpoint add_cpus (n : nat) : M cpu_table (list Z) :=
  match n with
  | O => mret []
  | S n' => p ← add_cpu; l ← add_cpus n'; mret (p :: l)
  end.

(** After the first call: the pool is set, and the first [ct_ncpus] slots hold
    its pages in order. *)
Record table_ok (s : cpu_table) : Prop := {
  tb_first : ct_first_time s = false;
  tb_count : 0 <= ct_ncpus s <= MAX_CPUS;
  tb_pool : 0 <= cpuinfo_pool s < 2 ^ 63;
  tb_slots : forall i, 0 <= i < ct_ncpus s ->
    cpuinfo_table s !! i = Some (cpuinfo_pool s + i * 4096)
}.

Lemma add_cpu_next s :
  table_ok s -> ct_ncpus s < MAX_CPUS ->
  wp add_cpu s (fun p s' => p = cpuinfo_pool s + ct_ncpus s * 4096 /\ table_ok s' /\
    ct_ncpus s' = ct_ncpus s + 1 /\ cpuinfo_pool s' = cpuinfo_pool s /\ ct_mem s' = ct_mem s).
Proof.
  intros [Hf Hc Hp Hsl] Hn. unfold add_cpu. wp_step. wp_step.
  destruct (Z.ltb_spec MAX_CPUS (ct_ncpus s)); [lia |]. wp_step. wp_step. rewrite Hf.
  wp_step. cbn [when]. wp_step. destruct (Z.leb_spec MAX_CPUS (ct_ncpus s)); [lia |].
  wp_steps. rewrite w64_small by lia. split_and!; [done | | done..].
  split; simpl; [done | lia | lia |]. intros i Hi.
  destruct (decide (i = ct_ncpus s)) as [->|]; [by simplify_map_eq |].
  rewrite lookup_insert_ne by done. apply Hsl. lia.
Qed.

Lemma add_cpus_next n s :
  table_ok s -> ct_ncpus s + Z.of_nat n <= MAX_CPUS ->
  wp (add_cpus n) s (fun l s' =>
    l = (fun i => cpuinfo_pool s + i * 4096) <$> seqZ (ct_ncpus s) (Z.of_nat n) /\ table_ok s' /\
    ct_ncpus s' = ct_ncpus s + Z.of_nat n /\ cpuinfo_pool s' = cpuinfo_pool s /\ ct_mem s' = ct_mem s).
Proof.
  revert s. induction n as [|n IH]; intros s Hok Hn.
  { cbn [add_cpus]. wp_step. split_and!; try done. lia. }
  cbn [add_cpus]. wp_step. eapply post_mono; [apply add_cpu_next; [done | lia] |].
  intros p s1 _ (-> & Hok1 & Hn1 & Hp1 & Hm1). wp_step.
  eapply post_mono; [apply IH; [done | lia] |].
  intros l s2 _ (-> & Hok2 & Hn2 & Hp2 & Hm2). wp_step. rewrite Hn1, Hp1, Hp2, Hm2, Hm1 in *.
  split_and!; [| done | lia | done | done].
  rewrite (seqZ_cons (ct_ncpus s)) by lia. rewrite Nat2Z.inj_succ, Z.pred_succ. done.
Qed.

(** The first call allocates the pool. *)
Lemma add_cpu_first s :
  boot_ok (ct_mem s) -> ct_first_time s = true -> ct_ncpus s = 0 ->
  exists pool m1, let s1 := CpuTable m1 (<[0 := pool]> (<[0 := pool]> (cpuinfo_table s))) 1 pool false in
    add_cpu s = Ok pool s1 /\ table_ok s1 /\ calloc_align 1 _2MB_ _2MB_ (ct_mem s) = Ok pool m1 /\
    served (CallocAlign 1 _2MB_ 21) (ct_mem s) pool m1 /\
    (pool = 0 \/ pool mod _2MB_ = 0 /\ boot_free_addr (ct_mem s) <= pool /\
       pool + _2MB_ <= memory_size (ct_mem s) /\
       forall x, pool <= x < pool + _2MB_ -> byte_at (boot_memory m1) x = 0).
Proof.
  intros Hok Hft Hn0.
  destruct (wp_elim _ _ _ (serve_spec (CallocAlign 1 _2MB_ 21) (ct_mem s) Hok ltac:(done)))
    as (pool & m1 & Hrun & Hsv). pose proof Hsv as (Hok1 & Hms & _ & Hcase).
  change (calloc_align 1 _2MB_ _2MB_ (ct_mem s) = Ok pool m1) in Hrun. exists pool, m1. intros s1.
  assert (Hpool : 0 <= pool < 2 ^ 63 /\ (pool = 0 \/ pool mod _2MB_ = 0 /\
    boot_free_addr (ct_mem s) <= pool /\ pool + _2MB_ <= memory_size (ct_mem s) /\
    forall x, pool <= x < pool + _2MB_ -> byte_at (boot_memory m1) x = 0)).
  { destruct Hok. destruct Hcase as [[-> _]|(Hle & Hal & _ & Htop & _ & Hb)]; [lia |]. simpl in *.
    split; [lia |]. right. split_and!; [done | lia | lia |].
    intros x Hx. by rewrite Hb, bool_decide_true by lia. }
  destruct Hpool as [Hrange Hpool]. split_and!; [| | done | done | done].
  - unfold add_cpu. erewrite bind_step by done. rewrite Hn0. simpl.
    erewrite bind_step by done. rewrite Hft. cbn [when].
    erewrite bind_step.
    2: { erewrite bind_step by done. unfold allocate_cpuinfo_pool.
         erewrite bind_step by (unfold zoom; cbn [ct_mem]; by rewrite Hrun). done. }
    erewrite bind_step by done. simpl. erewrite bind_step by done. erewrite bind_step by done.
    simpl. rewrite Z.add_0_r, w64_small by lia. done.
  - split; simpl; [done | lia | lia |]. intros i Hi. replace i with 0 by lia. simplify_map_eq. f_equal. lia.
Qed.

(** Registering [n] CPUs (at most 255) returns: the [i]-th CPU gets page
    [i] of one 2MB-aligned, zeroed pool (whose address is 0 when memory is
    exhausted: the code does not check), [ncpus] counts them, and
    [get_cpu_info] finds each one's page; in particular no two CPUs share
    their [struct cpu_info]. *)
Theorem add_cpus_correct n s :
  boot_ok (ct_mem s) -> ct_first_time s = true -> ct_ncpus s = 0 -> (0 < n <= 255)%nat ->
  exists pool l s', add_cpus n s = Ok l s' /\
    l = (fun i => pool + i * 4096) <$> seqZ 0 (Z.of_nat n) /\
    (pool = 0 \/ pool mod _2MB_ = 0 /\ boot_free_addr (ct_mem s) <= pool /\
       pool + _2MB_ <= memory_size (ct_mem s) /\
       forall x, pool <= x < pool + _2MB_ -> byte_at (boot_memory (ct_mem s')) x = 0) /\
    get_ncpus s' = Ok (Z.of_nat n) s' /\
    (forall i, 0 <= i < Z.of_nat n -> boot_get_cpu_info i s' = Ok (pool + i * 4096) s').
Proof.
  intros Hok Hft Hn0 Hn. destruct n as [|n]; [lia |].
  destruct (add_cpu_first s Hok Hft Hn0) as (pool & m1 & Hfirst & Htab & _ & _ & Hpool). set (s1 := CpuTable m1 _ _ _ _) in *.
  destruct (wp_elim _ _ _ (add_cpus_next n s1 Htab ltac:(simpl; lia)))
    as (l & s2 & Hrest & -> & Htab2 & Hn2 & Hp2 & Hm2).
  exists pool, (pool :: ((fun i => pool + i * 4096) <$> seqZ 1 (Z.of_nat n))), s2. split_and!.
  - cbn [add_cpus]. erewrite bind_step by done. by erewrite bind_step by done.
  - rewrite (seqZ_cons 0) by lia. rewrite Nat2Z.inj_succ, Z.pred_succ. simpl. f_equal. lia.
  - rewrite Hm2. done.
  - unfold get_ncpus, gets. rewrite Hn2. simpl. f_equal. lia.
  - intros i Hi. simpl in Hn2. unfold boot_get_cpu_info.
    destruct (Z.ltb_spec MAX_CPUS i); [lia |]. destruct (Z.leb_spec MAX_CPUS i); [lia |].
    erewrite bind_step by done. destruct Htab2. rewrite tb_slots0 by lia. by rewrite Hp2.
Qed.

(** The bound of [add_cpu] is off by one: with 255 CPUs registered the
    check still passes, and the slot written lies outside [cpuinfo_table]. *)
Theorem add_cpu_overflow s :
  ct_first_time s = false -> ct_ncpus s = MAX_CPUS ->
  add_cpu s = Stop (Fault "cpuinfo_table").
Proof.
  intros Hft Hn. unfold add_cpu. erewrite bind_step by done. rewrite Hn.
  simpl. erewrite bind_step by done. by rewrite Hft.
Qed.
