(* ===== verification/CpuInfo.v ===== *)
(** * Per-CPU data and the machine a program runs on (include/cpu.h, lib/lib_mem.c)

    [struct cpu_info] as a record, the machine state every program of the
    system works on, and [virt2phys].

    Each CPU runs one program, and the programs share physical memory.  What
    the other CPUs do is visible to a program only when it polls memory: the
    state carries the list of their actions, one per unsuccessful poll, and a
    polling loop that meets the end of the list never returns ([Diverge]). *)

From S2P Require Import Prelude PhysMem MemMgr.

(** [struct regs]: 27 registers, eight bytes each, packed. *)
Record regs := Regs {
  rg_rax : Z;
  rg_rbx : Z;
  rg_rcx : Z;
  rg_rdx : Z;
  rg_rsi : Z;
  rg_rdi : Z;
  rg_rsp : Z;
  rg_rbp : Z;
  rg_rip : Z;
  rg_cs : Z;
  rg_ds : Z;
  rg_es : Z;
  rg_fs : Z;
  rg_gs : Z;
  rg_ss : Z;
  rg_rflags : Z;
  rg_r8 : Z;
  rg_r9 : Z;
  rg_r10 : Z;
  rg_r11 : Z;
  rg_r12 : Z;
  rg_r13 : Z;
  rg_r14 : Z;
  rg_r15 : Z;
  rg_cr0 : Z;
  rg_cr3 : Z;
  rg_cr4 : Z
}.
Definition set_rg_rax (v : Z) (x : regs) : regs :=
  Regs v (rg_rbx x) (rg_rcx x) (rg_rdx x) (rg_rsi x) (rg_rdi x) (rg_rsp x) (rg_rbp x) (rg_rip x)
    (rg_cs x) (rg_ds x) (rg_es x) (rg_fs x) (rg_gs x) (rg_ss x) (rg_rflags x) (rg_r8 x)
    (rg_r9 x) (rg_r10 x) (rg_r11 x) (rg_r12 x) (rg_r13 x) (rg_r14 x) (rg_r15 x) (rg_cr0 x)
    (rg_cr3 x) (rg_cr4 x).
Definition set_rg_rdx (v : Z) (x : regs) : regs :=
  Regs (rg_rax x) (rg_rbx x) (rg_rcx x) v (rg_rsi x) (rg_rdi x) (rg_rsp x) (rg_rbp x) (rg_rip x)
    (rg_cs x) (rg_ds x) (rg_es x) (rg_fs x) (rg_gs x) (rg_ss x) (rg_rflags x) (rg_r8 x)
    (rg_r9 x) (rg_r10 x) (rg_r11 x) (rg_r12 x) (rg_r13 x) (rg_r14 x) (rg_r15 x) (rg_cr0 x)
    (rg_cr3 x) (rg_cr4 x).
Definition set_rg_rsi (v : Z) (x : regs) : regs :=
  Regs (rg_rax x) (rg_rbx x) (rg_rcx x) (rg_rdx x) v (rg_rdi x) (rg_rsp x) (rg_rbp x) (rg_rip x)
    (rg_cs x) (rg_ds x) (rg_es x) (rg_fs x) (rg_gs x) (rg_ss x) (rg_rflags x) (rg_r8 x)
    (rg_r9 x) (rg_r10 x) (rg_r11 x) (rg_r12 x) (rg_r13 x) (rg_r14 x) (rg_r15 x) (rg_cr0 x)
    (rg_cr3 x) (rg_cr4 x).
Definition set_rg_rdi (v : Z) (x : regs) : regs :=
  Regs (rg_rax x) (rg_rbx x) (rg_rcx x) (rg_rdx x) (rg_rsi x) v (rg_rsp x) (rg_rbp x) (rg_rip x)
    (rg_cs x) (rg_ds x) (rg_es x) (rg_fs x) (rg_gs x) (rg_ss x) (rg_rflags x) (rg_r8 x)
    (rg_r9 x) (rg_r10 x) (rg_r11 x) (rg_r12 x) (rg_r13 x) (rg_r14 x) (rg_r15 x) (rg_cr0 x)
    (rg_cr3 x) (rg_cr4 x).
Definition set_rg_rsp (v : Z) (x : regs) : regs :=
  Regs (rg_rax x) (rg_rbx x) (rg_rcx x) (rg_rdx x) (rg_rsi x) (rg_rdi x) v (rg_rbp x) (rg_rip x)
    (rg_cs x) (rg_ds x) (rg_es x) (rg_fs x) (rg_gs x) (rg_ss x) (rg_rflags x) (rg_r8 x)
    (rg_r9 x) (rg_r10 x) (rg_r11 x) (rg_r12 x) (rg_r13 x) (rg_r14 x) (rg_r15 x) (rg_cr0 x)
    (rg_cr3 x) (rg_cr4 x).
Definition set_rg_rip (v : Z) (x : regs) : regs :=
  Regs (rg_rax x) (rg_rbx x) (rg_rcx x) (rg_rdx x) (rg_rsi x) (rg_rdi x) (rg_rsp x) (rg_rbp x) v
    (rg_cs x) (rg_ds x) (rg_es x) (rg_fs x) (rg_gs x) (rg_ss x) (rg_rflags x) (rg_r8 x)
    (rg_r9 x) (rg_r10 x) (rg_r11 x) (rg_r12 x) (rg_r13 x) (rg_r14 x) (rg_r15 x) (rg_cr0 x)
    (rg_cr3 x) (rg_cr4 x).
Definition set_rg_rflags (v : Z) (x : regs) : regs :=
  Regs (rg_rax x) (rg_rbx x) (rg_rcx x) (rg_rdx x) (rg_rsi x) (rg_rdi x) (rg_rsp x) (rg_rbp x)
    (rg_rip x) (rg_cs x) (rg_ds x) (rg_es x) (rg_fs x) (rg_gs x) (rg_ss x) v (rg_r8 x) (rg_r9 x)
    (rg_r10 x) (rg_r11 x) (rg_r12 x) (rg_r13 x) (rg_r14 x) (rg_r15 x) (rg_cr0 x) (rg_cr3 x)
    (rg_cr4 x).

(** The structure read from memory at [a]. *)
Definition load_regs (m : memory) (a : Z) : regs :=
  Regs (load64 m (a + 0)) (load64 m (a + 8)) (load64 m (a + 16)) (load64 m (a + 24))
    (load64 m (a + 32)) (load64 m (a + 40)) (load64 m (a + 48)) (load64 m (a + 56))
    (load64 m (a + 64)) (load64 m (a + 72)) (load64 m (a + 80)) (load64 m (a + 88))
    (load64 m (a + 96)) (load64 m (a + 104)) (load64 m (a + 112)) (load64 m (a + 120))
    (load64 m (a + 128)) (load64 m (a + 136)) (load64 m (a + 144)) (load64 m (a + 152))
    (load64 m (a + 160)) (load64 m (a + 168)) (load64 m (a + 176)) (load64 m (a + 184))
    (load64 m (a + 192)) (load64 m (a + 200)) (load64 m (a + 208)).

(** The address, load address and size of a program section
    ([vm_X_paddr], [vm_X_vaddr], [vm_X_size]). *)
Record section := Sec {
  s_paddr : Z;
  s_vaddr : Z;
  s_size : Z
}.

(** [struct vm_proc]; the VMX pointers are the hypervisor's. *)
Record vm_proc := VmProc {
  vm_regs : regs;
  vm_start_paddr : Z;
  vm_end_paddr : Z;
  vm_start_vaddr : Z;
  vm_end_vaddr : Z;
  vm_code : section;
  vm_data : section;
  vm_rodata : section;
  vm_bss : section;
  vm_stack : section;
  vm_page_tables : Z;
  vm_ept : Z;
  vm_parent : Z;
  vm_exit_status : Z;
  vm_state : Z;
  vm_waiting_for : Z;
  vm_fds : Z;
  vm_channels : Z
}.
Definition set_vm_regs (v : regs) (x : vm_proc) : vm_proc :=
  VmProc v (vm_start_paddr x) (vm_end_paddr x) (vm_start_vaddr x) (vm_end_vaddr x) (vm_code x)
    (vm_data x) (vm_rodata x) (vm_bss x) (vm_stack x) (vm_page_tables x) (vm_ept x)
    (vm_parent x) (vm_exit_status x) (vm_state x) (vm_waiting_for x) (vm_fds x) (vm_channels x).
Definition set_vm_start_paddr (v : Z) (x : vm_proc) : vm_proc :=
  VmProc (vm_regs x) v (vm_end_paddr x) (vm_start_vaddr x) (vm_end_vaddr x) (vm_code x)
    (vm_data x) (vm_rodata x) (vm_bss x) (vm_stack x) (vm_page_tables x) (vm_ept x)
    (vm_parent x) (vm_exit_status x) (vm_state x) (vm_waiting_for x) (vm_fds x) (vm_channels x).
Definition set_vm_end_paddr (v : Z) (x : vm_proc) : vm_proc :=
  VmProc (vm_regs x) (vm_start_paddr x) v (vm_start_vaddr x) (vm_end_vaddr x) (vm_code x)
    (vm_data x) (vm_rodata x) (vm_bss x) (vm_stack x) (vm_page_tables x) (vm_ept x)
    (vm_parent x) (vm_exit_status x) (vm_state x) (vm_waiting_for x) (vm_fds x) (vm_channels x).
Definition set_vm_start_vaddr (v : Z) (x : vm_proc) : vm_proc :=
  VmProc (vm_regs x) (vm_start_paddr x) (vm_end_paddr x) v (vm_end_vaddr x) (vm_code x)
    (vm_data x) (vm_rodata x) (vm_bss x) (vm_stack x) (vm_page_tables x) (vm_ept x)
    (vm_parent x) (vm_exit_status x) (vm_state x) (vm_waiting_for x) (vm_fds x) (vm_channels x).
Definition set_vm_end_vaddr (v : Z) (x : vm_proc) : vm_proc :=
  VmProc (vm_regs x) (vm_start_paddr x) (vm_end_paddr x) (vm_start_vaddr x) v (vm_code x)
    (vm_data x) (vm_rodata x) (vm_bss x) (vm_stack x) (vm_page_tables x) (vm_ept x)
    (vm_parent x) (vm_exit_status x) (vm_state x) (vm_waiting_for x) (vm_fds x) (vm_channels x).
Definition set_vm_code (v : section) (x : vm_proc) : vm_proc :=
  VmProc (vm_regs x) (vm_start_paddr x) (vm_end_paddr x) (vm_start_vaddr x) (vm_end_vaddr x) v
    (vm_data x) (vm_rodata x) (vm_bss x) (vm_stack x) (vm_page_tables x) (vm_ept x)
    (vm_parent x) (vm_exit_status x) (vm_state x) (vm_waiting_for x) (vm_fds x) (vm_channels x).
Definition set_vm_data (v : section) (x : vm_proc) : vm_proc :=
  VmProc (vm_regs x) (vm_start_paddr x) (vm_end_paddr x) (vm_start_vaddr x) (vm_end_vaddr x)
    (vm_code x) v (vm_rodata x) (vm_bss x) (vm_stack x) (vm_page_tables x) (vm_ept x)
    (vm_parent x) (vm_exit_status x) (vm_state x) (vm_waiting_for x) (vm_fds x) (vm_channels x).
Definition set_vm_rodata (v : section) (x : vm_proc) : vm_proc :=
  VmProc (vm_regs x) (vm_start_paddr x) (vm_end_paddr x) (vm_start_vaddr x) (vm_end_vaddr x)
    (vm_code x) (vm_data x) v (vm_bss x) (vm_stack x) (vm_page_tables x) (vm_ept x)
    (vm_parent x) (vm_exit_status x) (vm_state x) (vm_waiting_for x) (vm_fds x) (vm_channels x).
Definition set_vm_bss (v : section) (x : vm_proc) : vm_proc :=
  VmProc (vm_regs x) (vm_start_paddr x) (vm_end_paddr x) (vm_start_vaddr x) (vm_end_vaddr x)
    (vm_code x) (vm_data x) (vm_rodata x) v (vm_stack x) (vm_page_tables x) (vm_ept x)
    (vm_parent x) (vm_exit_status x) (vm_state x) (vm_waiting_for x) (vm_fds x) (vm_channels x).
Definition set_vm_stack (v : section) (x : vm_proc) : vm_proc :=
  VmProc (vm_regs x) (vm_start_paddr x) (vm_end_paddr x) (vm_start_vaddr x) (vm_end_vaddr x)
    (vm_code x) (vm_data x) (vm_rodata x) (vm_bss x) v (vm_page_tables x) (vm_ept x)
    (vm_parent x) (vm_exit_status x) (vm_state x) (vm_waiting_for x) (vm_fds x) (vm_channels x).
Definition set_vm_page_tables (v : Z) (x : vm_proc) : vm_proc :=
  VmProc (vm_regs x) (vm_start_paddr x) (vm_end_paddr x) (vm_start_vaddr x) (vm_end_vaddr x)
    (vm_code x) (vm_data x) (vm_rodata x) (vm_bss x) (vm_stack x) v (vm_ept x) (vm_parent x)
    (vm_exit_status x) (vm_state x) (vm_waiting_for x) (vm_fds x) (vm_channels x).
Definition set_vm_ept (v : Z) (x : vm_proc) : vm_proc :=
  VmProc (vm_regs x) (vm_start_paddr x) (vm_end_paddr x) (vm_start_vaddr x) (vm_end_vaddr x)
    (vm_code x) (vm_data x) (vm_rodata x) (vm_bss x) (vm_stack x) (vm_page_tables x) v
    (vm_parent x) (vm_exit_status x) (vm_state x) (vm_waiting_for x) (vm_fds x) (vm_channels x).
Definition set_vm_parent (v : Z) (x : vm_proc) : vm_proc :=
  VmProc (vm_regs x) (vm_start_paddr x) (vm_end_paddr x) (vm_start_vaddr x) (vm_end_vaddr x)
    (vm_code x) (vm_data x) (vm_rodata x) (vm_bss x) (vm_stack x) (vm_page_tables x) (vm_ept x)
    v (vm_exit_status x) (vm_state x) (vm_waiting_for x) (vm_fds x) (vm_channels x).
Definition set_vm_exit_status (v : Z) (x : vm_proc) : vm_proc :=
  VmProc (vm_regs x) (vm_start_paddr x) (vm_end_paddr x) (vm_start_vaddr x) (vm_end_vaddr x)
    (vm_code x) (vm_data x) (vm_rodata x) (vm_bss x) (vm_stack x) (vm_page_tables x) (vm_ept x)
    (vm_parent x) v (vm_state x) (vm_waiting_for x) (vm_fds x) (vm_channels x).
Definition set_vm_state (v : Z) (x : vm_proc) : vm_proc :=
  VmProc (vm_regs x) (vm_start_paddr x) (vm_end_paddr x) (vm_start_vaddr x) (vm_end_vaddr x)
    (vm_code x) (vm_data x) (vm_rodata x) (vm_bss x) (vm_stack x) (vm_page_tables x) (vm_ept x)
    (vm_parent x) (vm_exit_status x) v (vm_waiting_for x) (vm_fds x) (vm_channels x).
Definition set_vm_fds (v : Z) (x : vm_proc) : vm_proc :=
  VmProc (vm_regs x) (vm_start_paddr x) (vm_end_paddr x) (vm_start_vaddr x) (vm_end_vaddr x)
    (vm_code x) (vm_data x) (vm_rodata x) (vm_bss x) (vm_stack x) (vm_page_tables x) (vm_ept x)
    (vm_parent x) (vm_exit_status x) (vm_state x) (vm_waiting_for x) v (vm_channels x).
Definition set_vm_channels (v : Z) (x : vm_proc) : vm_proc :=
  VmProc (vm_regs x) (vm_start_paddr x) (vm_end_paddr x) (vm_start_vaddr x) (vm_end_vaddr x)
    (vm_code x) (vm_data x) (vm_rodata x) (vm_bss x) (vm_stack x) (vm_page_tables x) (vm_ept x)
    (vm_parent x) (vm_exit_status x) (vm_state x) (vm_waiting_for x) (vm_fds x) v.

(** [struct cpu_info], with [vmm_info.vmm_has_vm] from [struct vmm_proc]. *)
Record cpu_info := CpuInfo {
  cpuid : Z;
  vm_info : vm_proc;
  vmm_has_vm : bool;
  vm_args : Z;
  ncpus : Z;
  msg_input : Z;
  msg_output : Z;
  msg_ready : Z;
  msg_ready_bitmap : Z
}.
Definition set_vm_info (v : vm_proc) (x : cpu_info) : cpu_info :=
  CpuInfo (cpuid x) v (vmm_has_vm x) (vm_args x) (ncpus x) (msg_input x) (msg_output x)
    (msg_ready x) (msg_ready_bitmap x).
Definition set_vmm_has_vm (v : bool) (x : cpu_info) : cpu_info :=
  CpuInfo (cpuid x) (vm_info x) v (vm_args x) (ncpus x) (msg_input x) (msg_output x)
    (msg_ready x) (msg_ready_bitmap x).
Abbreviation RUNNING := 1.
Abbreviation WAIT_IO := 2.
Abbreviation WAIT_CHLD := 3.
Abbreviation ZOMBIE := 4.

Abbreviation PM := 0.
Abbreviation FS := 1.
Abbreviation INIT := 2.
Abbreviation KBD := 3.
Abbreviation JUNK := 4.
Abbreviation CONSOLE := 5.
Abbreviation NUMBER_SERVERS := 2.
Abbreviation NUMBER_USER_VMS := 1.
Abbreviation MAX_CPUS := 255.
Abbreviation MAX_FD := 32.
Abbreviation MAX_CHANNELS := 32.

(** A page of the CPU pool that was never set up is all zero. *)
Definition no_regs : regs := load_regs ∅ 0.
Definition no_section : section := Sec 0 0 0.
Definition no_vm : vm_proc :=
  VmProc no_regs 0 0 0 0 no_section no_section no_section no_section no_section 0 0 0 0 0 0 0 0.
Definition no_cpu : cpu_info := CpuInfo 0 no_vm false 0 0 0 0 0 0.

(** ** The machine *)

Record machine := Machine {
  m_mem : memory;
  m_cpus : gmap Z cpu_info;            (* the CPU pool, one page per CPU *)
  m_pool : Z;                          (* its physical address *)
  m_self : Z;                          (* the CPU the program runs on *)
  m_recv : Z;                          (* [static int i] of [msg_receive] *)
  m_cnl : Z;                           (* [static int i] of [cnl_receive_any] *)
  m_world : list (memory -> memory)    (* actions of the other CPUs *)
}.
Definition set_m_mem (v : memory) (x : machine) : machine :=
  Machine v (m_cpus x) (m_pool x) (m_self x) (m_recv x) (m_cnl x) (m_world x).
Definition set_m_cpus (v : gmap Z cpu_info) (x : machine) : machine :=
  Machine (m_mem x) v (m_pool x) (m_self x) (m_recv x) (m_cnl x) (m_world x).
Definition set_m_recv (v : Z) (x : machine) : machine :=
  Machine (m_mem x) (m_cpus x) (m_pool x) (m_self x) v (m_cnl x) (m_world x).
Definition set_m_cnl (v : Z) (x : machine) : machine :=
  Machine (m_mem x) (m_cpus x) (m_pool x) (m_self x) (m_recv x) v (m_world x).
Definition set_m_world (v : list (memory -> memory)) (x : machine) : machine :=
  Machine (m_mem x) (m_cpus x) (m_pool x) (m_self x) (m_recv x) (m_cnl x) v.

Definition cpu_at (s : machine) (id : Z) : cpu_info := default no_cpu (m_cpus s !! id).
(** [cpuinfo] *)
Definition self (s : machine) : cpu_info := cpu_at s (m_self s).
Definition update_cpu (id : Z) (f : cpu_info -> cpu_info) : M machine unit :=
  modify (fun s => set_m_cpus (<[id := f (cpu_at s id)]> (m_cpus s)) s).

Definition update_mem (f : memory -> memory) : M machine unit :=
  modify (fun s => set_m_mem (f (m_mem s)) s).

(** One unsuccessful poll: the other CPUs act. *)
Definition step_world : M machine unit := fun s =>
  match m_world s with
  | [] => Stop Diverge
  | act :: rest => Ok tt (set_m_world rest (set_m_mem (act (m_mem s)) s))
  end.

(** [while (1) { if (test) { act; break; } }]: [try] is one round, [None] when
    the test fails. *)
Fixpoint poll {A} (fuel : nat) (try : M machine (option A)) : M machine A :=
  r ← try;
  match r, fuel with
  | Some a, _ => mret a
  | None, S fuel' => step_world ;; poll fuel' try
  | None, O => stop_with Diverge
  end.
(** Every round consumes an action, so their number bounds the rounds. *)
Definition poll_until {A} (try : M machine (option A)) : M machine A :=
  n ← gets (fun s => length (m_world s)); poll n try.

(** ** virt2phys *)

Definition virt2phys {S} (info : cpu_info) (vaddr : Z) : M S Z :=
  let vm := vm_info info in
  if (s_vaddr (vm_code vm) <=? vaddr) && (vaddr <? s_vaddr (vm_data vm)) then
    mret (w64 (s_paddr (vm_code vm) + (vaddr - s_vaddr (vm_code vm))))
  else if (s_vaddr (vm_data vm) <=? vaddr) && (vaddr <? s_vaddr (vm_rodata vm)) then
    mret (w64 (s_paddr (vm_data vm) + (vaddr - s_vaddr (vm_data vm))))
  else if (s_vaddr (vm_rodata vm) <=? vaddr) && (vaddr <? s_vaddr (vm_bss vm)) then
    mret (w64 (s_paddr (vm_rodata vm) + (vaddr - s_vaddr (vm_rodata vm))))
  else if (s_vaddr (vm_bss vm) <=? vaddr) && (vaddr <? s_vaddr (vm_stack vm)) then
    mret (w64 (s_paddr (vm_bss vm) + (vaddr - s_vaddr (vm_bss vm))))
  else if (s_vaddr (vm_stack vm) <=? vaddr) && (vaddr <=? vm_end_vaddr vm) then
    mret (w64 (s_paddr (vm_stack vm) + (vaddr - s_vaddr (vm_stack vm))))
  else panic "virt2phys: address out of range".

(** lib/misc.c *)
Definition check_server (info : cpu_info) : bool := negb (NUMBER_SERVERS <? cpuid info).
Definition is_driver (id : Z) : bool := (id =? KBD) || (id =? CONSOLE) || (id =? JUNK).
