(* ===== verification/Ipc.v ===== *)
(** * Messages (lib/bitmap.c, lib/ipc.c)

    Every CPU owns a page of outgoing message, a page of incoming messages
    (one 64-byte box per sender) and the servers own a word of ready bits.
    All of them are plain physical memory; [struct message] is packed:
    [from] at 0, [number] at 8, 48 bytes of data at 16. *)

From S2P Require Import Prelude PhysMem MemMgr CpuInfo.

(** ** Bitmaps *)

(** [1 << bit] is computed as a 32-bit [int]: the sign bit extends when the
    result is used as a 64-bit mask, and other shifts are undefined. *)
Definition shift_one (bit : Z) : option Z :=
  if (0 <=? bit) && (bit <? 31) then Some (2 ^ bit)
  else if bit =? 31 then Some (- 2 ^ 31)
  else None.

Definition set_bit_word (w bit : Z) : option Z := (fun k => w64 (Z.lor w k)) <$> shift_one bit.
Definition clear_bit_word (w bit : Z) : option Z :=
  (fun k => w64 (Z.land w (Z.lnot k))) <$> shift_one bit.
Definition check_bit_word (w bit : Z) : option Z :=
  (fun k => s32 (Z.shiftr (w64 (Z.land w k)) bit)) <$> shift_one bit.

Definition bad_shift : stop := Fault "shift count".

Definition set_bit (bitmap bit : Z) : M machine unit :=
  s ← get;
  w ← of_option bad_shift (set_bit_word (load64 (m_mem s) bitmap) bit);
  update_mem (fun m => store64 m bitmap w).
Definition clear_bit (bitmap bit : Z) : M machine unit :=
  s ← get;
  w ← of_option bad_shift (clear_bit_word (load64 (m_mem s) bitmap) bit);
  update_mem (fun m => store64 m bitmap w).
Definition check_bit (bitmap bit : Z) : M machine Z :=
  s ← get;
  of_option bad_shift (check_bit_word (load64 (m_mem s) bitmap) bit).

(** ** Messages *)

Abbreviation ANY := (-1).
Abbreviation MSG_SIZE := 64.
Abbreviation MSG_DATA_SIZE := 48.

(** The fields of the message at [a]. *)
Definition msg_from (m : memory) (a : Z) : Z := load64 m a.
Definition msg_number (m : memory) (a : Z) : Z := load64 m (a + 8).
Definition msg_data (a : Z) : Z := a + 16.

(** [data] are the [size] bytes at the caller's pointer. *)
Definition msg_send (to number : Z) (data : list Z) : M machine unit :=
  s ← get;
  let id := cpuid (self s) in
  let out := msg_output (self s) in
  update_mem (fun m => store64 m out id) ;;
  update_mem (fun m => store64 m (out + 8) number) ;;
  update_mem (fun m => put_bytes m (msg_data out) data) ;;
  set_bit (msg_ready_bitmap (self s) + 8 * to) id.

(** Box [i] of the caller's inbox. *)
Definition inbox (s : machine) (i : Z) : Z := msg_input (self s) + MSG_SIZE * i.

(** Take the message of box [i], if there is one. *)
Definition take_box (i : Z) : M machine bool :=
  s ← get;
  if msg_number (m_mem s) (inbox s i) =? 0 then mret false else
  update_mem (fun m => store64 m (inbox s i + 8) 0) ;;
  mret true.

(** [while (i < ncpus)]: scan the boxes from [i] on; [m_recv] is the static
    variable [i]. *)
Fixpoint scan_boxes (n : nat) : M machine (option Z) :=
  match n with
  | O => mret None
  | S n' =>
      i ← gets m_recv;
      found ← take_box i;
      modify (set_m_recv (i + 1)) ;;
      if (found : bool) then mret (Some i) else scan_boxes n'
  end.

Definition receive_any (ncpus : Z) : M machine (option Z) :=
  i ← gets m_recv;
  from ← scan_boxes (Z.to_nat (ncpus - i));
  s ← get;
  when (ncpus <=? m_recv s) (modify (set_m_recv 0)) ;;
  mret from.

Definition msg_receive (from : Z) : M machine Z :=
  s ← get;
  let n := s32 (ncpus (self s)) in
  if from =? ANY then poll_until (receive_any n)
  else poll_until (found ← take_box from; mret (if (found : bool) then Some from else None)).

(** [for (i = 0; i < ncpus; i++)]: the first ready bit, -1 if there is none. *)
Fixpoint first_ready (n : nat) (bitmap i : Z) : M machine Z :=
  match n with
  | O => mret (-1)
  | S n' =>
      bit ← check_bit bitmap i;
      if bit =? 1 then mret i else first_ready n' bitmap (i + 1)
  end.

(** The result is the address of the message: the sender's outgoing page. *)
Definition msg_check : M machine Z :=
  s ← get;
  if negb (check_server (self s)) then mret (msg_input (self s)) else
  let id := cpuid (self s) in
  let bitmap := msg_ready_bitmap (self s) + 8 * id in
  poll_until (s ← get;
    mret (if negb (load64 (m_mem s) bitmap =? 0) then Some tt else None)) ;;
  from ← first_ready (Z.to_nat (ncpus (self s))) bitmap 0;
  clear_bit bitmap from ;;
  let base_m := w64 (msg_output (self s) - 4096 * id) in
  mret (w64 (base_m + 4096 * from)).

Definition msg_reply (from to number : Z) (data : list Z) : M machine unit :=
  s ← get;
  if negb (check_server (self s)) then panic "Only Servers can use msg_reply" else
  let id := cpuid (self s) in
  let base := w64 (msg_input (self s) - 4096 * id) in
  let box := w64 (base + 4096 * to) + MSG_SIZE * from in
  update_mem (fun m => store64 m box from) ;;
  update_mem (fun m => put_bytes m (msg_data box) data) ;;
  update_mem (fun m => store64 m (box + 8) number).

(** Little-endian bytes of integer fields, for message payloads. *)
Fixpoint le_bytes (n : nat) (v : Z) : list Z :=
  match n with
  | O => []
  | S n' => w8 v :: le_bytes n' (v / 2 ^ 8)
  end.
Abbreviation int_bytes := (le_bytes 4).
Abbreviation u64_bytes := (le_bytes 8).
Definition load_int (m : memory) (a : Z) : Z := s32 (load32 m a).
