(* ===== verification/IpcSpec.v ===== *)
(** * Correctness of message passing

    Ready bits behave as a set for CPUs 0 to 30; a message sent to a server is
    the one the server's [msg_check] finds; a reply lands in the box the
    client polls.  The theorems at the end show where this stops: the sign bit
    of a 32-bit shift, more senders than boxes in a page, and two CPUs that
    update the ready word at the same time. *)

From S2P Require Import Prelude PhysMem MemMgr MemMgrSpec CpuInfo Ipc.

(** ** Ready bits *)

Lemma shift_one_low i : 0 <= i < 31 -> shift_one i = Some (2 ^ i).
Proof. intros Hi. unfold shift_one. by destruct (Z.leb_spec 0 i), (Z.ltb_spec i 31); try lia. Qed.

Lemma w64_testbit x j : 0 <= j < 64 -> Z.testbit (w64 x) j = Z.testbit x j.
Proof. intros Hj. unfold w64. by rewrite Z.mod_pow2_bits_low by lia. Qed.

(** A word is determined by its 64 bits. *)
Lemma word_ext w w' :
  0 <= w < 2 ^ 64 -> 0 <= w' < 2 ^ 64 ->
  (forall j, 0 <= j < 64 -> Z.testbit w j = Z.testbit w' j) -> w = w'.
Proof.
  intros Hw Hw' H. apply Z.bits_inj'. intros j Hj.
  destruct (Z.lt_ge_cases j 64); [by apply H |].
  rewrite <-(Z.mod_small w (2 ^ 64)), <-(Z.mod_small w' (2 ^ 64)) by done.
  by rewrite !Z.mod_pow2_bits_high by lia.
Qed.

Lemma set_bit_word_spec w i :
  0 <= i < 31 -> exists w', set_bit_word w i = Some w' /\ 0 <= w' < 2 ^ 64 /\
    forall j, 0 <= j < 64 -> Z.testbit w' j = Z.testbit w j || (i =? j).
Proof.
  intros Hi. unfold set_bit_word. rewrite shift_one_low by done. eexists. split; [done |].
  split; [apply w64_bound |]. intros j Hj.
  by rewrite w64_testbit, Z.lor_spec, Z.pow2_bits_eqb by lia.
Qed.

Lemma clear_bit_word_spec w i :
  0 <= i < 31 -> exists w', clear_bit_word w i = Some w' /\ 0 <= w' < 2 ^ 64 /\
    forall j, 0 <= j < 64 -> Z.testbit w' j = Z.testbit w j && negb (i =? j).
Proof.
  intros Hi. unfold clear_bit_word. rewrite shift_one_low by done. eexists. split; [done |].
  split; [apply w64_bound |]. intros j Hj.
  by rewrite w64_testbit, Z.land_spec, Z.lnot_spec, Z.pow2_bits_eqb by lia.
Qed.

Lemma check_bit_word_spec w i :
  0 <= i < 31 -> check_bit_word w i = Some (if Z.testbit w i then 1 else 0).
Proof.
  intros Hi. unfold check_bit_word. rewrite shift_one_low by done. simpl. f_equal.
  assert (Hland : Z.land w (2 ^ i) = if Z.testbit w i then 2 ^ i else 0).
  { apply Z.bits_inj'. intros j Hj. rewrite Z.land_spec, Z.pow2_bits_eqb by lia.
    destruct (Z.eqb_spec i j) as [<-|Hne].
    - destruct (Z.testbit w i); [by rewrite Z.pow2_bits_true | by rewrite Z.bits_0].
    - rewrite andb_false_r. destruct (Z.testbit w i); [|by rewrite Z.bits_0].
      by rewrite Z.pow2_bits_false by lia. }
  assert (Hp : 0 < 2 ^ i < 2 ^ 64) by (split; [lia | apply Z.pow_lt_mono_r; lia]).
  rewrite Hland. destruct (Z.testbit w i).
  - rewrite w64_small, Z.shiftr_div_pow2, Z.div_same by lia. done.
  - rewrite w64_small, Z.shiftr_0_l by lia. done.
Qed.

(** For CPUs 0 to 30 the ready word is a set: after [set_bit] exactly the
    new bit is added, after [clear_bit] exactly that bit is gone, as
    [check_bit] reports them; clearing undoes setting. *)
Theorem bitmap_set_semantics w i j :
  0 <= i < 31 -> 0 <= j < 31 ->
  exists ws wc, set_bit_word w i = Some ws /\ clear_bit_word w i = Some wc /\
    check_bit_word ws j = (if i =? j then Some 1 else check_bit_word w j) /\
    check_bit_word wc j = (if i =? j then Some 0 else check_bit_word w j) /\
    (0 <= w < 2 ^ 64 -> Z.testbit w i = false -> clear_bit_word ws i = Some w).
Proof.
  intros Hi Hj. destruct (set_bit_word_spec w i Hi) as (ws & Hws & Hb & Hs).
  destruct (clear_bit_word_spec w i Hi) as (wc & Hwc & _ & Hc).
  exists ws, wc. rewrite !check_bit_word_spec, Hs, Hc by lia. split_and!; [done.. | | |].
  - destruct (Z.eqb_spec i j); [by rewrite orb_true_r | by rewrite orb_false_r].
  - destruct (Z.eqb_spec i j); [by rewrite andb_false_r | by rewrite andb_true_r].
  - intros Hw Hz. destruct (clear_bit_word_spec ws i Hi) as (w2 & -> & Hb2 & Hc2).
    f_equal. apply word_ext; [done | done |]. intros k Hk. rewrite Hc2, Hs by lia.
    destruct (Z.eqb_spec i k) as [<-|]; simpl; rewrite ?orb_true_r, ?orb_false_r, ?andb_true_r; [|done].
    by rewrite Hz.
Qed.

(** CPU 31 is lost: [1 << 31] is negative as an [int], so setting its bit
    in an empty word sets bits 31 to 63, and [check_bit] then reports -1, which
    [msg_check] does not take for a pending message. *)
Theorem bit31_lost :
  exists w, set_bit_word 0 31 = Some w /\ w = 2 ^ 64 - 2 ^ 31 /\ check_bit_word w 31 = Some (-1).
Proof. by eexists. Qed.

(** [set_bit] reads and writes the shared word without a lock: if two
    CPUs both read it before either writes, the message of the first writer
    is lost, whichever pair of senders it is. *)
Theorem set_bit_race w i j :
  0 <= i < 31 -> 0 <= j < 31 -> i <> j -> Z.testbit w i = false ->
  exists wi wj, set_bit_word w i = Some wi /\ set_bit_word w j = Some wj /\
    (forall m a, check_bit_word (load64 (store64 (store64 m a wi) a wj) a) i = Some 0) /\
    (exists wij, set_bit_word wi j = Some wij /\ check_bit_word wij i = Some 1).
Proof.
  intros Hi Hj Hne Hz. destruct (set_bit_word_spec w i Hi) as (wi & Hwi & _ & Hsi).
  destruct (set_bit_word_spec w j Hj) as (wj & Hwj & Hbj & Hsj).
  exists wi, wj. split_and!; [done.. | |].
  - intros m a. rewrite load64_store64_eq, (w64_small wj), check_bit_word_spec, Hsj, Hz by lia.
    by destruct (Z.eqb_spec j i).
  - destruct (set_bit_word_spec wi j Hj) as (wij & Hwij & _ & Hsij). exists wij. split; [done |].
    rewrite check_bit_word_spec, Hsij, Hsi, Z.eqb_refl by lia. by rewrite orb_true_r.
Qed.

(** ** Polling *)

(** The machine after [k] actions of the other CPUs. *)
Fixpoint after_world (k : nat) (s : machine) : machine :=
  match k with
  | O => s
  | S k' =>
      match m_world s with
      | [] => s
      | act :: rest => after_world k' (set_m_world rest (set_m_mem (act (m_mem s)) s))
      end
  end.

Lemma after_world_self k s : self (after_world k s) = self s.
Proof. revert s. induction k as [|k IH]; intros s; simpl; [done |]. destruct (m_world s); [done |]. by rewrite IH. Qed.

(** A poll succeeds at the first state, along the actions of the others, in
    which its test holds. *)
Lemma poll_until_spec {A} (try : M machine (option A)) k s a s' :
  (k <= length (m_world s))%nat ->
  (forall i, (i < k)%nat -> try (after_world i s) = Ok None (after_world i s)) ->
  try (after_world k s) = Ok (Some a) s' ->
  poll_until try s = Ok a s'.
Proof.
  unfold poll_until. intros Hk Hno Hyes. erewrite bind_step by done.
  remember (length (m_world s)) as n eqn:Hn. revert n s Hn Hk Hno Hyes.
  induction k as [|k IH]; intros n s Hn Hk Hno Hyes; simpl in Hyes.
  - destruct n; simpl; by erewrite bind_step by done.
  - destruct n as [|n]; [lia |]. destruct (m_world s) as [|act rest] eqn:Hw; [done |].
    cbn [poll]. erewrite bind_step by (apply (Hno 0%nat); lia). cbn [after_world].
    erewrite bind_step by (unfold step_world; by rewrite Hw).
    apply IH; simpl in *; [lia | lia | | done].
    intros i Hi. specialize (Hno (S i) ltac:(lia)). simpl in Hno. by rewrite Hw in Hno.
Qed.

(** If the test never holds, the poll does not return. *)
Lemma poll_until_diverges {A} (try : M machine (option A)) s :
  (forall i, (i <= length (m_world s))%nat -> try (after_world i s) = Ok None (after_world i s)) ->
  poll_until try s = Stop Diverge.
Proof.
  unfold poll_until. intros Hno. erewrite bind_step by done.
  remember (length (m_world s)) as n eqn:Hn. revert s Hn Hno.
  induction n as [|n IH]; intros s Hn Hno; cbn [poll].
  - by erewrite bind_step by (apply (Hno 0%nat); lia).
  - erewrite bind_step by (apply (Hno 0%nat); lia). cbn [after_world].
    destruct (m_world s) as [|act rest] eqn:Hw; [done |].
    erewrite bind_step by (unfold step_world; by rewrite Hw). apply IH; [simpl in *; lia |].
    intros i Hi. specialize (Hno (S i) ltac:(lia)). simpl in Hno. by rewrite Hw in Hno.
Qed.

(** ** The pages of the message system, as boot/stage2/main.c lays them out *)

Record ipc_layout (n ib ob rb : Z) (s : machine) : Prop := {
  il_cpus : 0 < n <= 31;
  il_cpu : forall i, 0 <= i < n ->
    cpuid (cpu_at s i) = i /\ ncpus (cpu_at s i) = n /\
    msg_input (cpu_at s i) = ib + 4096 * i /\ msg_output (cpu_at s i) = ob + 4096 * i /\
    msg_ready_bitmap (cpu_at s i) = rb;
  il_self : 0 <= m_self s < n;
  il_low : 0 <= ib /\ 0 <= ob /\ 0 <= rb;
  il_order : ib + 4096 * n <= ob /\ ob + 4096 * n <= rb /\ rb + 4096 < 2 ^ 63
}.

Definition as_cpu (id : Z) (s : machine) : machine :=
  Machine (m_mem s) (m_cpus s) (m_pool s) id (m_recv s) (m_cnl s) (m_world s).

(** [i] is the first pending sender of the ready word [w]. *)
Definition least_bit (w i : Z) : Prop :=
  Z.testbit w i = true /\ forall j, 0 <= j < i -> Z.testbit w j = false.

Lemma first_ready_spec k bitmap i0 i s :
  0 <= i0 <= i -> i < i0 + Z.of_nat k -> i < 31 ->
  Z.testbit (load64 (m_mem s) bitmap) i = true ->
  (forall j, i0 <= j < i -> Z.testbit (load64 (m_mem s) bitmap) j = false) ->
  first_ready k bitmap i0 s = Ok i s.
Proof.
  revert i0. induction k as [|k IH]; intros i0 Hi Hk H31 Hbit Hlow; [lia |]. cbn [first_ready].
  unfold check_bit. erewrite bind_step.
  2: { erewrite bind_step by done. rewrite check_bit_word_spec by lia. done. }
  destruct (decide (i0 = i)) as [->|]; [by rewrite Hbit |].
  rewrite Hlow by lia. simpl. apply IH; [lia | lia | done | done |]. intros; apply Hlow; lia.
Qed.

Lemma msg_check_spec n ib ob rb s k w i :
  ipc_layout n ib ob rb s -> m_self s <= 2 ->
  (k <= length (m_world s))%nat ->
  (forall j, (j < k)%nat -> load64 (m_mem (after_world j s)) (rb + 8 * m_self s) = 0) ->
  w = load64 (m_mem (after_world k s)) (rb + 8 * m_self s) ->
  least_bit w i -> 0 <= i < n ->
  exists w', clear_bit_word w i = Some w' /\
    msg_check s = Ok (ob + 4096 * i)
      (set_m_mem (store64 (m_mem (after_world k s)) (rb + 8 * m_self s) w') (after_world k s)).
Proof.
  intros [Hn Hcpu Hself Hlow Hord] Hsrv Hk Hwait -> [Hbit Hleast] Hi.
  set (s1 := after_world k s). set (bm := rb + 8 * m_self s).
  destruct (Hcpu _ Hself) as (Hid & Hnc & Hin & Hout & Hbm).
  change (cpu_at s (m_self s)) with (self s) in *.
  destruct (clear_bit_word_spec (load64 (m_mem s1) bm) i) as (w' & Hw' & _); [lia |].
  exists w'. split; [done |]. unfold msg_check. erewrite bind_step by done.
  unfold check_server. rewrite Hid, Hbm, Hout, Hnc. destruct (Z.ltb_spec 2 (m_self s)); [lia |]. simpl.
  erewrite bind_step.
  2: { apply (poll_until_spec _ k); [done | |].
       - intros j Hj. erewrite bind_step by done. fold bm. rewrite Hwait by done. done.
       - erewrite bind_step by done. fold s1 bm.
         destruct (Z.eqb_spec (load64 (m_mem s1) bm) 0) as [Hz|]; [|done].
         fold s1 bm in Hbit. by rewrite Hz, Z.bits_0 in Hbit. }
  fold bm s1. erewrite bind_step by (apply (first_ready_spec _ bm 0 i); try done; lia).
  unfold clear_bit. erewrite bind_step.
  2: { erewrite bind_step by done. erewrite bind_step by (by rewrite Hw'). done. }
  unfold mret, M_ret. f_equal. rewrite !w64_small by (rewrite ?w64_small; lia). lia.
Qed.

(** A server's [msg_check] waits until its ready word is not empty and
    then returns the outgoing page of the lowest-numbered CPU with a pending
    message, clearing that CPU's bit and no other: no request is dropped or
    delivered twice. *)
Theorem msg_check_correct n ib ob rb s k w i :
  ipc_layout n ib ob rb s -> m_self s <= 2 -> (k <= length (m_world s))%nat ->
  (forall j, (j < k)%nat -> load64 (m_mem (after_world j s)) (rb + 8 * m_self s) = 0) ->
  w = load64 (m_mem (after_world k s)) (rb + 8 * m_self s) -> least_bit w i -> 0 <= i < n ->
  exists s', msg_check s = Ok (ob + 4096 * i) s' /\
    (forall j, 0 <= j < 64 -> Z.testbit (load64 (m_mem s') (rb + 8 * m_self s)) j =
       Z.testbit w j && negb (i =? j)) /\
    same_on (fun x => ~ (rb + 8 * m_self s <= x < rb + 8 * m_self s + 8))
      (m_mem (after_world k s)) (m_mem s').
Proof.
  intros Hlay Hsrv Hk Hwait Hw Hleast Hi.
  destruct (msg_check_spec n ib ob rb s k w i) as (w' & Hw' & Hrun); try done.
  eexists. split; [done |]. destruct Hlay.
  destruct (clear_bit_word_spec w i) as (w2 & Hw2 & Hb2 & Hbits); [lia |].
  assert (w2 = w') as -> by congruence. split.
  - intros j Hj. simpl. by rewrite load64_store64_eq, w64_small, Hbits.
  - intros x Hx. simpl. unfold store64. by rewrite byte_at_store_out.
Qed.

(** ** Requests *)

(** The message at [a] carries these fields. *)
Definition message_at (m : memory) (a from number : Z) (data : list Z) : Prop :=
  msg_from m a = w64 from /\ msg_number m a = w64 number /\
  get_bytes m (msg_data a) (length data) = data.

Lemma message_at_ext m m' a from number data :
  Z.of_nat (length data) <= MSG_DATA_SIZE ->
  same_on (fun x => a <= x < a + MSG_SIZE) m m' ->
  message_at m a from number data -> message_at m' a from number data.
Proof.
  intros Hlen Hsame (H1 & H2 & H3). unfold message_at, msg_from, msg_number, msg_data in *.
  split_and!.
  - rewrite <-H1. symmetry. apply load_ext. eapply same_on_mono; [|exact Hsame]. simpl. lia.
  - rewrite <-H2. symmetry. apply load_ext. eapply same_on_mono; [|exact Hsame]. simpl. lia.
  - rewrite <-H3 at 2. symmetry. apply get_bytes_ext. eapply same_on_mono; [|exact Hsame]. simpl. lia.
Qed.

(** Writing the three fields in the order of [msg_send]. *)
Lemma write_message m a from number data :
  Forall is_byte data ->
  message_at (put_bytes (store64 (store64 m a from) (a + 8) number) (msg_data a) data)
    a from number data.
Proof.
  intros Hb. unfold message_at, msg_from, msg_number. split_and!; [| | by apply get_put_bytes].
  - unfold load64. rewrite (load_ext 8 _ (store64 (store64 m a from) (a + 8) number)).
    + rewrite (load64_store64_ne _ _ a) by lia. apply load64_store64_eq.
    + intros x Hx. rewrite byte_at_put_bytes, decide_False; [done |]. unfold msg_data. lia.
  - unfold load64. rewrite (load_ext 8 _ (store64 (store64 m a from) (a + 8) number)).
    + apply load64_store64_eq.
    + intros x Hx. rewrite byte_at_put_bytes, decide_False; [done |]. unfold msg_data. lia.
Qed.

Lemma write_message_frame m a from number data x :
  Z.of_nat (length data) <= MSG_DATA_SIZE -> ~ (a <= x < a + MSG_SIZE) ->
  byte_at (put_bytes (store64 (store64 m a from) (a + 8) number) (msg_data a) data) x = byte_at m x.
Proof.
  intros Hlen Hx. rewrite byte_at_put_bytes, decide_False by (unfold msg_data; lia).
  unfold store64. by rewrite !byte_at_store_out by lia.
Qed.

Lemma msg_send_spec n ib ob rb s to number data :
  ipc_layout n ib ob rb s -> 0 <= to < n -> Forall is_byte data ->
  Z.of_nat (length data) <= MSG_DATA_SIZE ->
  exists s' w', msg_send to number data s = Ok tt s' /\ m_cpus s' = m_cpus s /\
    set_bit_word (load64 (m_mem s) (rb + 8 * to)) (m_self s) = Some w' /\
    load64 (m_mem s') (rb + 8 * to) = w' /\
    message_at (m_mem s') (ob + 4096 * m_self s) (m_self s) number data /\
    same_on (fun x => ~ (ob + 4096 * m_self s <= x < ob + 4096 * m_self s + MSG_SIZE) /\
                      ~ (rb + 8 * to <= x < rb + 8 * to + 8)) (m_mem s) (m_mem s') /\
    s' = set_m_mem (m_mem s') s.
Proof.
  intros [Hn Hcpu Hself Hlow Hord] Hto Hb Hlen.
  destruct (Hcpu _ Hself) as (Hid & _ & _ & Hout & Hbm).
  change (cpu_at s (m_self s)) with (self s) in *. set (c := m_self s) in *. set (out := ob + 4096 * c) in *.
  set (m1 := put_bytes (store64 (store64 (m_mem s) out c) (out + 8) number) (msg_data out) data).
  assert (Hword : load64 m1 (rb + 8 * to) = load64 (m_mem s) (rb + 8 * to)).
  { apply load_ext. intros x Hx. apply write_message_frame; [done | unfold out; lia]. }
  destruct (set_bit_word_spec (load64 (m_mem s) (rb + 8 * to)) c) as (w' & Hw' & Hwb & _); [lia |].
  eexists (set_m_mem (store64 m1 (rb + 8 * to) w') s), w'. split_and!.
  - unfold msg_send. do 4 erewrite bind_step by done. rewrite Hid, Hout, Hbm.
    unfold set_bit. erewrite bind_step by done. cbn [m_mem set_m_mem]. fold m1. rewrite Hword, Hw'. done.
  - done.
  - done.
  - simpl. by rewrite load64_store64_eq, w64_small.
  - eapply message_at_ext; [done | | by apply write_message]. intros x Hx. simpl. symmetry.
    apply byte_at_store_out. simpl. unfold out in Hx. lia.
  - intros x [Hx1 Hx2]. simpl. unfold store64 at 1. rewrite byte_at_store_out by (simpl; lia).
    symmetry. by apply write_message_frame.
  - done.
Qed.

(** C8: sending is delivering: after CPU [c] sends a request of at most 48
    bytes to a server for which no lower-numbered CPU has one pending, the
    server's [msg_check] returns at once with a message that carries the
    sender, the request number and the data, and leaves the server's ready
    word as it was before, minus nothing but the delivered bit. *)
Theorem send_check_roundtrip n ib ob rb s to number data :
  ipc_layout n ib ob rb s -> 0 <= to <= 2 -> to < n -> Forall is_byte data ->
  Z.of_nat (length data) <= MSG_DATA_SIZE ->
  (forall j, 0 <= j <= m_self s -> Z.testbit (load64 (m_mem s) (rb + 8 * to)) j = false) ->
  exists s1 a s2, msg_send to number data s = Ok tt s1 /\
    msg_check (as_cpu to s1) = Ok a s2 /\
    message_at (m_mem s2) a (m_self s) number data /\
    load64 (m_mem s2) (rb + 8 * to) = load64 (m_mem s) (rb + 8 * to).
Proof.
  intros Hlay Hto Hton Hb Hlen Hfree.
  destruct (msg_send_spec n ib ob rb s to number data) as (s1 & w' & Hsend & Hcpus & Hw' & Hword & Hmsg & Hsame & Hs1);
    try done; [lia |].
  set (w := load64 (m_mem s) (rb + 8 * to)) in *. set (c := m_self s) in *.
  pose proof Hlay as [Hn Hcpu Hself Hlow Hord].
  destruct (set_bit_word_spec w c) as (w2 & Hw2 & Hwb & Hbits); [unfold c; lia |].
  assert (w2 = w') as -> by congruence.
  assert (Hlay1 : ipc_layout n ib ob rb (as_cpu to s1)).
  { split; simpl; try done; [|lia]. intros i Hi. rewrite Hs1. by apply (Hcpu i). }
  destruct (msg_check_spec n ib ob rb (as_cpu to s1) 0 w' c) as (w3 & Hw3 & Hchk); simpl; try done; try lia.
  { split; [rewrite Hbits, Z.eqb_refl by (unfold c; lia); apply orb_true_r |].
    intros j Hj. rewrite Hbits, Hfree by (unfold c in *; lia). destruct (Z.eqb_spec c j); [lia | done]. }
  simpl in Hchk. eexists s1, _, _. split_and!; [done | done | |].
  - eapply message_at_ext; [done | | done]. intros x Hx. simpl. symmetry.
    apply byte_at_store_out. simpl. unfold c in *. lia.
  - simpl. destruct (clear_bit_word_spec w' c) as (w4 & Hw4 & Hb4 & Hc4); [unfold c; lia |].
    assert (w4 = w3) as -> by congruence. rewrite load64_store64_eq, w64_small by done.
    apply word_ext; [done | apply load64_bound |]. intros j Hj. rewrite Hc4, Hbits by lia.
    destruct (Z.eqb_spec c j) as [<-|]; simpl; rewrite ?orb_true_r, ?orb_false_r, ?andb_true_r; [|done].
    rewrite Hfree; [done | unfold c; lia].
Qed.

(** ** Replies *)

(** The box of sender [from] in the inbox page of CPU [to]. *)
Definition box_addr (ib to from : Z) : Z := ib + 4096 * to + MSG_SIZE * from.

(** Boxes with fewer than 64 senders per page never overlap, whatever
    their owners. *)
Theorem boxes_disjoint ib to1 from1 to2 from2 :
  0 <= from1 < 64 -> 0 <= from2 < 64 -> (to1, from1) <> (to2, from2) ->
  box_addr ib to1 from1 + MSG_SIZE <= box_addr ib to2 from2 \/
  box_addr ib to2 from2 + MSG_SIZE <= box_addr ib to1 from1.
Proof.
  unfold box_addr. intros H1 H2 Hne.
  destruct (Z.lt_trichotomy to1 to2) as [|[->|]]; [lia | | lia].
  assert (from1 <> from2) by congruence. lia.
Qed.

(** With 64 or more CPUs the boxes run into the next CPU's page: the box
    of sender 64 on one CPU is the box of sender 0 (the process manager) on
    the next. *)
Theorem box_overlap ib to : box_addr ib to 64 = box_addr ib (to + 1) 0.
Proof. unfold box_addr. lia. Qed.

(** The three writes of [msg_reply], in its order. *)
Lemma write_reply m a from number data :
  Forall is_byte data -> Z.of_nat (length data) <= MSG_DATA_SIZE ->
  let m' := store64 (put_bytes (store64 m a from) (msg_data a) data) (a + 8) number in
  message_at m' a from number data /\
  same_on (fun x => ~ (a <= x < a + MSG_SIZE)) m m'.
Proof.
  intros Hb Hlen m'. unfold message_at, msg_from, msg_number, m'. split_and!.
  - rewrite load64_store64_ne by lia. unfold load64. rewrite (load_ext 8 _ (store64 m a from)).
    + apply load64_store64_eq.
    + intros x Hx. rewrite byte_at_put_bytes, decide_False; [done |]. unfold msg_data. lia.
  - apply load64_store64_eq.
  - etrans; [|apply (get_put_bytes (store64 m a from) (msg_data a) data Hb)].
    apply get_bytes_ext. intros x Hx. apply byte_at_store_out. unfold msg_data in Hx. lia.
  - intros x Hx. unfold store64 at 1. rewrite byte_at_store_out by lia.
    rewrite byte_at_put_bytes, decide_False by (unfold msg_data; lia).
    unfold store64. by rewrite byte_at_store_out by lia.
Qed.

Lemma msg_reply_spec n ib ob rb s from to number data :
  ipc_layout n ib ob rb s -> m_self s <= 2 -> 0 <= to < n -> 0 <= from < 64 ->
  Forall is_byte data -> Z.of_nat (length data) <= MSG_DATA_SIZE ->
  exists m', msg_reply from to number data s = Ok tt (set_m_mem m' s) /\
    message_at m' (box_addr ib to from) from number data /\
    same_on (fun x => ~ (box_addr ib to from <= x < box_addr ib to from + MSG_SIZE)) (m_mem s) m'.
Proof.
  intros [Hn Hcpu Hself Hlow Hord] Hsrv Hto Hfrom Hb Hlen.
  destruct (Hcpu _ Hself) as (Hid & _ & Hin & _ & _).
  change (cpu_at s (m_self s)) with (self s) in *.
  set (a := box_addr ib to from).
  destruct (write_reply (m_mem s) a from number data Hb Hlen) as [Hmsg Hsame].
  eexists. split; [|split; [exact Hmsg | exact Hsame]].
  unfold msg_reply. erewrite bind_step by done. unfold check_server. rewrite Hid, Hin.
  destruct (Z.ltb_spec 2 (m_self s)); [lia |]. simpl.
  assert (Haddr : w64 (w64 (ib + 4096 * m_self s - 4096 * m_self s) + 4096 * to) + 64 * from = a).
  { rewrite !w64_small by (rewrite ?w64_small; lia). unfold a, box_addr. lia. }
  rewrite Haddr. by do 2 erewrite bind_step by done.
Qed.

Lemma take_box_spec s i :
  take_box i s = if msg_number (m_mem s) (inbox s i) =? 0 then Ok false s
                 else Ok true (set_m_mem (store64 (m_mem s) (inbox s i + 8) 0) s).
Proof. unfold take_box. erewrite bind_step by done. by destruct (_ =? 0). Qed.

Lemma receive_from_spec from s k :
  from <> ANY -> (k <= length (m_world s))%nat ->
  (forall j, (j < k)%nat -> msg_number (m_mem (after_world j s)) (inbox s from) = 0) ->
  msg_number (m_mem (after_world k s)) (inbox s from) <> 0 ->
  msg_receive from s =
    Ok from (set_m_mem (store64 (m_mem (after_world k s)) (inbox s from + 8) 0) (after_world k s)).
Proof.
  intros Hany Hk Hwait Hyes. unfold msg_receive. erewrite bind_step by done.
  destruct (Z.eqb_spec from ANY); [done |]. cbv zeta.
  assert (Hbox : forall j, inbox (after_world j s) from = inbox s from).
  { intros j. unfold inbox. by rewrite after_world_self. }
  apply (poll_until_spec _ k); [done | |].
  - intros j Hj. erewrite bind_step; [|rewrite take_box_spec, Hbox, Hwait by done; done]. done.
  - pose proof (take_box_spec (after_world k s) from) as Ht. rewrite Hbox in Ht.
    destruct (Z.eqb_spec (msg_number (m_mem (after_world k s)) (inbox s from)) 0); [done |].
    by erewrite bind_step by done.
Qed.

(** C9: replying is being received: after a server answers CPU [to] from
    box [from], [msg_receive from] on that CPU returns at once, the box holds
    the reply's data, is marked empty, and no other memory changes. *)
Theorem reply_receive_roundtrip n ib ob rb s from to number data :
  ipc_layout n ib ob rb s -> m_self s <= 2 -> 0 <= to < n -> 0 <= from < 64 ->
  Forall is_byte data -> Z.of_nat (length data) <= MSG_DATA_SIZE -> w64 number <> 0 ->
  exists s1 s2, msg_reply from to number data s = Ok tt s1 /\
    msg_receive from (as_cpu to s1) = Ok from s2 /\
    message_at (m_mem s2) (box_addr ib to from) from 0 data /\
    same_on (fun x => ~ (box_addr ib to from <= x < box_addr ib to from + MSG_SIZE))
      (m_mem s) (m_mem s2).
Proof.
  intros Hlay Hsrv Hto Hfrom Hb Hlen Hnum.
  destruct (msg_reply_spec n ib ob rb s from to number data) as (m' & Hrep & (Hf & Hn' & Hd) & Hsame); try done.
  set (s1 := as_cpu to (set_m_mem m' s)). set (a := box_addr ib to from) in *.
  assert (Hin : inbox s1 from = a).
  { destruct Hlay. unfold inbox, self, s1. simpl.
    destruct (il_cpu0 to Hto) as (_ & _ & Hin & _). unfold cpu_at in *. simpl. by rewrite Hin. }
  eexists _, _. split_and!; [done | | |].
  - apply (receive_from_spec from s1 0); [lia | lia | intros j Hj; lia |]. simpl.
    rewrite Hin, Hn'. done.
  - simpl. rewrite Hin. unfold message_at, msg_from, msg_number, msg_data in *. split_and!.
    + rewrite load64_store64_ne by lia. done.
    + by rewrite load64_store64_eq.
    + rewrite <-Hd at 2. apply get_bytes_ext. intros x Hx. apply byte_at_store_out. lia.
  - simpl. rewrite Hin. intros x Hx. rewrite (Hsame x Hx). symmetry. apply byte_at_store_out. simpl. lia.
Qed.

(** ** Receiving from anyone *)

(** The boxes from [i] on hold no message before box [j]. *)
Definition next_box (s : machine) (n i j : Z) : Prop :=
  0 <= i <= j /\ j < n /\ msg_number (m_mem s) (inbox s j) <> 0 /\
  forall k, i <= k < j -> msg_number (m_mem s) (inbox s k) = 0.

Lemma scan_boxes_spec k s j :
  next_box s (m_recv s + Z.of_nat k) (m_recv s) j ->
  scan_boxes k s = Ok (Some j)
    (set_m_recv (j + 1) (set_m_mem (store64 (m_mem s) (inbox s j + 8) 0) s)).
Proof.
  revert s. induction k as [|k IH]; intros s (Hi & Hj & Hyes & Hno); [lia |]. cbn [scan_boxes].
  erewrite bind_step by done. pose proof (take_box_spec s (m_recv s)) as Htake.
  destruct (decide (j = m_recv s)) as [->|].
  - destruct (Z.eqb_spec (msg_number (m_mem s) (inbox s (m_recv s))) 0); [done |].
    erewrite bind_step by exact Htake. by erewrite bind_step by done.
  - rewrite Hno in Htake by lia. simpl in Htake. erewrite bind_step by exact Htake.
    erewrite bind_step by done. rewrite IH; [done |]. split_and!; simpl; [lia | lia | lia | done |].
    intros i Hi'. apply Hno. lia.
Qed.

Lemma scan_boxes_empty k s :
  (forall j, m_recv s <= j < m_recv s + Z.of_nat k -> msg_number (m_mem s) (inbox s j) = 0) ->
  scan_boxes k s = Ok None (set_m_recv (m_recv s + Z.of_nat k) s).
Proof.
  revert s. induction k as [|k IH]; intros s Hno; cbn [scan_boxes].
  { rewrite Z.add_0_r. by destruct s. }
  erewrite bind_step by done. pose proof (take_box_spec s (m_recv s)) as Htake.
  rewrite Hno in Htake by lia. simpl in Htake. erewrite bind_step by exact Htake.
  erewrite bind_step by done. rewrite IH.
  - simpl. unfold mret, M_ret. f_equal. unfold set_m_recv. simpl. f_equal. lia.
  - intros j Hj. simpl in Hj. apply Hno. lia.
Qed.

(** [msg_receive ANY] serves the boxes in turn: it resumes behind the box
    it served last, returns the first box that holds a message, marks that
    box empty and moves on behind it, wrapping around after the last CPU. *)
Theorem receive_any_correct s j :
  let n := ncpus (self s) in
  0 < n < 2 ^ 31 -> 0 <= m_recv s < n -> next_box s n (m_recv s) j ->
  msg_receive ANY s = Ok j (set_m_recv (if j + 1 =? n then 0 else j + 1)
    (set_m_mem (store64 (m_mem s) (inbox s j + 8) 0) s)).
Proof.
  intros n Hn Hr Hnext. unfold msg_receive. erewrite bind_step by done. simpl (_ =? ANY).
  cbv iota. fold n. rewrite (s32_small n) by lia.
  apply (poll_until_spec _ 0); [lia | intros; lia |]. cbn [after_world].
  unfold receive_any. erewrite bind_step by done.
  erewrite bind_step by (apply (scan_boxes_spec _ s j);
    by replace (m_recv s + Z.of_nat (Z.to_nat (n - m_recv s))) with n by lia).
  erewrite bind_step by done. cbn [m_recv set_m_recv].
  destruct Hnext as (Hi & Hj & _).
  destruct (Z.eqb_spec (j + 1) n), (Z.leb_spec n (j + 1)); try lia; by erewrite bind_step by done.
Qed.

(** When no box from the current one on holds a message, the round ends
    with the scan back at box 0, so the boxes skipped earlier are polled next:
    no sender is left out. *)
Theorem receive_any_wraps s :
  let n := ncpus (self s) in
  0 < n < 2 ^ 31 -> 0 <= m_recv s < n ->
  (forall k, m_recv s <= k < n -> msg_number (m_mem s) (inbox s k) = 0) ->
  receive_any n s = Ok None (set_m_recv 0 s).
Proof.
  intros n Hn Hr Hno. unfold receive_any. erewrite bind_step by done.
  erewrite bind_step by (apply scan_boxes_empty; intros j Hj; apply Hno; lia).
  erewrite bind_step by done. cbn [m_recv set_m_recv].
  destruct (Z.leb_spec n (m_recv s + Z.of_nat (Z.to_nat (n - m_recv s)))); [|lia].
  by erewrite bind_step by done.
Qed.
