(* ===== verification/Channel.v ===== *)
(** * Channels (lib/channel.c)

    A page shared by a client and a driver.  [bool] is an enumeration, so the
    flags are 32-bit words: [ready_send] at 0, [ready_reply] at 4, [result] at
    8, data from 12 on. *)

From S2P Require Import Prelude PhysMem MemMgr CpuInfo Ipc.

Abbreviation CLOSE_CHANNEL := 0x87654321.

Definition ready_send (m : memory) (cnl : Z) : Z := load32 m cnl.
Definition ready_reply (m : memory) (cnl : Z) : Z := load32 m (cnl + 4).
Definition cnl_result (m : memory) (cnl : Z) : Z := load_int m (cnl + 8).
Definition cnl_data (cnl : Z) : Z := cnl + 12.
Definition set_ready_send (v : Z) (cnl : Z) (m : memory) : memory := store32 m cnl v.
Definition set_ready_reply (v : Z) (cnl : Z) (m : memory) : memory := store32 m (cnl + 4) v.
Definition set_cnl_result (v : Z) (cnl : Z) (m : memory) : memory := store32 m (cnl + 8) v.

Definition cnl_send (cnl : Z) : M machine unit :=
  if cnl =? 0 then panic "cnl_send: No channel specified" else
  update_mem (set_ready_reply 0 cnl) ;;
  update_mem (set_ready_send 1 cnl).

(** The [i]-th entry of the driver's channel list. *)
Definition channel_at (s : machine) (i : Z) : Z :=
  load64 (m_mem s) (vm_channels (vm_info (self s)) + 8 * i).

(** [while (i < MAX_CHANNELS)]: one pass over the list from the static
    variable [i] on. *)
Fixpoint scan_channels (n : nat) : M machine (option Z) :=
  match n with
  | O => mret None
  | S n' =>
      s ← get;
      let i := m_cnl s in
      let from_cnl := channel_at s i in
      if from_cnl =? 0 then modify (set_m_cnl 0) ;; mret None else
      if ready_send (m_mem s) from_cnl =? 1 then
        update_mem (set_ready_send 0 from_cnl) ;;
        modify (set_m_cnl (i + 1)) ;;
        mret (Some from_cnl)
      else
        modify (set_m_cnl (i + 1)) ;;
        scan_channels n'
  end.

Definition channels_round : M machine (option Z) :=
  i ← gets m_cnl;
  r ← scan_channels (Z.to_nat (MAX_CHANNELS - i));
  s ← get;
  when (MAX_CHANNELS <=? m_cnl s) (modify (set_m_cnl 0)) ;;
  mret r.

(** A channel found this way is never null. *)
Definition cnl_receive_any : M machine Z :=
  s ← get;
  if negb (is_driver (cpuid (self s))) then panic "This must be called from drivers" else
  poll_until channels_round.

Definition cnl_receive (channel : Z) : M machine unit :=
  if channel =? 0 then panic "Channel can not be null" else
  poll_until (s ← get;
    if ready_reply (m_mem s) channel =? 1 then
      update_mem (set_ready_reply 0 channel) ;; mret (Some tt)
    else mret None).

Definition cnl_reply (cnl count : Z) : M machine unit :=
  if cnl =? 0 then panic "cnl_reply: No channel specified" else
  update_mem (set_cnl_result count cnl) ;;
  update_mem (set_ready_reply 1 cnl).
