(* ===== verification/ChannelSpec.v ===== *)
(** * The channel protocol

    [cnl_send], [cnl_receive_any], [cnl_reply] and [cnl_receive] are sequences
    of single memory writes by two CPUs.  The protocol is a step relation over
    the shared page in which those writes interleave freely; its invariant
    gives exclusive use of the data area and exactly-once delivery. *)

From S2P Require Import Prelude PhysMem MemMgr MemMgrSpec CpuInfo Ipc IpcSpec Channel.

(** ** The flags *)

Lemma flags_send m c v :
  ready_send (set_ready_send v c m) c = w32 v /\
  ready_reply (set_ready_send v c m) c = ready_reply m c /\
  cnl_result (set_ready_send v c m) c = cnl_result m c.
Proof.
  unfold ready_send, ready_reply, cnl_result, load_int, set_ready_send, load32, store32.
  split_and!; [apply (load_store_eq 4) | apply load_store_ne; lia |].
  rewrite load_store_ne by lia. done.
Qed.

Lemma flags_reply m c v :
  ready_send (set_ready_reply v c m) c = ready_send m c /\
  ready_reply (set_ready_reply v c m) c = w32 v /\
  cnl_result (set_ready_reply v c m) c = cnl_result m c.
Proof.
  unfold ready_send, ready_reply, cnl_result, load_int, set_ready_reply, load32, store32.
  split_and!; [apply load_store_ne; lia | apply (load_store_eq 4) |].
  rewrite load_store_ne by lia. done.
Qed.

Lemma flags_result m c v :
  ready_send (set_cnl_result v c m) c = ready_send m c /\
  ready_reply (set_cnl_result v c m) c = ready_reply m c /\
  cnl_result (set_cnl_result v c m) c = s32 v.
Proof.
  unfold ready_send, ready_reply, cnl_result, load_int, set_cnl_result, load32, store32.
  split_and!; [apply load_store_ne; lia | apply load_store_ne; lia |].
  rewrite load_store_eq. unfold s32. f_equal.
  change (8 * Z.of_nat 4) with 32. by rewrite Zplus_mod_idemp_l.
Qed.

Lemma flags_data m m' c :
  same_on (fun x => c <= x < c + 12) m m' ->
  ready_send m' c = ready_send m c /\ ready_reply m' c = ready_reply m c /\
  cnl_result m' c = cnl_result m c.
Proof.
  intros H. unfold ready_send, ready_reply, cnl_result, load_int, load32.
  split_and!; [| | f_equal]; symmetry; apply load_ext; eapply same_on_mono; try exact H; simpl; lia.
Qed.

(** ** The protocol *)

Inductive client := CIdle | CFill | CClear | CWait | CRead.
Inductive driver := DPoll | DServe | DReply.

(** The shared memory, the position of both ends, and the numbers of requests
    raised, taken, answered and received so far. *)
Record proto := Proto {
  pr_mem : memory;
  pr_client : client;
  pr_driver : driver;
  pr_sent : Z;
  pr_taken : Z;
  pr_answered : Z;
  pr_received : Z
}.

Inductive step (c : Z) : proto -> proto -> Prop :=
| client_fill m m' d a b e f :       (* write the request into the data area *)
    same_on (fun x => c <= x < c + 12) m m' ->
    step c (Proto m CIdle d a b e f) (Proto m' CFill d a b e f)
| client_clear m d a b e f :         (* [cnl_send], first write *)
    step c (Proto m CFill d a b e f) (Proto (set_ready_reply 0 c m) CClear d a b e f)
| client_raise m d a b e f :         (* [cnl_send], second write *)
    step c (Proto m CClear d a b e f) (Proto (set_ready_send 1 c m) CWait d (a + 1) b e f)
| client_take m d a b e f :          (* [cnl_receive] *)
    ready_reply m c = 1 ->
    step c (Proto m CWait d a b e f) (Proto (set_ready_reply 0 c m) CRead d a b e (f + 1))
| client_read m d a b e f :          (* use the answer *)
    step c (Proto m CRead d a b e f) (Proto m CIdle d a b e f)
| driver_take m k a b e f :          (* [cnl_receive_any] *)
    ready_send m c = 1 ->
    step c (Proto m k DPoll a b e f) (Proto (set_ready_send 0 c m) k DServe a (b + 1) e f)
| driver_work m m' k a b e f :       (* read and write the data area *)
    same_on (fun x => c <= x < c + 12) m m' ->
    step c (Proto m k DServe a b e f) (Proto m' k DServe a b e f)
| driver_result m k v a b e f :      (* [cnl_reply], first write *)
    step c (Proto m k DServe a b e f) (Proto (set_cnl_result v c m) k DReply a b e f)
| driver_raise m k a b e f :         (* [cnl_reply], second write *)
    step c (Proto m k DReply a b e f) (Proto (set_ready_reply 1 c m) k DPoll a b (e + 1) f).

Inductive reachable (c : Z) : proto -> Prop :=
| reach_init m :
    ready_send m c = 0 -> ready_reply m c = 0 -> reachable c (Proto m CIdle DPoll 0 0 0 0)
| reach_step p p' : reachable c p -> step c p p' -> reachable c p'.

(** The phase of the protocol determines flags and positions. *)
Inductive phase (c : Z) (p : proto) : Prop :=
| ph_client :          (* the client owns the channel *)
    pr_client p <> CWait -> pr_driver p = DPoll ->
    ready_send (pr_mem p) c = 0 -> ready_reply (pr_mem p) c = 0 ->
    pr_sent p = pr_received p -> pr_taken p = pr_received p -> pr_answered p = pr_received p ->
    phase c p
| ph_sent :            (* a request is pending *)
    pr_client p = CWait -> pr_driver p = DPoll ->
    ready_send (pr_mem p) c = 1 -> ready_reply (pr_mem p) c = 0 ->
    pr_sent p = pr_received p + 1 -> pr_taken p = pr_received p -> pr_answered p = pr_received p ->
    phase c p
| ph_served :          (* the driver owns the channel *)
    pr_client p = CWait -> pr_driver p <> DPoll ->
    ready_send (pr_mem p) c = 0 -> ready_reply (pr_mem p) c = 0 ->
    pr_sent p = pr_received p + 1 -> pr_taken p = pr_received p + 1 ->
    pr_answered p = pr_received p -> phase c p
| ph_answered :        (* an answer is pending *)
    pr_client p = CWait -> pr_driver p = DPoll ->
    ready_send (pr_mem p) c = 0 -> ready_reply (pr_mem p) c = 1 ->
    pr_sent p = pr_received p + 1 -> pr_taken p = pr_received p + 1 ->
    pr_answered p = pr_received p + 1 -> phase c p.

Lemma phase_step c p p' : phase c p -> step c p p' -> phase c p'.
Proof.
  intros Hp Hs.
  destruct Hs as [m m' d a b e f Hsame | m d a b e f | m d a b e f | m d a b e f Hr | m d a b e f
                 | m k a b e f Hr | m m' k a b e f Hsame | m k v a b e f | m k a b e f];
    destruct Hp; simpl in *; try congruence.
  - apply flags_data in Hsame as (? & ? & _). apply ph_client; simpl; congruence.
  - destruct (flags_reply m c 0) as (? & ? & _). apply ph_client; simpl; try done; congruence.
  - destruct (flags_send m c 1) as (? & ? & _). apply ph_sent; simpl; try done; try congruence; lia.
  - destruct (flags_reply m c 0) as (? & ? & _). apply ph_client; simpl; try done; try congruence; lia.
  - apply ph_client; simpl; try done; congruence.
  - destruct (flags_send m c 0) as (? & ? & _). apply ph_served; simpl; try done; try congruence; lia.
  - apply flags_data in Hsame as (? & ? & _). apply ph_served; simpl; congruence.
  - destruct (flags_result m c v) as (? & ? & _). apply ph_served; simpl; try done; congruence.
  - destruct (flags_reply m c 1) as (? & ? & _). apply ph_answered; simpl; try done; try congruence; lia.
Qed.

Lemma reachable_phase c p : reachable c p -> phase c p.
Proof.
  induction 1 as [m H1 H2 | p p' _ IH Hs]; [by apply ph_client | by eapply phase_step].
Qed.




(** ** The library calls *)

Lemma cnl_send_spec c s :
  c <> 0 -> cnl_send c s = Ok tt (set_m_mem (set_ready_send 1 c (set_ready_reply 0 c (m_mem s))) s).
Proof. intros Hc. unfold cnl_send. by destruct (Z.eqb_spec c 0). Qed.

Lemma cnl_reply_spec c v s :
  c <> 0 -> cnl_reply c v s = Ok tt (set_m_mem (set_ready_reply 1 c (set_cnl_result v c (m_mem s))) s).
Proof. intros Hc. unfold cnl_reply. by destruct (Z.eqb_spec c 0). Qed.

(** [cnl_receive] waits for the first state with an answer. *)
Lemma cnl_receive_spec c s k :
  c <> 0 -> (k <= length (m_world s))%nat ->
  (forall j, (j < k)%nat -> ready_reply (m_mem (after_world j s)) c <> 1) ->
  ready_reply (m_mem (after_world k s)) c = 1 ->
  cnl_receive c s =
    Ok tt (set_m_mem (set_ready_reply 0 c (m_mem (after_world k s))) (after_world k s)).
Proof.
  intros Hc Hk Hno Hyes. unfold cnl_receive. destruct (Z.eqb_spec c 0); [done |].
  apply (poll_until_spec _ k); [done | |].
  - intros j Hj. erewrite bind_step by done. destruct (Z.eqb_spec (ready_reply (m_mem (after_world j s)) c) 1) as [E|]; [|done].
    by apply Hno in E.
  - erewrite bind_step by done. by rewrite Hyes.
Qed.

(** The driver's list is the channels [l], ended by a null entry. *)
Definition channel_list (s : machine) (l : list Z) : Prop :=
  Z.of_nat (length l) < MAX_CHANNELS /\
  (forall i c, l !! i = Some c -> channel_at s (Z.of_nat i) = c /\ c <> 0) /\
  channel_at s (Z.of_nat (length l)) = 0.

Lemma scan_channels_spec (k : nat) s l (i j : nat) c :
  channel_list s l -> m_cnl s = Z.of_nat i -> l !! j = Some c -> (i <= j < i + k)%nat ->
  ready_send (m_mem s) c = 1 ->
  (forall i' c', (i <= i' < j)%nat -> l !! i' = Some c' -> ready_send (m_mem s) c' <> 1) ->
  scan_channels k s = Ok (Some c)
    (set_m_cnl (Z.of_nat j + 1) (set_m_mem (set_ready_send 0 c (m_mem s)) s)).
Proof.
  revert s i. induction k as [|k IH]; intros s i Hl Hi Hj Hk Hyes Hno; [lia |]. cbn [scan_channels].
  erewrite bind_step by done. pose proof Hl as (Hlen & Hent & Hend). rewrite Hi.
  destruct (decide (i = j)) as [->|].
  - destruct (Hent _ _ Hj) as [-> Hc]. destruct (Z.eqb_spec c 0); [done |]. by rewrite Hyes.
  - destruct (lookup_lt_is_Some_2 l i) as [c' Hc']; [apply lookup_lt_Some in Hj; lia |].
    destruct (Hent _ _ Hc') as [-> Hc]. destruct (Z.eqb_spec c' 0); [done |].
    destruct (Z.eqb_spec (ready_send (m_mem s) c') 1) as [E|]; [by apply (Hno i) in E; [|lia|] |].
    erewrite bind_step by done.
    rewrite (IH (set_m_cnl (Z.of_nat i + 1) s) (S i)); simpl; try done; [lia | lia |].
    intros i' c2 Hi'. apply Hno. lia.
Qed.

Lemma receive_any_spec s l i j c :
  is_driver (cpuid (self s)) = true -> channel_list s l -> m_cnl s = Z.of_nat i ->
  (i <= j)%nat -> l !! j = Some c -> ready_send (m_mem s) c = 1 ->
  (forall i' c', (i <= i' < j)%nat -> l !! i' = Some c' -> ready_send (m_mem s) c' <> 1) ->
  cnl_receive_any s = Ok c
    (set_m_cnl (Z.of_nat j + 1) (set_m_mem (set_ready_send 0 c (m_mem s)) s)).
Proof.
  intros Hd Hl Hi Hij Hj Hyes Hno. unfold cnl_receive_any. erewrite bind_step by done. rewrite Hd. simpl.
  pose proof Hl as (Hlen & _ & _). pose proof (lookup_lt_Some _ _ _ Hj) as Hjl.
  apply (poll_until_spec _ 0); [lia | intros; lia |]. cbn [after_world]. unfold channels_round.
  erewrite bind_step by done. rewrite Hi.
  erewrite bind_step by (eapply (scan_channels_spec _ s l i j); try done; lia).
  erewrite bind_step by done. cbn [m_cnl set_m_cnl].
  destruct (Z.leb_spec MAX_CHANNELS (Z.of_nat j + 1)); [lia |]. done.
Qed.

(** A driver's [cnl_receive_any] serves its channels in turn: from the
    position where it stopped last, it returns the first channel of its list
    with a raised request, lowers that flag, and resumes behind it the next
    time. *)
Theorem receive_any_channel s l i j c :
  is_driver (cpuid (self s)) = true -> channel_list s l -> m_cnl s = Z.of_nat i ->
  (i <= j)%nat -> l !! j = Some c -> ready_send (m_mem s) c = 1 ->
  (forall i' c', (i <= i' < j)%nat -> l !! i' = Some c' -> ready_send (m_mem s) c' <> 1) ->
  cnl_receive_any s = Ok c
    (set_m_cnl (Z.of_nat j + 1) (set_m_mem (set_ready_send 0 c (m_mem s)) s)).
Proof. apply receive_any_spec. Qed.

(** A complete call over a channel: after the client's [cnl_send], the
    driver's next [cnl_receive_any] takes that channel, its [cnl_reply] with
    result [v] makes the client's [cnl_receive] return, and the client reads
    [v] with both flags down. *)
Theorem channel_call sc l i c v drv :
  c <> 0 -> let s1 := set_m_mem (set_ready_send 1 c (set_ready_reply 0 c (m_mem sc))) sc in
  let d1 := as_cpu drv s1 in
  is_driver (cpuid (self d1)) = true -> channel_list d1 l -> m_cnl d1 = Z.of_nat i -> l !! i = Some c ->
  exists d2 d3 s4, cnl_send c sc = Ok tt s1 /\ cnl_receive_any d1 = Ok c d2 /\
    cnl_reply c v d2 = Ok tt d3 /\ cnl_receive c (as_cpu (m_self sc) d3) = Ok tt s4 /\
    cnl_result (m_mem s4) c = s32 v /\ ready_send (m_mem s4) c = 0 /\ ready_reply (m_mem s4) c = 0.
Proof.
  intros Hc s1 d1 Hd Hl Hi Hj. eexists _, _, _. split_and!.
  - by apply cnl_send_spec.
  - eapply receive_any_spec; [done | done | done | reflexivity | done | | intros; lia].
    unfold d1, s1. simpl. by destruct (flags_send (set_ready_reply 0 c (m_mem sc)) c 1) as (-> & _).
  - by apply cnl_reply_spec.
  - eapply (cnl_receive_spec c _ 0); [done | lia | intros; lia |]. simpl.
    apply flags_reply.
  - simpl. edestruct flags_reply as (_ & _ & ->). edestruct flags_reply as (_ & _ & ->). apply flags_result.
  - simpl. edestruct flags_reply as (-> & _ & _). edestruct flags_reply as (-> & _ & _).
    edestruct flags_result as (-> & _ & _). by edestruct flags_send as (-> & _).
  - simpl. by edestruct flags_reply as (_ & -> & _).
Qed.

(** ** The library calls are paths of the protocol *)

(** A polling loop that returns ended with a successful round. *)
Lemma poll_success {A} (try : M machine (option A)) fuel s a s' :
  poll fuel try s = Ok a s' -> exists s1, try s1 = Ok (Some a) s'.
Proof.
  revert s. induction fuel as [|fuel IH]; intros s H; cbn [poll] in H;
    apply bind_ok in H as ([b|] & s1 & Ht & H); simplify_eq/=.
  - injection H as -> ->. by exists s.
  - injection H as -> ->. by exists s.
  - apply bind_ok in H as ([] & s2 & _ & H). by eapply IH.
Qed.

Lemma poll_until_success {A} (try : M machine (option A)) s a s' :
  poll_until try s = Ok a s' -> exists s1, try s1 = Ok (Some a) s'.
Proof. intros H. exact (poll_success try _ s a s' H). Qed.

(** A channel found by the scan had a raised request, which is taken down. *)
Lemma scan_success k s c s' :
  scan_channels k s = Ok (Some c) s' ->
  ready_send (m_mem s) c = 1 /\ m_mem s' = set_ready_send 0 c (m_mem s).
Proof.
  revert s. induction k as [|k IH]; intros s H; cbn [scan_channels] in H; [done |].
  erewrite bind_step in H by done.
  destruct (Z.eqb_spec (channel_at s (m_cnl s)) 0); [done |].
  destruct (Z.eqb_spec (ready_send (m_mem s) (channel_at s (m_cnl s))) 1) as [E|].
  - by injection H as <- <-.
  - erewrite bind_step in H by done. by apply IH in H.
Qed.

