(* ===== verification/Pm.v ===== *)
(** * The process manager: state, mappings and channels (vms/pm/main.c)

    The process manager is the program on CPU 0.  Its state is the page
    allocator, the machine it shares with the other CPUs, and its static
    variables.  A pointer to a [struct cpu_info] is the number of its page in
    the CPU pool. *)

From S2P Require Import Prelude PhysMem MemMgr Paging CpuInfo Ipc.

Abbreviation ALWAYS_BUSY := (NUMBER_SERVERS + NUMBER_USER_VMS).
Abbreviation USER_VMS_PAGE_SIZE := 4096.
Abbreviation CHANNEL_SIZE := 4096.
Abbreviation TYPE_FILE := 1.
Abbreviation TYPE_CHAR := 2.
Abbreviation FD_SIZE := 24.

Record pm_state := Pm {
  p_mm : mm_state;
  p_m : machine;
  has_1GB_page : bool;
  arg_vector : Z;      (* address of [char arg_vector[16][256]] *)
  argv_ptr : Z;        (* address of [virt_addr_t argv_ptr[16]] *)
  p_stale : Z          (* what an uninitialised [int] on the stack holds *)
}.
Definition set_p_m (x : machine) (s : pm_state) : pm_state :=
  Pm (p_mm s) x (has_1GB_page s) (arg_vector s) (argv_ptr s) (p_stale s).
Definition p_mem (s : pm_state) : memory := m_mem (p_m s).

(** Library code on the machine, and allocator and page-table code on the
    allocator together with physical memory. *)
Definition on_machine {A} (m : M machine A) : M pm_state A := zoom p_m set_p_m m.
Definition set_kmem (k : kmem) (s : pm_state) : pm_state :=
  Pm (k_mm k) (set_m_mem (k_mem k) (p_m s)) (has_1GB_page s) (arg_vector s) (argv_ptr s) (p_stale s).
Definition on_kmem {A} (m : M kmem A) : M pm_state A :=
  zoom (fun s => KMem (p_mm s) (p_mem s)) set_kmem m.
Definition alloc_pages (n : Z) : M pm_state Z := on_kmem (on_mm (alloc_mem_pages n)).
Definition free_pages (paddr : Z) : M pm_state unit := on_kmem (on_mm (free_mem_pages paddr)).
Definition poke (f : memory -> memory) : M pm_state unit := on_machine (update_mem f).

Definition pages (sz pgsz : Z) : Z := sz / pgsz + (if 0 <? sz mod pgsz then 1 else 0).

(** ** CPU information *)

Definition cpu (id : Z) : M pm_state cpu_info := gets (fun s => cpu_at (p_m s) id).
Definition my_cpu : M pm_state cpu_info := gets (fun s => self (p_m s)).
Definition set_cpu (id : Z) (f : cpu_info -> cpu_info) : M pm_state unit :=
  on_machine (update_cpu id f).
Definition set_vm (id : Z) (f : vm_proc -> vm_proc) : M pm_state unit :=
  set_cpu id (fun c => set_vm_info (f (vm_info c)) c).
(** The address of a [struct cpu_info]. *)
Definition cpu_addr (id : Z) (s : pm_state) : Z := w64 (m_pool (p_m s) + id * _4KB_).

(** [None] is the null pointer; the parameter is a 64-bit unsigned number. *)
Definition get_cpu_info (id : Z) : M pm_state (option Z) :=
  let id := w64 id in
  if MAX_CPUS <? id then mret None else
  s ← get;
  mret (Some (m_self (p_m s) - cpuid (self (p_m s)) + id)).

(** Following a pointer that may be null. *)
Definition deref (p : option Z) : M pm_state Z := of_option (Fault "null cpu_info") p.

Fixpoint find_free_loop (n : nat) (i : Z) : M pm_state (option Z) :=
  match n with
  | O => mret None
  | S n' =>
      cp ← get_cpu_info i;
      match cp with
      | None => panic "find_free_vm: could not get cpu information"
      | Some id =>
          c ← cpu id;
          if negb (vmm_has_vm c) then mret (Some id) else find_free_loop n' (i + 1)
      end
  end.
Definition find_free_vm : M pm_state (option Z) :=
  me ← my_cpu;
  find_free_loop (Z.to_nat (ncpus me - ALWAYS_BUSY)) ALWAYS_BUSY.

(** [struct pm_args]: memory size, 1GB-page flag, last used address. *)
Definition pm_init (junk : Z -> block_node) : M pm_state unit :=
  me ← my_cpu;
  s ← get;
  let args := vm_args me in
  let m := p_mem s in
  modify (fun s => Pm (p_mm s) (p_m s) (negb (w32 (load64 m (args + 8)) =? 0))
                      (arg_vector s) (argv_ptr s) (p_stale s)) ;;
  on_kmem (on_mm (memory_init junk (load64 m (args + 16)) (load64 m args))).

(** ** Mapping a program's memory *)

(** [map_memory (&info->vm_info.vm_page_tables, ...)] *)
Definition map_vm (id start_va end_va pa page_size prot flags : Z) : M pm_state unit :=
  c ← cpu id;
  root ← on_kmem (map_memory (vm_page_tables (vm_info c)) start_va end_va pa page_size prot flags);
  set_vm id (set_vm_page_tables root).
(** [ept_map_memory (&info->vm_info.vm_ept, ...)] *)
Definition ept_vm (id start_va end_va pa page_size mtype prot flags : Z) : M pm_state unit :=
  c ← cpu id;
  root ← on_kmem (ept_map_memory (vm_ept (vm_info c)) start_va end_va pa page_size mtype prot flags);
  set_vm id (set_vm_ept root).

Abbreviation EPT_RW := (Z.lor EPT_PAGE_WRITE EPT_PAGE_READ).

(** A page of memory mapped to itself. *)
Definition ept_page (id addr mtype prot : Z) : M pm_state unit :=
  ept_vm id addr (w64 (addr + _4KB_)) addr USER_VMS_PAGE_SIZE mtype prot MAP_UPDATE.
(** A section of the program, if it is not empty. *)
Definition ept_section (id : Z) (sec : vm_proc -> section) (prot : Z) : M pm_state unit :=
  c ← cpu id;
  let x := sec (vm_info c) in
  when (0 <? s_size x)
    (ept_vm id (s_vaddr x) (w64 (s_vaddr x + s_size x)) (s_paddr x) USER_VMS_PAGE_SIZE
       EPT_MTYPE_WB prot MAP_UPDATE).

(** The fields of file descriptor [i] of the table at [fds]. *)
Definition fd_type (m : memory) (fds i : Z) : Z := load32 m (fds + FD_SIZE * i).
Definition fd_length (m : memory) (fds i : Z) : Z := load32 m (fds + FD_SIZE * i + 4).
Definition fd_dst (m : memory) (fds i : Z) : Z := load64 m (fds + FD_SIZE * i + 8).
Definition fd_offset (m : memory) (fds i : Z) : Z := load64 m (fds + FD_SIZE * i + 16).
Definition set_fd_offset (fds i v : Z) (m : memory) : memory := store64 m (fds + FD_SIZE * i + 16) v.

Definition ept_fds (id : Z) : M pm_state unit :=
  c ← cpu id;
  let fds := vm_fds (vm_info c) in
  when (0 <? fds)
    (ept_page id fds EPT_MTYPE_WB EPT_RW ;;
     forM (seqZ 0 MAX_FD) (fun i =>
       s ← get;
       let offset := fd_offset (p_mem s) fds i in
       when (negb (offset =? 0)) (ept_page id offset EPT_MTYPE_WB EPT_RW))).

Definition ept_pmap (id : Z) : M pm_state unit :=
  big ← gets has_1GB_page;
  let page_size := if (big : bool) then _1GB_ else _2MB_ in
  let rw := Z.lor PAGE_PRESENT PAGE_RW in
  map_vm id 0 _2MB_ 0 page_size (Z.lor rw PAGE_PCD) MAP_NEW ;;
  map_vm id _2MB_ 0xFEC00000 _2MB_ page_size rw MAP_UPDATE ;;
  map_vm id 0xFEC00000 (_1GB_ * 4) 0xFEC00000 page_size (Z.lor rw PAGE_PCD) MAP_UPDATE ;;
  ept_vm id 0xB8000 0xB9000 0xB8000 USER_VMS_PAGE_SIZE EPT_MTYPE_UC EPT_RW MAP_NEW ;;
  ept_vm id 0xFEC00000 0x100000000 0xFEC00000 USER_VMS_PAGE_SIZE EPT_MTYPE_UC EPT_RW MAP_UPDATE ;;
  c ← cpu id;
  ept ← on_kmem (ept_map_page_tables (vm_ept (vm_info c)) (vm_page_tables (vm_info c)) EPT_RW);
  set_vm id (set_vm_ept ept) ;;
  s ← get;
  ept_page id (cpu_addr id s) EPT_MTYPE_WB EPT_PAGE_READ ;;
  ept_page id (msg_input c) EPT_MTYPE_WB EPT_RW ;;
  ept_page id (msg_output c) EPT_MTYPE_WB EPT_RW ;;
  ept_page id (msg_ready c) EPT_MTYPE_WB EPT_RW ;;
  ept_page id (msg_ready_bitmap c) EPT_MTYPE_WB EPT_RW ;;
  ept_section id vm_code (Z.lor EPT_PAGE_READ EPT_PAGE_EXEC) ;;
  ept_section id vm_data EPT_RW ;;
  ept_section id vm_rodata EPT_PAGE_READ ;;
  ept_section id vm_bss EPT_RW ;;
  ept_section id vm_stack EPT_RW ;;
  ept_fds id ;;
  c ← cpu id;
  let channels := vm_channels (vm_info c) in
  when (0 <? channels) (ept_page id channels EPT_MTYPE_WB EPT_RW) ;;
  ept_vm id 0xC0000000 0xC6000000 0xC0000000 USER_VMS_PAGE_SIZE EPT_MTYPE_UC EPT_RW MAP_UPDATE.

(** ** Channel lists *)

Definition channel_slot (m : memory) (channels i : Z) : Z := load64 m (channels + 8 * i).
Definition set_channel_slot (channels i v : Z) (m : memory) : memory := store64 m (channels + 8 * i) v.

(** [for (k = j; k < MAX_CHANNELS - 1; k++)]: the final value of [k]. *)
Fixpoint shift_channels (n : nat) (channels k : Z) : M pm_state Z :=
  match n with
  | O => mret k
  | S n' =>
      m ← gets p_mem;
      if channel_slot m channels k =? 0 then mret k else
      poke (set_channel_slot channels k (channel_slot m channels (k + 1))) ;;
      shift_channels n' channels (k + 1)
  end.

(** [for (j = 0; j < MAX_CHANNELS; j++)]; the result tells whether the channel
    was found. *)
Fixpoint remove_from_list (js : list Z) (channels channel : Z) (found : bool) : M pm_state bool :=
  match js with
  | [] => mret found
  | j :: js' =>
      m ← gets p_mem;
      if channel_slot m channels j =? channel then
        k ← shift_channels (Z.to_nat (MAX_CHANNELS - 1 - j)) channels j;
        poke (set_channel_slot channels (k + 1) 0) ;;
        remove_from_list js' channels channel true
      else remove_from_list js' channels channel found
  end.

Fixpoint remove_from_all (ids : list Z) (channel : Z) (found : bool) : M pm_state bool :=
  match ids with
  | [] => mret found
  | i :: ids' =>
      cp ← get_cpu_info i;
      id ← deref cp;
      c ← cpu id;
      let channels := vm_channels (vm_info c) in
      if channels =? 0 then remove_from_all ids' channel found else
      found ← remove_from_list (seqZ 0 MAX_CHANNELS) channels channel found;
      remove_from_all ids' channel found
  end.

Definition remove_channel_list (channel : Z) : M pm_state unit :=
  if channel =? 0 then panic "Removing channel 0" else
  me ← my_cpu;
  found ← remove_from_all (seqZ 0 (ncpus me)) channel false;
  if (found : bool) then mret tt else panic "Channel not found".

(** The first empty slot takes the channel; a full list drops it. *)
Fixpoint add_to_list (slots : list Z) (channels channel : Z) : M pm_state unit :=
  match slots with
  | [] => mret tt
  | i :: slots' =>
      m ← gets p_mem;
      if channel_slot m channels i =? 0 then poke (set_channel_slot channels i channel)
      else add_to_list slots' channels channel
  end.
Definition add_channel_list (id channel : Z) : M pm_state unit :=
  c ← cpu id;
  let channels := vm_channels (vm_info c) in
  if channels =? 0 then panic "Cpu does not have any channel" else
  if channel =? 0 then panic "Channel is 0" else
  add_to_list (seqZ 0 MAX_CHANNELS) channels channel.

(** [struct channel_ipc] as its two fields. *)
Definition local_channel (end1 end2 : Z) : M pm_state Z :=
  p1 ← get_cpu_info end1;
  p2 ← get_cpu_info end2;
  id1 ← deref p1; cpu1 ← cpu id1;
  if negb (vmm_has_vm cpu1) then panic "creating channel failed! VM1 does not exist" else
  id2 ← deref p2; cpu2 ← cpu id2;
  if negb (vmm_has_vm cpu2) then panic "creating channel failed! VM2 does not exist" else
  if negb (is_driver (cpuid cpu2)) then panic "The second end needs to be always a driver" else
  channel ← on_kmem (alloc_clean_mem_pages (pages CHANNEL_SIZE USER_VMS_PAGE_SIZE));
  if channel =? 0 then panic "Failed to alloced memory" else
  ept_vm id1 channel (w64 (channel + CHANNEL_SIZE)) channel USER_VMS_PAGE_SIZE EPT_MTYPE_WT EPT_RW MAP_UPDATE ;;
  ept_vm id2 channel (w64 (channel + CHANNEL_SIZE)) channel USER_VMS_PAGE_SIZE EPT_MTYPE_WT EPT_RW MAP_UPDATE ;;
  add_channel_list id2 channel ;;
  mret channel.

Definition local_channel_close (channel : Z) : M pm_state unit :=
  remove_channel_list channel ;;
  free_pages channel.
