(* ===== verification/PmEpt.v ===== *)
(** * The memory of a new virtual machine

    [ept_pmap] of vms/pm/main.c builds the page tables and the EPT of a CPU's
    new program.  The theorems say exactly what the finished EPT maps, and
    from that what the program can reach: its own sections, pages and page
    tables, and the device windows the code maps for everybody. *)

From S2P Require Import Prelude PhysMem MemMgr MemMgrSpec Paging PageWalk PagingSpec EptSpec PmAlloc CpuInfo Ipc Pm.

(** ** What is mapped *)

(** The tables the guest runs with: the first 4GB, each address to itself. *)
Definition vm_page_regions : list region :=
  [Region 0 _2MB_ 0 (with_pse _2MB_ (Z.lor (Z.lor PAGE_PRESENT PAGE_RW) PAGE_PCD));
   Region _2MB_ 0xFEC00000 _2MB_ (with_pse _2MB_ (Z.lor PAGE_PRESENT PAGE_RW));
   Region 0xFEC00000 (_1GB_ * 4) 0xFEC00000 (with_pse _2MB_ (Z.lor (Z.lor PAGE_PRESENT PAGE_RW) PAGE_PCD))].

(** The windows on devices: video memory, interrupt controllers, network card. *)
Definition video : region := ept_region 0xB8000 0xB9000 0xB8000 EPT_MTYPE_UC EPT_RW.
Definition apics : region := ept_region 0xFEC00000 0x100000000 0xFEC00000 EPT_MTYPE_UC EPT_RW.
Definition nic : region := ept_region 0xC0000000 0xC6000000 0xC0000000 EPT_MTYPE_UC EPT_RW.

Abbreviation EPT_RX := (Z.lor EPT_PAGE_READ EPT_PAGE_EXEC).

Definition section_regions (prot : Z) (x : section) : list region :=
  if 0 <? s_size x
  then [ept_region (s_vaddr x) (s_vaddr x + s_size x) (s_paddr x) EPT_MTYPE_WB prot] else [].
Definition page_regions (p : Z) : list region :=
  if 0 <? p then [ident EPT_MTYPE_WB EPT_RW p] else [].

(** The channels of the open character files. *)
Definition fd_pages (m : memory) (fds : Z) (is_ : list Z) : list Z :=
  if 0 <? fds then filter (fun p => p <> 0) (fd_offset m fds <$> is_) else [].

Definition message_pages (c : cpu_info) : list Z :=
  [msg_input c; msg_output c; msg_ready c; msg_ready_bitmap c].

(** [info] is the address of the CPU's [struct cpu_info], [tables] the pages
    of the guest's page tables. *)
Definition vm_regions (c : cpu_info) (info : Z) (tables fd_pages : list Z) : list region :=
  let vm := vm_info c in
  [video; apics] ++ idents EPT_MTYPE_WB EPT_RW tables ++
  [ident EPT_MTYPE_WB EPT_PAGE_READ info] ++ idents EPT_MTYPE_WB EPT_RW (message_pages c) ++
  section_regions EPT_RX (vm_code vm) ++ section_regions EPT_RW (vm_data vm) ++
  section_regions EPT_PAGE_READ (vm_rodata vm) ++ section_regions EPT_RW (vm_bss vm) ++
  section_regions EPT_RW (vm_stack vm) ++
  page_regions (vm_fds vm) ++ idents EPT_MTYPE_WB EPT_RW fd_pages ++
  page_regions (vm_channels vm) ++ [nic].

(** ** What must hold of the CPU's description *)

Definition page_ok (p : Z) : Prop := p mod 4096 = 0 /\ 0 <= p /\ p + 4096 <= 2 ^ 48.

(** A section whose addresses can be mapped, with the pages it needs. *)
Definition section_ok (x : section) : Prop :=
  0 < s_size x -> s_paddr x mod 4096 = 0 /\ 0 <= s_vaddr x /\ 0 <= s_paddr x /\
    s_vaddr x + s_size x + 4096 <= 2 ^ 42 /\ s_paddr x + s_size x + 4096 <= 2 ^ 63.
Definition section_demand (x : section) : Z := 3 * Z.max 0 (s_size x / 4096 + 1) + 1.

Definition vm_sections (c : cpu_info) : list section :=
  let vm := vm_info c in [vm_code vm; vm_data vm; vm_rodata vm; vm_bss vm; vm_stack vm].

(** The pages that are always enough: those for the fixed windows, and three
    tables for each page of the sections. *)
Definition vm_demand (c : cpu_info) : Z :=
  103800 + foldr (fun x n => section_demand x + n) 0 (vm_sections c).

Abbreviation kmem_of s := (KMem (p_mm s) (p_mem s)).

Record vm_described (id : Z) (c : cpu_info) (s : pm_state) : Prop := {
  vd_cpu : cpu_at (p_m s) id = c;
  vd_2mb : has_1GB_page s = false;
  vd_ok : pa_ok (kmem_of s);
  vd_top : mm_top (p_mm s) <= 2 ^ 48;
  vd_info : page_ok (cpu_addr id s);
  vd_msgs : Forall page_ok (message_pages c);
  vd_sections : Forall section_ok (vm_sections c);
  vd_fds : 0 < vm_fds (vm_info c) -> page_ok (vm_fds (vm_info c)) /\ taken (p_mm s) (vm_fds (vm_info c));
  vd_files : Forall page_ok (fd_pages (p_mem s) (vm_fds (vm_info c)) (seqZ 0 MAX_FD));
  vd_channels : page_ok (vm_channels (vm_info c));
  vd_pages : pa_avail (kmem_of s) (vm_demand c)
}.

Lemma section_args prot x :
  section_ok x -> 0 < s_size x -> 0 < prot < 4096 ->
  region_args _4KB_ 3 (s_vaddr x) (s_vaddr x + s_size x) (s_paddr x) prot /\
  w64 (s_vaddr x + s_size x) = s_vaddr x + s_size x /\
  3 * region_pages (s_vaddr x) (s_vaddr x + s_size x) _4KB_ + 1 <= section_demand x.
Proof.
  intros Hx Hs Hp. destruct (Hx Hs) as (H1 & H2 & H3 & H4 & H5). unfold section_demand.
  assert (Hn : region_pages (s_vaddr x) (s_vaddr x + s_size x) _4KB_ =
    s_size x / 4096 + (if s_size x mod 4096 =? 0 then 0 else 1)).
  { unfold region_pages. replace (s_vaddr x + s_size x - s_vaddr x) with (s_size x) by lia.
    assert (s_size x / 4096 <= 2 ^ 31 - 2) by (apply Z.div_le_upper_bound; lia).
    assert (0 <= s_size x / 4096) by (apply Z.div_pos; lia). apply s32_small. case_match; lia. }
  pose proof (Z.div_mod (s_size x) 4096 ltac:(lia)). pose proof (Z.mod_pos_bound (s_size x) 4096 ltac:(lia)).
  assert (0 <= s_size x / 4096) by (apply Z.div_pos; lia).
  split_and!; [split; rewrite ?Hn | apply w64_small; lia | rewrite Hn; case_match; lia];
    try done; try lia; [by left | |]; destruct (Z.eqb_spec (s_size x mod 4096) 0); lia.
Qed.

(** ** Building the EPT, call by call *)

(** What a change of page tables leaves alone in the process manager. *)
Definition statics (s : pm_state) :=
  (has_1GB_page s, arg_vector s, argv_ptr s, p_stale s,
   (m_pool (p_m s), m_self (p_m s), m_recv (p_m s), m_cnl (p_m s), m_world (p_m s))).

Lemma cpu_addr_statics id s s' : statics s' = statics s -> cpu_addr id s' = cpu_addr id s.
Proof. unfold cpu_addr. by intros [= _ _ _ _ -> _ _ _ _]. Qed.

Lemma set_vm_spec E id f s (Q : unit -> pm_state -> Prop) :
  (forall s', statics s' = statics s -> kmem_of s' = kmem_of s ->
     cpu_at (p_m s') id = set_vm_info (f (vm_info (cpu_at (p_m s) id))) (cpu_at (p_m s) id) ->
     (forall j, j <> id -> cpu_at (p_m s') j = cpu_at (p_m s) j) -> Q tt s') ->
  post E (set_vm id f) s Q.
Proof.
  intros H. unfold set_vm, set_cpu, on_machine, update_cpu. wp_step. wp_step. apply H; [done | done | |].
  - unfold cpu_at. simpl. by rewrite lookup_insert_eq.
  - intros j Hj. unfold cpu_at. simpl. by rewrite lookup_insert_ne.
Qed.

Lemma on_kmem_spec {A} E (m : M kmem A) s (Q : A -> pm_state -> Prop) :
  post E m (kmem_of s) (fun a k => forall s', statics s' = statics s -> kmem_of s' = k ->
    (forall j, cpu_at (p_m s') j = cpu_at (p_m s) j) -> Q a s') ->
  post E (on_kmem m) s Q.
Proof.
  intros H. unfold on_kmem. wp_step. eapply post_mono; [exact H |]. intros a k _ Hk. apply Hk; try done.
  by destruct k.
Qed.

Section Build.
Context (id : Z) (c : cpu_info) (P : Z -> Prop) (s0 : pm_state).

(** [c] with tables at [root] that map [rs], and [r] pages left. *)
Record building_at (ps : Z) (D : nat) (root : Z) (rs : list region) (r : Z) (s : pm_state) : Prop := {
  b_cpu : cpu_at (p_m s) id = c;
  b_others : forall j, j <> id -> cpu_at (p_m s) j = cpu_at (p_m s0) j;
  b_statics : statics s = statics s0;
  b_maps : maps P ps D root rs (kmem_of s);
  b_kept : kept P (kmem_of s0) (kmem_of s);
  b_avail : pa_avail (kmem_of s) r
}.

Abbreviation building := (building_at _4KB_ 3 (vm_ept (vm_info c))).
Abbreviation tabling := (building_at _2MB_ 2 (vm_page_tables (vm_info c))).

Lemma building_less ps D root rs r r' s : r' <= r -> building_at ps D root rs r s -> building_at ps D root rs r' s.
Proof. intros Hr []. split; try done. by eapply pa_avail_less. Qed.

(** The state after a call that kept the root. *)
Lemma building_step ps D root f rs rs' r r' s s1 s2 :
  building_at ps D root rs r s -> statics s1 = statics s -> (forall j, cpu_at (p_m s1) j = cpu_at (p_m s) j) ->
  maps P ps D root rs' (kmem_of s1) -> kept P (kmem_of s) (kmem_of s1) ->
  pa_avail (kmem_of s1) r' ->
  statics s2 = statics s1 -> kmem_of s2 = kmem_of s1 ->
  cpu_at (p_m s2) id = set_vm_info (f (vm_info (cpu_at (p_m s1) id))) (cpu_at (p_m s1) id) ->
  (forall j, j <> id -> cpu_at (p_m s2) j = cpu_at (p_m s1) j) ->
  set_vm_info (f (vm_info c)) c = c -> building_at ps D root rs' r' s2.
Proof.
  intros [] E1 C1 M1 K1 A1 E2 K2 C2 O2 Hf. split; rewrite ?K2; try done.
  - by rewrite C2, C1, b_cpu0.
  - intros j Hj. by rewrite O2, C1, b_others0.
  - congruence.
  - by etransitivity.
Qed.

Lemma set_vm_ept_same : set_vm_info (set_vm_ept (vm_ept (vm_info c)) (vm_info c)) c = c.
Proof. by destruct c as [? [] ? ? ? ? ? ? ?]. Qed.
Lemma set_vm_page_tables_same : set_vm_info (set_vm_page_tables (vm_page_tables (vm_info c)) (vm_info c)) c = c.
Proof. by destruct c as [? [] ? ? ? ? ? ? ?]. Qed.

Lemma map_vm_step rs start end_ pa f r s :
  tabling rs (3 * region_pages start end_ _2MB_ + 1 + r) s ->
  region_args _2MB_ 2 start end_ pa f -> 0 <= r ->
  wp (map_vm id start end_ pa _2MB_ f MAP_UPDATE) s
    (fun _ s' => tabling (rs ++ [Region start end_ pa (with_pse _2MB_ f)]) r s').
Proof.
  intros Hb Ha Hr. unfold map_vm. wp_step. apply post_gets. rewrite (b_cpu _ _ _ _ _ _ Hb). wp_step.
  apply on_kmem_spec. eapply post_mono;
    [apply (pt_add_total P _ rs _ 2 _ _ _ _ _ r); [apply Hb | done | done | apply Hb] |].
  intros root k _ ((-> & Hmap & Hk) & Hav) s1 E1 <- C1. apply set_vm_spec. intros s2 E2 K2 C2 O2.
  eapply building_step; try done. apply set_vm_page_tables_same.
Qed.

Lemma ept_vm_step rs start end_ pa mtype prot r s :
  building rs (3 * region_pages start end_ _4KB_ + 1 + r) s ->
  region_args _4KB_ 3 start end_ pa prot -> 0 <= mtype < 8 -> 0 <= r ->
  wp (ept_vm id start end_ pa USER_VMS_PAGE_SIZE mtype prot MAP_UPDATE) s
    (fun _ s' => building (rs ++ [ept_region start end_ pa mtype prot]) r s').
Proof.
  intros Hb Ha Hm Hr. unfold ept_vm. wp_step. apply post_gets. rewrite (b_cpu _ _ _ _ _ _ Hb). wp_step.
  apply on_kmem_spec. eapply post_mono;
    [apply (ept_add_total P _ rs _4KB_ 3 _ _ _ _ _ _ r); [apply Hb | done | done | done | apply Hb] |].
  intros root k _ ((-> & Hmap & Hk) & Hav) s1 E1 <- C1. apply set_vm_spec. intros s2 E2 K2 C2 O2.
  eapply building_step; try done. apply set_vm_ept_same.
Qed.

Lemma ept_tables_step rs r s :
  let pt := vm_page_tables (vm_info c) in
  building rs (r + 8216) s -> pt <> 0 -> 0 <= r ->
  (forall t, t ∈ guest_tables (p_mem s) pt -> guest_page P t) ->
  wp (ept ← on_kmem (ept_map_page_tables (vm_ept (vm_info c)) pt EPT_RW); set_vm id (set_vm_ept ept)) s
    (fun _ s' => building (rs ++ idents EPT_MTYPE_WB EPT_RW (guest_tables (p_mem s) pt)) r s').
Proof.
  intros pt Hb Hpt Hr Hg. assert (0 <= pt) by (destruct (Hg pt) as (_ & _ & ? & _); [by left | done]).
  wp_step. apply on_kmem_spec. eapply post_mono.
  - eapply post_total.
    + by apply (ept_map_page_tables_spec P EPT_RW ltac:(done) _ rs pt (kmem_of s)); [apply Hb | |].
    + apply (ept_map_page_tables_avail _ _ _ _ r); [done | done | apply Hb].
  - intros root k _ ((-> & Hmap & Hk) & Hav) s1 E1 <- C1. apply set_vm_spec. intros s2 E2 K2 C2 O2.
    eapply building_step; try done. apply set_vm_ept_same.
Qed.

Lemma ept_page_step rs addr mtype prot r s :
  building rs (4 + r) s -> page_ok addr -> 0 <= mtype < 8 -> 0 < prot < 4096 -> 0 <= r ->
  wp (ept_page id addr mtype prot) s (fun _ s' => building (rs ++ [ident mtype prot addr]) r s').
Proof.
  intros Hb (H1 & H2 & H3) Hm Hp Hr. unfold ept_page. rewrite w64_small by lia.
  apply ept_vm_step; [|by apply ident_args | done | done]. rewrite region_pages_one. done.
Qed.

Lemma ept_section_step rs sec prot r s :
  building rs (section_demand (sec (vm_info c)) + r) s -> section_ok (sec (vm_info c)) ->
  0 < prot < 4096 -> 0 <= r ->
  wp (ept_section id sec prot) s (fun _ s' => building (rs ++ section_regions prot (sec (vm_info c))) r s').
Proof.
  intros Hb Hx Hp Hr. unfold ept_section. wp_step. apply post_gets. rewrite (b_cpu _ _ _ _ _ _ Hb).
  unfold section_regions. set (x := sec (vm_info c)) in *. cbv zeta. destruct (Z.ltb_spec 0 (s_size x)) as [Hs|Hs].
  - destruct (section_args prot x Hx Hs Hp) as (Ha & -> & Hd). apply ept_vm_step; [|done | done | done].
    eapply building_less; [|exact Hb]. lia.
  - apply post_ret. rewrite app_nil_r. eapply building_less; [|exact Hb]. unfold section_demand. lia.
Qed.

Lemma page_regions_step rs p r s :
  building rs (4 + r) s -> page_ok p -> 0 <= r ->
  wp (when (0 <? p) (ept_page id p EPT_MTYPE_WB EPT_RW)) s (fun _ s' => building (rs ++ page_regions p) r s').
Proof.
  intros Hb Hp Hr. unfold page_regions. wp_step.
  - rewrite H. by apply ept_page_step.
  - rewrite H, app_nil_r. eapply building_less; [|done]. lia.
Qed.

(** The loop over the descriptors; their table is not touched meanwhile. *)
Lemma fd_offset_kept rs r s fds i :
  building rs r s -> P fds -> 0 <= i < MAX_FD -> fd_offset (p_mem s) fds i = fd_offset (p_mem s0) fds i.
Proof.
  intros [] Hfds Hi. destruct b_kept0 as (_ & _ & Hk). symmetry. apply load_ext. intros x Hx. apply Hk.
  exists fds. split; [done |]. simpl in Hx. lia.
Qed.

Lemma ept_files_step fds is_ : 0 < fds -> P fds -> (forall i, i ∈ is_ -> 0 <= i < MAX_FD) -> forall rs r s,
  building rs (4 * Z.of_nat (length is_) + r) s -> 0 <= r ->
  Forall page_ok (fd_pages (p_mem s0) fds is_) ->
  wp (forM is_ (fun i => s ← get; let offset := fd_offset (p_mem s) fds i in
        when (negb (offset =? 0)) (ept_page id offset EPT_MTYPE_WB EPT_RW))) s
    (fun _ s' => building (rs ++ idents EPT_MTYPE_WB EPT_RW (fd_pages (p_mem s0) fds is_)) r s').
Proof.
  intros Hpos HP. unfold fd_pages. destruct (Z.ltb_spec 0 fds); [|lia].
  induction is_ as [|i is_ IH]; intros Hi rs r s Hb Hr Hall.
  { apply post_ret. by rewrite app_nil_r. }
  cbn [forM length fmap list_fmap] in *. wp_step. wp_step. apply post_gets. cbv zeta.
  rewrite (fd_offset_kept rs _ s fds i Hb HP) by (apply Hi; by left).
  set (o := fd_offset (p_mem s0) fds i) in *. rewrite filter_cons in *.
  assert (Hb' : building rs (4 + (4 * Z.of_nat (length is_) + r)) s) by (eapply building_less; [|exact Hb]; lia).
  destruct (Z.eqb_spec o 0) as [Ho|Ho]; simpl.
  - rewrite decide_False in * by (by intros H'). apply post_ret. apply IH; [intros j Hj; apply Hi; by right | | done | done].
    eapply building_less; [|exact Hb']. lia.
  - rewrite decide_True in * by done. apply Forall_cons in Hall as [Hp Hall].
    eapply post_mono; [apply (ept_page_step rs o EPT_MTYPE_WB EPT_RW _ s Hb' Hp); [done | done | lia] |].
    intros [] s1 _ Hb1. unfold idents. rewrite fmap_cons.
    rewrite cons_middle, app_assoc. apply IH; [intros j Hj; apply Hi; by right | done | done | done].
Qed.

Lemma ept_fds_step rs r s :
  let fds := vm_fds (vm_info c) in
  (0 < fds -> page_ok fds /\ P fds) -> Forall page_ok (fd_pages (p_mem s0) fds (seqZ 0 MAX_FD)) ->
  building rs (132 + r) s -> 0 <= r ->
  wp (ept_fds id) s (fun _ s' =>
    building (rs ++ page_regions fds ++ idents EPT_MTYPE_WB EPT_RW (fd_pages (p_mem s0) fds (seqZ 0 MAX_FD))) r s').
Proof.
  intros fds Hfds Hall Hb Hr. unfold ept_fds. wp_step. apply post_gets. rewrite (b_cpu _ _ _ _ _ _ Hb). fold fds.
  cbv zeta. wp_step.
  - assert (Hpos : 0 < fds) by lia. destruct (Hfds Hpos) as [Hp HP].
    unfold page_regions. rewrite H. wp_step.
    eapply post_mono; [apply (ept_page_step rs fds EPT_MTYPE_WB EPT_RW (128 + r) s); [|done | done | done | lia] |].
    { eapply building_less; [|exact Hb]. lia. }
    intros [] s1 _ Hb1. rewrite app_assoc.
    apply (ept_files_step fds (seqZ 0 MAX_FD) Hpos HP); [|done | done | done].
    intros i. rewrite elem_of_seqZ. lia.
  - unfold page_regions, fd_pages. rewrite H. rewrite app_nil_r. eapply building_less; [|exact Hb]. lia.
Qed.
End Build.

(** The calls with fixed arguments. *)
Ltac region_args_tac := split; try (by vm_compute); try lia; unfold size_depth; auto.
Lemma args_low f : 0 < f < 4096 -> region_args _2MB_ 2 0 _2MB_ 0 f.
Proof. intros Hf. region_args_tac. Qed.
Lemma args_mid f : 0 < f < 4096 -> region_args _2MB_ 2 _2MB_ 0xFEC00000 _2MB_ f.
Proof. intros Hf. region_args_tac. Qed.
Lemma args_high f : 0 < f < 4096 -> region_args _2MB_ 2 0xFEC00000 (_1GB_ * 4) 0xFEC00000 f.
Proof. intros Hf. region_args_tac. Qed.
Lemma args_video f : 0 < f < 4096 -> region_args _4KB_ 3 0xB8000 0xB9000 0xB8000 f.
Proof. intros Hf. region_args_tac. Qed.
Lemma args_apics f : 0 < f < 4096 -> region_args _4KB_ 3 0xFEC00000 0x100000000 0xFEC00000 f.
Proof. intros Hf. region_args_tac. Qed.
Lemma args_nic f : 0 < f < 4096 -> region_args _4KB_ 3 0xC0000000 0xC6000000 0xC0000000 f.
Proof. intros Hf. region_args_tac. Qed.

Definition with_tables (pt ept : Z) (c : cpu_info) : cpu_info :=
  set_vm_info (set_vm_ept ept (set_vm_page_tables pt (vm_info c))) c.

(** The first half: the guest's own tables. *)
Lemma pmap_tables id c s n :
  cpu_at (p_m s) id = c -> pa_ok (kmem_of s) -> 0 <= n -> pa_avail (kmem_of s) (6200 + n) ->
  wp (map_vm id 0 _2MB_ 0 _2MB_ (Z.lor (Z.lor PAGE_PRESENT PAGE_RW) PAGE_PCD) MAP_NEW ;;
      map_vm id _2MB_ 0xFEC00000 _2MB_ _2MB_ (Z.lor PAGE_PRESENT PAGE_RW) MAP_UPDATE ;;
      map_vm id 0xFEC00000 (_1GB_ * 4) 0xFEC00000 _2MB_ (Z.lor (Z.lor PAGE_PRESENT PAGE_RW) PAGE_PCD) MAP_UPDATE) s
    (fun _ s' => exists pt, building_at id (set_vm_info (set_vm_page_tables pt (vm_info c)) c)
       (pa_owned (kmem_of s)) s _2MB_ 2 pt vm_page_regions n s').
Proof.
  intros Hc Hok Hn Hav. wp_step. unfold map_vm at 1. wp_step. apply post_gets. wp_step. rewrite Hc. apply on_kmem_spec.
  eapply post_mono; [apply (pt_new_total (pa_owned (kmem_of s)) _ _2MB_ 2 _ _ _ _ _ (6190 + n));
    [done | done | by apply args_low | done | lia | eapply pa_avail_less; [|exact Hav]] |].
  { change (region_pages 0 _2MB_ _2MB_) with 1. lia. }
  intros pt k _ ((Hmap & Hk) & Hav1) s1 E1 <- C1. apply set_vm_spec. intros s2 E2 K2 C2 O2.
  set (c1 := set_vm_info (set_vm_page_tables pt (vm_info c)) c).
  assert (Hb : building_at id c1 (pa_owned (kmem_of s)) s _2MB_ 2 (vm_page_tables (vm_info c1))
    [Region 0 _2MB_ 0 (with_pse _2MB_ (Z.lor (Z.lor PAGE_PRESENT PAGE_RW) PAGE_PCD))] (6190 + n) s2).
  { split; rewrite ?K2; try done.
    - by rewrite C2, C1, Hc.
    - intros j Hj. by rewrite O2, C1.
    - congruence. }
  wp_step. eapply post_mono; [eapply (map_vm_step id c1 (pa_owned (kmem_of s)) s _ _ _ _ _ (31 + n)); [|by apply args_mid | lia] |].
  { eapply building_less; [|exact Hb]. change (region_pages _2MB_ 0xFEC00000 _2MB_) with 2037. lia. }
  intros [] s3 _ Hb3.
  eapply post_mono; [eapply (map_vm_step id c1 (pa_owned (kmem_of s)) s _ _ _ _ _ n); [|by apply args_high | lia] |].
  { eapply building_less; [|exact Hb3]. change (region_pages 0xFEC00000 (_1GB_ * 4) _2MB_) with 10. lia. }
  intros [] s4 _ Hb4. by exists pt.
Qed.

(** The second half: a new EPT ... *)
Lemma pmap_ept_new id c s n :
  cpu_at (p_m s) id = c -> pa_ok (kmem_of s) -> 0 <= n -> pa_avail (kmem_of s) (4 + n) ->
  wp (ept_vm id 0xB8000 0xB9000 0xB8000 USER_VMS_PAGE_SIZE EPT_MTYPE_UC EPT_RW MAP_NEW) s
    (fun _ s' => exists ept, building_at id (set_vm_info (set_vm_ept ept (vm_info c)) c)
       (pa_owned (kmem_of s)) s _4KB_ 3 ept [video] n s').
Proof.
  intros Hc Hok Hn Hav. unfold ept_vm. wp_step. apply post_gets. rewrite Hc. wp_step. apply on_kmem_spec.
  eapply post_mono; [apply (ept_new_total (pa_owned (kmem_of s)) _ _4KB_ 3 _ _ _ _ _ _ n);
    [done | done | by apply args_video | done | done | done |
     change (region_pages 0xB8000 0xB9000 _4KB_) with 1; done] |].
  intros ept k _ ((Hmap & Hk) & Hav1) s1 E1 <- C1. apply set_vm_spec. intros s2 E2 K2 C2 O2. exists ept.
  split; rewrite ?K2; try done.
  - by rewrite C2, C1, Hc.
  - intros j Hj. by rewrite O2, C1.
  - congruence.
Qed.

(** ... and everything that is mapped in it. *)
Definition ept_rest (id : Z) : M pm_state unit :=
  ept_vm id 0xFEC00000 0x100000000 0xFEC00000 USER_VMS_PAGE_SIZE EPT_MTYPE_UC EPT_RW MAP_UPDATE ;;
  c ← cpu id;
  ept ← on_kmem (ept_map_page_tables (vm_ept (vm_info c)) (vm_page_tables (vm_info c)) EPT_RW);
  set_vm id (set_vm_ept ept) ;;
  s ← get;
  ept_page id (cpu_addr id s) EPT_MTYPE_WB EPT_PAGE_READ ;;
  ept_page id (msg_input c) EPT_MTYPE_WB EPT_RW ;;
  ept_page id (msg_output c) EPT_MTYPE_WB EPT_RW ;;
  ept_page id (msg_ready c) EPT_MTYPE_WB EPT_RW ;;
  ept_page id (msg_ready_bitmap c) EPT_MTYPE_WB EPT_RW ;;
  ept_section id vm_code EPT_RX ;;
  ept_section id vm_data EPT_RW ;;
  ept_section id vm_rodata EPT_PAGE_READ ;;
  ept_section id vm_bss EPT_RW ;;
  ept_section id vm_stack EPT_RW ;;
  ept_fds id ;;
  c ← cpu id;
  let channels := vm_channels (vm_info c) in
  when (0 <? channels) (ept_page id channels EPT_MTYPE_WB EPT_RW) ;;
  ept_vm id 0xC0000000 0xC6000000 0xC0000000 USER_VMS_PAGE_SIZE EPT_MTYPE_UC EPT_RW MAP_UPDATE.

Section Rest.
Context (id : Z) (c : cpu_info) (P : Z -> Prop) (s0 : pm_state).
Abbreviation building := (building_at id c P s0 _4KB_ 3 (vm_ept (vm_info c))).
Context (Hpt : vm_page_tables (vm_info c) <> 0).
Context (Hg : forall s, kept P (kmem_of s0) (kmem_of s) ->
  forall t, t ∈ guest_tables (p_mem s) (vm_page_tables (vm_info c)) -> guest_page P t).
Context (Hinfo : page_ok (cpu_addr id s0)).
Context (Hmsgs : Forall page_ok (message_pages c)) (Hsecs : Forall section_ok (vm_sections c)).
Context (Hfds : 0 < vm_fds (vm_info c) -> page_ok (vm_fds (vm_info c)) /\ P (vm_fds (vm_info c))).
Context (Hfiles : Forall page_ok (fd_pages (p_mem s0) (vm_fds (vm_info c)) (seqZ 0 MAX_FD))).
Context (Hch : page_ok (vm_channels (vm_info c))).

(** One more call of the sequence, its demand taken from what is left. *)
Lemma building_bind {A} rs rs' r r' d (m : M pm_state unit) (k : unit -> M pm_state A) s Q :
  building rs r s -> d + r' <= r ->
  (building rs (d + r') s -> wp m s (fun _ s' => building rs' r' s')) ->
  (forall s', building rs' r' s' -> wp (k tt) s' Q) -> wp (m ≫= k) s Q.
Proof.
  intros Hb Hr Hm Hk. wp_step. eapply post_mono; [apply Hm; by eapply building_less |].
  intros [] s' _. apply Hk.
Qed.

(** The next call of the sequence, by [lem], leaving [r] pages. *)
Ltac ept_call r d lem :=
  match goal with
  | Hb : building_at _ _ _ _ _ _ _ _ _ ?s |- wp _ ?s _ =>
      eapply (building_bind _ _ _ r d); [exact Hb | lia | intros; apply lem; done || lia |];
      clear Hb; intros ? Hb
  end.

Lemma ept_rest_spec s :
  building [video] (97530 + foldr (fun x n => section_demand x + n) 0 (vm_sections c)) s ->
  wp (ept_rest id) s (fun _ s' => exists s1,
    kept P (kmem_of s0) (kmem_of s1) /\
    building (vm_regions c (cpu_addr id s0) (guest_tables (p_mem s1) (vm_page_tables (vm_info c)))
                (fd_pages (p_mem s0) (vm_fds (vm_info c)) (seqZ 0 MAX_FD))) 0 s').
Proof.
  intros Hb. unfold message_pages, vm_sections in Hmsgs, Hsecs, Hb. cbv zeta in *.
  rewrite !Forall_cons in Hmsgs. rewrite !Forall_cons in Hsecs.
  destruct Hmsgs as (M1 & M2 & M3 & M4 & _). destruct Hsecs as (X1 & X2 & X3 & X4 & X5 & _).
  cbn [foldr] in Hb. set (d1 := section_demand (vm_code (vm_info c))) in *.
  set (d2 := section_demand (vm_data (vm_info c))) in *. set (d3 := section_demand (vm_rodata (vm_info c))) in *.
  set (d4 := section_demand (vm_bss (vm_info c))) in *. set (d5 := section_demand (vm_stack (vm_info c))) in *.
  assert (Hd : 0 <= d1 /\ 0 <= d2 /\ 0 <= d3 /\ 0 <= d4 /\ 0 <= d5)
    by (unfold d1, d2, d3, d4, d5, section_demand; lia). destruct Hd as (D1 & D2 & D3 & D4 & D5).
  unfold ept_rest. set (S := d1 + (d2 + (d3 + (d4 + (d5 + 0))))) in *.
  eapply (building_bind _ _ _ (82160 + S) 15361); [exact Hb | lia | |].
  { intros Hb'. apply ept_vm_step; [|by apply args_apics | done | lia].
    eapply building_less; [|exact Hb']. change (region_pages 0xFEC00000 0x100000000 _4KB_) with 5120. lia. }
  clear s Hb. intros s1 Hb. wp_step. apply post_gets. rewrite (b_cpu _ _ _ _ _ _ _ _ _ _ Hb).
  assert (Hk1 : kept P (kmem_of s0) (kmem_of s1)) by apply Hb.
  wp_step. eapply post_mono; [apply post_bind_inv; eapply (ept_tables_step id c P s0 _ (73940 + S));
    [eapply building_less; [|exact Hb]; lia | done | lia | by apply Hg] |].
  intros ept s2 _ Hw. cbv beta. wp_step. eapply post_mono; [exact Hw |]. clear Hw Hb.
  set (tables := guest_tables (p_mem s1) (vm_page_tables (vm_info c))).
  intros [] s3 _ Hb. wp_step. apply post_gets. rewrite (cpu_addr_statics id s0 s3) by apply Hb.
  ept_call (73930 + S) 4 ept_page_step.
  ept_call (73920 + S) 4 ept_page_step. ept_call (73910 + S) 4 ept_page_step.
  ept_call (73900 + S) 4 ept_page_step. ept_call (73890 + S) 4 ept_page_step.
  ept_call (73890 + (d2 + (d3 + (d4 + d5)))) d1 ept_section_step.
  ept_call (73890 + (d3 + (d4 + d5))) d2 ept_section_step.
  ept_call (73890 + (d4 + d5)) d3 ept_section_step. ept_call (73890 + d5) d4 ept_section_step.
  ept_call 73890 d5 ept_section_step. ept_call 73750 132 ept_fds_step.
  wp_step. apply post_gets. rewrite (b_cpu _ _ _ _ _ _ _ _ _ _ Hb). cbv zeta.
  ept_call 73740 4 page_regions_step.
  eapply post_mono; [eapply (ept_vm_step id c P s0 _ _ _ _ _ _ 0); [|by apply args_nic | done | done] |].
  { eapply building_less; [|exact Hb]. change (region_pages 0xC0000000 0xC6000000 _4KB_) with 24576. lia. }
  intros [] s4 _ Hb'. exists s1. split; [done |]. fold tables.
  rewrite <-!app_assoc in Hb'. exact Hb'.
Qed.
End Rest.

(** ** The theorems *)

(** The two halves put together. *)
Lemma ept_pmap_split id s n (Q : unit -> pm_state -> Prop) :
  let c := cpu_at (p_m s) id in
  has_1GB_page s = false -> pa_ok (kmem_of s) -> 0 <= n -> pa_avail (kmem_of s) (6210 + n) ->
  (forall pt ept s1 s2,
     building_at id (set_vm_info (set_vm_page_tables pt (vm_info c)) c)
       (pa_owned (kmem_of s)) s _2MB_ 2 pt vm_page_regions (4 + n) s1 ->
     building_at id (with_tables pt ept c) (pa_owned (kmem_of s1)) s1 _4KB_ 3 ept [video] n s2 ->
     wp (ept_rest id) s2 Q) ->
  wp (ept_pmap id) s Q.
Proof.
  intros c Hbig Hok Hn Hav Hrest. unfold ept_pmap. wp_step. apply post_gets. rewrite Hbig. cbv zeta.
  pose proof (pmap_tables id c s (4 + n) eq_refl Hok ltac:(lia)
    (pa_avail_less _ (6210 + n) (6200 + (4 + n)) ltac:(lia) Hav)) as H.
  wp_step. eapply post_mono; [exact (post_bind_inv _ _ _ _ _ H) |]. clear H. intros [] s1 _ H. cbv beta in *.
  wp_step. eapply post_mono; [exact (post_bind_inv _ _ _ _ _ H) |]. clear H. intros [] s2 _ H. cbv beta in *.
  wp_step. eapply post_mono; [exact H |]. clear H. intros [] s3 _ (pt & Hb).
  wp_step. eapply post_mono; [apply (pmap_ept_new id (set_vm_info (set_vm_page_tables pt (vm_info c)) c) s3 n);
    [apply Hb | apply Hb | done | apply Hb] |].
  intros [] s4 _ (ept & Hb4).
  (* what is left is syntactically [ept_rest] *)
  lazymatch goal with |- post _ ?m _ _ => let r := eval cbv beta zeta delta [ept_rest] in (ept_rest id) in constr_eq m r end.
  by apply (Hrest pt ept s3 s4).
Qed.

(** The guest's tables, found in any memory in which they are untouched, are
    pages the first half took from the allocator. *)
Lemma guest_tables_fresh id c P0 s0 rs n pt s1 s t :
  building_at id c P0 s0 _2MB_ 2 pt rs n s1 ->
  kept (pa_owned (kmem_of s1)) (kmem_of s1) (kmem_of s) ->
  t ∈ guest_tables (p_mem s) pt -> mine P0 (kmem_of s1) t.
Proof.
  intros Hb (_ & _ & Hs) (d & va & Hd & Ht)%guest_tables_at.
  destruct (em_tables _ _ _ _ _ _ (b_maps _ _ _ _ _ _ _ _ _ _ Hb)) as [_ _ Hwf].
  apply (wf_owned _ _ _ Hwf d va); [done |]. rewrite <-Ht. symmetry.
  apply (table_at_same (mine P0 (kmem_of s1)) (p_mem s1) (p_mem s) pt d va Hwf Hd).
  eapply same_on_mono; [|exact Hs]. intros x (q & [Hq _] & Hx). eauto.
Qed.

Lemma guest_tables_page id c P0 s0 rs n pt s1 s t :
  building_at id c P0 s0 _2MB_ 2 pt rs n s1 -> mm_top (p_mm s0) <= 2 ^ 48 ->
  kept (pa_owned (kmem_of s1)) (kmem_of s1) (kmem_of s) ->
  t ∈ guest_tables (p_mem s) pt -> guest_page (pa_owned (kmem_of s1)) t.
Proof.
  intros Hb Htop Hk Ht. destruct (guest_tables_fresh _ _ _ _ _ _ _ _ _ _ Hb Hk Ht) as (Hown & _ & Ht').
  destruct (b_kept _ _ _ _ _ _ _ _ _ _ Hb) as (_ & Et & _). rewrite Et in Ht'. change (mm_top (p_mm s0)) with (pa_top (kmem_of s0)) in Htop.
  destruct (pa_owned_page (kmem_of s1) t) as [? ?]; [apply Hb | done |]. split_and!; [done | done | lia | lia].
Qed.

(** Running the second half after the first. *)
Lemma ept_pmap_run id c s :
  vm_described id c s ->
  let files := fd_pages (p_mem s) (vm_fds (vm_info c)) (seqZ 0 MAX_FD) in
  wp (ept_pmap id) s (fun _ s' => exists pt ept n s1 s2,
    building_at id (set_vm_info (set_vm_page_tables pt (vm_info c)) c) (pa_owned (kmem_of s)) s
      _2MB_ 2 pt vm_page_regions n s1 /\
    kept (pa_owned (kmem_of s1)) (kmem_of s1) (kmem_of s2) /\
    building_at id (with_tables pt ept c) (pa_owned (kmem_of s1)) s1 _4KB_ 3 ept
      (vm_regions c (cpu_addr id s) (guest_tables (p_mem s2) pt) files) 0 s').
Proof.
  intros [Hc Hbig Hok Htop Hinfo Hmsgs Hsecs Hfds Hfiles Hch Hpages] files.
  set (dem := foldr (fun x n => section_demand x + n) 0 (vm_sections c)).
  assert (0 <= dem) by (unfold dem, vm_sections, section_demand; simpl; lia).
  apply (ept_pmap_split id s (97530 + dem)); [done | done | lia | |].
  { eapply pa_avail_less; [|exact Hpages]. unfold vm_demand. fold dem. lia. }
  rewrite Hc. intros pt ept s1 s2 B1 B2.
  destruct (b_kept _ _ _ _ _ _ _ _ _ _ B1) as (Hown & _ & Hsame).
  assert (Haddr : cpu_addr id s1 = cpu_addr id s) by apply cpu_addr_statics, B1.
  assert (Hfd : 0 < vm_fds (vm_info c) ->
    pa_owned (kmem_of s1) (vm_fds (vm_info c)) /\ fd_pages (p_mem s1) (vm_fds (vm_info c)) (seqZ 0 MAX_FD) = files).
  { intros Hpos. destruct (Hfds Hpos) as [_ Ht]. split; [by apply Hown |].
    unfold files, fd_pages. destruct (Z.ltb_spec 0 (vm_fds (vm_info c))); [|done]. f_equal.
    apply list_fmap_ext. intros k i Hi. apply lookup_seqZ in Hi as [-> Hi]. symmetry. apply load_ext.
    intros x Hx. apply Hsame. exists (vm_fds (vm_info c)). split; [done |]. simpl in Hx. lia. }
  assert (Hfl : fd_pages (p_mem s1) (vm_fds (vm_info c)) (seqZ 0 MAX_FD) = files).
  { destruct (decide (0 < vm_fds (vm_info c))) as [Hp|Hp]; [by apply Hfd |].
    unfold files, fd_pages. destruct (Z.ltb_spec 0 (vm_fds (vm_info c))); [lia | done]. }
  assert (Hpt : pt <> 0).
  { destruct (guest_tables_fresh _ _ _ _ _ _ _ _ s1 pt B1) as (Hm & _); [done | by left |].
    apply pa_owned_page in Hm; [lia | apply B1]. }
  eapply post_mono; [apply (ept_rest_spec id (with_tables pt ept c) (pa_owned (kmem_of s1)) s1) |].
  - exact Hpt.
  - intros s3 Hk t Ht. by eapply guest_tables_page.
  - by rewrite Haddr.
  - exact Hmsgs.
  - exact Hsecs.
  - intros Hp. split; [by apply Hfds | by apply Hfd].
  - change (vm_fds (vm_info (with_tables pt ept c))) with (vm_fds (vm_info c)). by rewrite Hfl.
  - exact Hch.
  - exact B2.
  - intros [] s' _ (s3 & Hk3 & Hb). exists pt, ept, (4 + (97530 + dem)), s1, s3. split_and!; [done | done |].
    rewrite Haddr in Hb. change (vm_fds (vm_info (with_tables pt ept c))) with (vm_fds (vm_info c)) in Hb.
    rewrite Hfl in Hb. exact Hb.
Qed.

Lemma ept_pmap_spec id c s :
  vm_described id c s ->
  exists s' pt ept tables, ept_pmap id s = Ok tt s' /\
    cpu_at (p_m s') id = with_tables pt ept c /\
    (forall j, j <> id -> cpu_at (p_m s') j = cpu_at (p_m s) j) /\
    (forall va, 0 <= va < 2 ^ 48 -> walk (p_mem s') pt va = overlay _2MB_ vm_page_regions va) /\
    (forall gpa, 0 <= gpa < 2 ^ 48 -> walk (p_mem s') ept gpa =
       overlay _4KB_ (vm_regions c (cpu_addr id s) tables
                        (fd_pages (p_mem s) (vm_fds (vm_info c)) (seqZ 0 MAX_FD))) gpa) /\
    (forall t, t ∈ tables -> page_ok t /\ ~ taken (p_mm s) t /\ taken (p_mm s') t) /\
    (forall q, taken (p_mm s) q -> taken (p_mm s') q /\
       same_on (fun x => q <= x < q + 4096) (p_mem s) (p_mem s')) /\
    statics s' = statics s /\ mm_top (p_mm s') = mm_top (p_mm s) /\ pa_ok (kmem_of s') /\
    (forall k root va, root = pt \/ root = ept ->
       kept (fun q => taken (p_mm s') q /\ ~ taken (p_mm s) q) (kmem_of s') k ->
       walk (k_mem k) root va = walk (p_mem s') root va).
Proof.
  intros Hd. destruct (wp_elim _ _ _ (ept_pmap_run id c s Hd)) as ([] & s' & Hrun & pt & ept & n & s1 & s2 & B1 & K2 & B3).
  exists s', pt, ept, (guest_tables (p_mem s2) pt). pose proof (b_kept _ _ _ _ _ _ _ _ _ _ B1) as (O1 & _ & S1).
  pose proof (b_kept _ _ _ _ _ _ _ _ _ _ B3) as (O3 & E3 & S3). split_and!; [done | apply B3 | | | apply B3 | | | | | apply B3 |].
  - intros j Hj. rewrite (b_others _ _ _ _ _ _ _ _ _ _ B3 j Hj). by apply B1.
  - intros va Hva. rewrite <-(em_walk _ _ _ _ _ _ (b_maps _ _ _ _ _ _ _ _ _ _ B1) va Hva).
    change (p_mem s') with (pa_mem (kmem_of s')).
    apply (walk_kept (pa_owned (kmem_of s)) (pa_owned (kmem_of s1)) pt (kmem_of s1) (kmem_of s') va);
      [apply B1 | by intros q [? _] | apply B3].
  - intros t Ht. destruct (guest_tables_fresh _ _ _ _ _ _ _ _ _ _ B1 K2 Ht) as (Ho & Hn & _).
    split_and!; [|done | by apply O3].
    destruct (guest_tables_page _ _ _ _ _ _ _ _ _ _ B1 (vd_top _ _ _ Hd) K2 Ht) as (_ & ?). done.
  - intros q Hq. split; [by apply O3, O1 |]. etransitivity.
    + eapply same_on_mono; [|exact S1]. intros x Hx. by exists q.
    + eapply same_on_mono; [|exact S3]. intros x Hx. exists q. split; [by apply O1 | done].
  - rewrite (b_statics _ _ _ _ _ _ _ _ _ _ B3). apply B1.
  - pose proof (b_kept _ _ _ _ _ _ _ _ _ _ B1) as (_ & E1 & _). change (pa_top (kmem_of s') = pa_top (kmem_of s)). by rewrite E3, E1.
  - intros k root va Hroot Hk. change (k_mem k) with (pa_mem k). change (p_mem s') with (pa_mem (kmem_of s')).
    destruct Hroot as [-> | ->].
    + assert (Hnew : forall q, mine (pa_owned (kmem_of s)) (kmem_of s1) q -> taken (p_mm s') q /\ ~ taken (p_mm s) q).
      { intros q (Hq & Hn & _). split; [by apply O3 | done]. }
      rewrite (walk_kept (pa_owned (kmem_of s)) (mine (pa_owned (kmem_of s)) (kmem_of s1)) pt (kmem_of s1) k va);
        [|apply B1 | done | split_and!; [intros q Hq; apply Hk, O3, Hq | by rewrite (proj1 (proj2 Hk)) |]].
      { symmetry. apply (walk_kept (pa_owned (kmem_of s)) (pa_owned (kmem_of s1))); [apply B1 | by intros q [? _] | apply B3]. }
      etransitivity; [eapply same_on_mono; [|exact S3] | eapply same_on_mono; [|apply Hk]].
      * intros x (q & [Hq _] & Hx). by exists q.
      * intros x (q & Hq & Hx). exists q. auto.
    + apply (walk_kept (pa_owned (kmem_of s1)) (mine (pa_owned (kmem_of s1)) (kmem_of s'))); [apply B3 | done |].
      destruct Hk as (K1 & K2' & K3). split_and!; [done | done | eapply same_on_mono; [|exact K3]].
      intros x (q & (Hq & Hn & _) & Hx). exists q. split; [|done]. split; [done |]. intros ?. by apply Hn, O1.
Qed.


(** ** What a program can reach *)

Definition device_page (p : Z) : Prop :=
  p = 0xB8000 \/ 0xFEC00000 <= p < 0x100000000 \/ 0xC0000000 <= p < 0xC6000000.
Definition section_page (x : section) (p : Z) : Prop := s_paddr x <= p < s_paddr x + s_size x.

(** The host pages a program may write, given the pages of its page tables. *)
Definition may_write (c : cpu_info) (tables files : list Z) (p : Z) : Prop :=
  let vm := vm_info c in
  device_page p \/ p ∈ tables \/ p ∈ message_pages c \/ p ∈ files \/ p = vm_fds vm \/ p = vm_channels vm \/
  section_page (vm_data vm) p \/ section_page (vm_bss vm) p \/ section_page (vm_stack vm) p.
(** Those it may only read. *)
Definition may_read (c : cpu_info) (info p : Z) : Prop :=
  p = info \/ section_page (vm_code (vm_info c)) p \/ section_page (vm_rodata (vm_info c)) p.

(** A leaf entry: an aligned frame with flags. *)
Definition entry_of (p f : Z) (x : Z * Z) : Prop := x = (p + f, _4KB_) /\ p mod 4096 = 0.

Lemma region_entry start end_ pa mtype prot gpa x :
  region_args _4KB_ 3 start end_ pa prot -> r_walk _4KB_ (ept_region start end_ pa mtype prot) gpa = Some x ->
  exists p, entry_of p (ept_flags _4KB_ mtype prot) x /\ pa <= p < pa + (end_ - start).
Proof.
  intros Ha. destruct (region_pages_pos _ _ _ _ _ _ Ha) as [_ Hn]. destruct Ha.
  unfold r_walk, region_walk. simpl. set (k := gpa / _4KB_ - start / _4KB_).
  destruct (Z.leb_spec 0 k), (Z.ltb_spec k (region_pages start end_ _4KB_)); simpl; intros [= <-].
  exists (pa + k * 4096). split; [split; [done | by rewrite Z.mod_add by lia] | nia].
Qed.

Lemma ident_entry p prot gpa x :
  page_ok p -> 0 < prot < 4096 -> r_walk _4KB_ (ident EPT_MTYPE_WB prot p) gpa = Some x ->
  entry_of p (ept_flags _4KB_ EPT_MTYPE_WB prot) x.
Proof.
  intros (H1 & H2 & H3) Hp Hx.
  apply region_entry in Hx as (q & [-> Hq] & Hr); [|by apply ident_args]. split; [|done]. f_equal.
  pose proof (Z.div_mod p 4096 ltac:(lia)). pose proof (Z.div_mod q 4096 ltac:(lia)). lia.
Qed.

Lemma idents_entry ps gpa x r :
  Forall page_ok ps -> r ∈ idents EPT_MTYPE_WB EPT_RW ps -> r_walk _4KB_ r gpa = Some x ->
  exists p, p ∈ ps /\ entry_of p (ept_flags _4KB_ EPT_MTYPE_WB EPT_RW) x.
Proof.
  intros Hall Hr Hx. apply list_elem_of_fmap in Hr as (p & -> & Hp). exists p. split; [done |].
  apply ident_entry in Hx; [done | by eapply Forall_forall | done].
Qed.

Lemma page_region_entry p gpa x r :
  page_ok p -> r ∈ page_regions p -> r_walk _4KB_ r gpa = Some x ->
  entry_of p (ept_flags _4KB_ EPT_MTYPE_WB EPT_RW) x.
Proof.
  unfold page_regions. destruct (0 <? p); [|by intros _ []%not_elem_of_nil].
  intros Hp ->%list_elem_of_singleton Hx. by apply ident_entry in Hx.
Qed.

Lemma section_entry sec prot gpa x r :
  section_ok sec -> 0 < prot < 4096 -> r ∈ section_regions prot sec -> r_walk _4KB_ r gpa = Some x ->
  exists p, entry_of p (ept_flags _4KB_ EPT_MTYPE_WB prot) x /\ section_page sec p.
Proof.
  unfold section_regions. destruct (Z.ltb_spec 0 (s_size sec)); [|by intros _ _ []%not_elem_of_nil].
  intros Hs Hp ->%list_elem_of_singleton Hx. destruct (section_args prot sec) as (Ha & _); [done | done | done |].
  apply region_entry in Hx as (p & He & Hr); [|done]. exists p. split; [done |]. unfold section_page. lia.
Qed.

(** Every translation, with the page it leads to and its flags. *)
Lemma vm_regions_entry c info tables files gpa x :
  page_ok info -> Forall page_ok tables -> Forall page_ok (message_pages c) -> Forall section_ok (vm_sections c) ->
  (0 < vm_fds (vm_info c) -> page_ok (vm_fds (vm_info c))) -> Forall page_ok files ->
  page_ok (vm_channels (vm_info c)) ->
  overlay _4KB_ (vm_regions c info tables files) gpa = Some x ->
  exists p f, entry_of p f x /\
    (may_write c tables files p /\ (f = ept_flags _4KB_ EPT_MTYPE_UC EPT_RW \/ f = ept_flags _4KB_ EPT_MTYPE_WB EPT_RW) \/
     may_read c info p /\ f = ept_flags _4KB_ EPT_MTYPE_WB EPT_PAGE_READ \/
     section_page (vm_code (vm_info c)) p /\ f = ept_flags _4KB_ EPT_MTYPE_WB EPT_RX).
Proof.
  intros Hinfo Htab Hmsg Hsec Hfds Hfiles Hch (r & Hr & Hx)%overlay_in.
  unfold vm_sections in Hsec. cbv zeta in Hsec. rewrite !Forall_cons in Hsec. destruct Hsec as (X1 & X2 & X3 & X4 & X5 & _).
  unfold vm_regions in Hr. cbv zeta in Hr. rewrite !elem_of_app, !elem_of_cons in Hr. unfold may_write, may_read, device_page.
  destruct Hr as [[->|[->|Hr]]|[Hr|[[->|Hr]|[Hr|[Hr|[Hr|[Hr|[Hr|[Hr|[Hr|[Hr|[Hr|[->|Hr]]]]]]]]]]]]];
    try (by apply not_elem_of_nil in Hr).
  - apply region_entry in Hx as (p & He & Hp); [|by apply args_video]. exists p, (ept_flags _4KB_ EPT_MTYPE_UC EPT_RW).
    split; [done |]. left. split; [left; left | by left]. destruct He as [_ He].
    pose proof (Z.div_mod p 4096 ltac:(lia)). lia.
  - apply region_entry in Hx as (p & He & Hp); [|by apply args_apics]. eexists p, _. split; [done |]. left.
    split; [left; right; left; lia | by left].
  - eapply idents_entry in Hx as (p & Hp & He); [| |exact Hr]; [|done]. eexists p, _. split; [done |]. left. auto 12.
  - apply ident_entry in Hx; [|done | done]. eexists info, _. split; [done |]. right. left. auto 12.
  - eapply idents_entry in Hx as (p & Hp & He); [| |exact Hr]; [|done]. eexists p, _. split; [done |]. left. auto 12.
  - eapply section_entry in Hx as (p & He & Hp); [|exact X1 | |exact Hr]; [|done]. eexists p, _. split; [done |]. auto 12.
  - eapply section_entry in Hx as (p & He & Hp); [|exact X2 | |exact Hr]; [|done]. eexists p, _. split; [done |]. left. auto 12.
  - eapply section_entry in Hx as (p & He & Hp); [|exact X3 | |exact Hr]; [|done]. eexists p, _. split; [done |]. auto 12.
  - eapply section_entry in Hx as (p & He & Hp); [|exact X4 | |exact Hr]; [|done]. eexists p, _. split; [done |]. left. auto 12.
  - eapply section_entry in Hx as (p & He & Hp); [|exact X5 | |exact Hr]; [|done]. eexists p, _. split; [done |]. left. auto 14.
  - assert (0 < vm_fds (vm_info c)) as Hpos.
    { unfold page_regions in Hr. destruct (Z.ltb_spec 0 (vm_fds (vm_info c))); [done | by apply not_elem_of_nil in Hr]. }
    eapply page_region_entry in Hx; [|by apply Hfds | done]. eexists _, _. split; [done |]. left. auto 12.
  - eapply idents_entry in Hx as (p & Hp & He); [| |exact Hr]; [|done]. eexists p, _. split; [done |]. left. auto 12.
  - eapply page_region_entry in Hx; [|done | done]. eexists _, _. split; [done |]. left. auto 12.
  - apply region_entry in Hx as (p & He & Hp); [|by apply args_nic]. eexists p, _. split; [done |]. left.
    split; [left; right; right; lia | by left].
Qed.

Lemma entry_bit p f x i : entry_of p f x -> 0 <= f < 4096 -> 0 <= i < 12 ->
  Z.testbit x.1 i = Z.testbit f i /\ x.1 - x.1 mod 4096 = p.
Proof.
  intros [-> Hp] Hf Hi. simpl. split.
  - rewrite <-(lor_low_add p f 12) by (done || lia). by rewrite Z.lor_spec, (testbit_aligned p 12 i).
  - rewrite <-Zplus_mod_idemp_l, Hp, Z.add_0_l, (Z.mod_small f) by lia. lia.
Qed.


(** A descriptor of a regular file holds the file's offset in the image, not
    the address of a page: [ept_page], called for it when its owner executes
    another program, panics unless the offset is a multiple of 4096. *)
Lemma ept_page_unaligned id addr mtype prot s :
  0 <= addr -> addr + 4096 < 2 ^ 64 -> addr mod 4096 <> 0 ->
  ept_page id addr mtype prot s = Stop (Panic "Address is not 4KB aligned").
Proof.
  intros H0 H1 Hal. unfold ept_page, ept_vm. erewrite bind_step by done. rewrite w64_small by lia.
  unfold on_kmem, mbind, M_bind, zoom, ept_map_memory, check_region.
  destruct (Z.ltb_spec (addr + _4KB_) addr); [lia |]. destruct (Z.eqb_spec addr (addr + _4KB_)); [lia |].
  change (USER_VMS_PAGE_SIZE =? _4KB_) with true. unfold mbind, M_bind. cbv iota beta.
  change (_4KB_ - 1) with (2 ^ 12 - 1). rewrite land_low by lia. change (2 ^ 12) with 4096.
  by destruct (Z.eqb_spec (addr mod 4096) 0).
Qed.
