(* ===== verification/PmProc.v ===== *)
(** * The process manager: fork, exec, exit, waitpid (vms/pm/main.c) *)

From S2P Require Import Prelude PhysMem CString MemMgr Paging CpuInfo Ipc Channel Pm.

Abbreviation FORK_IPC := 1.
Abbreviation EXEC_IPC := 2.
Abbreviation EXIT_IPC := 3.
Abbreviation WAITPID_IPC := 4.
Abbreviation CHANNEL_IPC := 5.
Abbreviation CHANNEL_CLOSE_IPC := 6.
Abbreviation LOAD_IPC := 4.
Abbreviation MAX_ARGV := 16.
Abbreviation MAX_ARGV_LEN := 256.
Abbreviation REGS_SIZE := 216.

(** ** Fork *)

(** A private copy of one of the parent's sections. *)
Definition copy_section (x : section) : M pm_state section :=
  p ← alloc_pages (pages (s_size x) USER_VMS_PAGE_SIZE);
  poke (fun m => memcpy m p (s_paddr x) (s_size x)) ;;
  mret (Sec p (s_vaddr x) (s_size x)).

(** A section the child may share: one more reference to the parent's block,
    or a copy when the block does not belong to the allocator. *)
Definition share_section (x : section) : M pm_state section :=
  s ← get;
  if reallocable (s_paddr x) (p_mm s) then
    p ← on_kmem (on_mm (realloc_mem_block (s_paddr x)));
    mret (Sec p (s_vaddr x) (s_size x))
  else copy_section x.

(** New channels for the character devices the child inherits. *)
Definition fork_fds (child_id parent_fds child_fds : Z) : M pm_state unit :=
  poke (fun m => memcpy m child_fds parent_fds (MAX_FD * FD_SIZE)) ;;
  forM (seqZ 0 MAX_FD) (fun i =>
    m ← gets p_mem;
    when (fd_type m child_fds i =? TYPE_CHAR)
      (c ← cpu child_id;
       channel ← local_channel (cpuid c) (fd_dst m child_fds i);
       poke (set_fd_offset child_fds i channel))).

(** The sections of the parent [pvm] but the stack. *)
Definition fork_sections (child : Z) (pvm : vm_proc) : M pm_state section :=
  code ← share_section (vm_code pvm);
  set_vm child (set_vm_code code) ;;
  data ← copy_section (vm_data pvm);
  set_vm child (set_vm_data data) ;;
  rodata ← share_section (vm_rodata pvm);
  set_vm child (set_vm_rodata rodata) ;;
  bss ← copy_section (vm_bss pvm);
  set_vm child (set_vm_bss bss) ;;
  mret bss.

(** Of the stack only the part in use is copied; the result is the child's
    [struct cpu_info]. *)
Definition fork_stack (child : Z) (pc : cpu_info) (register_array_paddr : Z) : M pm_state cpu_info :=
  let pvm := vm_info pc in
  stack ← alloc_pages (pages (s_size (vm_stack pvm)) USER_VMS_PAGE_SIZE);
  set_vm child (set_vm_stack (Sec stack (s_vaddr (vm_stack pvm)) (s_size (vm_stack pvm)))) ;;
  m ← gets p_mem;
  let rsp := rg_rsp (load_regs m register_array_paddr) in
  cc ← cpu child;
  child_rsp ← virt2phys cc rsp;
  parent_rsp ← virt2phys pc rsp;
  if child_rsp =? 0 then panic "virt2phys failed for child stack" else
  if parent_rsp =? 0 then panic "virt2phys failed for parent stack" else
  poke (fun m => memcpy m child_rsp parent_rsp
    (w64 (s_vaddr (vm_stack pvm) + s_size (vm_stack pvm) - rsp))) ;;
  mret cc.

(** Descriptors for a program, channels for a driver. *)
Definition fork_tables (child : Z) (cc : cpu_info) : M pm_state unit :=
  when (negb (is_driver (cpuid cc)))
    (p ← on_kmem (alloc_clean_mem_pages (pages (MAX_FD * FD_SIZE) USER_VMS_PAGE_SIZE));
     set_vm child (set_vm_fds p)) ;;
  when (is_driver (cpuid cc))
    (p ← on_kmem (alloc_clean_mem_pages (pages (MAX_CHANNELS * 8) USER_VMS_PAGE_SIZE));
     set_vm child (set_vm_channels p)).

(** The child's registers, and its pointer to its own [struct cpu_info]. *)
Definition fork_regs (child : Z) (pc : cpu_info) (bss_paddr cpuinfo_vaddr register_array_paddr : Z) : M pm_state unit :=
  m ← gets p_mem;
  set_vm child (set_vm_regs (load_regs m register_array_paddr)) ;;
  p ← virt2phys pc cpuinfo_vaddr;
  let offset := w64 (p - s_paddr (vm_bss (vm_info pc))) in
  s ← get;
  poke (fun m => store64 m (w64 (bss_paddr + offset)) (cpu_addr child s)) ;;
  set_vm child (fun v => set_vm_regs (set_rg_rax 0 (vm_regs v)) v).

(** [local_fork] once a free CPU is taken: build the child's VM. *)
Definition fork_vm (child parent_id cpuinfo_vaddr register_array_paddr : Z) : M pm_state unit :=
  pp ← get_cpu_info parent_id;
  parent ← deref pp;
  set_vm child (set_vm_parent (s32 parent_id)) ;;
  set_vm child (set_vm_state RUNNING) ;;
  pc ← cpu parent;
  let pvm := vm_info pc in
  set_vm child (fun v => set_vm_start_vaddr (vm_start_vaddr pvm)
    (set_vm_start_paddr (vm_start_paddr pvm) (set_vm_end_vaddr (vm_end_vaddr pvm)
    (set_vm_end_paddr (vm_end_paddr pvm) v)))) ;;
  bss ← fork_sections child pvm;
  cc ← fork_stack child pc register_array_paddr;
  fork_tables child cc ;;
  ept_pmap child ;;
  cc ← cpu child;
  when (negb (vm_fds (vm_info cc) =? 0) && negb (vm_fds pvm =? 0))
    (fork_fds child (vm_fds pvm) (vm_fds (vm_info cc))) ;;
  fork_regs child pc (s_paddr bss) cpuinfo_vaddr register_array_paddr.

(** [fork_args] are the fields of [struct fork_ipc]; the result is the
    child's pid or -1. *)
Definition local_fork (info : option Z) (cpuinfo_vaddr register_array_paddr : Z) : M pm_state Z :=
  match info with
  | None => mret (-1)
  | Some info =>
      caller ← cpu info;
      let parent_id := cpuid caller in
      free ← find_free_vm;
      match free with
      | None => mret (-1)
      | Some child =>
          set_cpu child (set_vmm_has_vm true) ;;
          fork_vm child parent_id cpuinfo_vaddr register_array_paddr ;;
          cc ← cpu child;
          mret (cpuid cc)
      end
  end.

(** ** Exec *)

(** The fields of [Elf64_Ehdr] and [Elf64_Phdr] the loader reads. *)
Definition e_phoff (m : memory) (elf : Z) : Z := load64 m (elf + 32).
Definition e_phnum (m : memory) (elf : Z) : Z := load 2 m (elf + 56).
Definition p_offset (m : memory) (s : Z) : Z := load64 m (s + 8).
Definition p_vaddr (m : memory) (s : Z) : Z := load64 m (s + 16).
Definition p_memsz (m : memory) (s : Z) : Z := load64 m (s + 40).
Abbreviation PHDR_SIZE := 56.

(** The loop over the first three program headers: code, data, rodata. *)
Fixpoint load_sections (is_ : list Z) (id elf s : Z) : M pm_state Z :=
  match is_ with
  | [] => mret s
  | i :: rest =>
      m ← gets p_mem;
      let section_src_paddr := w64 (elf + p_offset m s) in
      let section_size := p_memsz m s in
      section_dst_paddr ←
        (if 0 <? section_size then alloc_pages (pages section_size USER_VMS_PAGE_SIZE) else mret 0);
      let x := Sec section_dst_paddr (p_vaddr m s) section_size in
      (if i =? 0 then
         if section_size =? 0 then panic "VM without code section" else
         set_vm id (fun v => set_vm_regs (set_rg_rip (vm_start_vaddr v) (vm_regs v))
           (set_vm_code x (set_vm_start_paddr section_dst_paddr v)))
       else if i =? 1 then set_vm id (set_vm_data x)
       else set_vm id (set_vm_rodata x)) ;;
      when (0 <? section_size)
        (poke (fun m => memcpy m section_dst_paddr section_src_paddr section_size)) ;;
      load_sections rest id elf (s + PHDR_SIZE)
  end.

Definition free_if (paddr : Z) : M pm_state unit :=
  when (negb (paddr =? 0)) (free_pages paddr).

Definition load_elf (id elf : Z) : M pm_state unit :=
  old ← cpu id;
  let ovm := vm_info old in
  m ← gets p_mem;
  let ph_num := e_phnum m elf in
  if negb (ph_num =? 4) then panic "Unexpected VM Header" else
  let s := w64 (elf + e_phoff m elf) in
  set_vm id (set_vm_start_vaddr (p_vaddr m s)) ;;
  s ← load_sections (seqZ 0 (ph_num - 1)) id elf s;
  (* the last header is bss *)
  m ← gets p_mem;
  let bss_vaddr := p_vaddr m s in
  let bss_size := p_memsz m s in
  set_vm id (fun v => set_vm_bss (Sec (s_paddr (vm_bss v)) bss_vaddr (s_size (vm_bss v))) v) ;;
  when (0 <? bss_size)
    (p ← alloc_pages (pages bss_size USER_VMS_PAGE_SIZE);
     set_vm id (set_vm_bss (Sec p bss_vaddr bss_size)) ;;
     poke (fun m => memset m p 0 bss_size)) ;;
  m ← gets p_mem;
  let stack_vaddr := ALIGN (w64 (p_vaddr m s + p_memsz m s)) USER_VMS_PAGE_SIZE in
  stack ← alloc_pages (pages _2MB_ USER_VMS_PAGE_SIZE);
  set_vm id (set_vm_stack (Sec stack stack_vaddr _2MB_)) ;;
  set_vm id (fun v => set_vm_regs
    (set_rg_rflags 2 (set_rg_rsp (w64 (stack_vaddr + _2MB_)) (vm_regs v))) v) ;;
  (* the comparison of the two end addresses compares equal expressions *)
  set_vm id (fun v =>
    let vm_size := w64 (stack + _2MB_ - vm_start_paddr v) in
    set_vm_end_paddr (w64 (vm_start_paddr v + vm_size))
      (set_vm_end_vaddr (w64 (vm_start_vaddr v + vm_size)) v)) ;;
  free_if (s_paddr (vm_code ovm)) ;;
  free_if (s_paddr (vm_data ovm)) ;;
  free_if (s_paddr (vm_rodata ovm)) ;;
  free_if (s_paddr (vm_bss ovm)) ;;
  free_if (s_paddr (vm_stack ovm)) ;;
  on_kmem (free_page_tables (vm_page_tables ovm)) ;;
  on_kmem (free_page_tables (vm_ept ovm)).

(** String operations on physical memory. *)
Definition str_copy (dest src : Z) : M pm_state unit :=
  m ← gets p_mem;
  m' ← of_option Diverge (strcpy m dest src);
  poke (fun _ => m').
Definition str_len (src : Z) : M pm_state Z :=
  m ← gets p_mem;
  of_option Diverge (strlen m src).

(** [for (i = 1; i < MAX_ARGV; i++)]: save the caller's arguments; the result
    is the number of arguments. *)
Fixpoint save_args (n : nat) (info : cpu_info) (args i : Z) : M pm_state Z :=
  match n with
  | O => mret i
  | S n' =>
      s ← get;
      if (args =? 0) || (load64 (p_mem s) (args + 8 * (i - 1)) =? 0) then mret i else
      p ← virt2phys info (load64 (p_mem s) (args + 8 * (i - 1)));
      str_copy (arg_vector s + MAX_ARGV_LEN * i) p ;;
      save_args n' info args (i + 1)
  end.

(** Push the saved arguments on the new stack, first argument first. *)
Fixpoint push_args (is_ : list Z) (stack_phys stack_virt : Z) : M pm_state (Z * Z) :=
  match is_ with
  | [] => mret (stack_phys, stack_virt)
  | i :: rest =>
      s ← get;
      let arg := arg_vector s + MAX_ARGV_LEN * i in
      len ← str_len arg;
      let stack_phys := w64 (stack_phys - (len + 1)) in
      let stack_virt := w64 (stack_virt - (len + 1)) in
      poke (fun m => store64 m (argv_ptr s + 8 * i) stack_virt) ;;
      str_copy stack_phys arg ;;
      push_args rest stack_phys stack_virt
  end.

(** [exec_args]: path at 0 (32 bytes), argv at 32, register area at 40. *)
Definition local_exec (info : option Z) (exec_args : Z) : M pm_state Z :=
  (* [sizeof(char * )] bytes of the path are sent *)
  m ← gets p_mem;
  on_machine (msg_send FS LOAD_IPC (get_bytes m exec_args 8)) ;;
  on_machine (msg_receive FS) ;;
  s ← get;
  let elf := load64 (p_mem s) (msg_data (inbox (p_m s) FS)) in
  let argv := load64 (p_mem s) (exec_args + 32) in
  let registers := load64 (p_mem s) (exec_args + 40) in
  id ← deref info;
  if elf =? 0 then
    set_vm id (set_vm_regs (load_regs (p_mem s) registers)) ;;
    mret (-1)
  else
  str_copy (arg_vector s) exec_args ;;
  caller ← cpu id;
  argc ← save_args (Z.to_nat (MAX_ARGV - 1)) caller argv 1;
  load_elf id elf ;;
  ept_pmap id ;;
  c ← cpu id;
  let rsp := rg_rsp (vm_regs (vm_info c)) in
  top ← virt2phys c rsp;
  r ← push_args (seqZ 0 argc) top rsp;
  let '(stack_phys_off, stack_virt_off) := r in
  let argv_virt_ptr := w64 (stack_virt_off - argc * 8) in
  let argv_phys_ptr := w64 (stack_phys_off - argc * 8) in
  forM (seqZ 0 argc) (fun i =>
    s ← get;
    poke (fun m => store64 m (argv_phys_ptr + 8 * i) (load64 m (argv_ptr s + 8 * i)))) ;;
  s ← get;
  set_vm id (fun v => set_vm_regs
    (set_rg_rsi argv_virt_ptr (set_rg_rdi argc (set_rg_rdx (cpu_addr id s)
       (set_rg_rsp (w64 (argv_virt_ptr - 8)) (vm_regs v))))) v) ;;
  mret 0.

(** ** Exit and waitpid *)

Definition close_channel (fd from : Z) : M pm_state Z :=
  p ← get_cpu_info from;
  id ← deref p;
  c ← cpu id;
  m ← gets p_mem;
  let fds := vm_fds (vm_info c) in
  let cnl := fd_offset m fds fd in
  poke (fun m => put_bytes m (cnl_data cnl) (u64_bytes CLOSE_CHANNEL)) ;;
  on_machine (cnl_send cnl) ;;
  on_machine (cnl_receive cnl) ;;
  local_channel_close cnl ;;
  c ← cpu id;
  poke (set_fd_offset (vm_fds (vm_info c)) fd 0) ;;
  let dst := if fd =? 0 then KBD else if fd =? 1 then CONSOLE else JUNK in
  on_machine (msg_reply FS dst CHANNEL_CLOSE_IPC (int_bytes 0)) ;;
  mret 0.

(** [local_exit], first part: give back everything the VM holds; the result
    is the parent's CPU. *)
Definition exit_release (id : Z) : M pm_state Z :=
  c ← cpu id;
  let vm := vm_info c in
  free_if (s_paddr (vm_code vm)) ;;
  free_if (s_paddr (vm_data vm)) ;;
  free_if (s_paddr (vm_rodata vm)) ;;
  free_if (s_paddr (vm_bss vm)) ;;
  free_if (s_paddr (vm_stack vm)) ;;
  on_kmem (free_page_tables (vm_page_tables vm)) ;;
  on_kmem (free_page_tables (vm_ept vm)) ;;
  pp ← get_cpu_info (vm_parent vm);
  match pp with
  | None => panic "local_exit: failed to get cpu information"
  | Some parent =>
      when (negb (vm_fds vm =? 0))
        (forM (seqZ 0 MAX_FD) (fun i =>
           m ← gets p_mem;
           when (fd_type m (vm_fds vm) i =? TYPE_CHAR)
             (close_channel i (cpuid c) ;; mret tt)) ;;
         free_pages (vm_fds vm) ;;
         set_vm id (set_vm_fds 0)) ;;
      when (negb (vm_channels vm =? 0))
        (free_pages (vm_channels vm) ;; set_vm id (set_vm_channels 0)) ;;
      mret parent
  end.

Definition local_exit (info : option Z) (status : Z) : M pm_state unit :=
  match info with
  | None => stop_with Halt
  | Some id =>
      parent ← exit_release id;
      c ← cpu id;
      pc ← cpu parent;
      if vm_state (vm_info pc) =? WAIT_CHLD then
        set_cpu id (set_vmm_has_vm false) ;;
        on_machine (msg_reply PM (cpuid pc) WAITPID_IPC (int_bytes (cpuid c) ++ int_bytes status))
      else set_vm id (set_vm_exit_status status)
  end.

(** [for (i = ALWAYS_BUSY; i < MAX_CPUS; i++)]: an exited child of [parent]. *)
Fixpoint find_zombie (is_ : list Z) (parent : Z) : M pm_state (option Z) :=
  match is_ with
  | [] => mret None
  | i :: rest =>
      p ← get_cpu_info i;
      match p with
      | None => panic "Failed to get cpu information"
      | Some id =>
          c ← cpu id;
          if (vm_parent (vm_info c) =? parent) && (vm_state (vm_info c) =? ZOMBIE)
          then mret (Some id) else find_zombie rest parent
      end
  end.

(** The reply: pid and status; the status is [None] where the code leaves it
    unset. *)
Definition local_waitpid (info : option Z) (wait_for : Z) : M pm_state (Z * option Z) :=
  match info with
  | None => stop_with Halt
  | Some id =>
      c ← cpu id;
      if (wait_for <? -1) || (MAX_CPUS <? wait_for) then mret (-1, None) else
      child ←
        (if negb (wait_for =? -1) then
           p ← get_cpu_info wait_for;
           match p with
           | None => mret (inl (-1))
           | Some ch =>
               cc ← cpu ch;
               if negb (cpuid c =? vm_parent (vm_info cc)) then mret (inl (-1)) else
               mret (inr (if negb (vm_state (vm_info cc) =? ZOMBIE) then None else Some ch))
           end
         else
           z ← find_zombie (seqZ ALWAYS_BUSY (MAX_CPUS - ALWAYS_BUSY)) (cpuid c);
           mret (inr z));
      match child with
      | inl e => mret (e, None)
      | inr (Some ch) =>
          cc ← cpu ch;
          set_cpu ch (set_vmm_has_vm false) ;;
          mret (cpuid cc, Some (vm_exit_status (vm_info cc)))
      | inr None =>
          set_vm id (set_vm_state WAIT_CHLD) ;;
          mret (0, None)
      end
  end.

(** ** The server loop *)

(** [vm_main] up to the loop: the interrupt set-up touches only the CPU. *)
Definition pm_start (junk : Z -> block_node) : M pm_state unit :=
  pm_init junk ;;
  me ← my_cpu;
  forM (seqZ 1 (ncpus me - 1)) (fun i => on_machine (msg_reply PM i 1 [])).

(** [msg_reply (PM, m->from, number, data, size)] *)
Definition reply_to (msg number : Z) (data : list Z) : M pm_state unit :=
  m ← gets p_mem;
  on_machine (msg_reply PM (s32 (msg_from m msg)) number data).

(** The body of the [switch]: serve the request at [msg] and reply. *)
Definition pm_serve (msg : Z) : M pm_state unit :=
  m ← gets p_mem;
  let number := msg_number m msg in
  let data := msg_data msg in
  info ← get_cpu_info (msg_from m msg);
  if number =? FORK_IPC then
    r ← local_fork info (load64 m data) (load64 m (data + 8));
    when (negb (r =? -1)) (on_machine (msg_reply PM r FORK_IPC (int_bytes r))) ;;
    reply_to msg FORK_IPC (int_bytes r)
  else if number =? EXEC_IPC then
    r ← local_exec info data;
    reply_to msg EXEC_IPC (int_bytes r)
  else if number =? EXIT_IPC then
    local_exit info (load_int m data)
  else if number =? WAITPID_IPC then
    r ← local_waitpid info (load_int m data);
    stale ← gets p_stale;
    when (negb (r.1 =? 0))
      (reply_to msg WAITPID_IPC (int_bytes r.1 ++ int_bytes (default stale r.2)))
  else if number =? CHANNEL_IPC then
    channel ← local_channel (load64 m data) (load64 m (data + 8));
    reply_to msg CHANNEL_IPC (u64_bytes channel)
  else if number =? CHANNEL_CLOSE_IPC then
    local_channel_close (load64 m data) ;;
    reply_to msg CHANNEL_CLOSE_IPC (int_bytes 0)
  else reply_to msg (s32 number) (int_bytes (-1)).

(** One iteration of [while (1)]. *)
Definition pm_iteration : M pm_state unit :=
  msg ← on_machine msg_check;
  pm_serve msg.
