(* ===== verification/PmFrame.v ===== *)
(** * What the library and the page code leave alone

    Message passing and channels never touch the CPU table, and allocator and
    page-table code never touch it either; what the process manager's
    handlers preserve is proved from these facts by [preserve]. *)

From S2P Require Import Prelude PhysMem MemMgr Paging CpuInfo Ipc Channel Pm PmProc.

(** The parts of the machine a program reads but library calls do not write. *)
Definition cpus_are (C : gmap Z cpu_info) (pool me : Z) (s : machine) : Prop :=
  m_cpus s = C /\ m_pool s = pool /\ m_self s = me.

Section Machine.
Context (C : gmap Z cpu_info) (pool me : Z).
Abbreviation keeps := (preserves (cpus_are C pool me)).

Lemma keeps_update_mem f : keeps (update_mem f).
Proof. by apply pres_modify. Qed.
Lemma keeps_recv v : keeps (modify (set_m_recv v)).
Proof. by apply pres_modify. Qed.
Lemma keeps_cnl v : keeps (modify (set_m_cnl v)).
Proof. by apply pres_modify. Qed.
Lemma keeps_world : keeps step_world.
Proof. intros s Hs. unfold step_world, post. by destruct (m_world s). Qed.
Lemma keeps_poll_step {A} n (try : M machine (option A)) : keeps try -> keeps (poll n try).
Proof.
  intros H. induction n as [|n IH]; cbn [poll]; (apply pres_bind; [done | intros [a|]]);
    [apply pres_ret | apply pres_stop | apply pres_ret |].
  apply pres_bind; [apply keeps_world | done].
Qed.
#[local] Hint Resolve keeps_update_mem keeps_recv keeps_cnl keeps_world : preserves.

Lemma keeps_poll_until {A} (try : M machine (option A)) : keeps try -> keeps (poll_until try).
Proof. intros H. apply pres_bind; [apply pres_gets | intros n; by apply keeps_poll_step]. Qed.

Lemma keeps_set_bit a i : keeps (set_bit a i).
Proof. unfold set_bit. preserve. Qed.
Lemma keeps_clear_bit a i : keeps (clear_bit a i).
Proof. unfold clear_bit. preserve. Qed.
Lemma keeps_check_bit a i : keeps (check_bit a i).
Proof. unfold check_bit. preserve. Qed.
#[local] Hint Resolve keeps_set_bit keeps_clear_bit keeps_check_bit : preserves.

Lemma keeps_msg_send to number data : keeps (msg_send to number data).
Proof. unfold msg_send. preserve. Qed.
Lemma keeps_msg_reply from to number data : keeps (msg_reply from to number data).
Proof. unfold msg_reply. preserve. Qed.
Lemma keeps_take_box i : keeps (take_box i).
Proof. unfold take_box. preserve. Qed.
#[local] Hint Resolve keeps_take_box : preserves.
Lemma keeps_scan_boxes n : keeps (scan_boxes n).
Proof. induction n; cbn [scan_boxes]; preserve. Qed.
#[local] Hint Resolve keeps_scan_boxes : preserves.
Lemma keeps_msg_receive from : keeps (msg_receive from).
Proof.
  assert (Hany : forall n, keeps (receive_any n)) by (intros n; unfold receive_any; preserve).
  assert (Hone : keeps (found ← take_box from; mret (if (found : bool) then Some from else None)))
    by preserve.
  unfold msg_receive. apply pres_bind; [apply pres_get | intros s]. cbn zeta.
  destruct (from =? ANY); by apply keeps_poll_until.
Qed.
Lemma keeps_first_ready n a i : keeps (first_ready n a i).
Proof. revert i. induction n; cbn [first_ready]; preserve. Qed.
#[local] Hint Resolve keeps_first_ready : preserves.
Lemma keeps_msg_check : keeps msg_check.
Proof.
  unfold msg_check. apply pres_bind; [apply pres_get | intros s]. destruct (negb _); [apply pres_ret |].
  cbn zeta. apply pres_bind; [apply keeps_poll_until; preserve | intros []]. preserve.
Qed.
Lemma keeps_cnl_send c : keeps (cnl_send c).
Proof. unfold cnl_send. preserve. Qed.
Lemma keeps_cnl_reply c v : keeps (cnl_reply c v).
Proof. unfold cnl_reply. preserve. Qed.
Lemma keeps_cnl_receive c : keeps (cnl_receive c).
Proof.
  unfold cnl_receive. destruct (c =? 0); [apply pres_stop |]. apply keeps_poll_until. preserve.
Qed.
Lemma keeps_scan_channels n : keeps (scan_channels n).
Proof. induction n; cbn [scan_channels]; preserve. Qed.
#[local] Hint Resolve keeps_scan_channels : preserves.
Lemma keeps_cnl_receive_any : keeps cnl_receive_any.
Proof.
  unfold cnl_receive_any. apply pres_bind; [apply pres_get | intros s].
  destruct (negb _); [apply pres_stop |]. apply keeps_poll_until. unfold channels_round. preserve.
Qed.
End Machine.
#[export] Hint Resolve keeps_update_mem keeps_msg_send keeps_msg_reply keeps_msg_receive
  keeps_msg_check keeps_cnl_send keeps_cnl_reply keeps_cnl_receive keeps_cnl_receive_any : preserves.

(** ** Handlers of the process manager

    A property of the VM records alone, kept by every update the handlers make. *)
Section Handlers.
Context (P : Z -> cpu_info -> Prop) (me : Z).

Definition all_cpus (s : pm_state) : Prop :=
  m_self (p_m s) = me /\ forall id, P id (cpu_at (p_m s) id).

Lemma pres_on_kmem {A} (m : M kmem A) : preserves all_cpus (on_kmem m).
Proof. apply (pres_zoom _ (fun _ => True)); [by intros s _; apply wlp_intro | done | done]. Qed.

Lemma pres_on_machine {A} (m : M machine A) :
  (forall C pool me, preserves (cpus_are C pool me) m) -> preserves all_cpus (on_machine m).
Proof.
  intros H s [Hme Hs]. apply post_zoom.
  eapply post_mono; [by apply (H (m_cpus (p_m s)) (m_pool (p_m s)) (m_self (p_m s))) |].
  intros a t _ (Hc & _ & Ht). split; [by rewrite <-Hme |]. intros id. unfold cpu_at. simpl. rewrite Hc. apply Hs.
Qed.

Lemma pres_set_cpu id f :
  (forall s, all_cpus s -> P id (f (cpu_at (p_m s) id))) -> preserves all_cpus (set_cpu id f).
Proof.
  intros H s Hs. split; [apply Hs |]. intros id'. unfold cpu_at. simpl. rewrite lookup_insert.
  case_decide as E; [subst id'; by apply H |]. apply Hs.
Qed.

Lemma pres_poke f : preserves all_cpus (poke f).
Proof. apply pres_on_machine. intros. apply keeps_update_mem. Qed.
End Handlers.

(** ** The handlers, one by one

    [P] is a property of CPU records that survives the updates of [vm_info]
    the handlers make.  The state of a VM changes only to [RUNNING] and
    [WAIT_CHLD], in fork and waitpid; lemmas about the other handlers do not
    use [Hstate], and only exit, waitpid and the entry of fork use [Hhas]. *)

Section Frame.
Context (P : Z -> cpu_info -> Prop) (me : Z).
Context (Hvm : forall id c v, P id c -> vm_state v = vm_state (vm_info c) -> P id (set_vm_info v c)).
Context (Hstate : forall id c v, P id c -> vm_state v = RUNNING \/ vm_state v = WAIT_CHLD ->
  P id (set_vm_info v c)).
Context (Hhas : forall id c b, P id c -> P id (set_vmm_has_vm b c)).
Abbreviation ok := (preserves (all_cpus P me)).

Lemma ok_has_vm id b : ok (set_cpu id (set_vmm_has_vm b)).
Proof. apply pres_set_cpu. intros s Hs. apply Hhas, Hs. Qed.
Lemma ok_set_vm id f : (forall v, vm_state (f v) = vm_state v) -> ok (set_vm id f).
Proof. intros Hf. apply pres_set_cpu. intros s Hs. apply Hvm; [apply Hs | apply Hf]. Qed.
Lemma ok_set_state id f :
  (forall v, vm_state (f v) = RUNNING \/ vm_state (f v) = WAIT_CHLD) -> ok (set_vm id f).
Proof. intros Hf. apply pres_set_cpu. intros s Hs. apply Hstate; [apply Hs | apply Hf]. Qed.
Lemma ok_args (f : pm_state -> pm_state) : (forall s, p_m (f s) = p_m s) -> ok (modify f).
Proof. intros H. apply pres_modify. intros s [Hme Hs]. split; [by rewrite H |]. intros id. rewrite H. apply Hs. Qed.

Ltac settle :=
  first [ apply pres_on_kmem | apply pres_poke | apply ok_has_vm
        | apply ok_set_vm; intros v; reflexivity
        | apply ok_set_state; intros v; (by left) || (by right)
        | apply ok_args; done
        | apply pres_on_machine; intros; eauto 2 with preserves nocore ].
#[local] Hint Extern 2 (preserves (all_cpus P me) (on_kmem _)) => settle : preserves.
#[local] Hint Extern 2 (preserves (all_cpus P me) (on_machine _)) => settle : preserves.
#[local] Hint Extern 2 (preserves (all_cpus P me) (poke _)) => settle : preserves.
#[local] Hint Extern 2 (preserves (all_cpus P me) (set_cpu _ _)) => settle : preserves.
#[local] Hint Extern 2 (preserves (all_cpus P me) (set_vm _ _)) => settle : preserves.
#[local] Hint Extern 2 (preserves (all_cpus P me) (modify _)) => settle : preserves.
#[local] Hint Extern 2 (preserves (all_cpus P me) (alloc_pages _)) => apply pres_on_kmem : preserves.
#[local] Hint Extern 2 (preserves (all_cpus P me) (free_pages _)) => apply pres_on_kmem : preserves.
#[local] Hint Extern 2 (preserves (all_cpus P me) (cpu _)) => apply pres_gets : preserves.
#[local] Hint Extern 2 (preserves (all_cpus P me) my_cpu) => apply pres_gets : preserves.
#[local] Hint Extern 2 (preserves (all_cpus P me) (deref _)) => apply pres_option : preserves.
Lemma ok_get_cpu_info id : ok (get_cpu_info id).
Proof. unfold get_cpu_info. preserve. Qed.
Lemma ok_virt2phys c va : ok (virt2phys c va).
Proof. unfold virt2phys. preserve. Qed.
#[local] Hint Resolve ok_get_cpu_info ok_virt2phys : preserves.

Lemma ok_ept_vm id a b c d e f g : ok (ept_vm id a b c d e f g).
Proof. unfold ept_vm. preserve. Qed.
Lemma ok_map_vm id a b c d e f : ok (map_vm id a b c d e f).
Proof. unfold map_vm. preserve. Qed.
#[local] Hint Resolve ok_ept_vm ok_map_vm : preserves.
Lemma ok_ept_page id a b c : ok (ept_page id a b c).
Proof. unfold ept_page. preserve. Qed.
#[local] Hint Resolve ok_ept_page : preserves.
Lemma ok_ept_section id x p : ok (ept_section id x p).
Proof. unfold ept_section. preserve. Qed.
Lemma ok_ept_fds id : ok (ept_fds id).
Proof. unfold ept_fds. preserve. Qed.
#[local] Hint Resolve ok_ept_section ok_ept_fds : preserves.
Lemma ok_ept_pmap id : ok (ept_pmap id).
Proof. unfold ept_pmap. preserve. Qed.

Lemma ok_shift n c k : ok (shift_channels n c k).
Proof. revert k. induction n; cbn [shift_channels]; preserve. Qed.
#[local] Hint Resolve ok_shift : preserves.
Lemma ok_remove_from_list js c ch b : ok (remove_from_list js c ch b).
Proof. revert b. induction js; intros b; cbn [remove_from_list]; preserve. Qed.
#[local] Hint Resolve ok_remove_from_list : preserves.
Lemma ok_remove_from_all js ch b : ok (remove_from_all js ch b).
Proof. revert b. induction js; intros b; cbn [remove_from_all]; preserve. Qed.
#[local] Hint Resolve ok_remove_from_all : preserves.
Lemma ok_remove_channel_list ch : ok (remove_channel_list ch).
Proof. unfold remove_channel_list. preserve. Qed.
Lemma ok_add_to_list l c ch : ok (add_to_list l c ch).
Proof. induction l; cbn [add_to_list]; preserve. Qed.
#[local] Hint Resolve ok_remove_channel_list ok_add_to_list : preserves.
Lemma ok_add_channel_list id ch : ok (add_channel_list id ch).
Proof. unfold add_channel_list. preserve. Qed.
#[local] Hint Resolve ok_add_channel_list : preserves.
Lemma ok_local_channel a b : ok (local_channel a b).
Proof. unfold local_channel. preserve. Qed.
Lemma ok_local_channel_close ch : ok (local_channel_close ch).
Proof. unfold local_channel_close. preserve. Qed.
#[local] Hint Resolve ok_local_channel ok_local_channel_close ok_ept_pmap : preserves.

Lemma ok_find_free_loop n i : ok (find_free_loop n i).
Proof. revert i. induction n; cbn [find_free_loop]; preserve. Qed.
#[local] Hint Resolve ok_find_free_loop : preserves.
Lemma ok_find_free_vm : ok find_free_vm.
Proof. unfold find_free_vm. preserve. Qed.
Lemma ok_copy_section x : ok (copy_section x).
Proof. unfold copy_section. preserve. Qed.
#[local] Hint Resolve ok_find_free_vm ok_copy_section : preserves.
Lemma ok_share_section x : ok (share_section x).
Proof. unfold share_section. preserve. Qed.
Lemma ok_fork_fds a b c : ok (fork_fds a b c).
Proof. unfold fork_fds. preserve. Qed.
#[local] Hint Resolve ok_share_section ok_fork_fds : preserves.
Lemma ok_fork_sections a b : ok (fork_sections a b).
Proof. unfold fork_sections. preserve. Qed.
Lemma ok_fork_stack a b c : ok (fork_stack a b c).
Proof. unfold fork_stack. preserve. Qed.
Lemma ok_fork_tables a b : ok (fork_tables a b).
Proof. unfold fork_tables. preserve. Qed.
Lemma ok_fork_regs a b c d e : ok (fork_regs a b c d e).
Proof. unfold fork_regs. preserve. Qed.
#[local] Hint Resolve ok_fork_sections ok_fork_stack ok_fork_tables ok_fork_regs : preserves.
Lemma ok_fork_vm a b c d : ok (fork_vm a b c d).
Proof. unfold fork_vm. preserve. Qed.
#[local] Hint Resolve ok_fork_vm : preserves.
Lemma ok_local_fork info a b : ok (local_fork info a b).
Proof. unfold local_fork. preserve. Qed.

Lemma ok_load_sections l id elf s : ok (load_sections l id elf s).
Proof. revert s. induction l; intros s; cbn [load_sections]; preserve. Qed.
Lemma ok_free_if p : ok (free_if p).
Proof. unfold free_if. preserve. Qed.
#[local] Hint Resolve ok_load_sections ok_free_if : preserves.
Lemma ok_load_elf id elf : ok (load_elf id elf).
Proof. unfold load_elf. preserve. Qed.
Lemma ok_str_copy a b : ok (str_copy a b).
Proof. unfold str_copy. preserve. Qed.
Lemma ok_str_len a : ok (str_len a).
Proof. unfold str_len. preserve. Qed.
#[local] Hint Resolve ok_load_elf ok_str_copy ok_str_len : preserves.
Lemma ok_save_args n c a i : ok (save_args n c a i).
Proof. revert i. induction n; intros i; cbn [save_args]; preserve. Qed.
Lemma ok_push_args l a b : ok (push_args l a b).
Proof. revert a b. induction l; intros x y; cbn [push_args]; preserve. Qed.
#[local] Hint Resolve ok_save_args ok_push_args : preserves.
Lemma ok_local_exec info a : ok (local_exec info a).
Proof. unfold local_exec. preserve. Qed.

Lemma ok_close_channel fd from : ok (close_channel fd from).
Proof. unfold close_channel. preserve. Qed.
#[local] Hint Resolve ok_close_channel : preserves.
Lemma ok_exit_release id : ok (exit_release id).
Proof. unfold exit_release. preserve. Qed.
#[local] Hint Resolve ok_exit_release : preserves.
Lemma ok_local_exit info st : ok (local_exit info st).
Proof. unfold local_exit. preserve. Qed.
Lemma ok_find_zombie l p : ok (find_zombie l p).
Proof. induction l; cbn [find_zombie]; preserve. Qed.
#[local] Hint Resolve ok_find_zombie : preserves.
Lemma ok_local_waitpid info w : ok (local_waitpid info w).
Proof. unfold local_waitpid. preserve. Qed.
#[local] Hint Resolve ok_local_fork ok_local_exec ok_local_exit ok_local_waitpid : preserves.
Lemma ok_reply_to a b c : ok (reply_to a b c).
Proof. unfold reply_to. preserve. Qed.
#[local] Hint Resolve ok_reply_to : preserves.
Lemma ok_pm_serve a : ok (pm_serve a).
Proof. unfold pm_serve. preserve. Qed.
#[local] Hint Resolve ok_pm_serve : preserves.
Lemma ok_pm_iteration : ok pm_iteration.
Proof. unfold pm_iteration. preserve. Qed.
Lemma ok_pm_start junk : ok (pm_start junk).
Proof. unfold pm_start, pm_init. preserve. Qed.
End Frame.
