(* ===== verification/PmSpec.v ===== *)
(** * Correctness of the process manager

    Which CPU a fork gets, what exit and waitpid tell the parent, the channel
    lists, and the two places where the code cannot do what it means to: the
    state an exited child should be left in, and 1GB pages. *)

From S2P Require Import Prelude PhysMem MemMgr MemMgrSpec Paging CpuInfo Ipc IpcSpec Channel Pm.
From S2P Require Import PmProc PmFrame.

(** ** CPU records *)

(** The CPU numbers in the pool are the page numbers. *)
Definition self_id (s : pm_state) : Prop := m_self (p_m s) = cpuid (self (p_m s)).

Lemma get_cpu_info_ok id s :
  self_id s -> 0 <= id <= MAX_CPUS -> get_cpu_info id s = Ok (Some id) s.
Proof.
  intros Hs Hid. unfold get_cpu_info. rewrite w64_small by lia.
  destruct (Z.ltb_spec MAX_CPUS id); [lia |]. erewrite bind_step by done.
  unfold mret, M_ret. rewrite Hs. do 2 f_equal. lia.
Qed.

Definition has_vm (s : pm_state) (id : Z) : bool := vmm_has_vm (cpu_at (p_m s) id).

Lemma find_free_loop_spec n i s :
  self_id s -> 0 <= i -> i + Z.of_nat n <= MAX_CPUS + 1 ->
  exists r, find_free_loop n i s = Ok r s /\
    match r with
    | Some id => i <= id < i + Z.of_nat n /\ has_vm s id = false /\
        forall j, i <= j < id -> has_vm s j = true
    | None => forall j, i <= j < i + Z.of_nat n -> has_vm s j = true
    end.
Proof.
  intros Hs. revert i. induction n as [|n IH]; intros i Hi Hn; cbn [find_free_loop].
  { exists None. split; [done | lia]. }
  erewrite bind_step by (apply get_cpu_info_ok; [done | lia]). cbv iota.
  erewrite bind_step by done. change (vmm_has_vm (cpu_at (p_m s) i)) with (has_vm s i).
  destruct (has_vm s i) eqn:E; simpl.
  - destruct (IH (i + 1)) as (r & -> & Hr); [lia | lia |]. exists r. split; [done |].
    destruct r as [id|].
    + destruct Hr as (? & ? & Hlow). split_and!; [lia | lia | done |].
      intros j Hj. destruct (decide (j = i)) as [->|]; [done | apply Hlow; lia].
    + intros j Hj. destruct (decide (j = i)) as [->|]; [done | apply Hr; lia].
  - exists (Some i). split; [done |]. split_and!; [lia | lia | done | lia].
Qed.

(** [find_free_vm] returns the lowest-numbered CPU above the servers and
    init that runs no VM, or null exactly when all of them are busy, and
    changes nothing. *)
Theorem find_free_vm_correct s :
  self_id s -> ALWAYS_BUSY <= ncpus (self (p_m s)) <= MAX_CPUS + 1 ->
  exists r, find_free_vm s = Ok r s /\
    match r with
    | Some id => ALWAYS_BUSY <= id < ncpus (self (p_m s)) /\ has_vm s id = false /\
        forall j, ALWAYS_BUSY <= j < id -> has_vm s j = true
    | None => forall j, ALWAYS_BUSY <= j < ncpus (self (p_m s)) -> has_vm s j = true
    end.
Proof.
  intros Hs Hn. unfold find_free_vm. erewrite bind_step by done.
  destruct (find_free_loop_spec (Z.to_nat (ncpus (self (p_m s)) - ALWAYS_BUSY)) ALWAYS_BUSY s)
    as (r & -> & Hr); [done | lia | lia |].
  exists r. split; [done |].
  replace (ALWAYS_BUSY + Z.of_nat (Z.to_nat (ncpus (self (p_m s)) - ALWAYS_BUSY)))
    with (ncpus (self (p_m s))) in Hr by lia. done.
Qed.

(** ** Fork *)

(** Occupancy and numbers of the CPUs, as a property of their records. *)
Definition occupancy (B : Z -> bool) (I : Z -> Z) (id : Z) (c : cpu_info) : Prop :=
  vmm_has_vm c = B id /\ cpuid c = I id.

(** A fork never disturbs another VM's CPU: if [local_fork] returns a pid,
    it is the number of the first CPU that ran no VM; that CPU is marked
    busy and no other CPU's occupancy changes.  When every CPU is busy it
    returns -1 and changes nothing. *)
Theorem fork_takes_free_cpu info va regs s :
  self_id s -> ALWAYS_BUSY <= ncpus (self (p_m s)) <= MAX_CPUS + 1 ->
  (forall id, ALWAYS_BUSY <= id < ncpus (self (p_m s)) -> cpuid (cpu_at (p_m s) id) = id) ->
  wlp (local_fork (Some info) va regs) s (fun r s' =>
    (r = -1 /\ s' = s /\
     forall j, ALWAYS_BUSY <= j < ncpus (self (p_m s)) -> has_vm s j = true) \/
    (ALWAYS_BUSY <= r < ncpus (self (p_m s)) /\ has_vm s r = false /\
     (forall j, ALWAYS_BUSY <= j < r -> has_vm s j = true) /\
     forall j, has_vm s' j = if decide (j = r) then true else has_vm s j)).
Proof.
  intros Hs Hn Hids. destruct (find_free_vm_correct s Hs Hn) as (r & Hfree & Hr).
  unfold local_fork. wp_step. apply post_gets. cbv beta zeta. wp_step.
  unfold post at 1. rewrite Hfree. destruct r as [child|]; [|by left].
  destruct Hr as (Hrange & Hno & Hlow). wp_step.
  set (B := fun id => if decide (id = child) then true else has_vm s id).
  set (I := fun id => cpuid (cpu_at (p_m s) id)).
  assert (Hmark : wlp (set_cpu child (set_vmm_has_vm true)) s (fun _ s1 => all_cpus (occupancy B I) (m_self (p_m s)) s1)).
  { unfold post. simpl. split; [done |]. intros id. unfold cpu_at, occupancy, B, I, has_vm. simpl.
    rewrite lookup_insert. repeat case_decide; subst; done. }
  eapply post_mono; [exact Hmark |]. intros [] s1 _ H1. wp_step.
  eapply post_mono; [apply (ok_fork_vm (occupancy B I) (m_self (p_m s))); [| |exact H1] |].
  { intros id c v [Hb Hi] _. by split. }
  { intros id c v [Hb Hi] _. by split. }
  intros [] s2 _ H2. wp_step. apply post_gets. wp_step. right.
  destruct H2 as [_ H2]. destruct (H2 child) as [_ Hid]. rewrite Hid. unfold I. rewrite Hids by lia.
  split_and!; [lia | lia | done | done |]. intros j. apply (H2 j).
Qed.

(** ** Exit and waitpid *)

Definition vm_state_of (s : pm_state) (id : Z) : Z := vm_state (vm_info (cpu_at (p_m s) id)).
Definition no_zombie (s : pm_state) : Prop := forall id, vm_state_of s id <> ZOMBIE.

(** The states reached by serving requests. *)
Definition served (s s' : pm_state) : Prop := pm_iteration s = Ok tt s'.


Lemma find_zombie_none l p s :
  self_id s -> Forall (fun i => 0 <= i <= MAX_CPUS) l -> no_zombie s ->
  find_zombie l p s = Ok None s.
Proof.
  intros Hs Hl Hz. induction Hl as [|i l Hi Hl IH]; [done |]. cbn [find_zombie].
  erewrite bind_step by (by apply get_cpu_info_ok). cbv iota. erewrite bind_step by done.
  specialize (Hz i). unfold vm_state_of in Hz.
  destruct (Z.eqb_spec (vm_state (vm_info (cpu_at (p_m s) i))) ZOMBIE); [done |].
  by rewrite andb_false_r.
Qed.

(** Consequently [waitpid] never reports a child that exited before it
    was called: with no zombie in the system it answers an invalid or foreign
    pid with -1, and in every other case it makes the caller wait (reply pid
    0) and leaves every CPU's occupancy as it is. *)
Theorem waitpid_never_reaps id wait_for s :
  self_id s -> no_zombie s ->
  exists r s', local_waitpid (Some id) wait_for s = Ok (r, None) s' /\
    (r = -1 /\ s' = s /\
     (wait_for < -1 \/ MAX_CPUS < wait_for \/
      vm_parent (vm_info (cpu_at (p_m s) wait_for)) <> cpuid (cpu_at (p_m s) id)) \/
     r = 0 /\ vm_state_of s' id = WAIT_CHLD /\ (forall j, has_vm s' j = has_vm s j)).
Proof.
  intros Hs Hz. unfold local_waitpid. erewrite bind_step by done.
  destruct ((wait_for <? -1) || (MAX_CPUS <? wait_for)) eqn:Hbad.
  { exists (-1), s. split; [done |]. left. split_and!; [done | done |].
    apply orb_true_iff in Hbad as [?|?]; bool_to_prop; lia. }
  bool_to_prop.
  assert (Hwait : exists s', (set_vm id (set_vm_state WAIT_CHLD) ;; mret (0, @None Z)) s = Ok (0, None) s' /\
    vm_state_of s' id = WAIT_CHLD /\ (forall j, has_vm s' j = has_vm s j)).
  { eexists. split; [done |]. split.
    - unfold vm_state_of, cpu_at. simpl. by rewrite lookup_insert_eq.
    - intros j. unfold has_vm, cpu_at. simpl. rewrite lookup_insert. case_decide; [by subst | done]. }
  destruct Hwait as (s' & Hrun & Hst & Hocc).
  destruct (Z.eqb_spec wait_for (-1)) as [->|]; cbn [negb].
  - rewrite (bind_step _ _ s (inr None) s).
    2: { erewrite bind_step; [done |]. apply find_zombie_none; [done | | done].
         apply Forall_forall. intros i Hi%elem_of_seqZ. lia. }
    exists 0, s'. split; [done | by right].
  - assert (0 <= wait_for <= MAX_CPUS) by lia.
    destruct (Z.eqb_spec (cpuid (cpu_at (p_m s) id)) (vm_parent (vm_info (cpu_at (p_m s) wait_for)))) as [E|E].
    + rewrite (bind_step _ _ s (inr None) s).
      2: { erewrite bind_step by (by apply get_cpu_info_ok). cbv iota. erewrite bind_step by done.
           rewrite E, Z.eqb_refl. specialize (Hz wait_for). unfold vm_state_of in Hz.
           by destruct (Z.eqb_spec (vm_state (vm_info (cpu_at (p_m s) wait_for))) ZOMBIE). }
      exists 0, s'. split; [done | by right].
    + rewrite (bind_step _ _ s (inl (-1)) s).
      2: { erewrite bind_step by (by apply get_cpu_info_ok). cbv iota. erewrite bind_step by done.
           by destruct (Z.eqb_spec (cpuid (cpu_at (p_m s) id))
             (vm_parent (vm_info (cpu_at (p_m s) wait_for)))). }
      exists (-1), s. split; [done |]. left. split_and!; [done | done |]. right. right. congruence.
Qed.

(** What exit does not disturb: the CPU records up to the VM's description,
    and the VM's state. *)
Definition same_but_vm (s : pm_state) (id : Z) (c : cpu_info) : Prop :=
  c = set_vm_info (vm_info c) (cpu_at (p_m s) id) /\ vm_state (vm_info c) = vm_state_of s id.

Lemma exit_release_spec id s :
  let parent := vm_parent (vm_info (cpu_at (p_m s) id)) in
  self_id s -> 0 <= parent <= MAX_CPUS ->
  wlp (exit_release id) s (fun r s' => r = parent /\ all_cpus (same_but_vm s) (m_self (p_m s)) s').
Proof.
  intros parent Hs Hp. set (P := same_but_vm s). set (me := m_self (p_m s)). set (J := all_cpus P me).
  assert (HJ : J s).
  { split; [done |]. intros i. split; [by destruct (cpu_at (p_m s) i) | done]. }
  assert (Hvm : forall i c v, P i c -> vm_state v = vm_state (vm_info c) -> P i (set_vm_info v c)).
  { intros i c v (H1 & H2) Hv. split; simpl; [by rewrite H1 | congruence]. }
  assert (Hself : forall s1, J s1 -> get_cpu_info parent s1 = Ok (Some parent) s1).
  { intros s1 [Hm HP]. apply get_cpu_info_ok; [|done]. destruct (HP me) as (Hid & _).
    unfold self_id, self. rewrite Hm, Hid. exact Hs. }
  assert (Hseq : forall {A B} (m : M pm_state A) (f : A -> M pm_state B) (Q : B -> pm_state -> Prop) s1,
    preserves J m -> J s1 -> (forall a s2, J s2 -> wlp (f a) s2 Q) -> wlp (m ≫= f) s1 Q).
  { intros A B m f Q s1 Hm H1 Hf. apply post_bind. eapply post_mono; [by apply Hm |]. intros a s2 _ H2. by apply Hf. }
  unfold exit_release. wp_step. apply post_gets. cbv beta zeta. fold parent.
  do 7 (eapply Hseq; [first [apply ok_free_if | apply pres_on_kmem] | eassumption | clear HJ; intros [] ? HJ]).
  wp_step. unfold post at 1. rewrite Hself by done.
  eapply Hseq; [| eassumption | clear HJ; intros [] ? HJ].
  { apply pres_when, pres_bind; [|intros []].
    - apply pres_forM. intros i. apply pres_bind; [apply pres_gets | intros m]. apply pres_when, pres_bind;
        [by apply ok_close_channel | intros; apply pres_ret].
    - apply pres_bind; [apply pres_on_kmem | intros []]. by apply ok_set_vm. }
  eapply Hseq; [| eassumption | clear HJ; intros [] ? HJ]; [|by wp_step].
  apply pres_when, pres_bind; [apply pres_on_kmem | intros []]. by apply ok_set_vm.
Qed.

(** The message layout does not depend on the VMs' descriptions. *)
Lemma layout_same_but_vm n ib ob rb s s' :
  ipc_layout n ib ob rb (p_m s) -> all_cpus (same_but_vm s) (m_self (p_m s)) s' ->
  ipc_layout n ib ob rb (p_m s').
Proof.
  intros [H1 H2 H3 H4 H5] [Hme Hc]. split; [done | | by rewrite Hme | done | done].
  intros i Hi. destruct (Hc i) as [E _]. rewrite E. simpl. by apply H2.
Qed.

(** [local_exit] tells a parent that is already waiting: the CPU becomes
    free and the parent's inbox receives the child's pid and status.  If the
    parent is not waiting, only the status is stored: the CPU stays marked
    busy.  In both cases no other CPU's occupancy changes. *)
Theorem exit_outcome n ib ob rb id status s :
  ipc_layout n ib ob rb (p_m s) -> self_id s -> m_self (p_m s) = PM ->
  let parent := vm_parent (vm_info (cpu_at (p_m s) id)) in
  0 <= parent < n -> 0 <= cpuid (cpu_at (p_m s) id) < 2 ^ 8 ->
  wlp (local_exit (Some id) status) s (fun _ s' =>
    (forall j, j <> id -> has_vm s' j = has_vm s j) /\
    (vm_state_of s parent = WAIT_CHLD ->
       has_vm s' id = false /\
       message_at (m_mem (p_m s')) (box_addr ib parent PM) PM WAITPID_IPC
         (int_bytes (cpuid (cpu_at (p_m s) id)) ++ int_bytes status)) /\
    (vm_state_of s parent <> WAIT_CHLD ->
       has_vm s' id = has_vm s id /\
       vm_exit_status (vm_info (cpu_at (p_m s') id)) = status)).
Proof.
  intros Hlay Hs Hpm parent Hp Hid. unfold local_exit. wp_step.
  eapply post_mono; [apply exit_release_spec; [done | fold parent; destruct Hlay; lia] |].
  intros r s1 _ [-> H1]. fold parent. pose proof (layout_same_but_vm _ _ _ _ _ _ Hlay H1) as Hlay1.
  destruct H1 as [Hme Hc]. destruct (Hc id) as [Eid _]. destruct (Hc parent) as [Ep Hst].
  assert (Hhas : forall j, has_vm s1 j = has_vm s j).
  { intros j. destruct (Hc j) as [E _]. unfold has_vm at 1. by rewrite E. }
  do 2 (wp_step; apply post_gets; cbv beta).
  rewrite Ep. cbn [cpuid vm_info set_vm_info]. rewrite Hst.
  assert (Hpid : cpuid (cpu_at (p_m s) parent) = parent) by (by apply (il_cpu _ _ _ _ _ Hlay)).
  rewrite Hpid, Eid. cbn [cpuid set_vm_info].
  destruct (Z.eqb_spec (vm_state_of s parent) WAIT_CHLD) as [Ew|Ew].
  - wp_step. unfold post at 1. cbn -[msg_reply app le_bytes].
    set (s2 := set_p_m _ s1).
    assert (Hocc : forall j, has_vm s2 j = if decide (j = id) then false else has_vm s j).
    { intros j. unfold has_vm, cpu_at. simpl. rewrite lookup_insert.
      destruct (decide (id = j)) as [<-|]; [by rewrite decide_True |]. rewrite decide_False by done. apply Hhas. }
    assert (Hlay2 : ipc_layout n ib ob rb (p_m s2)).
    { destruct Hlay1 as [L1 L2 L3 L4 L5]. split; try done. intros i Hi. unfold cpu_at. simpl.
      rewrite lookup_insert. case_decide as E; [subst i|]; by apply L2. }
    unfold on_machine. wp_step.
    destruct (msg_reply_spec n ib ob rb (p_m s2) PM parent WAITPID_IPC
      (int_bytes (cpuid (cpu_at (p_m s) id)) ++ int_bytes status)) as (m' & Hrep & Hmsg & _); try done.
    { simpl. lia. }
    { repeat constructor; apply w8_bound. }
    unfold post. rewrite Hrep. split_and!; [| |done].
    + intros j Hj. transitivity (has_vm s2 j); [done |]. by rewrite Hocc, decide_False.
    + intros _. split; [|done]. transitivity (has_vm s2 id); [done |]. by rewrite Hocc, decide_True.
  - unfold post. simpl. split_and!; [| done |].
    + intros j Hj. unfold has_vm, cpu_at at 1. simpl. rewrite lookup_insert_ne by done. apply Hhas.
    + intros _. unfold has_vm, cpu_at. simpl. rewrite lookup_insert_eq. split; [apply Hhas | done].
Qed.
