(* ===== verification/PmChannels.v ===== *)
(** * The channel lists of the process manager

    A driver's [vm_channels] page holds its open channels in slots 0 to 31,
    ended by zero.  Adding appends, removing closes the gap, as long as the
    list is not full; a full list drops new channels and removal from it
    duplicates the last one.  Also here: the mapping of a new VM never
    completes on machines with 1GB pages. *)

From S2P Require Import Prelude PhysMem MemMgr MemMgrSpec Paging CpuInfo Ipc Pm PmProc PmFrame.

Definition with_mem (m : memory) (s : pm_state) : pm_state := set_p_m (set_m_mem m (p_m s)) s.

Lemma with_mem_id s : with_mem (p_mem s) s = s.
Proof. by destruct s as [? [] ? ? ? ?]. Qed.

Lemma slot_set m ch i j v :
  channel_slot (set_channel_slot ch i v m) ch j = if decide (i = j) then w64 v else channel_slot m ch j.
Proof.
  unfold channel_slot, set_channel_slot. case_decide as E; [subst; apply load64_store64_eq |].
  apply load64_store64_ne. lia.
Qed.

Lemma slot_w64 m ch i : w64 (channel_slot m ch i) = channel_slot m ch i.
Proof. apply w64_small, load64_bound. Qed.

(** The slots hold the list [l], followed by zeros up to slot 31. *)
Definition chan_slots (m : memory) (ch : Z) (l : list Z) : Prop :=
  (length l <= 32)%nat /\ Forall (fun c => c <> 0) l /\
  forall i, 0 <= i < MAX_CHANNELS -> channel_slot m ch i = default 0 (l !! Z.to_nat i).

(** The inner loop moves every slot from [k] up to the first zero down by one. *)
Lemma shift_channels_spec n ch k s :
  exists k' m', shift_channels n ch k s = Ok k' (with_mem m' s) /\
    k <= k' <= k + Z.of_nat n /\
    (k' < k + Z.of_nat n -> channel_slot (p_mem s) ch k' = 0) /\
    (forall i, k <= i < k' -> channel_slot (p_mem s) ch i <> 0) /\
    (forall i, channel_slot m' ch i =
       if decide (k <= i < k') then channel_slot (p_mem s) ch (i + 1) else channel_slot (p_mem s) ch i).
Proof.
  revert k s. induction n as [|n IH]; intros k s; cbn [shift_channels].
  { exists k, (p_mem s). rewrite with_mem_id. split_and!; [done | lia | lia | lia | lia |].
    intros i. by rewrite decide_False by lia. }
  erewrite bind_step by done. destruct (Z.eqb_spec (channel_slot (p_mem s) ch k) 0) as [E|E].
  { exists k, (p_mem s). rewrite with_mem_id. split_and!; [done | lia | lia | done | lia |].
    intros i. by rewrite decide_False by lia. }
  erewrite bind_step by done.
  set (m1 := set_channel_slot ch k (channel_slot (p_mem s) ch (k + 1)) (p_mem s)).
  destruct (IH (k + 1) (with_mem m1 s)) as (k' & m' & Hrun & Hk & Hend & Hmid & Hslots).
  change (p_mem (with_mem m1 s)) with m1 in *.
  exists k', m'. split_and!; [exact Hrun | lia | lia | | |].
  - intros Hk'. rewrite <-Hend by lia. unfold m1. rewrite slot_set, decide_False by lia. done.
  - intros i Hi. destruct (decide (i = k)) as [->|]; [done |].
    specialize (Hmid i ltac:(lia)). unfold m1 in Hmid. by rewrite slot_set, decide_False in Hmid by lia.
  - intros i. rewrite Hslots. unfold m1. rewrite !slot_set.
    repeat case_decide; try lia; try done. subst i. by rewrite slot_w64.
Qed.

(** Slots that do not hold the channel are passed over. *)
Lemma remove_from_list_skip js ch c b s :
  Forall (fun j => channel_slot (p_mem s) ch j <> c) js ->
  remove_from_list js ch c b s = Ok b s.
Proof.
  induction 1 as [|j js Hj _ IH]; [done |]. cbn [remove_from_list].
  erewrite bind_step by done. by destruct (Z.eqb_spec (channel_slot (p_mem s) ch j) c).
Qed.

Lemma remove_from_list_prefix js1 js2 ch c b s :
  Forall (fun j => channel_slot (p_mem s) ch j <> c) js1 ->
  remove_from_list (js1 ++ js2) ch c b s = remove_from_list js2 ch c b s.
Proof.
  induction 1 as [|j js Hj _ IH]; [done |]. cbn [remove_from_list app].
  erewrite bind_step by done. by destruct (Z.eqb_spec (channel_slot (p_mem s) ch j) c).
Qed.

Lemma remove_channel_spec l1 c l2 ch s b :
  let l := l1 ++ c :: l2 in
  chan_slots (p_mem s) ch l -> NoDup l -> (length l < 32)%nat ->
  exists m', remove_from_list (seqZ 0 MAX_CHANNELS) ch c b s = Ok true (with_mem m' s) /\
    chan_slots m' ch (l1 ++ l2).
Proof.
  intros l (Hlen & Hnz & Hslots) Hnd Hfull. set (j := Z.of_nat (length l1)).
  assert (Hl : length l = (length l1 + S (length l2))%nat) by (unfold l; rewrite length_app; done).
  assert (Hne : forall i, 0 <= i < MAX_CHANNELS -> i <> j -> channel_slot (p_mem s) ch i <> c).
  { intros i Hi Hij E. rewrite Hslots in E by done.
    assert (Hc : l !! length l1 = Some c) by (unfold l; by rewrite list_lookup_middle).
    destruct (l !! Z.to_nat i) as [x|] eqn:Ex; simpl in E.
    - subst x. assert (Z.to_nat i = length l1) by (by eapply NoDup_lookup). lia.
    - subst c. rewrite Forall_forall in Hnz. apply (Hnz 0); [by eapply list_elem_of_lookup_2 | done]. }
  replace (seqZ 0 MAX_CHANNELS) with (seqZ 0 j ++ j :: seqZ (j + 1) (MAX_CHANNELS - 1 - j)).
  2: { transitivity (seqZ 0 (j + (MAX_CHANNELS - j))); [|by replace (j + (32 - j)) with 32 by lia].
       rewrite seqZ_app by lia. f_equal. rewrite (seqZ_cons (0 + j)) by lia.
       by replace (Z.pred (32 - j)) with (32 - 1 - j) by lia. }
  rewrite remove_from_list_prefix.
  2: { apply Forall_forall. intros i Hi%elem_of_seqZ. apply Hne; lia. }
  cbn [remove_from_list]. erewrite bind_step by done.
  rewrite Hslots by lia. unfold j at 1. rewrite Nat2Z.id. unfold l at 1.
  rewrite list_lookup_middle by done. simpl (default _ _). rewrite Z.eqb_refl.
  destruct (shift_channels_spec (Z.to_nat (MAX_CHANNELS - 1 - j)) ch j s) as (k' & m' & Hrun & Hk & Hend & Hmid & Hsh).
  erewrite bind_step by exact Hrun. erewrite bind_step by done.
  assert (Hk' : k' = Z.of_nat (length l)).
  { destruct (Z.lt_trichotomy k' (Z.of_nat (length l))) as [H|[H|H]]; [exfalso | done | exfalso].
    - specialize (Hend ltac:(lia)). rewrite Hslots in Hend by lia.
      destruct (lookup_lt_is_Some_2 l (Z.to_nat k')) as [x Hx]; [lia |]. rewrite Hx in Hend. simpl in Hend. subst x.
      rewrite Forall_forall in Hnz. apply (Hnz 0); [by eapply list_elem_of_lookup_2 | done].
    - apply (Hmid (Z.of_nat (length l))); [lia |]. rewrite Hslots by lia.
      by rewrite Nat2Z.id, lookup_ge_None_2 by done. }
  set (m2 := set_channel_slot ch (k' + 1) 0 m').
  assert (Hfinal : forall i, 0 <= i < MAX_CHANNELS -> channel_slot m2 ch i = default 0 ((l1 ++ l2) !! Z.to_nat i)).
  { intros i Hi. unfold m2. rewrite slot_set. rewrite Hsh. case_decide as E0.
    { subst i. rewrite lookup_ge_None_2; [done |]. rewrite length_app. lia. }
    case_decide as E1.
    - destruct (decide (i + 1 < MAX_CHANNELS)).
      + rewrite Hslots by lia. f_equal. unfold l. rewrite !lookup_app_r by lia.
        replace (Z.to_nat (i + 1) - length l1)%nat with (S (Z.to_nat i - length l1)) by lia. done.
      + lia.
    - rewrite Hslots by lia. f_equal. destruct (decide (i < j)).
      + unfold l. rewrite !lookup_app_l by lia. done.
      + rewrite !lookup_ge_None_2 by (rewrite ?length_app; lia). done. }
  rewrite remove_from_list_skip.
  - exists m2. split; [done |]. split_and!; [rewrite length_app; lia | | done].
    unfold l in Hnz. rewrite Forall_app in *. rewrite Forall_cons in Hnz. tauto.
  - apply Forall_forall. intros i Hi%elem_of_seqZ. change (p_mem _) with m2. rewrite Hfinal by lia.
    intros E. destruct ((l1 ++ l2) !! Z.to_nat i) as [x|] eqn:Ex; simpl in E.
    + subst x. apply list_elem_of_lookup_2 in Ex. unfold l in Hnd.
      rewrite NoDup_app, NoDup_cons in Hnd. set_solver.
    + subst c. rewrite Forall_forall in Hnz. apply (Hnz 0); [unfold l; set_solver | done].
Qed.

(** Removing a channel from a driver's list of fewer than 32 distinct
    channels finds it, closes the gap and keeps the order of the others. *)
Theorem remove_channel_correct l1 c l2 ch s b :
  let l := l1 ++ c :: l2 in
  chan_slots (p_mem s) ch l -> NoDup l -> (length l < 32)%nat ->
  exists m', remove_from_list (seqZ 0 MAX_CHANNELS) ch c b s = Ok true (with_mem m' s) /\
    chan_slots m' ch (l1 ++ l2).
Proof. apply remove_channel_spec. Qed.

(** The scan for an empty slot. *)
Lemma add_to_list_spec n ch c k s :
  (forall i, k <= i < k + Z.of_nat n -> channel_slot (p_mem s) ch i <> 0) ->
  forall js, add_to_list (seqZ k (Z.of_nat n) ++ js) ch c s = add_to_list js ch c s.
Proof.
  revert k. induction n as [|n IH]; intros k Hk js; [done |].
  rewrite (seqZ_cons k) by lia. cbn [add_to_list app]. erewrite bind_step by done.
  destruct (Z.eqb_spec (channel_slot (p_mem s) ch k) 0) as [E|]; [by apply Hk in E; [|lia] |].
  replace (Z.pred (Z.of_nat (S n))) with (Z.of_nat n) by lia. apply IH. intros i Hi. apply Hk. lia.
Qed.

Lemma chan_slots_nonzero m ch l i :
  chan_slots m ch l -> 0 <= i < Z.of_nat (length l) -> channel_slot m ch i <> 0.
Proof.
  intros (Hlen & Hnz & Hs) Hi. rewrite Hs by lia.
  destruct (lookup_lt_is_Some_2 l (Z.to_nat i)) as [x Hx]; [lia |]. rewrite Hx. simpl.
  rewrite Forall_forall in Hnz. eapply Hnz, list_elem_of_lookup_2, Hx.
Qed.

(** Registering a channel appends it to the driver's list; a list that is
    already full silently drops it (the driver will never see that channel). *)
Theorem add_channel_correct l c ch s :
  chan_slots (p_mem s) ch l -> c <> 0 -> 0 <= c < 2 ^ 64 ->
  exists m', add_to_list (seqZ 0 MAX_CHANNELS) ch c s = Ok tt (with_mem m' s) /\
    chan_slots m' ch (if decide (length l < 32)%nat then l ++ [c] else l).
Proof.
  intros Hl Hc Hr. pose proof Hl as (Hlen & Hnz & Hs). set (n := length l) in *.
  assert (Hsplit : seqZ 0 MAX_CHANNELS = seqZ 0 (Z.of_nat n) ++ seqZ (Z.of_nat n) (MAX_CHANNELS - Z.of_nat n)).
  { transitivity (seqZ 0 (Z.of_nat n + (MAX_CHANNELS - Z.of_nat n))).
    - f_equal. lia.
    - by rewrite seqZ_app by lia. }
  rewrite Hsplit, add_to_list_spec by (intros i Hi; eapply chan_slots_nonzero; [done | fold n; lia]).
  case_decide as Hfull.
  - rewrite seqZ_cons by lia. cbn [add_to_list]. erewrite bind_step by done.
    rewrite Hs by lia. rewrite Nat2Z.id, lookup_ge_None_2 by (unfold n; lia). simpl (default _ _ =? 0). cbv iota.
    eexists. split; [done |]. split_and!; [rewrite length_app; simpl; lia | by rewrite Forall_app, Forall_singleton |].
    intros i Hi. rewrite slot_set. case_decide as E.
    + subst i. rewrite Nat2Z.id. unfold n. by rewrite list_lookup_middle, w64_small.
    + change (m_mem (p_m s)) with (p_mem s). rewrite Hs by done. destruct (decide (i < Z.of_nat n)).
      * by rewrite lookup_app_l by (fold n; lia).
      * rewrite !lookup_ge_None_2; [done | rewrite length_app; simpl; lia | lia].
  - exists (p_mem s). rewrite with_mem_id. replace (MAX_CHANNELS - Z.of_nat n) with 0 by lia. done.
Qed.

(** A channel that is opened and closed again leaves the driver's list as
    it was. *)
Theorem channel_list_roundtrip l c ch s b :
  chan_slots (p_mem s) ch l -> NoDup l -> c ∉ l -> (length l < 31)%nat -> c <> 0 -> 0 <= c < 2 ^ 64 ->
  exists m1 m2, add_to_list (seqZ 0 MAX_CHANNELS) ch c s = Ok tt (with_mem m1 s) /\
    remove_from_list (seqZ 0 MAX_CHANNELS) ch c b (with_mem m1 s) = Ok true (with_mem m2 s) /\
    chan_slots m2 ch l.
Proof.
  intros Hl Hnd Hni Hlen Hc Hr.
  destruct (add_channel_correct l c ch s Hl Hc Hr) as (m1 & Hadd & H1). rewrite decide_True in H1 by lia.
  destruct (remove_channel_spec l c [] ch (with_mem m1 s) b) as (m2 & Hrem & H2); [done | | |].
  - rewrite NoDup_app. split_and!; [done | set_solver | apply NoDup_singleton].
  - rewrite length_app. simpl. lia.
  - exists m1, m2. rewrite app_nil_r in H2. done.
Qed.

(** On a full list removal goes wrong: the last slot is not cleared, so
    after removing any of 32 channels but the last one, slots 30 and 31 both
    hold the last channel. *)
Theorem remove_full_duplicates l c j ch s b :
  chan_slots (p_mem s) ch l -> NoDup l -> length l = 32%nat -> l !! j = Some c -> (j < 31)%nat ->
  wlp (remove_from_list [Z.of_nat j] ch c b) s (fun r s' => r = true /\
    channel_slot (p_mem s') ch 30 = channel_slot (p_mem s) ch 31 /\
    channel_slot (p_mem s') ch 31 = channel_slot (p_mem s) ch 31).
Proof.
  intros Hl Hnd Hlen Hj Hlt. pose proof Hl as (_ & _ & Hs).
  cbn [remove_from_list]. wp_step. apply post_gets. rewrite Hs by lia. rewrite Nat2Z.id, Hj.
  simpl (default _ _). rewrite Z.eqb_refl. wp_step.
  destruct (shift_channels_spec (Z.to_nat (MAX_CHANNELS - 1 - Z.of_nat j)) ch (Z.of_nat j) s)
    as (k' & m' & Hrun & Hk & Hend & _ & Hsh).
  unfold post at 1. rewrite Hrun.
  assert (k' = 31) as ->.
  { destruct (decide (k' < 31)); [|lia]. specialize (Hend ltac:(lia)).
    exfalso. eapply (chan_slots_nonzero (p_mem s) ch l k'); [done | rewrite Hlen; lia | done]. }
  unfold post. simpl. change (m_mem (p_m (with_mem m' s))) with m'. split_and!; [done | |].
  - transitivity (channel_slot (set_channel_slot ch 32 0 m') ch 30); [done |].
    rewrite slot_set, decide_False, Hsh, decide_True by lia. done.
  - transitivity (channel_slot (set_channel_slot ch 32 0 m') ch 31); [done |].
    by rewrite slot_set, decide_False, Hsh, decide_False by lia.
Qed.

(** ** 1GB pages *)

(** On a machine with 1GB pages [ept_pmap] never completes: its second
    mapping starts at physical address 2MB, which is not 1GB aligned, so every
    fork and exec ends in a panic. *)
Theorem ept_pmap_1gb_panics id s a s' :
  has_1GB_page s = true -> ept_pmap id s <> Ok a s'.
Proof.
  intros Hbig Hrun. unfold ept_pmap in Hrun.
  apply bind_ok in Hrun as (big & s1 & Hg & Hrun). injection Hg as <- <-. rewrite Hbig in Hrun.
  apply bind_ok in Hrun as (u1 & s1 & _ & Hrun). apply bind_ok in Hrun as (u2 & s2 & Hmap & _).
  unfold map_vm in Hmap. apply bind_ok in Hmap as (c & s3 & _ & Hmap).
  apply bind_ok in Hmap as (root & s4 & Hk & _). unfold on_kmem, zoom in Hk.
  assert (Hpanic : forall r k, map_memory r _2MB_ 0xFEC00000 _2MB_ _1GB_ (Z.lor PAGE_PRESENT PAGE_RW)
    MAP_UPDATE k = Stop (Panic "Address is not 1GB aligned")) by done.
  by rewrite Hpanic in Hk.
Qed.
