(* ===== verification/PmFork.v ===== *)
(** * Fork

    [local_fork] gives the child a memory image of its own: the code and the
    read-only data are shared or copied, data, bss and stack are copied, and
    nothing that was in use changes. *)

From S2P Require Import Prelude PhysMem MemMgr MemMgrSpec Paging PageWalk PagingSpec EptSpec PmAlloc CpuInfo Ipc.
From S2P Require Import Channel Pm PmEpt PmProc PmSpec.

(** ** Enough memory in one piece *)

(** A free block of at least [n] pages. *)
Definition big (n : Z) (bl : blocks) : Prop := n <= 0 \/ exists pg, (pg, 0) ∈ bl /\ n <= pg.

Lemma spec_alloc_big off n N bl :
  wf_blocks bl -> 0 < n <= N -> big N bl ->
  exists o bl', spec_alloc off n bl = Some (o, bl') /\ big (N - n) bl'.
Proof.
  intros Hw Hn [?|(pg & Hin & Hpg)]; [lia |]. revert off. induction Hw as [|[pg1 rf] tl [Hpg1 Hrf] Hw IH]; intros off.
  { by apply not_elem_of_nil in Hin. }
  cbn [fst snd] in *. destruct (alloc_cases n pg1 rf) as [Hs | Hr -> | Hr Hlt].
  - rewrite spec_alloc_skip by done. apply elem_of_cons in Hin as [[= <- <-]|Hin].
    { exfalso. apply orb_true_iff in Hs as [?|?]; lia. }
    destruct (IH Hin (off + pg1)) as (o & bl' & -> & Hb). eexists _, _. split; [done |].
    destruct Hb as [?|(pg2 & Hin2 & ?)]; [by left | right]. exists pg2. split; [by right | done].
  - rewrite spec_alloc_exact by done. eexists _, _. split; [done |].
    apply elem_of_cons in Hin as [[= <- <-]|Hin]; [left; lia |]. right. exists pg. split; [by right | lia].
  - rewrite spec_alloc_split by done. eexists _, _. split; [done |].
    apply elem_of_cons in Hin as [[= <- <-]|Hin]; right.
    + exists (pg - n). split; [right; by left | lia].
    + exists pg. split; [right; by right | lia].
Qed.

Lemma big_avail n bl : wf_blocks bl -> big n bl -> n <= avail_pages bl.
Proof.
  intros Hw Hb. assert (Hpos : 0 <= avail_pages bl).
  { clear Hb. induction Hw as [|[pg rf] tl [Hpg Hrf] Hw IH]; cbn [avail_pages fst snd] in *; [lia |]. destruct (rf =? 0); lia. }
  destruct Hb as [?|(pg & Hin & Hle)]; [lia |]. enough (pg <= avail_pages bl) by lia. clear Hle Hpos.
  induction Hw as [|[pg1 rf] tl [Hpg Hrf] Hw IH]; [by apply not_elem_of_nil in Hin |].
  assert (0 <= avail_pages tl).
  { clear IH Hin. induction Hw as [|[? ?] ? [? ?] ? IH]; cbn [avail_pages fst snd] in *; [lia |]. destruct (_ =? 0); lia. }
  cbn [avail_pages fst snd] in *. apply elem_of_cons in Hin as [[= <- <-]|Hin]; [cbn; lia |].
  specialize (IH Hin). destruct (rf =? 0); lia.
Qed.

(** ** Blocks that can be shared *)

(** The block that starts at page [j]. *)
Fixpoint block_at (off : Z) (bl : blocks) (j : Z) : option (Z * Z) :=
  match bl with
  | [] => None
  | (pg, rf) :: tl => if j =? off then Some (pg, rf) else block_at (off + pg) tl j
  end.

Lemma block_at_split off bl j b :
  block_at off bl j = Some b -> exists l1 l2, bl = l1 ++ b :: l2 /\ off + npages l1 = j.
Proof.
  revert off. induction bl as [|[pg rf] tl IH]; intros off; cbn [block_at]; [done |].
  destruct (Z.eqb_spec j off) as [->|]; [intros [= <-]; exists [], tl; split; [done | cbn; lia] |].
  intros (l1 & l2 & -> & Hj)%IH. exists ((pg, rf) :: l1), l2. split; [done |]. cbn. lia.
Qed.

Lemma block_at_low off bl j : wf_blocks bl -> j < off -> block_at off bl j = None.
Proof.
  intros Hw. revert off. induction Hw as [|[pg rf] tl [Hpg Hrf] Hw IH]; intros off Hj; [done |].
  cbn [block_at fst snd] in *. destruct (Z.eqb_spec j off); [lia |]. apply IH. lia.
Qed.

Lemma block_at_mid off l1 pg rf rf' l2 j :
  wf_blocks l1 ->
  block_at off (l1 ++ (pg, rf') :: l2) j =
  if decide (j = off + npages l1) then Some (pg, rf') else block_at off (l1 ++ (pg, rf) :: l2) j.
Proof.
  intros Hw. revert off. induction Hw as [|[pg1 rf1] tl [Hpg Hrf] Hw IH]; intros off; cbn [app block_at npages fst snd] in *.
  - rewrite Z.add_0_r. destruct (Z.eqb_spec j off); [by rewrite decide_True | by rewrite decide_False].
  - rewrite IH. pose proof (wf_blocks_npages tl Hw). destruct (Z.eqb_spec j off); [by rewrite decide_False by lia |].
    repeat case_decide; try lia; done.
Qed.

(** An allocation leaves used blocks alone. *)
Lemma alloc_run_block n off bl o bl' j pg rf :
  alloc_run n off bl o bl' -> wf_blocks bl -> block_at off bl j = Some (pg, rf) -> 0 < rf ->
  block_at off bl' j = Some (pg, rf).
Proof.
  intros Hr. induction Hr as [off pg1 rf1 tl o tl' Hs Hr IH | off rf1 tl Hr1 | off pg1 rf1 tl Hr1 Hlt];
    intros Hw Hb Hrf; apply Forall_cons in Hw as [Hhd Hw]; cbn [block_at] in *.
  - destruct (j =? off); [done |]. by apply IH.
  - destruct (j =? off); [injection Hb as <- <-; lia | done].
  - destruct (j =? off); [injection Hb as <- <-; lia |].
    destruct (Z.eqb_spec j (off + n)) as [->|]; [by rewrite block_at_low in Hb by (done || lia) |].
    by replace (off + n + (pg1 - n)) with (off + pg1) by lia.
Qed.

(** The block at address [p] is in use, with fewer than [r] references. *)
Definition shareable (mm : mm_state) (p r : Z) : Prop :=
  exists bl j pg rf, mm_repr mm bl /\ p = first_free_addr mm + j * 4096 /\ block_at 0 bl j = Some (pg, rf) /\ 0 < rf < r.

(** A piece of [n] free pages. *)
Definition roomy (k : kmem) (n : Z) : Prop := exists bl, mm_repr (k_mm k) bl /\ big n bl.

Lemma roomy_avail k n : roomy k n -> pa_avail k n.
Proof. intros (bl & Hr & Hb). exists bl. split; [done |]. apply big_avail; [by eapply mm_repr_wf | done]. Qed.

Lemma roomy_ok k n : roomy k n -> pa_ok k.
Proof. intros (bl & Hr & _). by exists bl. Qed.

(** What a step does to memory: pages in use stay in use and unchanged. *)
Definition evolves (k k' : kmem) : Prop := kept (pa_owned k) k k'.

#[global] Instance evolves_preorder : PreOrder evolves.
Proof.
  split; [intros k; by split_and! |]. intros k1 k2 k3 (A & B & C) (A' & B' & C'). split_and!; [auto | by rewrite B' |].
  etransitivity; [exact C |]. eapply same_on_mono; [|exact C']. intros x (q & Hq & Hx). exists q. auto.
Qed.

(** The pages of [n] pages from [p] on. *)
Definition block_pages (p n q : Z) : Prop := exists i, 0 <= i < n /\ q = p + i * 4096.

(** A block just taken, and what may still be taken and shared. *)
Lemma alloc_block n N (k : kmem) :
  0 < n <= N -> roomy k N ->
  wp (on_mm (alloc_mem_pages n)) k (fun p k' =>
    0 < p /\ p mod 4096 = 0 /\ p + n * 4096 < 2 ^ 63 /\ p + n * 4096 <= mm_top (k_mm k) /\ k_mem k' = k_mem k /\
    (forall q, block_pages p n q -> ~ taken (k_mm k) q) /\
    (forall q, taken (k_mm k') q <-> taken (k_mm k) q \/ block_pages p n q) /\
    pa_top k' = pa_top k /\ roomy k' (N - n) /\
    (forall p' r, shareable (k_mm k) p' r -> shareable (k_mm k') p' r) /\
    first_free_addr (k_mm k') = first_free_addr (k_mm k) /\
    block_node_array_last_idx (k_mm k') = block_node_array_last_idx (k_mm k)).
Proof.
  intros Hn (bl & Hr & Hb). destruct (spec_alloc_big 0 n N bl) as (o & bl' & E & Hb'); [by eapply mm_repr_wf | done | done |].
  pose proof (alloc_mem_pages_repr (k_mm k) bl n Hr ltac:(lia)) as Ha. rewrite E in Ha. destruct Ha as (a' & Ha & Hr').
  destruct (alloc_in_use (k_mm k) n ltac:(lia) (ex_intro _ bl Hr)) as (p & mm' & Ha' & _ & [Hman Htop] & Hcase).
  rewrite Ha in Ha'. injection Ha' as <- <-. pose proof Hr as [].
  pose proof (spec_alloc_run _ _ _ _ _ E) as Hrun.
  destruct (alloc_run_live _ _ _ _ _ Hrun ltac:(lia) (mm_repr_wf _ _ Hr)) as (Ho & Hot & _).
  destruct Hcase as [[? _]|(Hp & Hal & Hp63 & Hfree & Huse)]; [lia |]. set (p := first_free_addr (k_mm k) + o * 4096) in *.
  unfold on_mm, post, zoom. rewrite Ha. split_and!; try done.
  - unfold mm_top. lia.
  - intros q (i & Hi & ->) (_ & _ & [?|?]); by destruct (Hfree i Hi).
  - intros q. unfold taken, set_mm. cbn [k_mm]. rewrite Huse, Hman. split.
    + intros (H1 & H2 & [[?|?]|?]); [left | right | left]; auto.
    + intros [(H1 & H2 & [?|?])|(i & Hi & ->)]; [auto | auto |].
      split_and!; [by rewrite Z.mod_add | lia | lia |]. left. right. by exists i.
  - exists bl'. split; done.
  - intros p' r (bl2 & j & pg & rf & Hr2 & Hp' & Hblk & Hrf). rewrite (mm_repr_unique _ _ _ Hr2 Hr) in Hblk.
    exists bl', j, pg, rf. split_and!; [done | done | | lia | lia].
    eapply alloc_run_block; [done | by eapply mm_repr_wf | done | lia].
Qed.

(** [n] pages at [p] were taken, and [N - n] are left in one piece. *)
Record took (n N p : Z) (k k' : kmem) : Prop := {
  tk_page : 0 < p /\ p mod 4096 = 0 /\ p + n * 4096 <= mm_top (k_mm k);
  tk_fresh : forall q, block_pages p n q -> ~ taken (k_mm k) q;
  tk_taken : forall q, block_pages p n q -> taken (k_mm k') q;
  tk_evolves : evolves k k';
  tk_room : roomy k' (N - n);
  tk_share : forall p' r, shareable (k_mm k) p' r -> shareable (k_mm k') p' r;
  tk_first : first_free_addr (k_mm k') = first_free_addr (k_mm k);
  tk_last : block_node_array_last_idx (k_mm k') = block_node_array_last_idx (k_mm k)
}.

Lemma alloc_took n N k :
  0 < n <= N -> roomy k N -> wp (on_mm (alloc_mem_pages n)) k (fun p k' => took n N p k k' /\ k_mem k' = k_mem k).
Proof.
  intros Hn Hr. eapply post_mono; [by apply (alloc_block n N) |].
  intros p k' _ (H1 & H2 & H3 & H4 & H5 & H6 & H7 & H8 & H9 & H10 & H11 & H12). split; [|done]. split; try done.
  - intros q Hq. apply H7. by right.
  - split_and!; [intros q Hq; apply H7; by left | done | intros x _; cbn; by rewrite H5].
Qed.

(** Writing to the block just taken. *)
Lemma took_write n N p k k' m :
  took n N p k k' -> (forall x, ~ (p <= x < p + n * 4096) -> byte_at m x = byte_at (k_mem k') x) ->
  took n N p k (set_mem m k').
Proof.
  intros [Hp Hf Ht (E1 & E2 & E3) Hr Hs H1 H2] Hm. split; try done. split_and!; [done | done |].
  intros x Hx. etransitivity; [by apply E3 |]. symmetry. apply Hm. intros Hin.
  destruct Hx as (q & Hq & Hx). pose proof Hq as (Hqa & _). destruct Hp as (Hp0 & Hpa & _). apply (Hf q); [|exact Hq].
  pose proof (Z.div_mod q 4096 ltac:(lia)). pose proof (Z.div_mod p 4096 ltac:(lia)).
  exists (q / 4096 - p / 4096). lia.
Qed.

(** ** Memory that is in use *)

Definition held (k : kmem) (p n : Z) : Prop := forall x, p <= x < p + n -> exists q, pa_owned k q /\ q <= x < q + 4096.
Definition same_bytes (m : memory) (p : Z) (m' : memory) (p' n : Z) : Prop :=
  forall i, 0 <= i < n -> byte_at m' (p' + i) = byte_at m (p + i).

Lemma held_evolves k k' p n : evolves k k' -> held k p n -> held k' p n.
Proof. intros (H & _) Hh x Hx. destruct (Hh x Hx) as (q & Hq & Hxq). exists q. split; [by apply H | done]. Qed.

Lemma held_same k k' p n : evolves k k' -> held k p n -> same_bytes (k_mem k) p (k_mem k') p n.
Proof. intros (_ & _ & H) Hh i Hi. symmetry. apply H. by apply Hh; lia. Qed.

Lemma held_took n N p k k' size : took n N p k k' -> size <= n * 4096 -> held k' p size.
Proof.
  intros [(Hp0 & Hpa & _) _ Ht _ _ _ _ _] Hsz x Hx. exists (x - x mod 4096).
  pose proof (Z.div_mod x 4096 ltac:(lia)). pose proof (Z.mod_pos_bound x 4096 ltac:(lia)).
  pose proof (Z.div_mod p 4096 ltac:(lia)). split; [|lia]. apply Ht. exists (x / 4096 - p / 4096). lia.
Qed.

(** Memory in use does not overlap a block just taken. *)
Lemma held_disjoint n N p k k' src size :
  took n N p k k' -> held k src size -> 0 < size -> 0 < n -> size <= n * 4096 -> src + size <= p \/ p + size <= src.
Proof.
  intros [(Hp0 & Hpa & _) Hf _ _ _ _ _ _] Hh Hs Hn Hle.
  destruct (Z.le_gt_cases (src + size) p); [by left |]. destruct (Z.le_gt_cases (p + size) src); [by right |]. exfalso.
  destruct (Hh (Z.max src p) ltac:(lia)) as (q & Hq & Hx). apply (Hf q); [|exact Hq]. destruct Hq as (Hqa & _).
  pose proof (Z.div_mod q 4096 ltac:(lia)). pose proof (Z.div_mod p 4096 ltac:(lia)). exists (q / 4096 - p / 4096). lia.
Qed.

(** One more reference to a block. *)
Lemma page_live_reref off l1 pg rf rf' l2 j :
  0 < rf -> 0 < rf' -> page_live off (l1 ++ (pg, rf') :: l2) j = page_live off (l1 ++ (pg, rf) :: l2) j.
Proof.
  intros H1 H2. revert off. induction l1 as [|[pg1 rf1] l1 IH]; intros off; cbn [app page_live]; [|by rewrite IH].
  destruct (Z.ltb_spec 0 rf), (Z.ltb_spec 0 rf'); try lia; done.
Qed.

Lemma share_block p r N k :
  shareable (k_mm k) p r -> r < 2 ^ 32 -> roomy k N ->
  wp (on_mm (realloc_mem_block p)) k (fun p' k' => p' = p /\ k_mem k' = k_mem k /\ evolves k k' /\ roomy k' N /\
    (forall p1 r1, shareable (k_mm k) p1 r1 -> shareable (k_mm k') p1 (r1 + 1)) /\
    first_free_addr (k_mm k') = first_free_addr (k_mm k) /\
    block_node_array_last_idx (k_mm k') = block_node_array_last_idx (k_mm k)).
Proof.
  intros (bl & j & pg & rf & Hr & -> & Hb & Hrf) Hmax (bl2 & Hr2 & Hbig). rewrite (mm_repr_unique _ _ _ Hr2 Hr) in Hbig. clear bl2 Hr2.
  pose proof (mm_repr_wf _ _ Hr) as Hw. destruct (block_at_split _ _ _ _ Hb) as (l1 & l2 & -> & <-).
  apply wf_blocks_app in Hw as [Hw1 _]. rewrite Z.add_0_l in *.
  destruct (realloc_mem_block_repr _ _ _ _ _ Hr ltac:(lia) ltac:(lia)) as (a' & Hrun & Hr').
  assert (Hlive : forall q, in_use (set_array a' (k_mm k)) q <-> in_use (k_mm k) q).
  { intros q. split; intros (bl2 & i & Hr2 & Hq & Hl); [rewrite (mm_repr_unique _ _ _ Hr2 Hr') in Hl |
      rewrite (mm_repr_unique _ _ _ Hr2 Hr) in Hl]; eexists _, i; (split; [done |]; split; [done |]).
    - by rewrite (page_live_reref _ _ _ (rf + 1) rf) by lia.
    - by rewrite (page_live_reref _ _ _ rf (rf + 1)) by lia. }
  assert (Harea : same_area (k_mm k) (set_array a' (k_mm k))).
  { eapply set_array_area; [exact Hr | exact Hr' |]. by rewrite !npages_app. }
  unfold on_mm, post, zoom. rewrite Hrun. split_and!; try done.
  - split_and!; [|apply Harea | done]. intros q (H1 & H2 & H3). split; [done |]. split; [done |]. cbn.
    rewrite Hlive, (sa_managed _ _ Harea). done.
  - eexists. split; [exact Hr' |]. destruct Hbig as [?|(pg2 & Hin & Hle)]; [by left | right]. exists pg2. split; [|done].
    rewrite elem_of_app, elem_of_cons in Hin |- *. destruct Hin as [?|[[= -> E]|?]]; [auto | lia | auto].
  - intros p1 r1 (bl3 & j1 & pg1 & rf1 & Hr3 & -> & Hb1 & Hrf1). rewrite (mm_repr_unique _ _ _ Hr3 Hr) in Hb1.
    destruct (decide (j1 = npages l1)) as [->|Hne].
    + exists (l1 ++ (pg, rf + 1) :: l2), (npages l1), pg, (rf + 1). rewrite Hb in Hb1. injection Hb1 as <- <-.
      split_and!; [done | done | | lia | lia]. rewrite (block_at_mid _ _ _ rf) by done. by rewrite decide_True.
    + exists (l1 ++ (pg, rf + 1) :: l2), j1, pg1, rf1. split_and!; [done | done | | lia | lia].
      rewrite (block_at_mid _ _ _ rf) by done. by rewrite decide_False.
Qed.

(** ** Steps of the process manager *)

(** The state after some steps that concern CPU [id]: its description is [c],
    allocator and memory are [k], and nothing else has changed since [s0]. *)
Record reached (id : Z) (c : cpu_info) (k : kmem) (s0 s : pm_state) : Prop := {
  rc_cpu : cpu_at (p_m s) id = c;
  rc_others : forall j, j <> id -> cpu_at (p_m s) j = cpu_at (p_m s0) j;
  rc_statics : statics s = statics s0;
  rc_kmem : kmem_of s = k
}.

Lemma reached_mem id c k s0 s : reached id c k s0 s -> p_mem s = k_mem k.
Proof. intros H. by rewrite <-(rc_kmem _ _ _ _ _ H). Qed.

Lemma reached_set id c k s0 s f :
  reached id c k s0 s -> wp (set_vm id f) s (fun _ s' => reached id (set_vm_info (f (vm_info c)) c) k s0 s').
Proof.
  intros [Hc Ho Hs Hk]. apply set_vm_spec. intros s' E K C O. split; [by rewrite C, Hc | | congruence | congruence].
  intros j Hj. rewrite O by done. by apply Ho.
Qed.

Lemma reached_kmem {A} id c k s0 s (m : M kmem A) R :
  reached id c k s0 s -> wp m k R -> wp (on_kmem m) s (fun a s' => exists k', R a k' /\ reached id c k' s0 s').
Proof.
  intros [Hc Ho Hs Hk] Hm. apply on_kmem_spec. rewrite Hk. eapply post_mono; [exact Hm |].
  intros a k' _ HR s' E K C. exists k'. split; [done |]. split; [by rewrite C | | congruence | done].
  intros j Hj. rewrite C. by apply Ho.
Qed.

Lemma reached_poke id c k s0 s f :
  reached id c k s0 s -> wp (poke f) s (fun _ s' => reached id c (set_mem (f (k_mem k)) k) s0 s').
Proof.
  intros [Hc Ho Hs Hk]. unfold poke, on_machine, update_mem. wp_step. wp_step.
  split; try done. subst k. done.
Qed.

(** ** Sections of the child *)

Lemma pages_bound size : 0 < size -> 0 < pages size 4096 /\ size <= pages size 4096 * 4096 < size + 4096.
Proof.
  intros H. unfold pages. pose proof (Z.div_mod size 4096 ltac:(lia)). pose proof (Z.mod_pos_bound size 4096 ltac:(lia)).
  destruct (Z.ltb_spec 0 (size mod 4096)); lia.
Qed.

(** The child's section [x'] holds what the parent's section [x] holds. *)
Record imaged (x x' : section) (k k' : kmem) : Prop := {
  im_same : s_vaddr x' = s_vaddr x /\ s_size x' = s_size x;
  im_page : s_paddr x' mod 4096 = 0 /\ 0 <= s_paddr x' /\ s_paddr x' + s_size x + 4096 <= 2 ^ 63;
  im_bytes : same_bytes (k_mem k) (s_paddr x) (k_mem k') (s_paddr x') (s_size x);
  im_held : held k' (s_paddr x') (s_size x)
}.

Lemma copy_section_spec id c k s0 s x N :
  reached id c k s0 s -> 0 < s_size x -> held k (s_paddr x) (s_size x) -> mm_top (k_mm k) <= 2 ^ 48 ->
  roomy k N -> pages (s_size x) 4096 <= N ->
  wp (copy_section x) s (fun x' s' => exists k', reached id c k' s0 s' /\
    took (pages (s_size x) 4096) N (s_paddr x') k k' /\ imaged x x' k k').
Proof.
  intros Hs Hsz Hh Htop Hroom Hn. destruct (pages_bound (s_size x) Hsz) as (Hp & Hle & _). set (n := pages (s_size x) 4096) in *.
  unfold copy_section, alloc_pages. wp_step.
  eapply post_mono; [eapply reached_kmem; [exact Hs | by apply (alloc_took n N)] |].
  clear Hs. intros p s1 _ (k1 & (Ht & Hm) & Hs). wp_step.
  eapply post_mono; [eapply reached_poke; exact Hs |]. clear Hs. intros [] s2 _ Hs. wp_step. eexists. split; [exact Hs |].
  pose proof (held_disjoint _ _ _ _ _ _ _ Ht Hh Hsz Hp Hle) as Hd. cbn [s_paddr].
  assert (Hw : took n N p k (set_mem (memcpy (k_mem k1) p (s_paddr x) (s_size x)) k1)).
  { eapply took_write; [exact Ht |]. intros y Hy. rewrite byte_at_memcpy by lia. by rewrite decide_False by lia. }
  split; [exact Hw |]. split; cbn [s_paddr s_vaddr s_size]; [done | | |].
  - destruct Ht as [(? & ? & ?) _ _ _ _ _ _ _]. lia.
  - intros i Hi. cbn. rewrite byte_at_memcpy, decide_True by lia. rewrite Hm. f_equal. lia.
  - by eapply held_took.
Qed.

(** A shared section leaves the room as it was. *)
Lemma share_section_spec id c k s0 s x N r :
  reached id c k s0 s -> 0 < s_size x -> section_ok x -> held k (s_paddr x) (s_size x) -> mm_top (k_mm k) <= 2 ^ 48 ->
  roomy k N -> pages (s_size x) 4096 <= N -> r < 2 ^ 32 ->
  (reallocable (s_paddr x) (k_mm k) = true -> shareable (k_mm k) (s_paddr x) r) ->
  wp (share_section x) s (fun x' s' => exists k', reached id c k' s0 s' /\ evolves k k' /\ imaged x x' k k' /\
    roomy k' (N - pages (s_size x) 4096) /\
    (forall p r, shareable (k_mm k) p r -> shareable (k_mm k') p (r + 1)) /\
    first_free_addr (k_mm k') = first_free_addr (k_mm k) /\
    block_node_array_last_idx (k_mm k') = block_node_array_last_idx (k_mm k)).
Proof.
  intros Hs Hsz Hx Hh Htop Hroom Hn Hr Hshare. destruct (Hx Hsz) as (Hal & _ & H0 & _ & H63). unfold share_section. wp_step. apply post_gets.
  assert (p_mm s = k_mm k) as -> by (by rewrite <-(rc_kmem _ _ _ _ _ Hs)).
  destruct (reallocable (s_paddr x) (k_mm k)).
  - wp_step. eapply post_mono; [eapply reached_kmem; [exact Hs | by apply (share_block (s_paddr x) r N); [apply Hshare | |]] |].
    clear Hs. intros p s1 _ (k1 & (-> & Hm & He & Hroom1 & Hsh & H1 & H2) & Hs). wp_step. exists k1. split_and!; try done.
    + split; cbn [s_paddr s_vaddr s_size]; [done | done | | by eapply held_evolves].
      intros i Hi. by rewrite Hm.
    + destruct Hroom1 as (bl & Hbl & Hb). exists bl. split; [done |]. destruct (pages_bound _ Hsz).
      destruct Hb as [?|(pg & Hin & ?)]; [left; lia | right]. exists pg. split; [done | lia].
  - eapply post_mono; [by apply (copy_section_spec id c k s0 s x N) |].
    intros x' s1 _ (k1 & Hs1 & [Hp Hf Ht He Hroom1 Hsh H1 H2] & Him). exists k1. split_and!; try done.
    intros p r1 Hp1. destruct (Hsh p r1 Hp1) as (bl & j & pg & rf & ? & ? & ? & ?). exists bl, j, pg, rf. split_and!; try done; lia.
Qed.

(** Facts carried from one step to the next. *)
Lemma evolves_top k k' : evolves k k' -> mm_top (k_mm k') = mm_top (k_mm k).
Proof. intros (_ & H & _). exact H. Qed.

Lemma imaged_later x x' k k1 k2 : evolves k1 k2 -> imaged x x' k k1 -> imaged x x' k k2.
Proof.
  intros He [H1 H2 H3 H4]. split; [done | done | | by eapply held_evolves].
  intros i Hi. rewrite <-H3 by done. by apply (held_same _ _ _ _ He H4).
Qed.

Lemma imaged_before x x' k0 k k' :
  evolves k0 k -> held k0 (s_paddr x) (s_size x) -> imaged x x' k k' -> imaged x x' k0 k'.
Proof.
  intros He Hh [H1 H2 H3 H4]. split; [done | done | | done].
  intros i Hi. rewrite H3 by done. by apply (held_same _ _ _ _ He Hh).
Qed.

(** What must hold of the parent's sections. *)
Definition section_ready (k : kmem) (x : section) : Prop := 0 < s_size x /\ section_ok x /\ held k (s_paddr x) (s_size x).

Lemma section_ready_later k k' x : evolves k k' -> section_ready k x -> section_ready k' x.
Proof. intros He (H1 & H2 & H3). split_and!; [done | done | by eapply held_evolves]. Qed.

Definition with_sections (code data rodata bss : section) (v : vm_proc) : vm_proc :=
  set_vm_bss bss (set_vm_rodata rodata (set_vm_data data (set_vm_code code v))).

Lemma fork_sections_spec child pvm c k s0 s N :
  let n x := pages (s_size x) 4096 in
  reached child c k s0 s -> mm_top (k_mm k) <= 2 ^ 48 ->
  section_ready k (vm_code pvm) -> section_ready k (vm_data pvm) -> section_ready k (vm_rodata pvm) -> section_ready k (vm_bss pvm) ->
  (reallocable (s_paddr (vm_code pvm)) (k_mm k) = true -> shareable (k_mm k) (s_paddr (vm_code pvm)) (2 ^ 32 - 2)) ->
  (reallocable (s_paddr (vm_rodata pvm)) (k_mm k) = true -> shareable (k_mm k) (s_paddr (vm_rodata pvm)) (2 ^ 32 - 2)) ->
  0 <= N -> roomy k (n (vm_code pvm) + n (vm_data pvm) + n (vm_rodata pvm) + n (vm_bss pvm) + N) ->
  wp (fork_sections child pvm) s (fun bss s' => exists code data rodata k3 k4,
    reached child (set_vm_info (with_sections code data rodata bss (vm_info c)) c) k4 s0 s' /\
    evolves k k3 /\ took (n (vm_bss pvm)) (n (vm_bss pvm) + N) (s_paddr bss) k3 k4 /\
    imaged (vm_code pvm) code k k3 /\ imaged (vm_data pvm) data k k3 /\ imaged (vm_rodata pvm) rodata k k3 /\
    imaged (vm_bss pvm) bss k k4 /\ (forall q, block_pages (s_paddr data) (n (vm_data pvm)) q -> ~ taken (k_mm k) q)).
Proof.
  intros n Hs Htop X1 X2 X3 X4 Sh1 Sh3 HN Hroom. unfold fork_sections.
  assert (Hn : forall x, section_ready k x -> 0 < n x) by (intros x (Hx & _); by apply pages_bound).
  pose proof (Hn _ X1) as N1; pose proof (Hn _ X2) as N2; pose proof (Hn _ X3) as N3; pose proof (Hn _ X4) as N4.
  destruct X1 as (Z1 & O1 & H1). wp_step.
  eapply post_mono; [eapply (share_section_spec child c k s0 s (vm_code pvm) _ (2 ^ 32 - 2) Hs Z1 O1 H1 Htop Hroom); [fold (n (vm_code pvm)); lia | lia | done] |].
  clear Hs Hroom. intros code s1 _ (k1 & Hs & E1 & I1 & Hroom & Hsh1 & F1 & L1). fold (n (vm_code pvm)) in Hroom.
  wp_step. eapply post_mono; [eapply reached_set; exact Hs |]. clear Hs. intros [] s2 _ Hs.
  destruct (section_ready_later _ _ _ E1 X2) as (Z2 & O2 & H2'). wp_step.
  eapply post_mono; [eapply (copy_section_spec child _ k1 s0 s2 (vm_data pvm) _ Hs Z2 H2'); [by rewrite (evolves_top _ _ E1) | exact Hroom | fold (n (vm_data pvm)); lia] |].
  clear Hs Hroom. intros data s3 _ (k2 & Hs & T2 & I2). fold (n (vm_data pvm)) in T2. pose proof (tk_evolves _ _ _ _ _ T2) as E2.
  wp_step. eapply post_mono; [eapply reached_set; exact Hs |]. clear Hs. intros [] s4 _ Hs.
  assert (E12 : evolves k k2) by (by etransitivity).
  destruct (section_ready_later _ _ _ E12 X3) as (Z3 & O3 & H3'). wp_step.
  eapply post_mono; [eapply (share_section_spec child _ k2 s0 s4 (vm_rodata pvm) _ (2 ^ 32 - 1) Hs Z3 O3 H3');
    [by rewrite (evolves_top _ _ E12) | apply T2 | fold (n (vm_rodata pvm)); lia | lia |] |].
  { intros Hre. apply (tk_share _ _ _ _ _ T2). replace (2 ^ 32 - 1) with (2 ^ 32 - 2 + 1) by lia. apply Hsh1, Sh3. revert Hre.
    unfold reallocable. by rewrite (tk_first _ _ _ _ _ T2), (tk_last _ _ _ _ _ T2), F1, L1. }
  clear Hs. intros rodata s5 _ (k3 & Hs & E3 & I3 & Hroom & _ & _ & _). fold (n (vm_rodata pvm)) in Hroom.
  wp_step. eapply post_mono; [eapply reached_set; exact Hs |]. clear Hs. intros [] s6 _ Hs.
  assert (E13 : evolves k k3) by (by etransitivity).
  destruct (section_ready_later _ _ _ E13 X4) as (Z4 & O4 & H4'). wp_step.
  eapply post_mono; [eapply (copy_section_spec child _ k3 s0 s6 (vm_bss pvm) (n (vm_bss pvm) + N) Hs Z4 H4');
    [by rewrite (evolves_top _ _ E13) | | fold (n (vm_bss pvm)); lia] |].
  { replace (n (vm_bss pvm) + N) with (n (vm_code pvm) + n (vm_data pvm) + n (vm_rodata pvm) + n (vm_bss pvm) + N
      - n (vm_code pvm) - n (vm_data pvm) - n (vm_rodata pvm)) by lia. exact Hroom. }
  clear Hs Hroom. intros bss s7 _ (k4 & Hs & T4 & I4). fold (n (vm_bss pvm)) in T4.
  wp_step. eapply post_mono; [eapply reached_set; exact Hs |]. clear Hs. intros [] s8 _ Hs. wp_step.
  exists code, data, rodata, k3, k4. destruct X2 as (_ & _ & X2), X3 as (_ & _ & X3), X4 as (_ & _ & X4). split_and!; [exact Hs | done | done | | | | |].
  - eapply imaged_later; [|exact I1]. by etransitivity.
  - eapply imaged_later; [exact E3 |]. by eapply imaged_before; [exact E1 | |].
  - by eapply imaged_before; [exact E12 | |].
  - by eapply imaged_before; [exact E13 | |].
  - intros q Hq Hk. apply (tk_fresh _ _ _ _ _ T2 q Hq). by apply E1.
Qed.

(** ** The stack *)

(** Sections in the order in which [virt2phys] looks for an address. *)
Definition in_order (v : vm_proc) : Prop :=
  s_vaddr (vm_code v) <= s_vaddr (vm_data v) /\ s_vaddr (vm_data v) <= s_vaddr (vm_rodata v) /\
  s_vaddr (vm_rodata v) <= s_vaddr (vm_bss v) /\ s_vaddr (vm_bss v) <= s_vaddr (vm_stack v).

Lemma virt2phys_stack {S} c a (s : S) :
  in_order (vm_info c) -> s_vaddr (vm_stack (vm_info c)) <= a <= vm_end_vaddr (vm_info c) ->
  virt2phys c a s = Ok (w64 (s_paddr (vm_stack (vm_info c)) + (a - s_vaddr (vm_stack (vm_info c))))) s.
Proof.
  intros (O1 & O2 & O3 & O4) Ha. unfold virt2phys.
  do 4 (rewrite (proj2 (Z.ltb_ge a _)) by lia; rewrite andb_false_r).
  rewrite (proj2 (Z.leb_le _ a)), (proj2 (Z.leb_le a _)) by lia. done.
Qed.

Lemma virt2phys_bss {S} c a (s : S) :
  in_order (vm_info c) -> s_vaddr (vm_bss (vm_info c)) <= a < s_vaddr (vm_stack (vm_info c)) ->
  virt2phys c a s = Ok (w64 (s_paddr (vm_bss (vm_info c)) + (a - s_vaddr (vm_bss (vm_info c))))) s.
Proof.
  intros (O1 & O2 & O3 & O4) Ha. unfold virt2phys.
  do 3 (rewrite (proj2 (Z.ltb_ge a _)) by lia; rewrite andb_false_r).
  rewrite (proj2 (Z.leb_le _ a)), (proj2 (Z.ltb_lt a _)) by lia. done.
Qed.

Lemma held_pos k p n : pa_ok k -> held k p n -> 0 < n -> 0 < p.
Proof. intros Hok Hh Hn. destruct (Hh p ltac:(lia)) as (q & Hq & Hx). apply pa_owned_page in Hq; [lia | done]. Qed.

Lemma fork_stack_spec child pc regs c k s0 s N :
  let x := vm_stack (vm_info pc) in
  let rsp := rg_rsp (load_regs (k_mem k) regs) in
  let off := rsp - s_vaddr x in
  reached child c k s0 s -> mm_top (k_mm k) <= 2 ^ 48 -> section_ready k x ->
  in_order (vm_info pc) -> in_order (set_vm_stack x (vm_info c)) ->
  0 <= off <= s_size x -> rsp <= vm_end_vaddr (vm_info pc) -> vm_end_vaddr (vm_info c) = vm_end_vaddr (vm_info pc) ->
  0 <= N -> roomy k (pages (s_size x) 4096 + N) ->
  wp (fork_stack child pc regs) s (fun cc s' => exists p k',
    cc = set_vm_info (set_vm_stack (Sec p (s_vaddr x) (s_size x)) (vm_info c)) c /\ reached child cc k' s0 s' /\
    took (pages (s_size x) 4096) (pages (s_size x) 4096 + N) p k k' /\
    same_bytes (k_mem k) (s_paddr x + off) (k_mem k') (p + off) (s_size x - off)).
Proof.
  intros x rsp off Hs Htop (Hsz & Hx & Hh) Op Oc Hoff Hend Hce HN Hroom. destruct (Hx Hsz) as (_ & Hv0 & _ & H42 & H63).
  destruct (pages_bound _ Hsz) as (Hn & Hle & _). set (n := pages (s_size x) 4096) in *. pose proof (roomy_ok _ _ Hroom) as Hok.
  pose proof (held_pos _ _ _ Hok Hh Hsz) as Hpos. assert (Eoff : rsp - s_vaddr x = off) by done. clearbody off.
  unfold fork_stack, alloc_pages. fold x. cbv zeta. wp_step.
  eapply post_mono; [eapply reached_kmem; [exact Hs | apply (alloc_took n (n + N)); [lia | done]] |].
  clear Hs. intros p s1 _ (k1 & (Ht & Hm) & Hs). pose proof Ht as [(Hp0 & Hpa & Hpt) _ _ _ _ _ _ _]. wp_step.
  eapply post_mono; [eapply reached_set; exact Hs |]. clear Hs. intros [] s2 _ Hs.
  set (cc := set_vm_info _ c) in Hs. wp_step. apply post_gets. rewrite (reached_mem _ _ _ _ _ Hs), Hm. fold rsp.
  wp_step. unfold cpu. apply post_gets. rewrite (rc_cpu _ _ _ _ _ Hs). cbv beta zeta.
  assert (Hvp : virt2phys pc rsp s2 = Ok (s_paddr x + off) s2).
  { rewrite virt2phys_stack by (done || (fold x; lia)). fold x. rewrite Eoff. by rewrite w64_small by lia. }
  assert (Hvc : virt2phys cc rsp s2 = Ok (p + off) s2).
  { rewrite virt2phys_stack; [change (vm_stack (vm_info cc)) with (Sec p (s_vaddr x) (s_size x)); cbn [s_paddr s_vaddr];
      rewrite Eoff; by rewrite w64_small by lia | exact Oc | idtac]. change (s_vaddr x <= rsp <= vm_end_vaddr (vm_info c)). lia. }
  wp_step. unfold post at 1. rewrite Hvc. wp_step. unfold post at 1. rewrite Hvp.
  destruct (Z.eqb_spec (p + off) 0); [lia |]. destruct (Z.eqb_spec (s_paddr x + off) 0); [lia |].
  replace (s_vaddr x + s_size x - rsp) with (s_size x - off) by lia. rewrite w64_small by lia.
  wp_step. eapply post_mono; [eapply reached_poke; exact Hs |]. clear Hs. intros [] s3 _ Hs. wp_step.
  exists p. eexists. split; [done |]. split; [exact Hs |].
  pose proof (held_disjoint _ _ _ _ _ _ _ Ht Hh Hsz Hn Hle) as Hd. split.
  - eapply took_write; [exact Ht |]. intros y Hy. rewrite byte_at_memcpy by lia. by rewrite decide_False by lia.
  - intros i Hi. cbn. rewrite byte_at_memcpy, decide_True by lia. rewrite Hm. f_equal. lia.
Qed.
