(* ===== verification/PmForkSpec.v ===== *)
(** * Correctness of fork

    [local_fork] returns, and the child it has built has the parent's
    registers and memory: its page tables and EPT map the child's own copies
    (or, for code and read-only data, shared blocks), and nothing that was in
    use before, and no other CPU's description, has changed. *)

From S2P Require Import Prelude PhysMem MemMgr MemMgrSpec Paging PageWalk PagingSpec EptSpec PmAlloc CpuInfo Ipc.
From S2P Require Import Channel Pm PmEpt PmProc PmSpec PmFork.

(** ** The descriptor or channel page *)

Lemma clean_took n N k :
  0 < n < 2 ^ 31 -> n <= N -> roomy k N ->
  wp (alloc_clean_mem_pages n) k (fun p k' => took n N p k k' /\ forall x, p <= x < p + n * 4096 -> byte_at (k_mem k') x = 0).
Proof.
  intros Hn HN Hr. unfold alloc_clean_mem_pages. wp_step. eapply post_mono; [by apply (alloc_took n N); [lia |] |].
  intros p k1 _ [Ht _]. pose proof Ht as [(Hp & _ & _) _ _ _ _ _ _ _].
  rewrite (proj2 (Z.ltb_lt 0 p)) by done. wp_step. wp_step; [|done]. wp_step. wp_step. rewrite w64_small by lia. split.
  - eapply took_write; [exact Ht |]. intros x Hx. by rewrite byte_at_memset, decide_False by lia.
  - intros x Hx. cbn. by rewrite byte_at_memset, decide_True by lia.
Qed.

Definition with_table (c : cpu_info) (p : Z) : cpu_info :=
  set_vm_info ((if is_driver (cpuid c) then set_vm_channels p else set_vm_fds p) (vm_info c)) c.

Lemma fork_tables_spec child c k s0 s N :
  reached child c k s0 s -> 0 <= N -> roomy k (1 + N) ->
  wp (fork_tables child c) s (fun _ s' => exists p k', reached child (with_table c p) k' s0 s' /\
    took 1 (1 + N) p k k' /\ forall x, p <= x < p + 4096 -> byte_at (k_mem k') x = 0).
Proof.
  intros Hs HN Hr. unfold fork_tables, with_table.
  assert (Ha : forall f, wp (p ← on_kmem (alloc_clean_mem_pages 1); set_vm child (f p)) s (fun _ s' => exists p k',
    reached child (set_vm_info (f p (vm_info c)) c) k' s0 s' /\ took 1 (1 + N) p k k' /\ forall x, p <= x < p + 4096 -> byte_at (k_mem k') x = 0)).
  { intros f. wp_step. eapply post_mono; [eapply reached_kmem; [exact Hs | apply (clean_took 1 (1 + N)); [lia | lia | done]] |].
    intros p s1 _ (k1 & (Ht & Hz) & Hs1). eapply post_mono; [eapply reached_set; exact Hs1 |].
    intros [] s2 _ Hs2. exists p, k1. split_and!; [exact Hs2 | done | done]. }
  change (pages (MAX_FD * FD_SIZE) USER_VMS_PAGE_SIZE) with 1. change (pages (MAX_CHANNELS * 8) USER_VMS_PAGE_SIZE) with 1.
  destruct (is_driver (cpuid c)); cbn [negb]; wp_step.
  - wp_step; [done |]. wp_step; [|done]. apply (Ha set_vm_channels).
  - wp_step; [|done]. eapply post_mono; [apply (Ha set_vm_fds) |]. intros [] s1 _ HQ. wp_step; [done |]. exact HQ.
Qed.

(** ** Page tables *)

(** Page tables and EPT hold the translations whatever is written outside
    the pages [k'] has over [k]. *)
Definition translates (c : cpu_info) (info pt ept : Z) (tables files : list Z) (k k' : kmem) : Prop :=
  forall k'', kept (fun q => taken (k_mm k') q /\ ~ taken (k_mm k) q) k' k'' ->
  forall a, 0 <= a < 2 ^ 48 -> walk (k_mem k'') pt a = overlay _2MB_ vm_page_regions a /\
    walk (k_mem k'') ept a = overlay _4KB_ (vm_regions c info tables files) a.

Lemma fork_ept child c k s0 s :
  reached child c k s0 s -> vm_described child c s ->
  wp (ept_pmap child) s (fun _ s' => exists pt ept tables k', reached child (with_tables pt ept c) k' s0 s' /\
    evolves k k' /\ pa_ok k' /\
    translates c (cpu_addr child s0) pt ept tables (fd_pages (k_mem k) (vm_fds (vm_info c)) (seqZ 0 MAX_FD)) k k' /\
    (forall t, t ∈ tables -> ~ taken (k_mm k) t)).
Proof.
  intros [Hc Ho Hst Hk] Hd. destruct (ept_pmap_spec _ _ _ Hd) as
    (s' & pt & ept & tables & Hrun & Hc' & Ho' & Hpt & Hept & Htb & Hin & Hst' & Htop & Hok & Hwalk).
  unfold post. rewrite Hrun. exists pt, ept, tables, (kmem_of s'). subst k. split_and!; [split | | done | |].
  - done.
  - intros j Hj. rewrite Ho' by done. by apply Ho.
  - congruence.
  - done.
  - split_and!; [intros q Hq; by apply Hin | done |]. intros x (q & Hq & Hx). by apply Hin with q.
  - intros k'' Hk a Ha. rewrite (Hwalk k'' pt a), (Hwalk k'' ept a) by auto. split; [by apply Hpt |].
    rewrite <-(cpu_addr_statics child s0 s) by done. by apply Hept.
  - intros t Ht. by apply Htb.
Qed.

(** The child's description suits [ept_pmap]. *)
Lemma child_described child c p k s0 s :
  reached child (with_table c p) k s0 s -> has_1GB_page s0 = false -> mm_top (k_mm k) <= 2 ^ 48 -> roomy k (vm_demand (with_table c p)) ->
  page_ok (cpu_addr child s0) -> Forall page_ok (message_pages c) -> Forall section_ok (vm_sections (with_table c p)) ->
  0 < p -> page_ok p -> taken (k_mm k) p -> (forall x, p <= x < p + 4096 -> byte_at (k_mem k) x = 0) ->
  vm_fds (vm_info c) = 0 -> vm_channels (vm_info c) = 0 ->
  vm_described child (with_table c p) s /\
  fd_pages (k_mem k) (vm_fds (vm_info (with_table c p))) (seqZ 0 MAX_FD) = [].
Proof.
  intros [Hc Ho Hst Hk] Hbig Htop Hroom Hinfo Hmsg Hsec Hp Hpo Htk Hz Hf Hch. pose proof Hst as [= E1 E2 E3 E4 E5 _ _ _ _].
  assert (Hfiles : fd_pages (k_mem k) (vm_fds (vm_info (with_table c p))) (seqZ 0 MAX_FD) = []).
  { unfold fd_pages, with_table. destruct (is_driver (cpuid c)); cbn [vm_fds vm_info set_vm_info set_vm_channels set_vm_fds]; [by rewrite Hf |].
    destruct (0 <? p); [|done]. destruct (filter _ _) as [|o l] eqn:E; [done | exfalso].
    assert (Ho' : o ∈ o :: l) by left. rewrite <-E in Ho'. apply list_elem_of_filter in Ho' as [Hne (i & -> & Hi)%list_elem_of_fmap].
    apply elem_of_seqZ in Hi. apply Hne. unfold fd_offset. apply load_zero. intros x Hx. apply Hz. lia. }
  split; [|done]. subst k. cbn [k_mm k_mem] in *. split; try done.
  - by rewrite E1.
  - by eapply roomy_ok.
  - by rewrite (cpu_addr_statics _ _ _ Hst).
  - unfold with_table. destruct (is_driver (cpuid c)); cbn; [by rewrite Hf | done].
  - by rewrite Hfiles.
  - unfold with_table. destruct (is_driver (cpuid c)); cbn; [done | by rewrite Hch].
  - by apply roomy_avail.
Qed.

(** ** Descriptors and registers *)

(** Writing to a block that was free in [k0]. *)
Lemma evolves_write k0 k m p n :
  evolves k0 k -> p mod 4096 = 0 -> (forall q, block_pages p n q -> ~ taken (k_mm k0) q) ->
  (forall x, ~ (p <= x < p + n * 4096) -> byte_at m x = byte_at (k_mem k) x) -> evolves k0 (set_mem m k).
Proof.
  intros (E1 & E2 & E3) Hpa Hf Hm. split_and!; [done | done |]. intros x Hx. etransitivity; [by apply E3 |]. symmetry. apply Hm.
  intros Hin. destruct Hx as (q & Hq & Hx). pose proof Hq as (Hqa & _). apply (Hf q); [|exact Hq].
  pose proof (Z.div_mod q 4096 ltac:(lia)). pose proof (Z.div_mod p 4096 ltac:(lia)). exists (q / 4096 - p / 4096). lia.
Qed.

Lemma load_same n m m' a b : same_bytes m b m' a (Z.of_nat n) -> load n m' a = load n m b.
Proof.
  revert a b. induction n as [|n IH]; intros a b Hj; [done |]. cbn [load]. f_equal.
  - specialize (Hj 0). rewrite !Z.add_0_r in Hj. apply Hj. lia.
  - f_equal. apply IH. intros j Hj'. rewrite <-!Z.add_assoc. apply Hj. lia.
Qed.

Lemma fork_fds_plain child c k s0 s pfds p :
  reached child c k s0 s -> (pfds + 768 <= p \/ p + 768 <= pfds) ->
  (forall i, 0 <= i < MAX_FD -> fd_type (k_mem k) pfds i <> TYPE_CHAR) ->
  wp (fork_fds child pfds p) s (fun _ s' => reached child c (set_mem (memcpy (k_mem k) p pfds 768) k) s0 s').
Proof.
  intros Hs Hd Hty. unfold fork_fds. wp_step. change (MAX_FD * FD_SIZE) with 768.
  eapply post_mono; [eapply reached_poke; exact Hs |]. clear Hs. intros [] s1 _ Hs.
  eapply post_mono; [apply (post_forM _ (fun l s' => s' = s1 /\ Forall (fun i => 0 <= i < MAX_FD) l)) | by intros [] s' _ (-> & _)].
  - split; [done |]. apply Forall_forall. intros i Hi. apply elem_of_seqZ in Hi. lia.
  - intros i l s' (-> & Hl). apply Forall_cons in Hl as [Hi Hl]. wp_step. apply post_gets. wp_step; [|done].
    exfalso. bool_to_prop. apply (Hty i Hi). revert H. rewrite (reached_mem _ _ _ _ _ Hs). cbn [set_mem k_mem]. intros <-.
    unfold fd_type. symmetry. apply (load_same 4). intros j Hj. rewrite byte_at_memcpy, decide_True by lia. f_equal. lia.
Qed.

(** What the parent's descriptor table must be: absent, or in use and
    without character devices. *)
Definition plain_fds (k : kmem) (fds : Z) : Prop :=
  fds = 0 \/ held k fds 768 /\ forall i, 0 <= i < MAX_FD -> fd_type (k_mem k) fds i <> TYPE_CHAR.
(** The bytes of a descriptor table; those of an absent one are zero. *)
Definition fd_bytes (m : memory) (fds i : Z) : Z := if fds =? 0 then 0 else byte_at m (fds + i).

Lemma plain_fds_later k k' fds : evolves k k' -> plain_fds k fds -> plain_fds k' fds.
Proof.
  intros He [?|[Hh Ht]]; [by left | right]. split; [by eapply held_evolves |]. intros i Hi E.
  apply (Ht i Hi). rewrite <-E. symmetry. unfold fd_type. apply (load_same 4).
  intros j Hj. rewrite <-!Z.add_assoc. apply (held_same _ _ _ _ He Hh). lia.
Qed.

Lemma inherit_spec child c k s0 s pfds p :
  reached child c k s0 s -> plain_fds k pfds -> vm_fds (vm_info c) = p ->
  (0 < p -> pfds + 768 <= p \/ p + 768 <= pfds) -> 0 <= p ->
  (forall x, p <= x < p + 768 -> byte_at (k_mem k) x = 0) ->
  wp (when (negb (p =? 0) && negb (pfds =? 0)) (fork_fds child pfds p)) s (fun _ s' => exists m,
    reached child c (set_mem m k) s0 s' /\ (forall x, ~ (0 < p /\ p <= x < p + 768) -> byte_at m x = byte_at (k_mem k) x) /\
    (0 < p -> forall i, 0 <= i < 768 -> byte_at m (p + i) = fd_bytes (k_mem k) pfds i)).
Proof.
  intros Hs Hpf Hp Hd H0 Hz. unfold fd_bytes. wp_step; bool_to_prop.
  - destruct Hpf as [?|[Hh Ht]]; [lia |]. specialize (Hd ltac:(lia)).
    eapply post_mono; [apply fork_fds_plain; [exact Hs | exact Hd | exact Ht] |]. intros [] s1 _ Hs1. eexists. split; [exact Hs1 |].
    rewrite (proj2 (Z.eqb_neq pfds 0)) by done. split.
    + intros x Hx. by rewrite byte_at_memcpy, decide_False by lia.
    + intros Hpp i Hi. rewrite byte_at_memcpy, decide_True by lia. f_equal. lia.
  - exists (k_mem k). destruct k as [mm m]. split; [exact Hs |]. split; [done |]. intros Hpp i Hi. cbn [k_mem] in *.
    rewrite Hz by lia. apply andb_false_iff in H as [H|H]; bool_to_prop; [lia | subst pfds; done].
Qed.

Lemma load_regs_ext m m' a : same_bytes m a m' a REGS_SIZE -> load_regs m' a = load_regs m a.
Proof.
  intros H. assert (Hl : forall o, 0 <= o <= 208 -> load64 m' (a + o) = load64 m (a + o)).
  { intros o Ho. apply (load_same 8). intros j Hj. rewrite <-!Z.add_assoc. apply H. lia. }
  unfold load_regs. rewrite !Hl by lia. reflexivity.
Qed.

Lemma fork_regs_spec child pc c k s0 s bp va regs :
  let x := vm_bss (vm_info pc) in
  reached child c k s0 s -> in_order (vm_info pc) -> section_ok x -> 0 < s_size x ->
  s_vaddr x <= va /\ va + 8 <= s_vaddr x + s_size x /\ va < s_vaddr (vm_stack (vm_info pc)) ->
  0 <= bp /\ bp + s_size x + 4096 <= 2 ^ 63 ->
  wp (fork_regs child pc bp va regs) s (fun _ s' =>
    reached child (set_vm_info (set_vm_regs (set_rg_rax 0 (load_regs (k_mem k) regs)) (vm_info c)) c)
      (set_mem (store64 (k_mem k) (bp + (va - s_vaddr x)) (cpu_addr child s0)) k) s0 s').
Proof.
  intros x Hs Hord Hx Hsz Hva Hbp. destruct (Hx Hsz) as (_ & Hv & Hp0 & H42 & H63). unfold fork_regs. wp_step. apply post_gets.
  rewrite (reached_mem _ _ _ _ _ Hs). wp_step. eapply post_mono; [eapply reached_set; exact Hs |]. clear Hs. intros [] s1 _ Hs.
  wp_step. unfold post at 1. rewrite virt2phys_bss by (done || (fold x; lia)). fold x. rewrite (w64_small (s_paddr x + _)) by lia. cbv zeta.
  replace (s_paddr x + (va - s_vaddr x) - s_paddr x) with (va - s_vaddr x) by lia. rewrite (w64_small (va - _)) by lia.
  wp_step. apply post_gets. rewrite w64_small by lia. rewrite (cpu_addr_statics child s0 s1) by apply Hs.
  wp_step. eapply post_mono; [eapply reached_poke; exact Hs |]. clear Hs. intros [] s2 _ Hs.
  eapply post_mono; [eapply reached_set; exact Hs |]. clear Hs. intros [] s3 _ Hs. exact Hs.
Qed.

(** ** The child's memory before its page tables *)

Definition child_sections (c : cpu_info) (pvm : vm_proc) (code data rodata bss : section) (st : Z) : cpu_info :=
  set_vm_info (set_vm_stack (Sec st (s_vaddr (vm_stack pvm)) (s_size (vm_stack pvm)))
    (with_sections code data rodata bss (vm_info c))) c.
Definition child_cpu (c : cpu_info) (pvm : vm_proc) (code data rodata bss : section) (st p : Z) : cpu_info :=
  with_table (child_sections c pvm code data rodata bss st) p.

(** Sections, stack and table of the child, with the memory at four moments:
    before the bss, after it, after the stack and after the table. *)
Record built (pvm : vm_proc) (rsp N : Z) (k : kmem) (code data rodata bss : section) (st p : Z) (k3 k4 k5 k6 : kmem) : Prop := {
  bu_evolves : evolves k k3;
  bu_code : imaged (vm_code pvm) code k k3;
  bu_data : imaged (vm_data pvm) data k k3;
  bu_rodata : imaged (vm_rodata pvm) rodata k k3;
  bu_fresh : forall q, block_pages (s_paddr data) (pages (s_size data) 4096) q -> ~ taken (k_mm k) q;
  bu_bss : imaged (vm_bss pvm) bss k k4;
  bu_bss_took : exists N', took (pages (s_size bss) 4096) N' (s_paddr bss) k3 k4;
  bu_stack_took : exists N', took (pages (s_size (vm_stack pvm)) 4096) N' st k4 k5;
  bu_stack : same_bytes (k_mem k) (s_paddr (vm_stack pvm) + (rsp - s_vaddr (vm_stack pvm))) (k_mem k5)
    (st + (rsp - s_vaddr (vm_stack pvm))) (s_size (vm_stack pvm) - (rsp - s_vaddr (vm_stack pvm)));
  bu_table_took : took 1 (1 + N) p k5 k6;
  bu_table : forall x, p <= x < p + 4096 -> byte_at (k_mem k6) x = 0
}.

(** The parent's memory is such that it can be copied. *)
Record parent_ready (pvm : vm_proc) (rsp : Z) (k : kmem) : Prop := {
  pr_top : mm_top (k_mm k) <= 2 ^ 48;
  pr_sections : Forall (section_ready k) [vm_code pvm; vm_data pvm; vm_rodata pvm; vm_bss pvm; vm_stack pvm];
  pr_order : in_order pvm;
  pr_shared : forall x, x = vm_code pvm \/ x = vm_rodata pvm ->
    reallocable (s_paddr x) (k_mm k) = true -> shareable (k_mm k) (s_paddr x) (2 ^ 32 - 2);
  pr_rsp : s_vaddr (vm_stack pvm) <= rsp <= s_vaddr (vm_stack pvm) + s_size (vm_stack pvm) /\ rsp <= vm_end_vaddr pvm
}.

Definition copy_pages (pvm : vm_proc) : Z :=
  foldr (fun x n => pages (s_size x) 4096 + n) 0 [vm_code pvm; vm_data pvm; vm_rodata pvm; vm_bss pvm; vm_stack pvm].

Lemma fork_copies child pc c k s0 s regs N (K : section -> M pm_state unit) Q :
  let pvm := vm_info pc in
  let rsp := rg_rsp (load_regs (k_mem k) regs) in
  reached child c k s0 s -> parent_ready pvm rsp k -> held k regs REGS_SIZE ->
  vm_end_vaddr (vm_info c) = vm_end_vaddr pvm -> 0 <= N -> roomy k (copy_pages pvm + 1 + N) ->
  (forall code data rodata bss st p k3 k4 k5 k6 s',
     built pvm rsp N k code data rodata bss st p k3 k4 k5 k6 ->
     reached child (child_cpu c pvm code data rodata bss st p) k6 s0 s' -> wp (K bss) s' Q) ->
  wp (bss ← fork_sections child pvm; cc ← fork_stack child pc regs; fork_tables child cc ;; K bss) s Q.
Proof.
  intros pvm rsp Hs [Htop Hsec Hord Hsh Hrsp] Hregs Hend HN Hroom HK. repeat (apply Forall_cons in Hsec as [? Hsec]). clear Hsec.
  assert (Hpos : forall x, section_ready k x -> 0 < pages (s_size x) 4096) by (intros x (Hx & _); by apply pages_bound).
  pose proof (Hpos _ H3). set (ns := pages (s_size (vm_stack pvm)) 4096) in *.
  wp_step. eapply post_mono; [apply (fork_sections_spec child pvm c k s0 s (ns + (1 + N)) Hs Htop) |]; try done; try lia.
  { apply Hsh. by left. } { apply Hsh. by right. }
  { unfold copy_pages in Hroom. cbn [foldr] in Hroom. fold ns in Hroom. eapply eq_ind; [exact Hroom | lia]. }
  clear Hs. intros bss s1 _ (code & data & rodata & k3 & k4 & Hs & E3 & T4 & I1 & I2 & I3 & I4 & F2).
  pose proof (tk_evolves _ _ _ _ _ T4) as E4. assert (E04 : evolves k k4) by (by etransitivity).
  assert (Er : load_regs (k_mem k4) regs = load_regs (k_mem k) regs) by (apply load_regs_ext; by apply held_same).
  wp_step. eapply post_mono; [apply (fork_stack_spec child pc regs _ k4 s0 s1 (1 + N) Hs) |].
  - by rewrite (evolves_top _ _ E04).
  - by eapply section_ready_later.
  - done.
  - destruct I1 as [[V1 _] _ _ _], I2 as [[V2 _] _ _ _], I3 as [[V3 _] _ _ _], I4 as [[V4 _] _ _ _].
    unfold in_order, with_sections. cbn. by rewrite V1, V2, V3, V4.
  - rewrite Er. fold rsp pvm. lia.
  - rewrite Er. apply Hrsp.
  - done.
  - lia.
  - eapply eq_ind; [exact (tk_room _ _ _ _ _ T4) |]. fold pvm ns. lia.
  - clear Hs. intros cc s2 _ (st & k5 & -> & Hs & T5 & Hst). fold pvm ns in T5, Hs, Hst. rewrite Er in Hst. fold rsp in Hst.
    wp_step. eapply post_mono; [apply (fork_tables_spec child _ k5 s0 s2 N Hs HN) |].
    { eapply eq_ind; [exact (tk_room _ _ _ _ _ T5) | lia]. }
    clear Hs. intros [] s3 _ (p & k6 & Hs & T6 & Hz). apply (HK code data rodata bss st p k3 k4 k5 k6 s3); [|exact Hs].
    assert (Hsz : forall x x' k k', imaged x x' k k' -> s_size x' = s_size x) by (by intros ? ? ? ? [[_ ?] _ _ _]).
    split; try done.
    + intros q. rewrite (Hsz _ _ _ _ I2). apply F2.
    + eexists. rewrite (Hsz _ _ _ _ I4). exact T4.
    + eexists. exact T5.
    + intros i Hi. rewrite Hst by done. rewrite <-!Z.add_assoc. destruct H3 as (_ & _ & Hh).
      apply (held_same _ _ _ _ E04 Hh). lia.
Qed.

(** ** The child's memory afterwards *)

Lemma held_page k x n q y : held k x n -> x <= y < x + n -> q <= y < q + 4096 -> q mod 4096 = 0 -> taken (k_mm k) q.
Proof.
  intros Hh Hy Hq Hqa. destruct (Hh y Hy) as (q' & Hq' & Hy'). pose proof Hq' as (Hqa' & _).
  pose proof (Z.div_mod q 4096 ltac:(lia)). pose proof (Z.div_mod q' 4096 ltac:(lia)). assert (q = q') as -> by lia. exact Hq'.
Qed.

Lemma fresh_apart n N p k k' x sz y : took n N p k k' -> held k x sz -> x <= y < x + sz -> ~ (p <= y < p + n * 4096).
Proof.
  intros [(Hp0 & Hpa & _) Hf _ _ _ _ _ _] Hh Hy Hin. destruct (Hh y Hy) as (q & Hq & Hx). apply (Hf q); [|exact Hq]. destruct Hq as (Hqa & _).
  pose proof (Z.div_mod q 4096 ltac:(lia)). pose proof (Z.div_mod p 4096 ltac:(lia)). exists (q / 4096 - p / 4096). lia.
Qed.

Lemma built_final pvm rsp N k code data rodata bss st p k3 k4 k5 k6 k7 m off v :
  built pvm rsp N k code data rodata bss st p k3 k4 k5 k6 -> evolves k6 k7 ->
  0 <= rsp - s_vaddr (vm_stack pvm) -> 0 < s_size (vm_bss pvm) -> 0 < s_size (vm_stack pvm) ->
  0 <= off -> off + 8 <= s_size (vm_bss pvm) -> 0 <= v < 2 ^ 64 ->
  (forall x, ~ (p <= x < p + 4096) -> byte_at m x = byte_at (k_mem k7) x) ->
  let k8 := set_mem (store64 m (s_paddr bss + off) v) k7 in
  let so := rsp - s_vaddr (vm_stack pvm) in
  evolves k k8 /\ imaged (vm_code pvm) code k k8 /\ imaged (vm_data pvm) data k k8 /\ imaged (vm_rodata pvm) rodata k k8 /\
  load64 (k_mem k8) (s_paddr bss + off) = v /\
  (forall i, 0 <= i < s_size (vm_bss pvm) -> ~ (off <= i < off + 8) ->
     byte_at (k_mem k8) (s_paddr bss + i) = byte_at (k_mem k) (s_paddr (vm_bss pvm) + i)) /\
  same_bytes (k_mem k) (s_paddr (vm_stack pvm) + so) (k_mem k8) (st + so) (s_size (vm_stack pvm) - so) /\
  (forall x, p <= x < p + 4096 -> byte_at (k_mem k8) x = byte_at m x) /\
  kept (fun q => taken (k_mm k7) q /\ ~ taken (k_mm k6) q) k7 k8.
Proof.
  intros [E3 I1 I2 I3 F2 I4 (N4 & T4) (N5 & T5) Hst T6 Hz] E7 Hso Hszb Hszs Ho Ho8 Hv Hm k8 so. set (a := s_paddr bss + off) in *.
  pose proof (tk_evolves _ _ _ _ _ T4) as E4. pose proof (tk_evolves _ _ _ _ _ T5) as E5. pose proof (tk_evolves _ _ _ _ _ T6) as E6.
  assert (E5m : evolves k5 (set_mem m k7)).
  { eapply (evolves_write _ _ _ p 1); [by etransitivity | apply T6 | apply T6 |]. intros x Hx. apply Hm. lia. }
  assert (E4m : evolves k4 (set_mem m k7)) by (by etransitivity). assert (Hsz : s_size bss = s_size (vm_bss pvm)) by apply I4.
  rewrite Hsz in T4. pose proof (pages_bound _ Hszb) as (_ & Hpb & _). pose proof (pages_bound _ Hszs) as (_ & Hps & _).
  assert (Hst8 : forall x, ~ (a <= x < a + 8) -> byte_at (k_mem k8) x = byte_at m x) by (intros x Hx; by apply (byte_at_store_out 8)).
  assert (E38 : evolves k3 k8).
  { change k8 with (set_mem (k_mem k8) (set_mem m k7)). eapply (evolves_write _ _ _ (s_paddr bss) (pages (s_size (vm_bss pvm)) 4096));
      [by etransitivity | apply T4 | apply T4 |]. intros x Hx. apply Hst8. lia. }
  pose proof (im_held _ _ _ _ I4) as Hh4. assert (Hh6 : held k6 (s_paddr bss) (s_size (vm_bss pvm))).
  { eapply held_evolves; [exact E6 |]. by eapply held_evolves. }
  pose proof (fun y => fresh_apart _ _ _ _ _ _ _ y T6 (held_evolves _ _ _ _ E5 Hh4)) as Hapart.
  split_and!; [by etransitivity | by eapply imaged_later | by eapply imaged_later | by eapply imaged_later | | | | |].
  - unfold k8. cbn [set_mem k_mem]. by rewrite load64_store64_eq, w64_small.
  - intros i Hi Hni. rewrite Hst8 by lia. rewrite <-(im_bytes _ _ _ _ I4) by done. apply (held_same _ _ _ _ E4m Hh4 i Hi).
  - intros i Hi. rewrite Hst8.
    + rewrite <-Hst by done. rewrite <-!Z.add_assoc. eapply (held_same k5 (set_mem m k7)); [exact E5m | |].
      * by eapply held_took.
      * fold so. lia.
    + intros Hin. eapply (fresh_apart _ _ _ _ _ _ _ (st + so + i) T5 Hh4); lia.
  - intros x Hx. apply Hst8. intros Hin. apply (Hapart x); lia.
  - split_and!; [done | done |]. intros x (q & (Hq & Hn) & Hx). destruct (Hq) as (Hqa & _).
    assert (Hno : forall b n, held k6 b n -> ~ (b <= x < b + n)).
    { intros b n Hh Hb. apply Hn. by eapply held_page. }
    cbn [pa_mem]. symmetry. etransitivity; [apply Hst8 | apply Hm].
    + intros ?. apply (Hno _ _ Hh6). lia.
    + intros ?. apply (Hno p 4096); [|lia]. eapply held_took; [exact T6 | lia].
Qed.

(** ** Fork *)

(** What fork relies on: the caller [parent] is described by its own record,
    [child] is the first CPU without a VM and holds nothing of an earlier
    program, the parent's sections are in use and in order, its stack pointer
    and its [cpuinfo] variable are where they belong, and there is memory. *)
Record forkable (parent child va regs : Z) (s : pm_state) : Prop := {
  fb_self : self_id s;
  fb_ncpus : ALWAYS_BUSY <= ncpus (self (p_m s)) <= MAX_CPUS + 1;
  fb_parent : 0 <= parent <= MAX_CPUS /\ cpuid (cpu_at (p_m s) parent) = parent /\ parent <> child;
  fb_free : ALWAYS_BUSY <= child < ncpus (self (p_m s)) /\ has_vm s child = false /\
    forall j, ALWAYS_BUSY <= j < child -> has_vm s j = true;
  fb_child : cpuid (cpu_at (p_m s) child) = child /\ vm_fds (vm_info (cpu_at (p_m s) child)) = 0 /\
    vm_channels (vm_info (cpu_at (p_m s) child)) = 0;
  fb_2mb : has_1GB_page s = false;
  fb_info : page_ok (cpu_addr child s);
  fb_msgs : Forall page_ok (message_pages (cpu_at (p_m s) child));
  fb_ready : parent_ready (vm_info (cpu_at (p_m s) parent)) (rg_rsp (load_regs (p_mem s) regs)) (kmem_of s);
  fb_regs : held (kmem_of s) regs REGS_SIZE;
  fb_va : let v := vm_info (cpu_at (p_m s) parent) in
    s_vaddr (vm_bss v) <= va /\ va + 8 <= s_vaddr (vm_bss v) + s_size (vm_bss v) /\ va < s_vaddr (vm_stack v);
  fb_fds : plain_fds (kmem_of s) (vm_fds (vm_info (cpu_at (p_m s) parent)));
  fb_room : let c := cpu_at (p_m s) parent in roomy (kmem_of s) (copy_pages (vm_info c) + 1 + vm_demand c)
}.

(** Section [x'] is where and as large as [x] and has its bytes. *)
Definition image (x x' : section) (m m' : memory) : Prop :=
  s_vaddr x' = s_vaddr x /\ s_size x' = s_size x /\ same_bytes m (s_paddr x) m' (s_paddr x') (s_size x).

(** What fork achieves. *)
Record forked (parent child va regs : Z) (s s' : pm_state) (pv v : vm_proc) : Prop := {
  fk_cpu : cpu_at (p_m s') child = set_vm_info v (set_vmm_has_vm true (cpu_at (p_m s) child));
  fk_others : forall j, j <> child -> cpu_at (p_m s') j = cpu_at (p_m s) j;
  fk_status : vm_parent v = parent /\ vm_state v = RUNNING /\ vm_start_vaddr v = vm_start_vaddr pv /\
    vm_end_vaddr v = vm_end_vaddr pv;
  fk_regs : vm_regs v = set_rg_rax 0 (load_regs (p_mem s) regs);
  fk_code : image (vm_code pv) (vm_code v) (p_mem s) (p_mem s');
  fk_data : image (vm_data pv) (vm_data v) (p_mem s) (p_mem s');
  fk_rodata : image (vm_rodata pv) (vm_rodata v) (p_mem s) (p_mem s');
  fk_bss : s_vaddr (vm_bss v) = s_vaddr (vm_bss pv) /\ s_size (vm_bss v) = s_size (vm_bss pv) /\
    load64 (p_mem s') (s_paddr (vm_bss v) + (va - s_vaddr (vm_bss v))) = cpu_addr child s /\
    forall i, 0 <= i < s_size (vm_bss v) -> ~ (va - s_vaddr (vm_bss v) <= i < va - s_vaddr (vm_bss v) + 8) ->
      byte_at (p_mem s') (s_paddr (vm_bss v) + i) = byte_at (p_mem s) (s_paddr (vm_bss pv) + i);
  fk_stack : s_vaddr (vm_stack v) = s_vaddr (vm_stack pv) /\ s_size (vm_stack v) = s_size (vm_stack pv) /\
    let used := rg_rsp (load_regs (p_mem s) regs) - s_vaddr (vm_stack pv) in
    same_bytes (p_mem s) (s_paddr (vm_stack pv) + used) (p_mem s') (s_paddr (vm_stack v) + used) (s_size (vm_stack pv) - used);
  fk_fds : if is_driver child then vm_fds v = 0 else
    0 < vm_fds v /\ forall i, 0 <= i < MAX_FD * FD_SIZE -> byte_at (p_mem s') (vm_fds v + i) = fd_bytes (p_mem s) (vm_fds pv) i;
  fk_private : forall x q, x = vm_data v \/ x = vm_bss v \/ x = vm_stack v ->
    block_pages (s_paddr x) (pages (s_size x) 4096) q -> ~ taken (p_mm s) q;
  fk_maps : exists tables, (forall t, t ∈ tables -> ~ taken (p_mm s) t) /\
    forall a, 0 <= a < 2 ^ 48 -> walk (p_mem s') (vm_page_tables v) a = overlay _2MB_ vm_page_regions a /\
      walk (p_mem s') (vm_ept v) a = overlay _4KB_ (vm_regions (cpu_at (p_m s') child) (cpu_addr child s) tables []) a;
  fk_kept : forall q, taken (p_mm s) q -> taken (p_mm s') q /\ same_on (fun x => q <= x < q + 4096) (p_mem s) (p_mem s')
}.

Lemma reached_start child f s :
  wp (set_cpu child f) s (fun _ s' => reached child (f (cpu_at (p_m s) child)) (kmem_of s) s s').
Proof.
  unfold set_cpu, on_machine, update_cpu. wp_step. wp_step. split; try done.
  - unfold cpu_at. cbn. by rewrite lookup_insert_eq.
  - intros j Hj. unfold cpu_at. cbn. by rewrite lookup_insert_ne.
Qed.

Lemma reached_self child c k s0 s : reached child c k s0 s -> cpuid c = cpuid (cpu_at (p_m s0) child) -> self_id s0 -> self_id s.
Proof.
  intros [Hc Ho Hst _] Hid Hs. unfold self_id, self in *. injection Hst as _ _ _ _ _ Hself _ _ _. rewrite Hself.
  destruct (decide (m_self (p_m s0) = child)) as [E|Hne]; [rewrite E in *; congruence | by rewrite Ho].
Qed.

Lemma imaged_image x x' k k' : imaged x x' k k' -> image x x' (k_mem k) (k_mem k').
Proof. by intros [[] _ ? _]. Qed.

Lemma image_ok x x' k k' : imaged x x' k k' -> section_ok x -> section_ok x'.
Proof.
  intros [[V S] (P1 & P2 & P3) _ _] Hx Hs. rewrite V, S in *. destruct (Hx Hs) as (_ & H1 & _ & H2 & _). split_and!; done || lia.
Qed.

(** The sections the child ends up with can be mapped. *)
Lemma child_ready pvm rsp N k code data rodata bss st p k3 k4 k5 k6 c :
  parent_ready pvm rsp k -> built pvm rsp N k code data rodata bss st p k3 k4 k5 k6 ->
  Forall section_ok (vm_sections (child_cpu c pvm code data rodata bss st p)) /\
  (forall pc, vm_info pc = pvm -> vm_demand (child_cpu c pvm code data rodata bss st p) = vm_demand pc).
Proof.
  intros [Htop Hsec _ _ _] [E3 I1 I2 I3 _ I4 (N4 & T4) (N5 & T5) _ _ _]. unfold child_cpu, with_table.
  repeat (apply Forall_cons in Hsec as [(? & ? & ?) Hsec]). clear Hsec.
  assert (Hs : vm_sections (child_cpu c pvm code data rodata bss st p) =
    [code; data; rodata; bss; Sec st (s_vaddr (vm_stack pvm)) (s_size (vm_stack pvm))]).
  { unfold child_cpu, with_table. by destruct (is_driver _). }
  unfold vm_demand, child_cpu, with_table in *. rewrite !Hs. split.
  - repeat (apply Forall_cons; split); try (by eapply image_ok). 2: constructor.
    intros Hpos. cbn [s_paddr s_vaddr s_size] in *. destruct (tk_page _ _ _ _ _ T5) as (P1 & P2 & P3).
    destruct (H12 Hpos) as (_ & V1 & _ & V2 & _). destruct (pages_bound _ Hpos) as (_ & Hb & _).
    rewrite (evolves_top k3 k4), (evolves_top k k3) in P3 by (done || apply T4). split_and!; done || lia.
  - intros pc <-. unfold section_demand. cbn [foldr vm_sections s_size].
    destruct I1 as [[_ ->] _ _ _], I2 as [[_ ->] _ _ _], I3 as [[_ ->] _ _ _], I4 as [[_ ->] _ _ _]. done.
Qed.

(** The child's record when fork starts to copy. *)
Definition child_start (parent : Z) (pvm : vm_proc) (c : cpu_info) : cpu_info :=
  set_vm_info (set_vm_start_vaddr (vm_start_vaddr pvm) (set_vm_start_paddr (vm_start_paddr pvm)
    (set_vm_end_vaddr (vm_end_vaddr pvm) (set_vm_end_paddr (vm_end_paddr pvm)
    (set_vm_state RUNNING (set_vm_parent (s32 parent) (vm_info c))))))) (set_vmm_has_vm true c).

Lemma fork_described parent child va regs s0 s code data rodata bss st p k3 k4 k5 k6 c :
  let pc := cpu_at (p_m s0) parent in
  let pvm := vm_info pc in
  c = child_cpu (child_start parent pvm (cpu_at (p_m s0) child)) pvm code data rodata bss st p ->
  forkable parent child va regs s0 ->
  built pvm (rg_rsp (load_regs (p_mem s0) regs)) (vm_demand pc) (kmem_of s0) code data rodata bss st p k3 k4 k5 k6 ->
  reached child c k6 s0 s ->
  vm_described child c s /\ fd_pages (k_mem k6) (vm_fds (vm_info c)) (seqZ 0 MAX_FD) = [].
Proof.
  intros pc pvm -> [Hself Hn Hpar Hfree (Hid & Hf0 & Hc0) H2 Hinfo Hmsg Hready Hregs Hva Hfd Hroom] Hb Hs.
  fold pc pvm in Hready. set (cs := child_start parent pvm (cpu_at (p_m s0) child)) in *.
  destruct (child_ready _ _ _ _ _ _ _ _ _ _ _ _ _ _ cs Hready Hb) as [Hsok Hdem]. specialize (Hdem pc eq_refl).
  destruct Hb as [E3 _ _ _ _ _ (N4 & T4) (N5 & T5) _ T6 Hz], Hready as [Htop _ _ _ _].
  assert (E05 : evolves (kmem_of s0) k5) by (rewrite E3, (tk_evolves _ _ _ _ _ T4); apply T5).
  assert (E06 : evolves (kmem_of s0) k6) by (rewrite E05; apply T6).
  pose proof (tk_page _ _ _ _ _ T6) as (Hp0 & Hpa & Hpt). rewrite (evolves_top _ _ E05) in Hpt.
  apply (child_described child (child_sections cs pvm code data rodata bss st) p k6 s0 s Hs); try done.
  - by rewrite (evolves_top _ _ E06).
  - fold (child_cpu cs pvm code data rodata bss st p). rewrite Hdem. eapply eq_ind; [exact (tk_room _ _ _ _ _ T6) | lia].
  - split_and!; [done | lia | lia].
  - apply T6. exists 0. lia.
Qed.

(** The child's table, before anything is inherited. *)
Lemma child_table c pvm code data rodata bss st p :
  vm_fds (vm_info c) = 0 -> vm_fds (vm_info (child_cpu c pvm code data rodata bss st p)) = if is_driver (cpuid c) then 0 else p.
Proof. intros Hf. unfold child_cpu, with_table, child_sections. cbn [cpuid set_vm_info]. by destruct (is_driver (cpuid c)). Qed.

Lemma table_inherited child c k6 k7 s0 s pfds p fds k N k5 :
  reached child c k7 s0 s -> evolves k k7 -> plain_fds k pfds -> vm_fds (vm_info c) = fds -> fds = 0 \/ fds = p ->
  took 1 N p k5 k6 -> evolves k k5 -> evolves k6 k7 -> (forall x, p <= x < p + 4096 -> byte_at (k_mem k6) x = 0) ->
  wp (when (negb (fds =? 0) && negb (pfds =? 0)) (fork_fds child pfds fds)) s (fun _ s' => exists m,
    reached child c (set_mem m k7) s0 s' /\ (forall x, ~ (p <= x < p + 4096) -> byte_at m x = byte_at (k_mem k7) x) /\
    (0 < fds -> forall i, 0 <= i < 768 -> byte_at m (fds + i) = fd_bytes (k_mem k) pfds i)).
Proof.
  intros Hs E7 Hpf Hfds Hcase T6 E5 E67 Hz. destruct (tk_page _ _ _ _ _ T6) as (Hp0 & Hpa & _).
  destruct Hcase as [-> | ->].
  { unfold when. cbn [Z.eqb negb andb]. wp_step. exists (k_mem k7). split_and!; [by destruct k7 | done | lia]. }
  eapply post_mono; [apply (inherit_spec child c k7 s0 s pfds p Hs) |].
  - exact (plain_fds_later _ _ _ E7 Hpf).
  - done.
  - intros _. destruct Hpf as [-> |[Hh _]]; [pose proof (Z.div_mod p 4096); lia |]. by apply (held_disjoint 1 N p k5 k6 pfds 768 T6 (held_evolves _ _ _ _ E5 Hh)).
  - lia.
  - intros x Hx. rewrite <-(Hz x) by lia. pose proof (held_took _ _ _ _ _ 4096 T6 ltac:(lia)) as Hh.
    pose proof (held_same _ _ _ _ E67 Hh (x - p) ltac:(lia)) as Hb. by rewrite Zplus_minus in Hb.
  - intros [] s1 _ (m & Hs1 & Hm & Hi). exists m. split_and!; [done | |].
    + intros x Hx. apply Hm. lia.
    + intros H0 i Hir. rewrite Hi by done. unfold fd_bytes. destruct (Z.eqb_spec pfds 0) as [|Hne]; [done |].
      destruct Hpf as [?|[Hh _]]; [done |]. by apply (held_same _ _ _ _ E7 Hh).
Qed.

(** The fields of the child's record. *)
Lemma child_fields parent pvm c0 code data rodata bss st p c :
  c = child_cpu (child_start parent pvm c0) pvm code data rodata bss st p ->
  (forall v, set_vm_info v c = set_vm_info v (set_vmm_has_vm true c0)) /\
  vm_parent (vm_info c) = s32 parent /\ vm_state (vm_info c) = RUNNING /\
  vm_start_vaddr (vm_info c) = vm_start_vaddr pvm /\ vm_end_vaddr (vm_info c) = vm_end_vaddr pvm /\
  vm_code (vm_info c) = code /\ vm_data (vm_info c) = data /\ vm_rodata (vm_info c) = rodata /\ vm_bss (vm_info c) = bss /\
  vm_stack (vm_info c) = Sec st (s_vaddr (vm_stack pvm)) (s_size (vm_stack pvm)).
Proof. intros ->. unfold child_cpu, with_table, child_sections. by destruct (is_driver _). Qed.

(** All that fork achieves, from what its parts did. *)
Lemma forked_intro parent child va regs s0 s' code data rodata bss st p k3 k4 k5 k6 k7 c fds m pt ept tables :
  let pc := cpu_at (p_m s0) parent in
  let pvm := vm_info pc in
  let R := load_regs m regs in
  let v := set_vm_regs (set_rg_rax 0 R) (vm_info (with_tables pt ept c)) in
  forkable parent child va regs s0 ->
  built pvm (rg_rsp (load_regs (p_mem s0) regs)) (vm_demand pc) (kmem_of s0) code data rodata bss st p k3 k4 k5 k6 ->
  c = child_cpu (child_start parent pvm (cpu_at (p_m s0) child)) pvm code data rodata bss st p ->
  fds = (if is_driver child then 0 else p) -> vm_fds (vm_info c) = fds ->
  evolves k6 k7 -> translates c (cpu_addr child s0) pt ept tables [] k6 k7 -> (forall t, t ∈ tables -> ~ taken (k_mm k6) t) ->
  (forall x, ~ (p <= x < p + 4096) -> byte_at m x = byte_at (k_mem k7) x) ->
  (0 < fds -> forall i, 0 <= i < 768 -> byte_at m (fds + i) = fd_bytes (p_mem s0) (vm_fds pvm) i) ->
  reached child (set_vm_info v (with_tables pt ept c))
    (set_mem (store64 m (s_paddr bss + (va - s_vaddr (vm_bss pvm))) (cpu_addr child s0)) k7) s0 s' ->
  forked parent child va regs s0 s' pvm v.
Proof.
  intros pc pvm R v [Hself Hn (Hpar & Hparid & Hne) Hfree (Hid & Hf0 & Hc0) H2 Hinfo Hmsg Hready Hregs Hva Hfd Hroom] Hb Ec Efds Hfds E7 Htr Htab Hm Hin Hs.
  fold pc pvm in Hready, Hva. cbv zeta in Hva. destruct (child_fields _ _ _ _ _ _ _ _ _ _ Ec) as (Wc & Wpar & Wst & Wsv & Wev & Wco & Wda & Wro & Wbs & Wsk).
  destruct Hready as [Htop Hsec Hord _ Hrsp]. do 5 (apply Forall_cons in Hsec as [(? & _ & _) Hsec]). clear Hsec Ec.
  destruct (built_final _ _ _ _ _ _ _ _ _ _ _ _ _ _ k7 m (va - s_vaddr (vm_bss pvm)) (cpu_addr child s0) Hb E7)
    as (E8 & J1 & J2 & J3 & Jp & J4 & J5 & J6 & J7); try lia; try done.
  { apply w64_bound. }
  pose proof (rc_cpu _ _ _ _ _ Hs) as Hcpu. pose proof (rc_kmem _ _ _ _ _ Hs) as Hk.
  set (k8 := set_mem _ k7) in *. destruct Hb as [E3 _ _ _ F2 I4 (N4 & T4) (N5 & T5) _ T6 _].
  assert (E04 : evolves (kmem_of s0) k4) by (rewrite E3; apply T4).
  assert (Em : p_mem s' = k_mem k8) by (by rewrite <-Hk). assert (Emm : p_mm s' = k_mm k8) by (by rewrite <-Hk).
  assert (E05 : evolves (kmem_of s0) k5) by (rewrite E04; apply T5).
  assert (HR : R = load_regs (p_mem s0) regs).
  { apply load_regs_ext. intros i Hi. rewrite Hm.
    - eapply (held_same (kmem_of s0) k7); [|exact Hregs | done]. rewrite E05, (tk_evolves _ _ _ _ _ T6). exact E7.
    - pose proof (fresh_apart _ _ _ _ _ _ _ (regs + i) T6 (held_evolves _ _ _ _ E05 Hregs)). lia. }
  split; cbn [v set_vm_regs with_tables vm_info set_vm_info].
  - rewrite Hcpu. by rewrite <-Wc.
  - apply Hs.
  - cbn. rewrite Wpar, Wst, Wsv, Wev, s32_small by lia. done.
  - cbn. by rewrite HR.
  - cbn. rewrite Wco, Em. by apply (imaged_image _ _ (kmem_of s0)).
  - cbn. rewrite Wda, Em. by apply (imaged_image _ _ (kmem_of s0)).
  - cbn. rewrite Wro, Em. by apply (imaged_image _ _ (kmem_of s0)).
  - cbn. rewrite Wbs, Em. destruct I4 as [[-> ->] _ _ _]. done.
  - cbn. rewrite Wsk, Em. done.
  - cbn. rewrite Hfds, Em, Efds. destruct (is_driver child); [done |]. split; [apply T6 |]. intros i Hi. rewrite J6 by lia.
    subst fds. apply Hin; [apply T6 | lia].
  - cbn. rewrite Wda, Wbs, Wsk. intros x q [->|[->| ->]]; [apply F2 | |]; intros Hq Hk0.
    + apply (tk_fresh _ _ _ _ _ T4 q Hq). by apply E3.
    + apply (tk_fresh _ _ _ _ _ T5 q Hq). by apply E04.
  - exists tables. split.
    + intros t Ht Hk0. apply (Htab t Ht). apply (tk_evolves _ _ _ _ _ T6). by apply E05.
    + intros a Ha. rewrite Em, Hcpu. apply (Htr k8 J7 a Ha).
  - intros q Hq. rewrite Em, Emm. split; [by apply E8 |]. intros x Hx. apply E8. by exists q.
Qed.

(** The last part of fork: page tables, descriptors, registers. *)
Lemma fork_finish parent child va regs s0 s code data rodata bss st p k3 k4 k5 k6 pc pvm c :
  pc = cpu_at (p_m s0) parent -> pvm = vm_info pc ->
  c = child_cpu (child_start parent pvm (cpu_at (p_m s0) child)) pvm code data rodata bss st p ->
  forkable parent child va regs s0 ->
  built pvm (rg_rsp (load_regs (p_mem s0) regs)) (vm_demand pc) (kmem_of s0) code data rodata bss st p k3 k4 k5 k6 ->
  reached child c k6 s0 s ->
  wp (ept_pmap child ;; cc ← cpu child;
      when (negb (vm_fds (vm_info cc) =? 0) && negb (vm_fds pvm =? 0)) (fork_fds child (vm_fds pvm) (vm_fds (vm_info cc))) ;;
      fork_regs child pc (s_paddr bss) va regs) s (fun _ s' => exists v, forked parent child va regs s0 s' pvm v).
Proof.
  intros Epc Epv Ec Hfb Hb Hs.
  assert (Hd : vm_described child c s /\ fd_pages (k_mem k6) (vm_fds (vm_info c)) (seqZ 0 MAX_FD) = []).
  { subst pvm pc. by eapply fork_described. }
  destruct Hd as [Hd Hfiles].
  pose proof Hb as [E3 I1 I2 I3 F2 I4 (N4 & T4) (N5 & T5) Hst T6 Hz].
  pose proof Hfb as [Hself Hn (Hpar & Hparid & Hne) Hfree (Hid & Hf0 & Hc0) H2 Hinfo Hmsg Hready Hregs Hva Hfd Hroom].
  cbv zeta in Hva, Hroom. rewrite <-Epc in Hready, Hva, Hfd, Hroom, Hparid. rewrite <-Epv in Hready, Hva, Hfd, Hroom. destruct Hready as [Htop Hsec Hord _ Hrsp].
  assert (E05 : evolves (kmem_of s0) k5) by (rewrite E3, (tk_evolves _ _ _ _ _ T4); apply T5).
  assert (E06 : evolves (kmem_of s0) k6) by (rewrite E05; apply T6).
  assert (Hfds : vm_fds (vm_info c) = if is_driver child then 0 else p) by (rewrite Ec, child_table by done; cbn [cpuid child_start set_vm_info set_vmm_has_vm]; by rewrite Hid).
  wp_step. eapply post_mono; [apply (fork_ept child c k6 s0 s Hs Hd) |]. rewrite Hfiles.
  clear Hs Hd. intros [] s1 _ (pt & ept & tables & k7 & Hs & E7 & _ & Htr & Htab).
  wp_step. unfold cpu. apply post_gets. rewrite (rc_cpu _ _ _ _ _ Hs). change (vm_fds (vm_info (with_tables pt ept c))) with (vm_fds (vm_info c)).
  assert (E07 : evolves (kmem_of s0) k7) by (by etransitivity). wp_step. set (fds := vm_fds (vm_info c)) in *.
  eapply post_mono; [eapply (table_inherited child _ k6 k7 s0 s1 (vm_fds pvm) p fds (kmem_of s0) _ k5 Hs E07 Hfd); [done | | exact T6 | done | done | done] |].
  { rewrite Hfds. destruct (is_driver child); auto. }
  clear Hs. intros [] s2 _ (m & Hs & Hm & Hin).
  eapply post_mono; [apply (fork_regs_spec child pc _ _ s0 s2 (s_paddr bss) va regs Hs) |]; rewrite <-?Epv.
  - done.
  - repeat (apply Forall_cons in Hsec as [(? & ? & ?) Hsec]); done.
  - repeat (apply Forall_cons in Hsec as [(? & ? & ?) Hsec]); done.
  - done.
  - apply I4.
  - clear Hs. intros [] s3 _ Hs. cbn [set_mem k_mem] in Hs. eexists. subst pvm pc.
    by apply (forked_intro parent child va regs s0 s3 code data rodata bss st p k3 k4 k5 k6 k7 c fds m pt ept tables).
Qed.

