(* ===== verification/Boot.v ===== *)
(** * The second boot stage (boot/stage2/main.c, boot/stage2/mp.c)

    Finding the processors in the MP configuration table, laying out message
    pages, loading the virtual machine monitors and the first three programs
    and building their page tables.  The state is the allocator and CPU table
    of [BootMem], the CPU descriptions (by page of the CPU pool) and the
    static variables.  Output on the console, interrupt controllers and the
    start of the other processors are left out; what the processor reports
    about itself is a parameter. *)

From S2P Require Import Prelude PhysMem CString MemMgr Paging BootMem CpuInfo Ipc Pm PmProc.

(** The fields of [struct cpu_info] that only the boot stage and the monitors
    use: [lapic_id], the VMX pointers and [struct vmm_proc]. *)
Record vmm_proc := VmmProc {
  lapic_id : Z;
  vm_vmcs_ptr : Z;
  vm_vmxon_ptr : Z;
  vmm_rip : Z;
  vmm_rsp : Z;
  vmm_start_paddr : Z;
  vmm_end_paddr : Z;
  vmm_start_vaddr : Z;
  vmm_end_vaddr : Z;
  vmm_stack_paddr : Z;
  vmm_stack_vaddr : Z;
  vmm_stack_size : Z;
  vmm_page_tables : Z
}.
Definition no_vmm : vmm_proc := VmmProc 0 0 0 0 0 0 0 0 0 0 0 0 0.
Definition set_lapic_id (v : Z) (x : vmm_proc) : vmm_proc :=
  VmmProc v (vm_vmcs_ptr x) (vm_vmxon_ptr x) (vmm_rip x) (vmm_rsp x) (vmm_start_paddr x)
    (vmm_end_paddr x) (vmm_start_vaddr x) (vmm_end_vaddr x) (vmm_stack_paddr x) (vmm_stack_vaddr x)
    (vmm_stack_size x) (vmm_page_tables x).
Definition set_vmm_page_tables (v : Z) (x : vmm_proc) : vmm_proc :=
  VmmProc (lapic_id x) (vm_vmcs_ptr x) (vm_vmxon_ptr x) (vmm_rip x) (vmm_rsp x) (vmm_start_paddr x)
    (vmm_end_paddr x) (vmm_start_vaddr x) (vmm_end_vaddr x) (vmm_stack_paddr x) (vmm_stack_vaddr x)
    (vmm_stack_size x) v.

Record boot_state := Boot {
  b_ct : cpu_table;
  b_cpus : gmap Z cpu_info;
  b_vmms : gmap Z vmm_proc;
  b_1GB_page : bool;
  b_msg_input : Z;
  b_msg_output : Z;
  b_msg_ready : Z;
  b_ioapicva : Z;
  b_pm_arguments : Z       (* address of the static [pm_arguments] *)
}.
Definition set_b_ct (v : cpu_table) (s : boot_state) : boot_state :=
  Boot v (b_cpus s) (b_vmms s) (b_1GB_page s) (b_msg_input s) (b_msg_output s) (b_msg_ready s) (b_ioapicva s) (b_pm_arguments s).
Definition set_b_cpus (v : gmap Z cpu_info) (s : boot_state) : boot_state :=
  Boot (b_ct s) v (b_vmms s) (b_1GB_page s) (b_msg_input s) (b_msg_output s) (b_msg_ready s) (b_ioapicva s) (b_pm_arguments s).
Definition set_b_vmms (v : gmap Z vmm_proc) (s : boot_state) : boot_state :=
  Boot (b_ct s) (b_cpus s) v (b_1GB_page s) (b_msg_input s) (b_msg_output s) (b_msg_ready s) (b_ioapicva s) (b_pm_arguments s).
Definition set_b_1GB_page (v : bool) (s : boot_state) : boot_state :=
  Boot (b_ct s) (b_cpus s) (b_vmms s) v (b_msg_input s) (b_msg_output s) (b_msg_ready s) (b_ioapicva s) (b_pm_arguments s).
Definition set_b_msgs (i o r : Z) (s : boot_state) : boot_state :=
  Boot (b_ct s) (b_cpus s) (b_vmms s) (b_1GB_page s) i o r (b_ioapicva s) (b_pm_arguments s).
Definition set_b_ioapicva (v : Z) (s : boot_state) : boot_state :=
  Boot (b_ct s) (b_cpus s) (b_vmms s) (b_1GB_page s) (b_msg_input s) (b_msg_output s) (b_msg_ready s) v (b_pm_arguments s).

Definition b_mem (s : boot_state) : memory := boot_memory (ct_mem (b_ct s)).
Definition on_table {A} (m : M cpu_table A) : M boot_state A := zoom b_ct set_b_ct m.
Definition on_boot {A} (m : M boot_mem A) : M boot_state A := on_table (zoom ct_mem set_ct_mem m).
Definition poke_b (f : memory -> memory) : M boot_state unit :=
  on_boot (modify (fun s => set_boot_memory (f (boot_memory s)) s)).

(** The page of the pool a [struct cpu_info] pointer leads to. *)
Definition cpu_of (p : Z) : M boot_state Z :=
  if p =? 0 then stop_with (Fault "null cpu_info") else
  s ← get; mret ((p - cpuinfo_pool (b_ct s)) / _4KB_).
Definition b_cpu (id : Z) : M boot_state cpu_info := gets (fun s => default no_cpu (b_cpus s !! id)).
Definition b_vmm (id : Z) : M boot_state vmm_proc := gets (fun s => default no_vmm (b_vmms s !! id)).
Definition set_b_cpu (id : Z) (f : cpu_info -> cpu_info) : M boot_state unit :=
  modify (fun s => set_b_cpus (<[id := f (default no_cpu (b_cpus s !! id))]> (b_cpus s)) s).
Definition set_b_vmm (id : Z) (f : vmm_proc -> vmm_proc) : M boot_state unit :=
  modify (fun s => set_b_vmms (<[id := f (default no_vmm (b_vmms s !! id))]> (b_vmms s)) s).
Definition set_b_vm (id : Z) (f : vm_proc -> vm_proc) : M boot_state unit :=
  set_b_cpu id (fun c => set_vm_info (f (vm_info c)) c).
Definition get_info (cpuid : Z) : M boot_state Z := p ← on_table (boot_get_cpu_info cpuid); cpu_of p.

Definition set_cpuid (v : Z) (x : cpu_info) : cpu_info :=
  CpuInfo v (vm_info x) (vmm_has_vm x) (vm_args x) (ncpus x) (msg_input x) (msg_output x) (msg_ready x) (msg_ready_bitmap x).
Definition set_ncpus (v : Z) (x : cpu_info) : cpu_info :=
  CpuInfo (cpuid x) (vm_info x) (vmm_has_vm x) (vm_args x) v (msg_input x) (msg_output x) (msg_ready x) (msg_ready_bitmap x).
Definition set_vm_args_ptr (v : Z) (x : cpu_info) : cpu_info :=
  CpuInfo (cpuid x) (vm_info x) (vmm_has_vm x) v (ncpus x) (msg_input x) (msg_output x) (msg_ready x) (msg_ready_bitmap x).
Definition set_msgs (i o r b : Z) (x : cpu_info) : cpu_info :=
  CpuInfo (cpuid x) (vm_info x) (vmm_has_vm x) (vm_args x) (ncpus x) i o r b.

(** ** The MP configuration table *)

(** [sum], a [uint8_t] *)
Fixpoint mp_sum (m : memory) (a : Z) (n : nat) (s : Z) : Z :=
  match n with
  | O => s
  | S n' => mp_sum m (a + 1) n' (w8 (s + byte_at m a))
  end.
Definition sum (m : memory) (a length : Z) : Z := mp_sum m a (Z.to_nat length) 0.

Abbreviation MP_FPTR_SIZE := 16.
Abbreviation MP_CONF_SIZE := 44.
Definition str_MP : list Z := [95; 77; 80; 95].     (* "_MP_" *)
Definition str_PCMP : list Z := [80; 67; 77; 80].   (* "PCMP" *)
Definition signature_is (m : memory) (p : Z) (sig : list Z) : bool := bool_decide (get_bytes m p 4 = sig).

(** [for (p = start; p < start + len; p += 16)] *)
Fixpoint mp_search_loop (n : nat) (m : memory) (p : Z) : Z :=
  match n with
  | O => 0
  | S n' =>
      if signature_is m p str_MP && (sum m p MP_FPTR_SIZE =? 0) then p
      else mp_search_loop n' m (p + MP_FPTR_SIZE)
  end.
Definition mp_search (m : memory) (pa len : Z) : Z :=
  mp_search_loop (Z.to_nat ((len + MP_FPTR_SIZE - 1) / MP_FPTR_SIZE)) m pa.

(** Fields of [struct mp_fptr] and [struct mp_conf]. *)
Definition mp_physaddr (m : memory) (p : Z) : Z := load32 m (p + 4).
Definition mp_type (m : memory) (p : Z) : Z := byte_at m (p + 11).
Definition mp_imcrp (m : memory) (p : Z) : Z := byte_at m (p + 12).
Definition conf_length (m : memory) (p : Z) : Z := load 2 m (p + 4).
Definition conf_version (m : memory) (p : Z) : Z := byte_at m (p + 6).

Abbreviation MP_PROC := 0.
Abbreviation MP_BUS := 1.
Abbreviation MP_IOAPIC := 2.
Abbreviation MP_IOINTR := 3.
Abbreviation MP_LINTR := 4.
Abbreviation MP_PROC_SIZE := 20.
Abbreviation IOAPICPA := 0xFEC00000.
Abbreviation MIN_CPUS := 4.

(** One core: [cpuid] and [lapic_id] are bytes. *)
Definition add_core (curr_cpu : Z) : M boot_state unit :=
  p ← on_table add_cpu;
  id ← cpu_of p;
  set_b_cpu id (set_cpuid (w8 curr_cpu)) ;;
  set_b_vmm id (set_lapic_id (w8 curr_cpu)).

Section Mp.
(** What [cpuid] and [rdmsr] report: edx of leaf 1, the APIC base register,
    eax of leaf 4. *)
Context (leaf1_edx apic_base leaf4_eax : Z).

Definition intel_get_core_number : Z := s32 (Z.shiftr leaf4_eax 26 + 1).

(** The loop over the entries; [ioapic] is the last I/O APIC entry, the
    result the number of cores and that entry. *)
Fixpoint mp_entries (fuel : nat) (conf p curr_cpu ioapic : Z) : M boot_state (Z * Z) :=
  m ← gets b_mem;
  if negb (p <? conf + conf_length m conf) then mret (curr_cpu, ioapic) else
  match fuel with
  | O => stop_with Diverge
  | S fuel' =>
      let t := byte_at m p in
      if t =? MP_PROC then
        let n := intel_get_core_number in
        forM (seqZ curr_cpu n) add_core ;;
        mp_entries fuel' conf (p + MP_PROC_SIZE) (curr_cpu + Z.max 0 n) ioapic
      else if t =? MP_IOAPIC then
        if negb (load32 m (p + 4) =? IOAPICPA) then panic "IOAPIC address is not valid" else
        mp_entries fuel' conf (p + 8) curr_cpu p
      else if (t =? MP_IOINTR) || (t =? MP_LINTR) || (t =? MP_BUS) then
        mp_entries fuel' conf (p + 8) curr_cpu ioapic
      else panic "Unknown config type"
  end.

Definition mp_init : M boot_state unit :=
  if negb (Z.testbit leaf1_edx 9 && Z.testbit apic_base 11) then panic "APIC is NOT supported!" else
  m ← gets b_mem;
  let mp := mp_search m 0xF0000 0x10000 in
  if mp =? 0 then panic "No MP floating pointer found" else
  if (mp_physaddr m mp =? 0) || negb (mp_type m mp =? 0)
  then panic "Legacy MP configurations not supported" else
  if Z.testbit (mp_imcrp m mp) 7 then panic "PIC Mode not supported" else
  let conf := mp_physaddr m mp in
  if negb (signature_is m conf str_PCMP) || negb (sum m conf (conf_length m conf) =? 0) ||
     (negb (conf_version m conf =? 1) && negb (conf_version m conf =? 4))
  then stop_with Halt else
  '(curr_cpu, ioapic_conf) ← mp_entries (Z.to_nat (conf_length m conf)) conf (conf + MP_CONF_SIZE) 0 0;
  n ← on_table get_ncpus;
  if negb (curr_cpu =? n) then panic "mp failed to properly detect all cpus!" else
  if curr_cpu <? MIN_CPUS then panic "too few CPUs" else
  m ← gets b_mem;
  modify (set_b_ioapicva (if ioapic_conf =? 0 then IOAPICPA else load32 m (ioapic_conf + 4))).
End Mp.

(** ** Message pages *)

(** [cpuid > get_ncpus ()] is the only check. *)
Definition get_msg (base : boot_state -> Z) (cpuid : Z) : M boot_state Z :=
  n ← on_table get_ncpus;
  if n <? cpuid then panic "cpuid out of range" else
  s ← get; mret (w64 (base s + cpuid * _4KB_)).
Definition get_msg_input : Z -> M boot_state Z := get_msg b_msg_input.
Definition get_msg_output : Z -> M boot_state Z := get_msg b_msg_output.
Definition get_msg_ready : Z -> M boot_state Z := get_msg b_msg_ready.

(** ** Virtual machine monitors *)

Abbreviation VMM_MAX_SIZE := _2MB_.
Abbreviation VM_MAX_SIZE := _2MB_.
Abbreviation VMM_STACK_SIZE := 0x1000.
Abbreviation VM_STACK_SIZE := 0x1000.

(** [VIRT2PHYS] *)
Definition VIRT2PHYS (phys start vaddr : Z) : Z := w64 (phys + (vaddr - start)).

(** The loop over the first three sections; the result is the last header. *)
Fixpoint load_vmm_sections (n : nat) (elf phys start s : Z) : M boot_state Z :=
  match n with
  | O => mret s
  | S n' =>
      m ← gets b_mem;
      let section_size := p_memsz m s in
      when (0 <? section_size)
        (poke_b (fun m => boot_memcpy m (VIRT2PHYS phys start (p_vaddr m s)) (w64 (elf + p_offset m s)) section_size)) ;;
      load_vmm_sections n' elf phys start (s + PHDR_SIZE)
  end.

(** The body of the first loop of [load_all_vmms]. *)
Definition load_vmm (vmm_elf_addr curr_cpu : Z) : M boot_state unit :=
  phys ← on_boot (malloc_align VMM_MAX_SIZE VMM_MAX_SIZE);
  if phys =? 0 then panic "Second Boot Stage: Memory Allocation Failed!" else
  id ← get_info curr_cpu;
  n ← on_table get_ncpus;
  set_b_cpu id (set_ncpus n) ;;
  vmcs ← on_boot (calloc_align 1 _4KB_ _4KB_);
  vmxon ← on_boot (calloc_align 1 _4KB_ _4KB_);
  m ← gets b_mem;
  if negb (e_phnum m vmm_elf_addr =? 4) then panic "Unexpected VMM Header!" else
  let s := w64 (vmm_elf_addr + e_phoff m vmm_elf_addr) in
  let start := p_vaddr m s in
  s ← load_vmm_sections 3 vmm_elf_addr phys start s;
  poke_b (fun m => boot_memset m (VIRT2PHYS phys start (p_vaddr m s)) 0 (p_memsz m s)) ;;
  m ← gets b_mem;
  let stack := ALIGN (w64 (p_vaddr m s + p_memsz m s)) 16 in
  let vmm_size := w64 (stack + VMM_STACK_SIZE - start) in
  if VMM_MAX_SIZE <? vmm_size then panic "Second Boot Stage: vmm is too large!" else
  set_b_vmm id (fun x => VmmProc (lapic_id x) vmcs vmxon start (w64 (stack + VMM_STACK_SIZE)) phys
    (w64 (phys + vmm_size)) start (w64 (start + vmm_size)) (VIRT2PHYS phys start stack) stack VMM_STACK_SIZE
    (vmm_page_tables x)).

(** [map_memory (&curr_cpu_info->vmm_info.vmm_page_tables, ...)] with 4KB pages *)
Definition map_vmm (id start_va end_va pa prot flags : Z) : M boot_state unit :=
  x ← b_vmm id;
  root ← on_boot (boot_map_memory (vmm_page_tables x) start_va end_va pa _4KB_ prot flags);
  set_b_vmm id (set_vmm_page_tables root).
Definition map_vmm_page (id p : Z) : M boot_state unit :=
  map_vmm id p (w64 (p + _4KB_)) p (Z.lor PAGE_PRESENT PAGE_RW) MAP_UPDATE.

(** The body of the second loop of [load_all_vmms]. *)
Definition map_one_vmm (boot_stage2_end_addr curr_cpu : Z) : M boot_state unit :=
  info ← on_table (boot_get_cpu_info curr_cpu);
  id ← cpu_of info;
  let rw := Z.lor PAGE_PRESENT PAGE_RW in
  map_vmm id 0 boot_stage2_end_addr 0 (Z.lor rw PAGE_PCD) MAP_NEW ;;
  x ← b_vmm id;
  c ← b_cpu id;
  map_vmm_page id (vm_vmxon_ptr x) ;;
  map_vmm_page id (vm_vmcs_ptr x) ;;
  map_vmm_page id (msg_input c) ;;
  map_vmm_page id (msg_output c) ;;
  map_vmm_page id (msg_ready c) ;;
  map_vmm_page id info ;;
  map_vmm id (vmm_start_vaddr x) (vmm_end_vaddr x) (vmm_start_paddr x) rw MAP_UPDATE ;;
  map_vmm id 0xFEC00000 (_1GB_ * 4) 0xFEC00000 (Z.lor rw PAGE_PCD) MAP_UPDATE.

Definition load_all_vmms (vmm_elf_addr boot_stage2_end_addr : Z) : M boot_state unit :=
  n ← on_table get_ncpus;
  forM (seqZ 0 n) (load_vmm vmm_elf_addr) ;;
  forM (seqZ 0 n) (map_one_vmm boot_stage2_end_addr).

(** ** Programs *)

(** What both loaders record about section [i] (code, data or rodata). *)
Definition record_section (id i : Z) (x : section) : M boot_state unit :=
  if i =? 0 then
    set_b_vm id (fun v => set_vm_regs (set_rg_rip (vm_start_vaddr v) (vm_regs v))
      (set_vm_code x (set_vm_start_paddr (s_paddr x) v)))
  else if i =? 1 then set_b_vm id (set_vm_data x)
  else set_b_vm id (set_vm_rodata x).

Definition copy_elf_section (elf s dst : Z) : M boot_state unit :=
  m ← gets b_mem;
  when (0 <? p_memsz m s)
    (poke_b (fun m => boot_memcpy m dst (w64 (elf + p_offset m s)) (p_memsz m s))).

(** User programs: every section in memory of its own. *)
Fixpoint load_other_sections (is_ : list Z) (id elf s : Z) : M boot_state Z :=
  match is_ with
  | [] => mret s
  | i :: rest =>
      m ← gets b_mem;
      let section_size := p_memsz m s in
      dst ← (if 0 <? section_size then on_boot (malloc_align section_size USER_VMS_PAGE_SIZE) else mret 0);
      (if (i =? 0) && (section_size =? 0) then panic "VM without code section!" else
       record_section id i (Sec dst (p_vaddr m s) section_size)) ;;
      copy_elf_section elf s dst ;;
      load_other_sections rest id elf (s + PHDR_SIZE)
  end.

Definition load_other_vms (cpuid vm_elf_paddr : Z) : M boot_state unit :=
  id ← get_info cpuid;
  set_b_cpu id (set_vmm_has_vm true) ;;
  m ← gets b_mem;
  if negb (e_phnum m vm_elf_paddr =? 4) then panic "Unexpected VM Header!" else
  let s := w64 (vm_elf_paddr + e_phoff m vm_elf_paddr) in
  set_b_vm id (set_vm_start_vaddr (p_vaddr m s)) ;;
  s ← load_other_sections [0; 1; 2] id vm_elf_paddr s;
  m ← gets b_mem;
  let bss_vaddr := p_vaddr m s in
  let bss_size := p_memsz m s in
  set_b_vm id (fun v => set_vm_bss (Sec (s_paddr (vm_bss v)) bss_vaddr (s_size (vm_bss v))) v) ;;
  when (0 <? bss_size)
    (p ← on_boot (malloc_align _2MB_ USER_VMS_PAGE_SIZE);
     set_b_vm id (set_vm_bss (Sec p bss_vaddr bss_size)) ;;
     poke_b (fun m => boot_memset m p 0 bss_size)) ;;
  m ← gets b_mem;
  let stack_vaddr := ALIGN (w64 (p_vaddr m s + p_memsz m s)) USER_VMS_PAGE_SIZE in
  stack ← on_boot (malloc_align _2MB_ USER_VMS_PAGE_SIZE);
  (* the comparison of the two end addresses compares equal expressions *)
  set_b_vm id (fun v =>
    let vm_size := w64 (stack + _2MB_ - vm_start_paddr v) in
    set_vm_end_paddr (w64 (vm_start_paddr v + vm_size)) (set_vm_end_vaddr (w64 (vm_start_vaddr v + vm_size))
    (set_vm_regs (set_rg_rflags 2 (set_rg_rsp (w64 (stack_vaddr + _2MB_)) (vm_regs v)))
    (set_vm_stack (Sec stack stack_vaddr _2MB_) (set_vm_fds 0 v))))).

(** Servers run at the addresses they are linked for. *)
Fixpoint load_server_sections (is_ : list Z) (id elf phys s : Z) : M boot_state Z :=
  match is_ with
  | [] => mret s
  | i :: rest =>
      m ← gets b_mem;
      let section_size := p_memsz m s in
      let dst := if 0 <? section_size then p_vaddr m s else 0 in
      (if (i =? 0) && (section_size =? 0) then panic "VM without code section!" else
       if (i =? 0) && negb (phys =? p_vaddr m s) then panic "VM Server can't be loaded in the right address" else
       record_section id i (Sec dst (p_vaddr m s) section_size)) ;;
      copy_elf_section elf s dst ;;
      load_server_sections rest id elf phys (s + PHDR_SIZE)
  end.

Definition load_server_vms (cpuid vm_elf_paddr : Z) : M boot_state unit :=
  phys ← on_boot (malloc_align VM_MAX_SIZE VM_MAX_SIZE);
  if phys =? 0 then panic "Second Boot Stage: Memory Allocation Failed!" else
  id ← get_info cpuid;
  set_b_cpu id (set_vmm_has_vm true) ;;
  set_b_vm id (set_vm_start_paddr phys) ;;
  m ← gets b_mem;
  if negb (e_phnum m vm_elf_paddr =? 4) then panic "Unexpected VMM Header!" else
  let s := w64 (vm_elf_paddr + e_phoff m vm_elf_paddr) in
  set_b_vm id (fun v => set_vm_start_vaddr (p_vaddr m s) (set_vm_start_paddr (p_vaddr m s) v)) ;;
  s ← load_server_sections [0; 1; 2] id vm_elf_paddr phys s;
  m ← gets b_mem;
  let bss_vaddr := p_vaddr m s in
  let bss_size := p_memsz m s in
  set_b_vm id (fun v => set_vm_bss (Sec bss_vaddr bss_vaddr (s_size (vm_bss v))) v) ;;
  when (0 <? bss_size)
    (set_b_vm id (set_vm_bss (Sec bss_vaddr bss_vaddr bss_size)) ;;
     poke_b (fun m => boot_memset m bss_vaddr 0 bss_size)) ;;
  poke_b (fun m => boot_memset m (p_vaddr m s) 0 (p_memsz m s)) ;;
  m ← gets b_mem;
  let stack := ALIGN (w64 (p_vaddr m s + p_memsz m s)) 16 in
  set_b_vm id (fun v => set_vm_regs (set_rg_rflags 2 (set_rg_rsp (w64 (stack + VM_STACK_SIZE)) (vm_regs v)))
    (set_vm_stack (Sec stack stack VM_STACK_SIZE) v)) ;;
  c ← b_cpu id;
  let vm_size := w64 (stack - vm_start_vaddr (vm_info c)) in
  set_b_vm id (fun v => set_vm_end_paddr (w64 (vm_start_paddr v + vm_size))
                          (set_vm_end_vaddr (w64 (vm_start_vaddr v + vm_size)) v)) ;;
  c ← b_cpu id;
  if negb (vm_end_paddr (vm_info c) =? vm_end_vaddr (vm_info c))
  then panic "Second Boot Stage: VM is worngfully loaded into memory!" else
  if VM_MAX_SIZE <? vm_size then panic "Second Boot Stage: vm is too large!" else
  set_b_vm id (set_vm_fds 0).

(** ** Page tables of the first programs *)

Definition b_map_vm (id start_va end_va pa page_size prot flags : Z) : M boot_state unit :=
  c ← b_cpu id;
  root ← on_boot (boot_map_memory (vm_page_tables (vm_info c)) start_va end_va pa page_size prot flags);
  set_b_vm id (set_vm_page_tables root).
Definition b_ept_vm (id start_va end_va pa page_size mtype prot flags : Z) : M boot_state unit :=
  c ← b_cpu id;
  root ← on_boot (boot_ept_map_memory (vm_ept (vm_info c)) start_va end_va pa page_size mtype prot flags);
  set_b_vm id (set_vm_ept root).
Definition b_ept_page (id addr prot : Z) : M boot_state unit :=
  b_ept_vm id addr (w64 (addr + _4KB_)) addr USER_VMS_PAGE_SIZE EPT_MTYPE_WB prot MAP_UPDATE.
Definition b_ept_section (id : Z) (sec : vm_proc -> section) (prot : Z) : M boot_state unit :=
  c ← b_cpu id;
  let x := sec (vm_info c) in
  when (0 <? s_size x)
    (b_ept_vm id (s_vaddr x) (w64 (s_vaddr x + s_size x)) (s_paddr x) USER_VMS_PAGE_SIZE
       EPT_MTYPE_WB prot MAP_UPDATE).

(** The guest's own tables, the same for every program. *)
Definition b_map_low (id page_size : Z) : M boot_state unit :=
  let rw := Z.lor PAGE_PRESENT PAGE_RW in
  b_map_vm id 0 _2MB_ 0 page_size (Z.lor rw PAGE_PCD) MAP_NEW ;;
  b_map_vm id _2MB_ 0xFEC00000 _2MB_ page_size rw MAP_UPDATE ;;
  b_map_vm id 0xFEC00000 (_1GB_ * 4) 0xFEC00000 page_size (Z.lor rw PAGE_PCD) MAP_UPDATE.

(** [info] is the pointer to the CPU's description. *)
Definition ept_map_memory_other (info : Z) : M boot_state unit :=
  id ← cpu_of info;
  big ← gets b_1GB_page;
  b_map_low id (if (big : bool) then _1GB_ else _2MB_) ;;
  b_ept_vm id 0xB8000 0xB9000 0xB8000 USER_VMS_PAGE_SIZE EPT_MTYPE_UC EPT_RW MAP_NEW ;;
  c ← b_cpu id;
  ept ← on_boot (boot_ept_map_page_tables (vm_ept (vm_info c)) (vm_page_tables (vm_info c)) EPT_RW);
  set_b_vm id (set_vm_ept ept) ;;
  b_ept_page id info EPT_PAGE_READ ;;
  b_ept_page id (msg_input c) EPT_RW ;;
  b_ept_page id (msg_output c) EPT_RW ;;
  b_ept_page id (msg_ready c) EPT_RW ;;
  b_ept_page id (msg_ready_bitmap c) EPT_RW ;;
  b_ept_section id vm_code (Z.lor EPT_PAGE_READ EPT_PAGE_EXEC) ;;
  b_ept_section id vm_data (Z.lor EPT_PAGE_READ EPT_PAGE_EXEC) ;;
  b_ept_section id vm_rodata EPT_PAGE_READ ;;
  b_ept_section id vm_bss EPT_RW ;;
  b_ept_section id vm_stack EPT_RW ;;
  b_ept_vm id 0xFEE00000 (_1GB_ * 4) 0xFEE00000 USER_VMS_PAGE_SIZE EPT_MTYPE_UC EPT_RW MAP_UPDATE.

Definition ept_map_memory_server (info : Z) : M boot_state unit :=
  id ← cpu_of info;
  big ← gets b_1GB_page;
  let page_size := if (big : bool) then _1GB_ else _2MB_ in
  b_map_low id page_size ;;
  b_ept_vm id 0 _2MB_ 0 page_size EPT_MTYPE_UC EPT_RW MAP_NEW ;;
  b_ept_vm id _2MB_ 0xFEC00000 _2MB_ page_size EPT_MTYPE_WB (Z.lor (Z.lor EPT_PAGE_READ EPT_PAGE_WRITE) EPT_PAGE_EXEC) MAP_UPDATE ;;
  b_ept_vm id 0xFEC00000 (_1GB_ * 4) 0xFEC00000 page_size EPT_MTYPE_UC EPT_RW MAP_UPDATE.

Definition load_all_vms (pm_elf fs_elf init_elf : Z) : M boot_state unit :=
  load_server_vms PM pm_elf ;;
  load_server_vms FS fs_elf ;;
  load_other_vms INIT init_elf ;;
  pm ← on_table (boot_get_cpu_info PM); ept_map_memory_server pm ;;
  fs ← on_table (boot_get_cpu_info FS); ept_map_memory_server fs ;;
  init ← on_table (boot_get_cpu_info INIT); ept_map_memory_other init ;;
  forM (seqZ 0 ALWAYS_BUSY) (fun i =>
    p ← on_table (boot_get_cpu_info i);
    id ← cpu_of p;
    set_b_vm id (fun v => set_vm_regs (set_rg_rdi p (vm_regs v)) v)).

(** ** Handing over *)

(** [struct boot_stage2_args], the fields used here. *)
Record boot_args := BootArgs {
  pm_elf_addr : Z;
  fs_elf_addr : Z;
  init_elf_addr : Z;
  vmm_elf_addr : Z;
  initrd_elf_addr : Z;
  boot_stage2_end_addr : Z;
  sys_mem_size : Z;
  ba_1GB_page : Z;
  boot_stage2_page_tables : Z
}.

(** [struct pm_args]: memory size at 0, the flag at 8, last used address at 16,
    each 64 bits wide. *)
Definition set_vm_args (args : boot_args) : M boot_state unit :=
  size ← on_boot get_mem_size;
  s ← get;
  poke_b (fun m => store64 m (b_pm_arguments s) size) ;;
  used ← on_boot get_last_used_addr;
  poke_b (fun m => store64 m (b_pm_arguments s + 16) used) ;;
  poke_b (fun m => store64 m (b_pm_arguments s + 8) (ba_1GB_page args)) ;;
  pm ← get_info PM;
  set_b_cpu pm (set_vm_args_ptr (b_pm_arguments s)) ;;
  fs ← get_info FS;
  set_b_cpu fs (set_vm_args_ptr (initrd_elf_addr args)).

(** The message pages of CPU [i]. *)
Definition set_messages (bitmap i : Z) : M boot_state unit :=
  id ← get_info i;
  a ← get_msg_input i;
  b ← get_msg_output i;
  c ← get_msg_ready i;
  set_b_cpu id (set_msgs a b c bitmap).

Definition alloc_messages : M boot_state unit :=
  n ← on_table get_ncpus;
  a ← on_boot (calloc_align 1 (n * _4KB_) _2MB_);
  b ← on_boot (calloc_align 1 (n * _4KB_) _2MB_);
  c ← on_boot (calloc_align 1 (n * _4KB_) _2MB_);
  modify (set_b_msgs a b c) ;;
  bitmap ← on_boot (calloc_align 8 n _4KB_);
  forM (seqZ 0 n) (set_messages bitmap).

(** [boot_stage2_main] up to the start of the other processors. *)
Definition boot_stage2_main (leaf1_edx apic_base leaf4_eax : Z) (args : boot_args) : M boot_state unit :=
  on_boot (boot_memory_init (boot_stage2_end_addr args) (sys_mem_size args)) ;;
  modify (set_b_1GB_page (negb (w32 (ba_1GB_page args) =? 0))) ;;
  on_boot (boot_map_memory (boot_stage2_page_tables args) 0xFEC00000 0x100000000 0xFEC00000 _2MB_
             (Z.lor (Z.lor PAGE_PRESENT PAGE_RW) PAGE_PCD) MAP_UPDATE) ;;
  mp_init leaf1_edx apic_base leaf4_eax ;;
  alloc_messages ;;
  load_all_vms (pm_elf_addr args) (fs_elf_addr args) (init_elf_addr args) ;;
  load_all_vmms (vmm_elf_addr args) (boot_stage2_end_addr args) ;;
  set_vm_args args.
