(* ===== verification/BootSpec.v ===== *)
(** * Correctness of the second boot stage

    The processors listed in the MP configuration table get descriptions of
    their own; message pages do not overlap; the servers' EPTs give them the
    first 4GB; what the boot stage tells the process manager is what it
    finds. *)

From S2P Require Import Prelude PhysMem CString MemMgr MemMgrSpec Paging PageWalk PagingSpec EptSpec BootMem BootMemSpec.
From S2P Require Import PmAlloc CpuInfo Ipc IpcSpec Pm PmProc Boot.

(** ** The MP configuration table *)

Inductive mp_entry := Proc | Bus | Ioapic | IoIntr | LIntr.
#[global] Instance mp_entry_eq_dec : EqDecision mp_entry.
Proof. solve_decision. Defined.
Definition entry_type (e : mp_entry) : Z :=
  match e with Proc => MP_PROC | Bus => MP_BUS | Ioapic => MP_IOAPIC | IoIntr => MP_IOINTR | LIntr => MP_LINTR end.
Definition entry_size (e : mp_entry) : Z := match e with Proc => MP_PROC_SIZE | _ => 8 end.
Definition entries_size (es : list mp_entry) : Z := foldr (fun e n => entry_size e + n) 0 es.

(** The entries in memory. *)
Fixpoint entries_at (m : memory) (p : Z) (es : list mp_entry) : Prop :=
  match es with
  | [] => True
  | e :: es' => byte_at m p = entry_type e /\ (e = Ioapic -> load32 m (p + 4) = IOAPICPA) /\
      entries_at m (p + entry_size e) es'
  end.

Definition processors (es : list mp_entry) : Z := Z.of_nat (length (filter (.= Proc) es)).

Lemma entry_size_bound e : 8 <= entry_size e <= 20.
Proof. destruct e; simpl; lia. Qed.

Lemma entries_size_nonneg es : 0 <= entries_size es.
Proof. induction es as [|e es IH]; simpl; [done |]. pose proof (entry_size_bound e). lia. Qed.

Lemma entries_at_ext m m' p es :
  same_on (fun x => p <= x < p + entries_size es) m m' -> entries_at m p es -> entries_at m' p es.
Proof.
  revert p. induction es as [|e es IH]; intros p Hs; simpl in *; [done |].
  pose proof (entry_size_bound e). pose proof (entries_size_nonneg es).
  intros (Ht & Hio & Hrest). split_and!.
  - rewrite <-Hs by lia. done.
  - intros He. rewrite <-(Hio He). symmetry. apply load_ext. intros x Hx. apply Hs. simpl in Hx. lia.
  - apply IH; [|done]. intros x Hx. apply Hs. lia.
Qed.

(** [n] processors are described, and memory in use before is untouched. *)
Record found (s0 : boot_state) (n : Z) (s : boot_state) : Prop := {
  fd_boot : boot_ok (ct_mem (b_ct s));
  fd_low : same_on (fun x => x < boot_free_addr (ct_mem (b_ct s0))) (b_mem s0) (b_mem s);
  fd_count : ct_ncpus (b_ct s) = n;
  fd_table : n = 0 /\ ct_first_time (b_ct s) = true /\ ct_mem (b_ct s) = ct_mem (b_ct s0) \/
    table_ok (b_ct s) /\ 0 < cpuinfo_pool (b_ct s) /\ cpuinfo_pool (b_ct s) mod _2MB_ = 0;
  fd_cpus : forall i, 0 <= i < n ->
    cpuid (default no_cpu (b_cpus s !! i)) = i /\ lapic_id (default no_vmm (b_vmms s !! i)) = i
}.

(** There is room for the pool. *)
Definition pool_room (s : boot_mem) : Prop :=
  _2MB_ < memory_size s /\ ALIGN (boot_free_addr s) _2MB_ + _2MB_ <= memory_size s.

(** An aligned request for which there is room is granted. *)
Lemma calloc_align_room nmemb size k s :
  boot_ok s -> 0 < nmemb -> 0 < size -> 0 <= k <= 62 -> 2 ^ k < memory_size s ->
  ALIGN (boot_free_addr s) (2 ^ k) + nmemb * size <= memory_size s ->
  wp (calloc_align nmemb size (2 ^ k)) s (fun p s' => p = ALIGN (boot_free_addr s) (2 ^ k) /\
    boot_free_addr s' = ALIGN (p + nmemb * size) 16 /\ served (CallocAlign nmemb size k) s p s').
Proof.
  intros Hok Hn Hs Hk Hbig Hroom. destruct (align_free s k Hok Hk) as ([Hf _] & Hle & _).
  pose proof Hok as [Hfree Hsize]. cbn [boot_free_addr set_boot_free] in Hf, Hle.
  destruct (wp_elim _ _ _ (serve_spec (CallocAlign nmemb size k) s Hok ltac:(split; simpl; nia))) as (p & s' & Hrun & Hsv).
  unfold post. cbn [serve] in Hrun. rewrite Hrun.
  enough (p = ALIGN (boot_free_addr s) (2 ^ k)) as Hp.
  { split_and!; [done | | done]. destruct Hsv as (_ & _ & _ & [[-> _]|(_ & _ & _ & _ & Hb & _)]); [lia | done]. }
  revert Hrun. unfold calloc_align.
  destruct (Z.eqb_spec size 0); [lia |]. destruct (Z.eqb_spec nmemb 0); [lia |]. cbn [orb].
  erewrite bind_step by done.
  assert (boot_uninitialized s = false) as ->.
  { unfold boot_uninitialized. destruct (Z.eqb_spec (boot_free_addr s) 0); [lia |]. apply andb_false_r. }
  destruct (Z.leb_spec (memory_size s) (2 ^ k)); [lia |].
  erewrite bind_step by done. erewrite bind_step by done.
  cbn [memory_size set_boot_free boot_free_addr].
  rewrite (w64_small (nmemb * size)), (w64_small (ALIGN _ _ + _)) by nia.
  destruct (Z.ltb_spec (memory_size s) (ALIGN (boot_free_addr s) (2 ^ k) + nmemb * size)); [lia |].
  by intros [= <- _].
Qed.

Lemma calloc_pool s :
  boot_ok s -> pool_room s ->
  exists s', calloc_align 1 _2MB_ _2MB_ s = Ok (ALIGN (boot_free_addr s) _2MB_) s' /\
    0 < ALIGN (boot_free_addr s) _2MB_.
Proof.
  intros Hok [H1 H2]. destruct (align_free s 21 Hok ltac:(lia)) as ([Hf _] & Hle & _). destruct (bo_free _ Hok).
  destruct (wp_elim _ _ _ (calloc_align_room 1 _2MB_ 21 s Hok ltac:(lia) ltac:(lia) ltac:(lia) ltac:(lia) ltac:(done)))
    as (p & s' & Hrun & -> & _). exists s'. split; [done |]. change (2 ^ 21) with _2MB_ in *. cbn [boot_free_addr set_boot_free] in *. lia.
Qed.

(** Registering one more CPU, the first one included. *)
Lemma add_cpu_found s0 n s :
  found s0 n s -> 0 <= n < MAX_CPUS -> pool_room (ct_mem (b_ct s0)) ->
  wp add_cpu (b_ct s) (fun p t => table_ok t /\ ct_ncpus t = n + 1 /\ p = cpuinfo_pool t + n * 4096 /\
    0 < cpuinfo_pool t /\ cpuinfo_pool t mod _2MB_ = 0 /\ boot_ok (ct_mem t) /\
    same_on (fun x => x < boot_free_addr (ct_mem (b_ct s0))) (b_mem s0) (boot_memory (ct_mem t))).
Proof.
  intros [Hok Hlow Hc Htab Hcpus] Hn Hroom. destruct Htab as [(-> & Hft & Hm) | (Htab & Hp & Hal)].
  - destruct (add_cpu_first (b_ct s) Hok Hft Hc) as (pool & m1 & Hrun & Ht & Hcalloc & (Hok1 & _ & _ & Hsv) & Hpool).
    unfold post. rewrite Hrun. cbn [ct_ncpus cpuinfo_pool ct_mem]. rewrite Hm in *.
    destruct (calloc_pool _ Hok Hroom) as (t' & Hc' & Hpos). rewrite Hcalloc in Hc'. injection Hc' as -> _.
    set (pool := ALIGN _ _) in *.
    destruct Hpool as [? |(Hal & Hle & _)]; [lia |].
    destruct Hsv as [[? _] | (_ & _ & _ & _ & _ & Hb)]; [lia |]. split_and!; try (done || lia).
    intros x Hx. by rewrite Hb, bool_decide_false, andb_false_r by lia.
  - eapply post_mono; [apply add_cpu_next; [done | lia] |].
    intros p t _ (-> & Ht & Hn' & Hp' & Hm'). rewrite Hp', Hm', Hn', Hc. by split_and!.
Qed.

(** One core more. *)
Lemma add_core_spec s0 n s :
  found s0 n s -> 0 <= n < MAX_CPUS -> pool_room (ct_mem (b_ct s0)) ->
  wp (add_core n) s (fun _ s' => found s0 (n + 1) s').
Proof.
  intros Hf Hn Hroom. unfold add_core, on_table. wp_step. wp_step.
  eapply post_mono; [by apply (add_cpu_found s0 n s) |].
  intros p t _ (Ht & Hc & -> & Hp & Hal & Hok & Hlow). unfold cpu_of.
  destruct (Z.eqb_spec (cpuinfo_pool t + n * 4096) 0); [lia |].
  wp_step. wp_step. apply post_gets. apply post_ret. cbn [b_ct set_b_ct].
  replace ((cpuinfo_pool t + n * 4096 - cpuinfo_pool t) / _4KB_) with n
    by (replace (cpuinfo_pool t + n * 4096 - cpuinfo_pool t) with (n * 4096) by lia; by rewrite Z.div_mul).
  unfold set_b_cpu, set_b_vmm. wp_step. wp_step. wp_step. rewrite (w8_small n) by lia.
  split; cbn [b_ct set_b_ct set_b_cpus set_b_vmms b_cpus b_vmms]; try done.
  - right. done.
  - intros i Hi. destruct (decide (i = n)) as [->|]; [by rewrite !lookup_insert_eq |].
    rewrite !lookup_insert_ne by done. apply (fd_cpus _ _ _ Hf). lia.
Qed.

Lemma add_cores_spec s0 k n s :
  found s0 n s -> 0 <= n -> n + Z.of_nat k <= MAX_CPUS -> pool_room (ct_mem (b_ct s0)) ->
  wp (forM (seqZ n (Z.of_nat k)) add_core) s (fun _ s' => found s0 (n + Z.of_nat k) s').
Proof.
  revert n s. induction k as [|k IH]; intros n s Hf Hn Hle Hroom.
  { apply post_ret. by rewrite Z.add_0_r. }
  rewrite seqZ_cons by lia. rewrite Nat2Z.inj_succ, Z.pred_succ in *. cbn [forM]. wp_step.
  eapply post_mono; [apply (add_core_spec s0); [done | lia | done] |]. intros [] s1 _ Hf1.
  replace (n + Z.succ (Z.of_nat k)) with (Z.succ n + Z.of_nat k) by lia. apply IH; [done | lia | lia | done].
Qed.

(** An I/O APIC entry remembered by the loop lies in the table. *)
Definition ioapic_ok (s0 : boot_state) (io : Z) : Prop :=
  io = 0 \/ load32 (b_mem s0) (io + 4) = IOAPICPA /\ io + 8 <= boot_free_addr (ct_mem (b_ct s0)).

Lemma processors_cons e es : processors (e :: es) = (if decide (e = Proc) then 1 else 0) + processors es.
Proof. unfold processors. rewrite filter_cons. destruct (decide (e = Proc)); cbn [length]; lia. Qed.

Lemma processors_nonneg es : 0 <= processors es.
Proof. unfold processors. lia. Qed.

Section MpSpec.
Context (leaf1_edx apic_base leaf4_eax : Z).
Abbreviation cores := (intel_get_core_number leaf4_eax).

Lemma table_length s0 conf n s :
  found s0 n s -> conf + 6 <= boot_free_addr (ct_mem (b_ct s0)) ->
  conf_length (b_mem s) conf = conf_length (b_mem s0) conf.
Proof.
  intros Hf Hle. unfold conf_length. symmetry. apply load_ext. intros x Hx.
  apply (fd_low _ _ _ Hf). simpl in Hx. lia.
Qed.

(** The loop over the entries adds [cores] CPUs for every processor entry. *)
Lemma mp_entries_spec s0 conf es fuel p n io s :
  0 < cores -> pool_room (ct_mem (b_ct s0)) ->
  p + entries_size es = conf + conf_length (b_mem s0) conf ->
  p + entries_size es <= boot_free_addr (ct_mem (b_ct s0)) -> conf + 6 <= p ->
  entries_at (b_mem s0) p es -> (length es <= fuel)%nat ->
  found s0 n s -> 0 <= n -> n + cores * processors es <= MAX_CPUS -> ioapic_ok s0 io ->
  wp (mp_entries leaf4_eax fuel conf p n io) s (fun r s' =>
    r.1 = n + cores * processors es /\ found s0 r.1 s' /\ ioapic_ok s0 r.2).
Proof.
  intros Hcores Hroom Hend Htop Hconf Hes Hfuel Hf Hn Hmax Hio.
  revert p n io s fuel Hend Htop Hconf Hes Hfuel Hf Hn Hmax Hio.
  induction es as [|e es IH]; intros p n io s fuel Hend Htop Hconf Hes Hfuel Hf Hn Hmax Hio.
  - pose proof (table_length s0 conf n s Hf) as Hlen. destruct fuel; cbn [mp_entries entries_size foldr] in *.
    all: wp_step; wp_step; rewrite Hlen by lia; destruct (Z.ltb_spec p (conf + conf_length (b_mem s0) conf)); [lia |].
    all: apply post_ret; unfold processors; simpl; rewrite Z.mul_0_r, Z.add_0_r; done.
  - destruct Hes as (Ht & Haddr & Hes). pose proof (entry_size_bound e). pose proof (entries_size_nonneg es).
    pose proof (processors_nonneg es). rewrite processors_cons in *. cbn [length] in Hfuel.
    change (entries_size (e :: es)) with (entry_size e + entries_size es) in *.
    destruct fuel as [|fuel]; [lia |]. cbn [mp_entries]. wp_step. wp_step.
    rewrite (table_length s0 conf n s Hf) by lia.
    destruct (Z.ltb_spec p (conf + conf_length (b_mem s0) conf)); [|lia]. cbn [negb].
    pose proof (fd_low _ _ _ Hf) as Hlow. rewrite <-Hlow, Ht by lia.
    destruct e; cbn [entry_type entry_size] in *; cbn [Z.eqb orb].
    + wp_step. replace cores with (Z.of_nat (Z.to_nat cores)) at 1 by lia.
      eapply post_mono; [apply (add_cores_spec s0); [done | done | simpl in Hmax; nia | done] |].
      intros [] s1 _ Hf1. rewrite Z2Nat.id, Z.max_r in * by lia.
      eapply post_mono; [apply IH; try done; simpl in Hmax; try lia; nia |].
      intros [c io'] s2 _ (-> & Hf2 & Hio2). cbn [fst snd] in *. simpl. split; [nia | done].
    + eapply post_mono; [apply IH; try done; simpl in Hmax; lia |]. done.
    + replace (load32 (b_mem s) (p + 4)) with IOAPICPA.
      2: { rewrite <-(Haddr eq_refl). apply load_ext. intros x Hx. apply Hlow. simpl in Hx. lia. }
      cbn [Z.eqb Pos.eqb negb].
      eapply post_mono; [apply IH; try done; simpl in Hmax; try lia |]; [|done].
      right. split; [by apply Haddr | lia].
    + eapply post_mono; [apply IH; try done; simpl in Hmax; lia |]. done.
    + eapply post_mono; [apply IH; try done; simpl in Hmax; lia |]. done.
Qed.

(** A valid floating pointer structure at [p]. *)
Definition fptr_at (m : memory) (p : Z) : bool := signature_is m p str_MP && (sum m p MP_FPTR_SIZE =? 0).

(** [mp_search] returns the first one at a multiple of 16 from the start. *)
Lemma mp_search_loop_spec m n p k :
  (k < n)%nat -> fptr_at m (p + Z.of_nat k * 16) = true ->
  (forall j, (j < k)%nat -> fptr_at m (p + Z.of_nat j * 16) = false) ->
  mp_search_loop n m p = p + Z.of_nat k * 16.
Proof.
  revert p k. induction n as [|n IH]; intros p k Hk Hat Hbefore; [lia |].
  cbn [mp_search_loop]. fold (fptr_at m p). destruct k as [|k].
  - rewrite Z.mul_0_l, Z.add_0_r in *. by rewrite Hat.
  - pose proof (Hbefore O ltac:(lia)) as H0. rewrite Z.mul_0_l, Z.add_0_r in H0. rewrite H0.
    rewrite (IH (p + 16) k); [lia | lia | |].
    + replace (p + 16 + Z.of_nat k * 16) with (p + Z.of_nat (S k) * 16) by lia. done.
    + intros j Hj. replace (p + 16 + Z.of_nat j * 16) with (p + Z.of_nat (S j) * 16) by lia. apply Hbefore. lia.
Qed.

Lemma mp_search_loop_none m n p :
  (forall j, (j < n)%nat -> fptr_at m (p + Z.of_nat j * 16) = false) -> mp_search_loop n m p = 0.
Proof.
  revert p. induction n as [|n IH]; intros p Hno; [done |]. cbn [mp_search_loop]. fold (fptr_at m p).
  pose proof (Hno O ltac:(lia)) as H0. rewrite Z.mul_0_l, Z.add_0_r in H0. rewrite H0.
  apply IH. intros j Hj. replace (p + 16 + Z.of_nat j * 16) with (p + Z.of_nat (S j) * 16) by lia. apply Hno. lia.
Qed.

(** The BIOS area holds the floating pointer structure, [k] paragraphs from
    its start, of a configuration table with the entries [es]. *)
Record mp_tables (m : memory) (k : nat) (conf : Z) (es : list mp_entry) : Prop := {
  mt_k : (k < 4096)%nat;
  mt_at : fptr_at m (0xF0000 + Z.of_nat k * 16) = true;
  mt_first : forall j, (j < k)%nat -> fptr_at m (0xF0000 + Z.of_nat j * 16) = false;
  mt_conf : mp_physaddr m (0xF0000 + Z.of_nat k * 16) = conf;
  mt_pos : 0 < conf;
  mt_type : mp_type m (0xF0000 + Z.of_nat k * 16) = 0;
  mt_mode : Z.testbit (mp_imcrp m (0xF0000 + Z.of_nat k * 16)) 7 = false;
  mt_sig : signature_is m conf str_PCMP = true;
  mt_sum : sum m conf (conf_length m conf) = 0;
  mt_version : conf_version m conf = 1 \/ conf_version m conf = 4;
  mt_length : conf_length m conf = MP_CONF_SIZE + entries_size es;
  mt_entries : entries_at m (conf + MP_CONF_SIZE) es
}.

Lemma entries_length es : Z.of_nat (length es) <= entries_size es.
Proof. induction es as [|e es IH]; [done |]. simpl. pose proof (entry_size_bound e). lia. Qed.

(** CPU descriptions start out unallocated. *)
Definition no_cpus (s : boot_state) : Prop :=
  boot_ok (ct_mem (b_ct s)) /\ ct_first_time (b_ct s) = true /\ ct_ncpus (b_ct s) = 0.

Lemma found_none s : no_cpus s -> found s 0 s.
Proof. intros (? & ? & ?). split; try done; [by left | lia]. Qed.

Lemma set_b_ct_same s : set_b_ct (b_ct s) s = s.
Proof. by destruct s. Qed.

(** Every description can be found by its number. *)
Lemma cpu_info_ok s i :
  table_ok (b_ct s) -> 0 <= i < ct_ncpus (b_ct s) ->
  on_table (boot_get_cpu_info i) s = Ok (cpuinfo_pool (b_ct s) + i * 4096) s.
Proof.
  intros [_ Hc _ Hslots] Hi. unfold on_table, boot_get_cpu_info, zoom.
  destruct (Z.ltb_spec MAX_CPUS i); [lia |]. destruct (Z.leb_spec MAX_CPUS i); [lia |].
  erewrite bind_step by done. unfold mret, M_ret. by rewrite (Hslots i Hi), set_b_ct_same.
Qed.

Lemma cpu_of_ok s i : 0 < cpuinfo_pool (b_ct s) -> 0 <= i -> cpu_of (cpuinfo_pool (b_ct s) + i * 4096) s = Ok i s.
Proof.
  intros Hp Hi. unfold cpu_of. destruct (Z.eqb_spec (cpuinfo_pool (b_ct s) + i * 4096) 0); [lia |].
  erewrite bind_step by done. unfold mret, M_ret. f_equal.
  replace (cpuinfo_pool (b_ct s) + i * 4096 - cpuinfo_pool (b_ct s)) with (i * 4096) by lia. by apply Z.div_mul.
Qed.

Lemma get_info_ok s i :
  table_ok (b_ct s) -> 0 < cpuinfo_pool (b_ct s) -> 0 <= i < ct_ncpus (b_ct s) -> get_info i s = Ok i s.
Proof.
  intros Ht Hp Hi. unfold get_info. erewrite bind_step by (by apply cpu_info_ok). apply cpu_of_ok; [done | lia].
Qed.

Lemma wp_elim_unit {S} (m : M S unit) s Q : wp m s (fun _ => Q) -> exists s', m s = Ok tt s' /\ Q s'.
Proof. intros H. destruct (wp_elim _ _ _ H) as ([] & s' & ? & ?). eauto. Qed.

(** C11: on a machine with a local APIC whose BIOS describes its processors in
    a valid MP configuration table, below the memory the allocator manages,
    [mp_init] returns; every core of every processor entry then has a
    description of its own, page [i] of the pool, with number and APIC id
    [i]; the I/O APIC is at its architectural address; and memory that was
    in use is unchanged. *)
Theorem mp_init_correct s k conf es :
  Z.testbit leaf1_edx 9 = true -> Z.testbit apic_base 11 = true -> 0 < cores ->
  no_cpus s -> pool_room (ct_mem (b_ct s)) -> mp_tables (b_mem s) k conf es ->
  conf + MP_CONF_SIZE + entries_size es <= boot_free_addr (ct_mem (b_ct s)) ->
  MIN_CPUS <= cores * processors es <= MAX_CPUS ->
  exists s', mp_init leaf1_edx apic_base leaf4_eax s = Ok tt s' /\
    ct_ncpus (b_ct s') = cores * processors es /\ b_ioapicva s' = IOAPICPA /\
    (forall i, 0 <= i < cores * processors es ->
       get_info i s' = Ok i s' /\
       cpuid (default no_cpu (b_cpus s' !! i)) = i /\ lapic_id (default no_vmm (b_vmms s' !! i)) = i) /\
    same_on (fun x => x < boot_free_addr (ct_mem (b_ct s))) (b_mem s) (b_mem s').
Proof.
  intros Hedx Hbase Hcores Hno Hroom Hmt Htop Hcount. apply (wp_elim_unit (mp_init leaf1_edx apic_base leaf4_eax)).
  unfold mp_init. rewrite Hedx, Hbase. cbn [andb negb]. wp_step. wp_step.
  change (mp_search (b_mem s) 0xF0000 0x10000) with (mp_search_loop 4096 (b_mem s) 0xF0000).
  destruct Hmt as [Hk Hat Hfirst Hconf Hpos Htype Hmode Hsig Hsum Hver Hlen Hes].
  rewrite (mp_search_loop_spec _ _ _ k Hk Hat Hfirst). set (mp := 0xF0000 + Z.of_nat k * 16) in *.
  rewrite Hconf, Htype, Hmode, Hsig, Hsum. destruct (Z.eqb_spec mp 0); [lia |].
  destruct (Z.eqb_spec conf 0); [lia |]. cbn [Z.eqb negb orb].
  assert (negb (conf_version (b_mem s) conf =? 1) && negb (conf_version (b_mem s) conf =? 4) = false) as ->
    by (destruct Hver as [-> | ->]; done).
  wp_step. pose proof (entries_length es). pose proof (entries_size_nonneg es).
  eapply post_mono; [apply (mp_entries_spec s conf es); try done; try lia; [by apply found_none | by left] |].
  intros [c io] s1 _ (Hc & Hf & Hio). cbn [fst snd] in *. rewrite Z.add_0_l in Hc. subst c.
  unfold on_table, get_ncpus. wp_step. wp_step. wp_step. cbn [b_ct set_b_ct].
  rewrite (fd_count _ _ _ Hf), Z.eqb_refl. cbn [negb].
  destruct (Z.ltb_spec (cores * processors es) MIN_CPUS); [lia |].
  rewrite set_b_ct_same. wp_step. wp_step. wp_step. split_and!.
  - apply (fd_count _ _ _ Hf).
  - cbn [b_ioapicva set_b_ioapicva]. destruct (Z.eqb_spec io 0); [done |].
    destruct Hio as [? |[Haddr Hle]]; [done |]. rewrite <-Haddr. apply load_ext.
    intros x Hx. symmetry. apply (fd_low _ _ _ Hf). simpl in Hx. lia.
  - intros i Hi. split; [|by apply (fd_cpus _ _ _ Hf)].
    destruct (fd_table _ _ _ Hf) as [[? _]|(Ht & Hp & _)]; [lia |].
    apply get_info_ok; [done | done |]. cbn [b_ct set_b_ioapicva]. by rewrite (fd_count _ _ _ Hf).
  - apply (fd_low _ _ _ Hf).
Qed.
End MpSpec.

(** ** Message pages *)

(** CPUs have been found: the table, and a state of the allocator above it. *)
Record cpus_found (n : Z) (s : boot_state) : Prop := {
  cf_boot : boot_ok (ct_mem (b_ct s));
  cf_table : table_ok (b_ct s);
  cf_pool : 0 < cpuinfo_pool (b_ct s);
  cf_count : ct_ncpus (b_ct s) = n;
  cf_ids : forall i, 0 <= i < n -> cpuid (default no_cpu (b_cpus s !! i)) = i
}.

Lemma ALIGN_unique x k y :
  0 <= k <= 62 -> 0 <= x <= 2 ^ 62 -> y mod 2 ^ k = 0 -> x <= y < x + 2 ^ k -> ALIGN x (2 ^ k) = y.
Proof.
  intros Hk Hx Hy Hr. destruct (ALIGN_pow2 x k Hk Hx) as (Hal & Hle & _).
  apply Z.mod_divide in Hal as [qa Hqa]; [|lia]. apply Z.mod_divide in Hy as [qy ->]; [|lia].
  rewrite Hqa in *. f_equal. nia.
Qed.

(** The loop over the CPUs. *)
Record messages_set (n a b c rb : Z) (k : Z) (s s' : boot_state) : Prop := {
  ms_ct : b_ct s' = b_ct s;
  ms_bases : (b_msg_input s', b_msg_output s', b_msg_ready s') = (a, b, c);
  ms_done : forall i, 0 <= i < k -> default no_cpu (b_cpus s' !! i) =
    set_msgs (a + i * 4096) (b + i * 4096) (c + i * 4096) rb (default no_cpu (b_cpus s !! i));
  ms_rest : forall i, k <= i -> b_cpus s' !! i = b_cpus s !! i
}.

Lemma get_msg_ok base i s :
  0 <= i <= ct_ncpus (b_ct s) -> get_msg base i s = Ok (w64 (base s + i * 4096)) s.
Proof.
  intros Hi. unfold get_msg, on_table, get_ncpus.
  assert (zoom b_ct set_b_ct (gets ct_ncpus) s = Ok (ct_ncpus (b_ct s)) s) as Hn
    by (unfold zoom; cbn; by rewrite set_b_ct_same).
  erewrite bind_step by exact Hn. destruct (Z.ltb_spec (ct_ncpus (b_ct s)) i); [lia |]. done.
Qed.

Lemma set_messages_step n a b c rb k s s' :
  cpus_found n s -> 0 <= k < n -> 0 <= a < 2 ^ 62 -> 0 <= b < 2 ^ 62 -> 0 <= c < 2 ^ 62 ->
  messages_set n a b c rb k s s' ->
  wp (set_messages rb k) s' (fun _ s'' => messages_set n a b c rb (k + 1) s s'').
Proof.
  intros Hf Hk Ha Hb Hc [Hct Hbases Hdone Hrest]. pose proof Hf as [_ Ht Hp Hn _].
  assert (n <= MAX_CPUS) by (rewrite <-Hn; apply Ht). injection Hbases as Hba Hbb Hbc.
  unfold set_messages, get_msg_input, get_msg_output, get_msg_ready, post.
  erewrite bind_step by (apply get_info_ok; rewrite Hct; [done | done | lia]).
  erewrite bind_step by (apply get_msg_ok; rewrite Hct; lia).
  erewrite bind_step by (apply get_msg_ok; rewrite Hct; lia).
  erewrite bind_step by (apply get_msg_ok; rewrite Hct; lia).
  rewrite Hba, Hbb, Hbc, !w64_small by lia. cbn. split; cbn; [done | by rewrite Hba, Hbb, Hbc | |].
  - intros i Hi. destruct (decide (i = k)) as [->|]; [rewrite lookup_insert_eq; cbn; by rewrite Hrest by lia |].
    rewrite lookup_insert_ne by done. apply Hdone. lia.
  - intros i Hi. rewrite lookup_insert_ne by lia. apply Hrest. lia.
Qed.

Lemma set_messages_loop n a b c rb j k s s' :
  cpus_found n s -> 0 <= k -> k + Z.of_nat j = n -> 0 <= a < 2 ^ 62 -> 0 <= b < 2 ^ 62 -> 0 <= c < 2 ^ 62 ->
  messages_set n a b c rb k s s' ->
  wp (forM (seqZ k (Z.of_nat j)) (set_messages rb)) s' (fun _ s'' => messages_set n a b c rb n s s'').
Proof.
  intros Hf Hk Hj Ha Hb Hc. revert k s' Hk Hj. induction j as [|j IH]; intros k s' Hk Hj Hm.
  { apply post_ret. assert (k = n) as -> by lia. exact Hm. }
  rewrite seqZ_cons by lia. rewrite Nat2Z.inj_succ, Z.pred_succ in *. cbn [forM]. wp_step.
  eapply post_mono; [apply (set_messages_step n a b c rb k s); [done | lia | done..] |].
  intros [] s1 _ Hm1. apply IH; [lia | lia | done].
Qed.

(** [calloc_align] lifted to the boot stage's state. *)
Lemma calloc_b nmemb size k s :
  boot_ok (ct_mem (b_ct s)) -> 0 < nmemb -> 0 < size -> 0 <= k <= 62 -> 2 ^ k < memory_size (ct_mem (b_ct s)) ->
  ALIGN (boot_free_addr (ct_mem (b_ct s))) (2 ^ k) + nmemb * size <= memory_size (ct_mem (b_ct s)) ->
  exists bm, on_boot (calloc_align nmemb size (2 ^ k)) s =
      Ok (ALIGN (boot_free_addr (ct_mem (b_ct s))) (2 ^ k)) (set_b_ct (set_ct_mem bm (b_ct s)) s) /\
    boot_ok bm /\ memory_size bm = memory_size (ct_mem (b_ct s)) /\
    boot_free_addr bm = ALIGN (ALIGN (boot_free_addr (ct_mem (b_ct s))) (2 ^ k) + nmemb * size) 16 /\
    (forall x, byte_at (boot_memory bm) x =
       if bool_decide (ALIGN (boot_free_addr (ct_mem (b_ct s))) (2 ^ k) <= x <
                       ALIGN (boot_free_addr (ct_mem (b_ct s))) (2 ^ k) + nmemb * size)
       then 0 else byte_at (b_mem s) x).
Proof.
  intros Hok Hn Hs Hk Hbig Hroom.
  destruct (wp_elim _ _ _ (calloc_align_room nmemb size k _ Hok Hn Hs Hk Hbig Hroom)) as (p & bm & Hrun & -> & Hfree & Hsv).
  exists bm. split; [unfold on_boot, on_table, zoom; by rewrite Hrun |].
  destruct (align_free _ k Hok Hk) as ([Hf _] & _). cbn [boot_free_addr set_boot_free] in Hf.
  destruct Hsv as (Hokm & Hms & _ & [[? _]|(_ & _ & _ & _ & _ & Hb)]); [lia |]. done.
Qed.

(** There is room for the three arrays of message pages and the ready words. *)
Definition msg_room (s : boot_mem) : Prop := ALIGN (boot_free_addr s) _2MB_ + 3 * _2MB_ <= memory_size s.

(** [x] is in one of the arrays that start at [a]. *)
Definition message_area (n a x : Z) : Prop :=
  a <= x < a + n * 4096 \/ a + _2MB_ <= x < a + _2MB_ + n * 4096 \/
  a + 2 * _2MB_ <= x < a + 2 * _2MB_ + n * 4096 + 8 * n.

(** One array of [n] pages: at the next multiple of 2MB, and the multiple after
    it is free again. *)
Lemma message_array n s :
  let p := ALIGN (boot_free_addr (ct_mem (b_ct s))) _2MB_ in
  boot_ok (ct_mem (b_ct s)) -> 0 < n <= MAX_CPUS -> p + _2MB_ <= memory_size (ct_mem (b_ct s)) ->
  exists bm, on_boot (calloc_align 1 (n * _4KB_) _2MB_) s = Ok p (set_b_ct (set_ct_mem bm (b_ct s)) s) /\
    boot_ok bm /\ memory_size bm = memory_size (ct_mem (b_ct s)) /\ boot_free_addr bm = p + n * 4096 /\
    ALIGN (boot_free_addr bm) _2MB_ = p + _2MB_ /\ (p + n * 4096) mod 4096 = 0 /\
    (forall x, byte_at (boot_memory bm) x = if bool_decide (p <= x < p + n * 4096) then 0 else byte_at (b_mem s) x).
Proof.
  intros p Hok Hn Hroom. pose proof Hok as [Hf Hm].
  destruct (ALIGN_pow2 (boot_free_addr (ct_mem (b_ct s))) 21) as (Hal & Hle & _); [lia.. |].
  change (2 ^ 21) with _2MB_ in *. fold p in Hal, Hle. apply Z.mod_divide in Hal as [q Hq]; [|lia].
  destruct (calloc_b 1 (n * _4KB_) 21 s) as (bm & Hrun & Hokm & Hms & Hfree & Hb); try (done || lia).
  { change (2 ^ 21) with _2MB_. fold p. lia. }
  change (2 ^ 21) with _2MB_ in *. fold p in Hrun, Hfree, Hb. rewrite Z.mul_1_l in *.
  assert (Hpage : (p + n * 4096) mod 4096 = 0)
    by (replace (p + n * 4096) with ((q * 512 + n) * 4096) by lia; by apply Z.mod_mul).
  assert (boot_free_addr bm = p + n * 4096) as Hfb.
  { rewrite Hfree. apply (ALIGN_unique _ 4); [lia | lia | | lia].
    replace (p + n * 4096) with ((q * 512 + n) * 256 * 2 ^ 4) by lia. by apply Z.mod_mul. }
  exists bm. split_and!; try done. rewrite Hfb. apply (ALIGN_unique _ 21); [lia | lia | | lia].
  rewrite Hq. replace (q * _2MB_ + _2MB_) with ((q + 1) * 2 ^ 21) by lia. by apply Z.mod_mul.
Qed.

(** The four requests. *)
Lemma message_blocks n s :
  boot_ok (ct_mem (b_ct s)) -> 0 < n <= MAX_CPUS -> msg_room (ct_mem (b_ct s)) ->
  let a := ALIGN (boot_free_addr (ct_mem (b_ct s))) _2MB_ in
  exists s1 s2 s3 bm, let s3' := set_b_msgs a (a + _2MB_) (a + 2 * _2MB_) s3 in
    on_boot (calloc_align 1 (n * _4KB_) _2MB_) s = Ok a s1 /\
    on_boot (calloc_align 1 (n * _4KB_) _2MB_) s1 = Ok (a + _2MB_) s2 /\
    on_boot (calloc_align 1 (n * _4KB_) _2MB_) s2 = Ok (a + 2 * _2MB_) s3 /\
    on_boot (calloc_align 8 n _4KB_) s3' =
      Ok (a + 2 * _2MB_ + n * 4096) (set_b_ct (set_ct_mem bm (b_ct s)) (set_b_msgs a (a + _2MB_) (a + 2 * _2MB_) s)) /\
    boot_ok bm /\ a + 2 * _2MB_ + n * 4096 + 8 * n <= boot_free_addr bm /\
    (forall x, message_area n a x -> byte_at (boot_memory bm) x = 0) /\
    (forall x, ~ message_area n a x -> byte_at (boot_memory bm) x = byte_at (b_mem s) x).
Proof.
  intros Hok Hn Hroom a. pose proof Hok as [Hf Hm]. unfold msg_room in Hroom. fold a in Hroom.
  assert (0 <= a) by (pose proof (ALIGN_pow2 (boot_free_addr (ct_mem (b_ct s))) 21 ltac:(lia) ltac:(lia)) as (_ & ? & _);
    change (2 ^ 21) with _2MB_ in *; lia).
  destruct (message_array n s) as (m1 & Hr1 & Ho1 & Hs1 & _ & Hn1 & _ & Hb1); [done | done | fold a; lia |].
  fold a in Hr1, Hn1, Hb1. set (s1 := set_b_ct (set_ct_mem m1 (b_ct s)) s) in *.
  destruct (message_array n s1) as (m2 & Hr2 & Ho2 & Hs2 & _ & Hn2 & _ & Hb2); try done.
  { cbn. rewrite Hn1, Hs1. lia. }
  cbn [b_ct s1 set_b_ct ct_mem set_ct_mem] in Hr2, Hn2, Hb2, Hs2. rewrite Hn1 in *.
  set (s2 := set_b_ct (set_ct_mem m2 (b_ct s1)) s1) in *.
  destruct (message_array n s2) as (m3 & Hr3 & Ho3 & Hs3 & Hf3 & _ & Hp3 & Hb3); try done.
  { cbn. rewrite Hn2, Hs2, Hs1. lia. }
  cbn [b_ct s2 s1 set_b_ct ct_mem set_ct_mem] in Hr3, Hf3, Hb3, Hs3, Hp3. rewrite Hn2 in *.
  replace (a + _2MB_ + _2MB_) with (a + 2 * _2MB_) in * by lia.
  set (s3 := set_b_msgs a (a + _2MB_) (a + 2 * _2MB_) (set_b_ct (set_ct_mem m3 (b_ct s2)) s2)).
  assert (Hat : ALIGN (boot_free_addr (ct_mem (b_ct s3))) (2 ^ 12) = a + 2 * _2MB_ + n * 4096).
  { change (boot_free_addr (ct_mem (b_ct s3))) with (boot_free_addr m3). rewrite Hf3.
    apply (ALIGN_unique _ 12); [lia | lia | done | lia]. }
  destruct (calloc_b 8 n 12 s3) as (m4 & Hr4 & Ho4 & Hs4 & Hf4 & Hb4); try (done || lia).
  { change (memory_size (ct_mem (b_ct s3))) with (memory_size m3). lia. }
  { rewrite Hat. change (memory_size (ct_mem (b_ct s3))) with (memory_size m3). lia. }
  rewrite Hat in *. exists s1, s2, (set_b_ct (set_ct_mem m3 (b_ct s2)) s2), m4. split_and!; try done.
  - rewrite Hf4. apply (ALIGN_pow2 _ 4); lia.
  - intros x Hx. unfold message_area in Hx. rewrite Hb4. case_bool_decide; [done |].
    change (b_mem s3) with (boot_memory m3). rewrite Hb3. case_bool_decide; [done |].
    change (b_mem s2) with (boot_memory m2). rewrite Hb2. case_bool_decide; [done |].
    change (b_mem s1) with (boot_memory m1). rewrite Hb1. case_bool_decide; [done |]. lia.
  - intros x Hx. unfold message_area in Hx. rewrite Hb4, bool_decide_false by lia.
    change (b_mem s3) with (boot_memory m3). rewrite Hb3, bool_decide_false by lia.
    change (b_mem s2) with (boot_memory m2). rewrite Hb2, bool_decide_false by lia.
    change (b_mem s1) with (boot_memory m1). rewrite Hb1, bool_decide_false by lia. done.
Qed.

(** C12: once the CPUs are known and there is room, [boot_stage2_main] gives CPU
    [i] page [i] of each of three zeroed arrays of message pages and the one
    array of ready words; the arrays lie above all memory in use and do not
    overlap, and no other byte changes.  With the number of CPUs stored in the
    descriptions, which [load_all_vmms] does next, this is the layout the
    message library is proved correct for. *)
Theorem alloc_messages_correct n s :
  cpus_found n s -> 0 < n -> msg_room (ct_mem (b_ct s)) ->
  let a := ALIGN (boot_free_addr (ct_mem (b_ct s))) _2MB_ in
  let rb := a + 2 * _2MB_ + n * 4096 in
  exists s', alloc_messages s = Ok tt s' /\
    (forall i, 0 <= i < n -> default no_cpu (b_cpus s' !! i) =
       set_msgs (a + i * 4096) (a + _2MB_ + i * 4096) (a + 2 * _2MB_ + i * 4096) rb (default no_cpu (b_cpus s !! i))) /\
    boot_free_addr (ct_mem (b_ct s)) <= a /\ rb + 8 * n <= boot_free_addr (ct_mem (b_ct s')) /\
    (forall x, message_area n a x -> byte_at (b_mem s') x = 0) /\
    (forall x, ~ message_area n a x -> byte_at (b_mem s') x = byte_at (b_mem s) x) /\
    (forall mach, n <= 31 -> m_cpus mach = set_ncpus n <$> b_cpus s' -> 0 <= m_self mach < n ->
       ipc_layout n a (a + _2MB_) rb mach).
Proof.
  intros Hf Hn Hroom a rb. pose proof Hf as [Hok Ht Hp Hc Hids].
  assert (n <= MAX_CPUS) by (rewrite <-Hc; apply Ht). pose proof Hok as [Hfree Hsz].
  destruct (ALIGN_pow2 (boot_free_addr (ct_mem (b_ct s))) 21) as (_ & Hle & _); [lia.. |].
  change (2 ^ 21) with _2MB_ in *. fold a in Hle. unfold msg_room in Hroom.
  destruct (message_blocks n s Hok ltac:(lia) Hroom) as (s1 & s2 & s3 & bm & Hr1 & Hr2 & Hr3 & Hr4 & Hokm & Htop & Hz & Hsame).
  fold a in Hroom, Hr1, Hr2, Hr3, Hr4, Htop, Hz, Hsame. fold rb in Hr4, Htop.
  set (s4 := set_b_ct _ _) in Hr4.
  assert (Hf4 : cpus_found n s4) by (split; [done | by destruct Ht; split | done..]).
  destruct (wp_elim_unit (forM (seqZ 0 (Z.of_nat (Z.to_nat n))) (set_messages rb)) s4
    (messages_set n a (a + _2MB_) (a + 2 * _2MB_) rb n s4)) as (s' & Hloop & [Hct _ Hdone _]).
  { apply (set_messages_loop n a _ _ rb _ 0 s4 s4); try (done || lia). split; [done | done | lia | done]. }
  rewrite Z2Nat.id in Hloop by lia. exists s'. split_and!; try done; try lia.
  - unfold alloc_messages. erewrite bind_step by (unfold on_table, zoom; cbn; by rewrite set_b_ct_same).
    rewrite Hc. erewrite bind_step by exact Hr1. erewrite bind_step by exact Hr2. erewrite bind_step by exact Hr3.
    erewrite bind_step by done. by erewrite bind_step by exact Hr4.
  - rewrite Hct. done.
  - intros x Hx. unfold b_mem. rewrite Hct. by apply Hz.
  - intros x Hx. unfold b_mem. rewrite Hct. by apply Hsame.
  - intros mach H31 Hcpus Hself.
    assert (Hcpu : forall i, 0 <= i < n -> cpu_at mach i = set_ncpus n (default no_cpu (b_cpus s' !! i))).
    { intros i Hi. unfold cpu_at. rewrite Hcpus, lookup_fmap. specialize (Hdone i Hi).
      destruct (b_cpus s' !! i); [done |]. apply (f_equal msg_input) in Hdone. cbn in Hdone. lia. }
    split; [lia | | done | lia | unfold rb in *; lia].
    intros i Hi. rewrite Hcpu, Hdone by done. cbn. split_and!; try (done || lia). by apply Hids.
Qed.

(** ** Handing over *)

(** The state with other memory contents. *)
Definition with_mem (m : memory) (s : boot_state) : boot_state :=
  set_b_ct (set_ct_mem (set_boot_memory m (ct_mem (b_ct s))) (b_ct s)) s.

Lemma poke_b_ok f s : poke_b f s = Ok tt (with_mem (f (b_mem s)) s).
Proof. done. Qed.

Lemma on_boot_gets {A} (f : boot_mem -> A) s : on_boot (gets f) s = Ok (f (ct_mem (b_ct s))) s.
Proof. by destruct s as [[]]. Qed.

(** [set_vm_args] fills in the process manager's arguments. *)
Lemma set_vm_args_ok n args s :
  cpus_found n s -> FS < n ->
  let p := b_pm_arguments s in
  let m := store64 (store64 (store64 (b_mem s) p (memory_size (ct_mem (b_ct s))))
             (p + 16) (boot_free_addr (ct_mem (b_ct s)))) (p + 8) (ba_1GB_page args) in
  set_vm_args args s = Ok tt (set_b_cpus
    (<[FS := set_vm_args_ptr (initrd_elf_addr args) (default no_cpu (b_cpus s !! FS))]>
       (<[PM := set_vm_args_ptr p (default no_cpu (b_cpus s !! PM))]> (b_cpus s))) (with_mem m s)).
Proof.
  intros [Hok Ht Hp Hc Hids] Hn p m. unfold set_vm_args, get_mem_size, get_last_used_addr.
  erewrite bind_step by apply on_boot_gets. erewrite bind_step by done.
  erewrite bind_step by apply poke_b_ok. erewrite bind_step by apply on_boot_gets.
  erewrite bind_step by apply poke_b_ok. erewrite bind_step by apply poke_b_ok.
  set (s1 := with_mem _ (with_mem _ (with_mem _ s))).
  assert (table_ok (b_ct s1)) by (by destruct Ht; split).
  erewrite bind_step by (apply get_info_ok; [done | done | cbn; lia]). erewrite bind_step by done.
  erewrite bind_step by (apply get_info_ok; [done | done | cbn; lia]).
  unfold set_b_cpu, modify. f_equal. cbn. by rewrite lookup_insert_ne by done.
Qed.

(** The process manager as it starts on the boot stage's memory and CPU
    descriptions. *)
Definition starts_from (b : boot_state) (s : pm_state) : Prop :=
  p_mem s = b_mem b /\ m_cpus (p_m s) = b_cpus b /\ m_self (p_m s) = PM.

(** C13: what [set_vm_args] writes is what the process manager reads when it
    starts: its allocator then manages exactly the memory from the boot
    stage's free address, past its own node array, to the top of memory, so
    that no page the boot stage handed out is ever allocated again; large
    pages are used if the processor has them; and the file server is given
    the address of the initial file system. *)
Theorem boot_hands_over junk n args s :
  cpus_found n s -> FS < n -> 0 <= ba_1GB_page args < 2 ^ 64 ->
  let last := boot_free_addr (ct_mem (b_ct s)) in
  let size := memory_size (ct_mem (b_ct s)) in
  size mod 4096 = 0 -> size <= 2 ^ 42 -> last + node_count (size - last) * 32 + 4096 <= size ->
  exists b, set_vm_args args s = Ok tt b /\
    vm_args (default no_cpu (b_cpus b !! FS)) = initrd_elf_addr args /\
    forall p, starts_from b p -> exists p', pm_init junk p = Ok tt p' /\
      has_1GB_page p' = negb (w32 (ba_1GB_page args) =? 0) /\
      last + all_nodes (p_mm p') * 32 <= first_free_addr (p_mm p') < last + all_nodes (p_mm p') * 32 + 4096 /\
      (forall q, managed (p_mm p') q <-> first_free_addr (p_mm p') <= q < size) /\
      (forall q, ~ in_use (p_mm p') q).
Proof.
  intros Hf Hn Hbig last size Hpage Hmax Hroom. eexists. split; [by eapply set_vm_args_ok |].
  split; [by cbn; rewrite lookup_insert_eq |].
  intros p (Hm & Hcpus & Hself). cbn [b_cpus set_b_cpus] in Hcpus. pose proof Hf as [[Hfree _] _ _ _ _].
  destruct (memory_init_ok junk last size (p_mm p)) as (mm & k & Hrun & Hr & _ & _ & Hff & Htop); [lia | done | done | done |].
  assert (Hargs : vm_args (self (p_m p)) = b_pm_arguments s).
  { unfold self, cpu_at. rewrite Hself, Hcpus, lookup_insert_ne, lookup_insert_eq by done. done. }
  set (a := b_pm_arguments s) in *. assert (0 <= size).
  { unfold node_count in Hroom. pose proof (Z.div_mod (size - last) 4096 ltac:(lia)).
    pose proof (Z.mod_pos_bound (size - last) 4096 ltac:(lia)). destruct (_ =? 0); lia. }
  match type of Hm with _ = b_mem (set_b_cpus _ (with_mem ?m _)) => change (p_mem p = m) in Hm end.
  assert (Hsize : load64 (p_mem p) a = size)
    by (rewrite Hm, !load64_store64_ne, load64_store64_eq by lia; apply w64_small; lia).
  assert (Hlast : load64 (p_mem p) (a + 16) = last)
    by (rewrite Hm, load64_store64_ne, load64_store64_eq by lia; apply w64_small; lia).
  assert (Hflag : load64 (p_mem p) (a + 8) = ba_1GB_page args)
    by (rewrite Hm, load64_store64_eq; by apply w64_small).
  exists (Pm mm (p_m p) (negb (w32 (ba_1GB_page args) =? 0)) (arg_vector p) (argv_ptr p) (p_stale p)).
  cbn [p_mm has_1GB_page]. split_and!; try (done || lia).
  - unfold pm_init. erewrite bind_step by done. erewrite bind_step by done. erewrite bind_step by done.
    rewrite Hargs, Hsize, Hlast, Hflag. unfold on_kmem, on_mm, zoom. cbn [k_mm p_mm]. rewrite Hrun.
    unfold set_kmem, set_mm. cbn. do 2 f_equal. by destruct (p_m p).
  - intros q. split.
    + intros (bl & Hr2 & Hq). rewrite (mm_repr_unique _ _ _ Hr2 Hr) in Hq. cbn in Hq. lia.
    + intros Hq. exists [(k, 0)]. split; [done |]. cbn. lia.
  - intros q (bl & j & Hr2 & _ & Hl). rewrite (mm_repr_unique _ _ _ Hr2 Hr) in Hl. cbn [page_live] in Hl.
    destruct (_ <? _); [|done]. by destruct (_ <=? _).
Qed.
