(* ===== verification/BootEpt.v ===== *)
(** * The memory of the servers

    The process manager and the file server run under an EPT that the second
    boot stage builds ([ept_map_memory_server]): all of the first 4GB, mapped
    to itself. *)

From S2P Require Import Prelude PhysMem MemMgr Paging PageWalk PagingSpec EptSpec BootMem BootMemSpec.
From S2P Require Import CpuInfo Ipc Pm PmEpt PmProc Boot BootSpec.

(** The state after some calls that concern CPU [id]: its description is [c],
    the allocator is in state [bm], and nothing else has changed. *)
Record touched (id : Z) (c : cpu_info) (bm : boot_mem) (s0 s : boot_state) : Prop := {
  tc_cpu : default no_cpu (b_cpus s !! id) = c;
  tc_others : forall j, j <> id -> b_cpus s !! j = b_cpus s0 !! j;
  tc_ct : b_ct s = set_ct_mem bm (b_ct s0);
  tc_rest : (b_vmms s, b_1GB_page s, b_pm_arguments s) = (b_vmms s0, b_1GB_page s0, b_pm_arguments s0)
}.

Lemma touched_none id s : touched id (default no_cpu (b_cpus s !! id)) (ct_mem (b_ct s)) s s.
Proof. split; try done. by destruct s as [[]]. Qed.

(** One mapping call on the guest's page tables, and on its EPT. *)
Lemma touched_call {A} E id c bm s0 s (m : M boot_mem A) (f : A -> vm_proc -> vm_proc) R :
  touched id c bm s0 s -> post E m bm R ->
  post E (root ← on_boot m; set_b_vm id (f root)) s (fun _ s' => exists root bm', R root bm' /\
    touched id (set_vm_info (f root (vm_info c)) c) bm' s0 s').
Proof.
  intros [Hc Ho Hct Hr] Hm. wp_step. unfold on_boot, on_table. wp_step. wp_step. rewrite Hct. cbn [ct_mem set_ct_mem].
  eapply post_mono; [exact Hm |]. intros root bm' _ HR. unfold set_b_vm, set_b_cpu. wp_step.
  exists root, bm'. split; [done |]. split; cbn [b_cpus b_ct set_b_cpus set_b_ct b_vmms b_1GB_page b_pm_arguments].
  - rewrite lookup_insert_eq. cbn [default]. by rewrite Hc.
  - intros j Hj. rewrite lookup_insert_ne by done. by apply Ho.
  - by destruct (b_ct s0).
  - done.
Qed.

Lemma b_map_step E id c bm s0 s start end_ pa ps prot flags R :
  touched id c bm s0 s -> post E (map_memory (vm_page_tables (vm_info c)) start end_ pa ps prot flags) bm R ->
  post E (b_map_vm id start end_ pa ps prot flags) s (fun _ s' => exists root bm', R root bm' /\
    touched id (set_vm_info (set_vm_page_tables root (vm_info c)) c) bm' s0 s').
Proof.
  intros Ht Hm. unfold b_map_vm. wp_step. unfold b_cpu. apply post_gets. rewrite (tc_cpu _ _ _ _ _ Ht).
  by eapply touched_call.
Qed.

Lemma b_ept_step E id c bm s0 s start end_ pa ps mtype prot flags R :
  touched id c bm s0 s -> post E (ept_map_memory (vm_ept (vm_info c)) start end_ pa ps mtype prot flags) bm R ->
  post E (b_ept_vm id start end_ pa ps mtype prot flags) s (fun _ s' => exists root bm', R root bm' /\
    touched id (set_vm_info (set_vm_ept root (vm_info c)) c) bm' s0 s').
Proof.
  intros Ht Hm. unfold b_ept_vm. wp_step. unfold b_cpu. apply post_gets. rewrite (tc_cpu _ _ _ _ _ Ht).
  by eapply touched_call.
Qed.

(** The guest's page tables. *)
Lemma b_map_low_spec id c bm s0 s n :
  touched id c bm s0 s -> boot_ok bm -> 0 <= n -> pa_avail bm (6200 + n) ->
  wp (b_map_low id _2MB_) s (fun _ s' => exists pt bm',
    touched id (set_vm_info (set_vm_page_tables pt (vm_info c)) c) bm' s0 s' /\
    maps (pa_owned bm) _2MB_ 2 pt vm_page_regions bm' /\ kept (pa_owned bm) bm bm' /\ pa_avail bm' n).
Proof.
  intros Ht Hok Hn Hav. unfold b_map_low. wp_step.
  eapply post_mono; [eapply (b_map_step _ id c bm); [exact Ht | apply (pt_new_total (pa_owned bm) _ _2MB_ 2 _ _ _ _ _ (6190 + n));
    [done | done | by apply args_low | done | lia | eapply pa_avail_less; [|exact Hav]]] |].
  { change (region_pages 0 _2MB_ _2MB_) with 1. lia. }
  intros [] s1 _ (pt & bm1 & ((Hm1 & Hk1) & Hav1) & Ht1). wp_step.
  eapply post_mono; [eapply (b_map_step _ id _ bm1); [exact Ht1 |
    apply (pt_add_total (pa_owned bm) _ _ _2MB_ 2 _ _ _ _ _ (31 + n) Hm1); [by apply args_mid | lia |
    eapply pa_avail_less; [|exact Hav1]]] |].
  { change (region_pages _2MB_ 0xFEC00000 _2MB_) with 2037. lia. }
  intros [] s2 _ (root & bm2 & ((-> & Hm2 & Hk2) & Hav2) & Ht2).
  eapply post_mono; [eapply (b_map_step _ id _ bm2); [exact Ht2 |
    apply (pt_add_total (pa_owned bm) _ _ _2MB_ 2 _ _ _ _ _ n Hm2); [by apply args_high | lia |
    eapply pa_avail_less; [|exact Hav2]]] |].
  { change (region_pages 0xFEC00000 (_1GB_ * 4) _2MB_) with 10. lia. }
  intros [] s3 _ (root & bm3 & ((-> & Hm3 & Hk3) & Hav3) & Ht3).
  exists pt, bm3. split_and!; [|done | by etransitivity; [|etransitivity] | done].
  by destruct c as [? [] ? ? ? ? ? ? ?].
Qed.

(** The EPT of a server: the first 2MB and the devices' registers uncached and
    not executable, everything between with all rights. *)
Abbreviation EPT_RWX := (Z.lor (Z.lor EPT_PAGE_READ EPT_PAGE_WRITE) EPT_PAGE_EXEC).
Definition server_regions : list region :=
  [Region 0 _2MB_ 0 (ept_flags _2MB_ EPT_MTYPE_UC EPT_RW);
   Region _2MB_ 0xFEC00000 _2MB_ (ept_flags _2MB_ EPT_MTYPE_WB EPT_RWX);
   Region 0xFEC00000 (_1GB_ * 4) 0xFEC00000 (ept_flags _2MB_ EPT_MTYPE_UC EPT_RW)].

(** Page [gpa / 2MB] is mapped to itself. *)
Definition identity (low_and_devices : Z) (between : Z) (gpa : Z) : option (Z * Z) :=
  if gpa <? _1GB_ * 4 then
    Some (gpa - gpa mod _2MB_ + (if (_2MB_ <=? gpa) && (gpa <? 0xFEC00000) then between else low_and_devices), _2MB_)
  else None.

Lemma overlay_identity f g gpa :
  0 <= gpa ->
  overlay _2MB_ [Region 0 _2MB_ 0 f; Region _2MB_ 0xFEC00000 _2MB_ g; Region 0xFEC00000 (_1GB_ * 4) 0xFEC00000 f] gpa =
  identity f g gpa.
Proof.
  intros H. unfold overlay, r_walk, region_walk, identity. cbn [r_start r_end r_pa r_flags].
  change (region_pages 0 _2MB_ _2MB_) with 1. change (region_pages _2MB_ 0xFEC00000 _2MB_) with 2037.
  change (region_pages 0xFEC00000 (_1GB_ * 4) _2MB_) with 10.
  change (0 / _2MB_) with 0. change (_2MB_ / _2MB_) with 1. change (0xFEC00000 / _2MB_) with 2038.
  pose proof (Z.div_mod gpa _2MB_ ltac:(lia)) as Hd. pose proof (Z.mod_pos_bound gpa _2MB_ ltac:(lia)).
  set (k := gpa / _2MB_) in *. set (r := gpa mod _2MB_) in *. clearbody k r. subst gpa.
  destruct (Z.ltb_spec (_2MB_ * k + r) (_1GB_ * 4)); destruct (Z.leb_spec 0 (k - 2038)); destruct (Z.ltb_spec (k - 2038) 10);
    destruct (Z.leb_spec 0 (k - 1)); destruct (Z.ltb_spec (k - 1) 2037); destruct (Z.leb_spec 0 (k - 0));
    destruct (Z.ltb_spec (k - 0) 1); destruct (Z.leb_spec _2MB_ (_2MB_ * k + r)); destruct (Z.ltb_spec (_2MB_ * k + r) 0xFEC00000);
    cbn [andb]; try lia; repeat f_equal; lia.
Qed.

(** A new EPT with these regions. *)
Lemma b_ept_server_spec id c bm s0 s n :
  touched id c bm s0 s -> boot_ok bm -> 0 <= n -> pa_avail bm (6200 + n) ->
  wp (b_ept_vm id 0 _2MB_ 0 _2MB_ EPT_MTYPE_UC EPT_RW MAP_NEW ;;
      b_ept_vm id _2MB_ 0xFEC00000 _2MB_ _2MB_ EPT_MTYPE_WB EPT_RWX MAP_UPDATE ;;
      b_ept_vm id 0xFEC00000 (_1GB_ * 4) 0xFEC00000 _2MB_ EPT_MTYPE_UC EPT_RW MAP_UPDATE) s
    (fun _ s' => exists ept bm',
      touched id (set_vm_info (set_vm_ept ept (vm_info c)) c) bm' s0 s' /\
      maps (pa_owned bm) _2MB_ 2 ept server_regions bm' /\ kept (pa_owned bm) bm bm' /\ pa_avail bm' n).
Proof.
  intros Ht Hok Hn Hav. wp_step.
  eapply post_mono; [eapply (b_ept_step _ id c bm); [exact Ht | apply (ept_new_total (pa_owned bm) _ _2MB_ 2 _ _ _ _ _ _ (6190 + n));
    [done | done | by apply args_low | done | done | lia | eapply pa_avail_less; [|exact Hav]]] |].
  { change (region_pages 0 _2MB_ _2MB_) with 1. lia. }
  intros [] s1 _ (pt & bm1 & ((Hm1 & Hk1) & Hav1) & Ht1). wp_step.
  eapply post_mono; [eapply (b_ept_step _ id _ bm1); [exact Ht1 |
    apply (ept_add_total (pa_owned bm) _ _ _2MB_ 2 _ _ _ _ _ _ (31 + n) Hm1); [by apply args_mid | done | lia |
    eapply pa_avail_less; [|exact Hav1]]] |].
  { change (region_pages _2MB_ 0xFEC00000 _2MB_) with 2037. lia. }
  intros [] s2 _ (root & bm2 & ((-> & Hm2 & Hk2) & Hav2) & Ht2).
  eapply post_mono; [eapply (b_ept_step _ id _ bm2); [exact Ht2 |
    apply (ept_add_total (pa_owned bm) _ _ _2MB_ 2 _ _ _ _ _ _ n Hm2); [by apply args_high | done | lia |
    eapply pa_avail_less; [|exact Hav2]]] |].
  { change (region_pages 0xFEC00000 (_1GB_ * 4) _2MB_) with 10. lia. }
  intros [] s3 _ (root & bm3 & ((-> & Hm3 & Hk3) & Hav3) & Ht3).
  exists pt, bm3. split_and!; [|done | by etransitivity; [|etransitivity] | done].
  by destruct c as [? [] ? ? ? ? ? ? ?].
Qed.

Abbreviation PT_DEVICES := (with_pse _2MB_ (Z.lor (Z.lor PAGE_PRESENT PAGE_RW) PAGE_PCD)).
Abbreviation PT_MEMORY := (with_pse _2MB_ (Z.lor PAGE_PRESENT PAGE_RW)).

(** Bytes of pages in use are kept. *)
Lemma kept_bytes top (P : Z -> Prop) (bm bm' : boot_mem) :
  kept P bm bm' -> (forall q, q mod 4096 = 0 /\ 0 < q < top -> P q) ->
  same_on (fun x => 4096 <= x < top) (boot_memory bm) (boot_memory bm').
Proof.
  intros (_ & _ & Hs) HP x Hx. apply Hs. exists (x - x mod 4096).
  pose proof (Z.div_mod x 4096 ltac:(lia)). pose proof (Z.mod_pos_bound x 4096 ltac:(lia)).
  split; [|lia]. apply HP. split; [|lia]. replace (x - x mod 4096) with (x / 4096 * 4096) by lia. by apply Z.mod_mul.
Qed.

(** Without 1GB pages and with enough free memory, [ept_map_memory_server]
    returns; the server's page tables and its EPT then both map each of the
    first 4GB to itself and nothing else, the EPT with execution allowed
    everywhere except in the first 2MB and the devices' range; other CPUs'
    descriptions and memory in use are unchanged. *)
Theorem server_memory_correct id s :
  let info := cpuinfo_pool (b_ct s) + id * 4096 in
  let c := default no_cpu (b_cpus s !! id) in
  0 < cpuinfo_pool (b_ct s) -> 0 <= id -> b_1GB_page s = false ->
  boot_ok (ct_mem (b_ct s)) -> pa_avail (ct_mem (b_ct s)) 12400 ->
  exists s' pt ept, ept_map_memory_server info s = Ok tt s' /\
    default no_cpu (b_cpus s' !! id) = with_tables pt ept c /\
    (forall j, j <> id -> b_cpus s' !! j = b_cpus s !! j) /\
    (forall va, 0 <= va < 2 ^ 48 -> walk (b_mem s') pt va = identity PT_DEVICES PT_MEMORY va) /\
    (forall gpa, 0 <= gpa < 2 ^ 48 -> walk (b_mem s') ept gpa =
       identity (ept_flags _2MB_ EPT_MTYPE_UC EPT_RW) (ept_flags _2MB_ EPT_MTYPE_WB EPT_RWX) gpa) /\
    same_on (fun x => 4096 <= x < boot_free_addr (ct_mem (b_ct s))) (b_mem s) (b_mem s').
Proof.
  intros info c Hp Hid Hbig Hok Hav.
  destruct (wp_elim_unit (ept_map_memory_server info) s (fun s' => exists pt ept bm1 bm2,
    touched id (with_tables pt ept c) bm2 s s' /\
    maps (pa_owned (ct_mem (b_ct s))) _2MB_ 2 pt vm_page_regions bm1 /\ kept (pa_owned (ct_mem (b_ct s))) (ct_mem (b_ct s)) bm1 /\
    maps (pa_owned bm1) _2MB_ 2 ept server_regions bm2 /\ kept (pa_owned bm1) bm1 bm2))
    as (s' & Hrun & pt & ept & bm1 & bm2 & Ht & Hm1 & Hk1 & Hm2 & Hk2).
  { unfold ept_map_memory_server. wp_step. unfold post at 1. unfold info. rewrite cpu_of_ok by lia. wp_step. apply post_gets. rewrite Hbig.
    cbv zeta. wp_step. eapply post_mono; [apply (b_map_low_spec id c _ s s 6200 (touched_none id s)); [done | lia | done] |].
    intros [] s1 _ (pt & bm1 & Ht1 & Hm1 & Hk1 & Hav1).
    eapply post_mono; [apply (b_ept_server_spec id _ bm1 s s1 0 Ht1); [apply Hm1 | lia | done] |].
    intros [] s2 _ (ept & bm2 & Ht2 & Hm2 & Hk2 & _). by exists pt, ept, bm1, bm2. }
  assert (Hmem : b_mem s' = boot_memory bm2) by (unfold b_mem; by rewrite (tc_ct _ _ _ _ _ Ht)).
  exists s', pt, ept. rewrite Hmem. split_and!; [done | apply Ht | apply Ht | | |].
  - intros va Hva. transitivity (overlay _2MB_ vm_page_regions va); [|by apply overlay_identity; lia].
    rewrite <-(em_walk _ _ _ _ _ _ Hm1 va Hva).
    change (boot_memory bm2) with (pa_mem bm2).
    apply (walk_kept (pa_owned (ct_mem (b_ct s))) (pa_owned bm1) pt bm1 bm2 va); [apply Hm1 | by intros q [? _] | done].
  - intros gpa Hg. transitivity (overlay _2MB_ server_regions gpa); [by apply Hm2 |]. by apply overlay_identity; lia.
  - etransitivity; [by eapply kept_bytes |]. eapply kept_bytes; [done |]. intros q Hq. by apply Hk1.
Qed.

(** With 1GB pages [ept_map_memory_server] never returns: the second call
    passes an address that is a multiple of 2MB only, which [map_memory]
    rejects.  A processor that has 1GB pages cannot boot the system. *)
Theorem server_1GB_panics id s :
  let info := cpuinfo_pool (b_ct s) + id * 4096 in
  0 < cpuinfo_pool (b_ct s) -> 0 <= id -> b_1GB_page s = true -> boot_ok (ct_mem (b_ct s)) ->
  exists msg, ept_map_memory_server info s = Stop (Panic msg).
Proof.
  intros info Hp Hid Hbig Hok.
  assert (Hpost : post (fun e => exists msg, e = Panic msg) (ept_map_memory_server info) s (fun _ _ => False)).
  { unfold ept_map_memory_server, b_map_low. wp_step. unfold post at 1, info. rewrite cpu_of_ok by lia.
    wp_step. apply post_gets. rewrite Hbig. cbv zeta. wp_step. wp_step.
    eapply post_mono; [eapply (b_map_step _ id _ _ s s); [apply touched_none |] |].
    - eapply post_conseq; [by apply (pt_new (fun _ => False) _ _1GB_ 1); [done | | split; try (by vm_compute); unfold size_depth; auto |] | |].
      + intros e ->. by eexists.
      + by intros root bm H; exact H.
    - intros [] s1 _ (root & bm1 & _ & Ht). wp_step.
      eapply post_mono; [eapply (b_map_step _ id _ _ s s1 _ _ _ _ _ _ (fun _ _ => False)); [exact Ht |] |].
      + unfold post. cbn. by eexists.
      + by intros [] s2 _ (? & ? & [] & _). }
  unfold post in Hpost. destruct (ept_map_memory_server info s) as [|e]; [done |]. destruct Hpost as [msg ->]. by exists msg.
Qed.

(** ** The first user program *)

Section Init.
Context (id : Z) (c : cpu_info) (P : Z -> Prop) (s0 : boot_state) (bm0 : boot_mem).
Abbreviation ept := (vm_ept (vm_info c)).

(** The EPT maps [rs], and [r] pages are left. *)
Definition mapping (rs : list region) (r : Z) (s : boot_state) : Prop :=
  exists bm, touched id c bm s0 s /\ maps P _4KB_ 3 ept rs bm /\ kept P bm0 bm /\ pa_avail bm r.

Lemma mapping_less rs r r' s : r' <= r -> mapping rs r s -> mapping rs r' s.
Proof. intros Hr (bm & ? & ? & ? & ?). exists bm. split_and!; try done. by eapply pa_avail_less. Qed.

Lemma mapping_cpu rs r s : mapping rs r s -> default no_cpu (b_cpus s !! id) = c.
Proof. intros (bm & Ht & _). apply Ht. Qed.

Lemma init_ept_step rs start end_ pa mtype prot r s :
  mapping rs (3 * region_pages start end_ _4KB_ + 1 + r) s ->
  region_args _4KB_ 3 start end_ pa prot -> 0 <= mtype < 8 -> 0 <= r ->
  wp (b_ept_vm id start end_ pa USER_VMS_PAGE_SIZE mtype prot MAP_UPDATE) s
    (fun _ s' => mapping (rs ++ [ept_region start end_ pa mtype prot]) r s').
Proof.
  intros (bm & Ht & Hm & Hk & Hav) Ha Hmt Hr.
  eapply post_mono; [eapply (b_ept_step _ id c bm s0); [exact Ht |
    by apply (ept_add_total P _ rs _4KB_ 3 _ _ _ _ _ _ r)] |].
  intros [] s1 _ (root & bm1 & ((-> & Hm1 & Hk1) & Hav1) & Ht1). exists bm1.
  rewrite set_vm_ept_same in Ht1. split_and!; [done | done | by etransitivity | done].
Qed.

Lemma init_page_step rs addr prot r s :
  mapping rs (4 + r) s -> page_ok addr -> 0 < prot < 4096 -> 0 <= r ->
  wp (b_ept_page id addr prot) s (fun _ s' => mapping (rs ++ [ident EPT_MTYPE_WB prot addr]) r s').
Proof.
  intros Hb (H1 & H2 & H3) Hp Hr. unfold b_ept_page. rewrite w64_small by lia.
  apply init_ept_step; [|by apply ident_args | done | done]. rewrite region_pages_one. done.
Qed.

Lemma init_section_step rs sec prot r s :
  mapping rs (section_demand (sec (vm_info c)) + r) s -> section_ok (sec (vm_info c)) ->
  0 < prot < 4096 -> 0 <= r ->
  wp (b_ept_section id sec prot) s (fun _ s' => mapping (rs ++ section_regions prot (sec (vm_info c))) r s').
Proof.
  intros Hb Hx Hp Hr. unfold b_ept_section. wp_step. unfold b_cpu. apply post_gets. rewrite (mapping_cpu _ _ _ Hb).
  unfold section_regions. set (x := sec (vm_info c)) in *. cbv zeta. destruct (Z.ltb_spec 0 (s_size x)) as [Hs|Hs].
  - destruct (section_args prot x Hx Hs Hp) as (Ha & -> & Hd). apply init_ept_step; [|done | done | done].
    eapply mapping_less; [|exact Hb]. lia.
  - apply post_ret. rewrite app_nil_r. eapply mapping_less; [|exact Hb]. unfold section_demand. lia.
Qed.

Lemma init_tables_step rs r s :
  let pt := vm_page_tables (vm_info c) in
  mapping rs (r + 8216) s -> pt <> 0 -> 0 <= r ->
  (forall t, t ∈ guest_tables (b_mem s) pt -> guest_page P t) ->
  wp (e ← on_boot (boot_ept_map_page_tables ept pt EPT_RW); set_b_vm id (set_vm_ept e)) s
    (fun _ s' => mapping (rs ++ idents EPT_MTYPE_WB EPT_RW (guest_tables (b_mem s) pt)) r s').
Proof.
  intros pt (bm & Ht & Hm & Hk & Hav) Hpt Hr Hg.
  assert (Hmem : b_mem s = boot_memory bm) by (unfold b_mem; by rewrite (tc_ct _ _ _ _ _ Ht)). rewrite Hmem in *.
  assert (0 <= pt) by (destruct (Hg pt) as (_ & _ & ? & _); [by left | done]).
  eapply post_mono; [eapply (touched_call _ id c bm s0); [exact Ht | eapply post_total] |].
  - by apply (ept_map_page_tables_spec P EPT_RW ltac:(done) _ rs pt bm).
  - apply (ept_map_page_tables_avail _ _ _ _ r); [done | done | done].
  - intros [] s1 _ (root & bm1 & ((-> & Hm1 & Hk1) & Hav1) & Ht1). exists bm1.
    rewrite set_vm_ept_same in Ht1. split_and!; [done | done | by etransitivity | done].
Qed.
End Init.

(** What the boot stage maps into the first user program's EPT. *)
Definition lapic : region := ept_region 0xFEE00000 (_1GB_ * 4) 0xFEE00000 EPT_MTYPE_UC EPT_RW.
Definition init_regions (c : cpu_info) (info : Z) (tables : list Z) : list region :=
  let vm := vm_info c in
  ((((((((((((([video] ++ idents EPT_MTYPE_WB EPT_RW tables) ++ [ident EPT_MTYPE_WB EPT_PAGE_READ info]) ++
  [ident EPT_MTYPE_WB EPT_RW (msg_input c)]) ++ [ident EPT_MTYPE_WB EPT_RW (msg_output c)]) ++
  [ident EPT_MTYPE_WB EPT_RW (msg_ready c)]) ++ [ident EPT_MTYPE_WB EPT_RW (msg_ready_bitmap c)]) ++
  section_regions EPT_RX (vm_code vm)) ++ section_regions EPT_RX (vm_data vm)) ++
  section_regions EPT_PAGE_READ (vm_rodata vm)) ++ section_regions EPT_RW (vm_bss vm)) ++
  section_regions EPT_RW (vm_stack vm)) ++ [lapic])).

Definition init_demand (c : cpu_info) : Z :=
  28300 + foldr (fun x n => section_demand x + n) 0 (vm_sections c).

Record init_described (id : Z) (s : boot_state) : Prop := {
  id_cpu : 0 < cpuinfo_pool (b_ct s) /\ 0 <= id;
  id_2mb : b_1GB_page s = false;
  id_boot : boot_ok (ct_mem (b_ct s));
  id_top : memory_size (ct_mem (b_ct s)) <= 2 ^ 48;
  id_info : page_ok (cpuinfo_pool (b_ct s) + id * 4096);
  id_msgs : Forall page_ok (message_pages (default no_cpu (b_cpus s !! id)));
  id_sections : Forall section_ok (vm_sections (default no_cpu (b_cpus s !! id)));
  id_pages : pa_avail (ct_mem (b_ct s)) (init_demand (default no_cpu (b_cpus s !! id)))
}.

Lemma args_lapic f : 0 < f < 4096 -> region_args _4KB_ 3 0xFEE00000 (_1GB_ * 4) 0xFEE00000 f.
Proof. intros Hf. region_args_tac. Qed.

(** Everything after the guest's page tables and the video memory. *)
Definition init_rest (id info : Z) : M boot_state unit :=
  c ← b_cpu id;
  ept ← on_boot (boot_ept_map_page_tables (vm_ept (vm_info c)) (vm_page_tables (vm_info c)) EPT_RW);
  set_b_vm id (set_vm_ept ept) ;;
  b_ept_page id info EPT_PAGE_READ ;;
  b_ept_page id (msg_input c) EPT_RW ;;
  b_ept_page id (msg_output c) EPT_RW ;;
  b_ept_page id (msg_ready c) EPT_RW ;;
  b_ept_page id (msg_ready_bitmap c) EPT_RW ;;
  b_ept_section id vm_code EPT_RX ;;
  b_ept_section id vm_data EPT_RX ;;
  b_ept_section id vm_rodata EPT_PAGE_READ ;;
  b_ept_section id vm_bss EPT_RW ;;
  b_ept_section id vm_stack EPT_RW ;;
  b_ept_vm id 0xFEE00000 (_1GB_ * 4) 0xFEE00000 USER_VMS_PAGE_SIZE EPT_MTYPE_UC EPT_RW MAP_UPDATE.

Ltac init_page Hm r :=
  eapply post_mono; [eapply (init_page_step _ _ _ _ _ _ _ _ r);
    [eapply mapping_less; [|exact Hm]; lia | done | done | lia] |]; clear Hm; intros [] ? _ Hm.
Ltac init_section Hm r :=
  eapply post_mono; [eapply (init_section_step _ _ _ _ _ _ _ _ r);
    [eapply mapping_less; [|exact Hm]; lia | done | done | lia] |]; clear Hm; intros [] ? _ Hm.

Lemma init_rest_spec id info c P s0 bm0 s :
  let dem := foldr (fun x n => section_demand x + n) 0 (vm_sections c) in
  let tables := guest_tables (b_mem s) (vm_page_tables (vm_info c)) in
  mapping id c P s0 bm0 [video] (8216 + 20 + dem + 13825) s ->
  vm_page_tables (vm_info c) <> 0 -> (forall t, t ∈ tables -> guest_page P t) ->
  page_ok info -> Forall page_ok (message_pages c) -> Forall section_ok (vm_sections c) ->
  wp (init_rest id info) s (fun _ s' => mapping id c P s0 bm0 (init_regions c info tables) 0 s').
Proof.
  intros dem tables Hm Hpt Hg Hinfo Hmsgs Hsecs. unfold init_regions. cbv zeta.
  unfold vm_sections in Hsecs. cbv zeta in Hsecs. rewrite !Forall_cons in Hsecs. destruct Hsecs as (X1 & X2 & X3 & X4 & X5 & _).
  unfold message_pages in Hmsgs. rewrite !Forall_cons in Hmsgs. destruct Hmsgs as (M1 & M2 & M3 & M4 & _).
  assert (Hdem : dem = section_demand (vm_code (vm_info c)) + (section_demand (vm_data (vm_info c)) +
    (section_demand (vm_rodata (vm_info c)) + (section_demand (vm_bss (vm_info c)) +
    (section_demand (vm_stack (vm_info c)) + 0))))) by done. clearbody dem.
  assert (Hd : forall x, 0 <= section_demand x) by (intros x; unfold section_demand; lia).
  pose proof (Hd (vm_code (vm_info c))); pose proof (Hd (vm_data (vm_info c))); pose proof (Hd (vm_rodata (vm_info c))); pose proof (Hd (vm_bss (vm_info c)));
    pose proof (Hd (vm_stack (vm_info c))).
  unfold init_rest. wp_step. unfold b_cpu. apply post_gets. rewrite (mapping_cpu _ _ _ _ _ _ _ _ Hm).
  wp_step. eapply post_mono; [apply post_bind_inv, (init_tables_step id c P s0 bm0 [video] (20 + dem + 13825) s);
    [eapply mapping_less; [|exact Hm]; lia | done | lia | done] |].
  clear Hm. intros root s1' _ Hstep. wp_step. eapply post_mono; [exact Hstep |]. intros [] s1 _ Hm.
  wp_step. init_page Hm (16 + dem + 13825).
  wp_step. init_page Hm (12 + dem + 13825).
  wp_step. init_page Hm (8 + dem + 13825).
  wp_step. init_page Hm (4 + dem + 13825).
  wp_step. init_page Hm (dem + 13825).
  wp_step. init_section Hm (dem - section_demand (vm_code (vm_info c)) + 13825).
  wp_step. init_section Hm (dem - section_demand (vm_code (vm_info c)) - section_demand (vm_data (vm_info c)) + 13825).
  wp_step. init_section Hm (section_demand (vm_bss (vm_info c)) + section_demand (vm_stack (vm_info c)) + 13825).
  wp_step. init_section Hm (section_demand (vm_stack (vm_info c)) + 13825).
  wp_step. init_section Hm 13825.
  apply init_ept_step; [|by apply args_lapic | done | done].
  eapply mapping_less; [|exact Hm]. by vm_compute.
Qed.

Lemma ept_map_memory_other_unfold info :
  ept_map_memory_other info =
    (id ← cpu_of info; big ← gets b_1GB_page; b_map_low id (if (big : bool) then _1GB_ else _2MB_) ;;
     b_ept_vm id 0xB8000 0xB9000 0xB8000 USER_VMS_PAGE_SIZE EPT_MTYPE_UC EPT_RW MAP_NEW ;; init_rest id info).
Proof. reflexivity. Qed.

(** The tables of the guest, after the EPT's first table was made. *)
Lemma init_guest_tables P0 pt rs bm1 bm t :
  maps P0 _2MB_ 2 pt rs bm1 -> kept (pa_owned bm1) bm1 bm -> memory_size bm1 <= 2 ^ 48 ->
  t ∈ guest_tables (boot_memory bm) pt -> guest_page (pa_owned bm1) t /\ ~ P0 t.
Proof.
  intros Hm (_ & _ & Hs) Htop (d & va & Hd & Ht)%guest_tables_at.
  destruct (em_tables _ _ _ _ _ _ Hm) as [Hok _ Hwf].
  assert (Hmine : mine P0 bm1 t).
  { apply (wf_owned _ _ _ Hwf d va); [done |]. rewrite <-Ht. symmetry.
    apply (table_at_same (mine P0 bm1) (pa_mem bm1) (boot_memory bm) pt d va Hwf Hd).
    eapply same_on_mono; [|exact Hs]. intros x (q & [Hq _] & Hx). eauto. }
  destruct Hmine as (Hown & Hn & Htt). change (pa_top bm1) with (memory_size bm1) in Htt.
  destruct (pa_owned_page bm1 t Hok Hown). split; [|done]. split_and!; [done | done | lia | lia].
Qed.

(** What [ept_map_memory_other] builds. *)
Lemma init_memory_run id s :
  init_described id s ->
  let info := cpuinfo_pool (b_ct s) + id * 4096 in
  let c := default no_cpu (b_cpus s !! id) in
  let P0 := pa_owned (ct_mem (b_ct s)) in
  wp (ept_map_memory_other info) s (fun _ s' => exists pt ept bm1 tables bm2,
    maps P0 _2MB_ 2 pt vm_page_regions bm1 /\ kept P0 (ct_mem (b_ct s)) bm1 /\
    (forall t, t ∈ tables -> guest_page (pa_owned bm1) t /\ ~ P0 t) /\
    touched id (with_tables pt ept c) bm2 s s' /\
    maps (pa_owned bm1) _4KB_ 3 ept (init_regions c info tables) bm2 /\ kept (pa_owned bm1) bm1 bm2).
Proof.
  intros [[Hp Hid] Hbig Hok Htop Hinfo Hmsgs Hsecs Hav] info c P0.
  set (dem := foldr (fun x n => section_demand x + n) 0 (vm_sections c)).
  assert (0 <= dem) by (unfold dem, vm_sections, section_demand; simpl; lia).
  rewrite ept_map_memory_other_unfold. wp_step. unfold post at 1, info. rewrite cpu_of_ok by lia.
  wp_step. apply post_gets. rewrite Hbig. wp_step.
  eapply post_mono; [apply (b_map_low_spec id c _ s s (4 + (8216 + 20 + dem + 13825)) (touched_none id s)); [done | lia |
    eapply pa_avail_less; [|exact Hav]; unfold init_demand; fold c dem; lia] |].
  intros [] s1 _ (pt & bm1 & Ht1 & Hm1 & Hk1 & Hav1). wp_step.
  eapply post_mono; [eapply (b_ept_step _ id _ bm1 s); [exact Ht1 |
    apply (ept_new_total (pa_owned bm1) _ _4KB_ 3 _ _ _ _ _ _ (8216 + 20 + dem + 13825));
      [apply Hm1 | done | by apply args_video | done | done | lia |
       change (region_pages 0xB8000 0xB9000 _4KB_) with 1; exact Hav1]] |].
  intros [] s2 _ (ept & bm2 & ((Hm2 & Hk2) & Hav2) & Ht2).
  assert (Htop1 : memory_size bm1 <= 2 ^ 48) by (destruct Hk1 as (_ & E & _); cbn in E; lia).
  assert (Hmem : b_mem s2 = boot_memory bm2) by (unfold b_mem; by rewrite (tc_ct _ _ _ _ _ Ht2)).
  assert (Hg : forall t, t ∈ guest_tables (b_mem s2) pt -> guest_page (pa_owned bm1) t /\ ~ P0 t)
    by (intros t; rewrite Hmem; by apply (init_guest_tables P0 pt vm_page_regions)).
  eapply post_mono; [apply (init_rest_spec id _ (with_tables pt ept c) (pa_owned bm1) s bm1 s2) |].
  - exists bm2. split_and!; [by destruct c as [? [] ? ? ? ? ? ? ?] | done | done | done].
  - destruct (Hg pt) as [(Ho & _) _]; [by left |]. apply pa_owned_page in Ho; [cbn; lia | apply Hm1].
  - intros t Ht. by apply Hg.
  - done.
  - exact Hmsgs.
  - exact Hsecs.
  - intros [] s3 _ (bm3 & Ht3 & Hm3 & Hk3 & _). by exists pt, ept, bm1, (guest_tables (b_mem s2) pt), bm3.
Qed.

(** The host pages the first program may write, only read, and execute. *)
Definition init_may_write (c : cpu_info) (tables : list Z) (p : Z) : Prop :=
  let vm := vm_info c in
  p = 0xB8000 \/ 0xFEE00000 <= p < 0x100000000 \/ p ∈ tables \/ p ∈ message_pages c \/
  section_page (vm_bss vm) p \/ section_page (vm_stack vm) p.
Definition init_may_read (c : cpu_info) (info p : Z) : Prop :=
  p = info \/ section_page (vm_rodata (vm_info c)) p.
Definition init_may_execute (c : cpu_info) (p : Z) : Prop :=
  section_page (vm_code (vm_info c)) p \/ section_page (vm_data (vm_info c)) p.

Lemma init_regions_entry c info tables gpa x :
  page_ok info -> Forall page_ok tables -> Forall page_ok (message_pages c) -> Forall section_ok (vm_sections c) ->
  overlay _4KB_ (init_regions c info tables) gpa = Some x ->
  exists p f, entry_of p f x /\
    (init_may_write c tables p /\ (f = ept_flags _4KB_ EPT_MTYPE_UC EPT_RW \/ f = ept_flags _4KB_ EPT_MTYPE_WB EPT_RW) \/
     init_may_read c info p /\ f = ept_flags _4KB_ EPT_MTYPE_WB EPT_PAGE_READ \/
     init_may_execute c p /\ f = ept_flags _4KB_ EPT_MTYPE_WB EPT_RX).
Proof.
  intros Hinfo Htab Hmsg Hsec (r & Hr & Hx)%overlay_in.
  unfold vm_sections in Hsec. cbv zeta in Hsec. rewrite !Forall_cons in Hsec. destruct Hsec as (X1 & X2 & X3 & X4 & X5 & _).
  pose proof Hmsg as Hmsg'. unfold message_pages in Hmsg'. rewrite !Forall_cons in Hmsg'. destruct Hmsg' as (M1 & M2 & M3 & M4 & _).
  unfold init_regions in Hr. cbv zeta in Hr. rewrite !elem_of_app, !list_elem_of_singleton in Hr.
  assert (msg_input c ∈ message_pages c /\ msg_output c ∈ message_pages c /\ msg_ready c ∈ message_pages c /\
    msg_ready_bitmap c ∈ message_pages c) as (I1 & I2 & I3 & I4) by (unfold message_pages; rewrite !elem_of_cons; auto 12).
  unfold init_may_write, init_may_read, init_may_execute.
  destruct Hr as [[[[[[[[[[[[->|Hr]| ->]| ->]| ->]| ->]| ->]|Hr]|Hr]|Hr]|Hr]|Hr]| ->].
  - apply region_entry in Hx as (p & He & Hp); [|by apply args_video]. exists p, (ept_flags _4KB_ EPT_MTYPE_UC EPT_RW).
    split; [done |]. left. split; [left | by left]. destruct He as [_ He].
    pose proof (Z.div_mod p 4096 ltac:(lia)). lia.
  - eapply idents_entry in Hx as (p & Hp & He); [| |exact Hr]; [|done]. eexists p, _. split; [done |]. left. auto 12.
  - apply ident_entry in Hx; [|done | done]. eexists info, _. split; [done |]. right. left. auto 12.
  - apply ident_entry in Hx; [|done | done]. eexists _, _. split; [done |]. left. auto 12.
  - apply ident_entry in Hx; [|done | done]. eexists _, _. split; [done |]. left. auto 12.
  - apply ident_entry in Hx; [|done | done]. eexists _, _. split; [done |]. left. auto 12.
  - apply ident_entry in Hx; [|done | done]. eexists _, _. split; [done |]. left. auto 12.
  - eapply section_entry in Hx as (p & He & Hp); [|exact X1 | |exact Hr]; [|done]. eexists p, _. split; [done |]. auto 12.
  - eapply section_entry in Hx as (p & He & Hp); [|exact X2 | |exact Hr]; [|done]. eexists p, _. split; [done |]. auto 12.
  - eapply section_entry in Hx as (p & He & Hp); [|exact X3 | |exact Hr]; [|done]. eexists p, _. split; [done |]. auto 12.
  - eapply section_entry in Hx as (p & He & Hp); [|exact X4 | |exact Hr]; [|done]. eexists p, _. split; [done |]. left. auto 12.
  - eapply section_entry in Hx as (p & He & Hp); [|exact X5 | |exact Hr]; [|done]. eexists p, _. split; [done |]. left. auto 14.
  - apply region_entry in Hx as (p & He & Hp); [|by apply args_lapic]. eexists p, _. split; [done |]. left.
    split; [right; left; lia | by left].
Qed.

