(* ===== verification/BootElf.v ===== *)
(** * Loading the servers

    [load_server_vms] puts the sections of an ELF executable where they are
    linked to run, byte for byte, clears its bss and describes the result. *)

From S2P Require Import Prelude PhysMem MemMgr MemMgrSpec Paging BootMem BootMemSpec CpuInfo Ipc Pm PmProc.
From S2P Require Import Boot BootSpec BootEpt.

(** ** Executables *)

(** A program header, as far as it is used. *)
Record phdr := Phdr {
  ph_vaddr : Z;
  ph_offset : Z;
  ph_size : Z
}.
Definition phdr_at (m : memory) (s : Z) : phdr := Phdr (p_vaddr m s) (p_offset m s) (p_memsz m s).

(** The executable at [elf], with headers [hs]; all of it lies below [limit]. *)
Record elf_file (m : memory) (elf limit : Z) (hs : list phdr) : Prop := {
  ef_start : 0 <= elf;
  ef_limit : limit < 2 ^ 62;
  ef_count : e_phnum m elf = 4;
  ef_header : elf + 64 <= limit;
  ef_table : elf + e_phoff m elf + 4 * PHDR_SIZE <= limit;
  ef_headers : hs = (fun k => phdr_at m (elf + e_phoff m elf + k * PHDR_SIZE)) <$> [0; 1; 2; 3];
  ef_sections : Forall (fun h => elf + ph_offset h + ph_size h <= limit) (take 3 hs)
}.

Section Loaded.
(** The distance from the addresses a program is linked for to those it is
    loaded at. *)
Context (delta elf : Z) (m0 : memory).
Definition dest (h : phdr) : Z := ph_vaddr h + delta.

(** [m] is [m0] with the sections [hs] of the executable copied to their
    addresses. *)
Definition loaded (hs : list phdr) (m : memory) : Prop :=
  (forall h i, h ∈ hs -> 0 <= i < ph_size h -> byte_at m (dest h + i) = byte_at m0 (elf + ph_offset h + i)) /\
  (forall x, (forall h, h ∈ hs -> ~ (dest h <= x < dest h + ph_size h)) -> byte_at m x = byte_at m0 x).

Lemma loaded_nil : loaded [] m0.
Proof. split; [|done]. intros h i Hh. by apply not_elem_of_nil in Hh. Qed.

(** One more section, above the file and the sections before it. *)
Lemma loaded_copy limit hs m h :
  loaded hs m -> elf + ph_offset h + ph_size h <= limit -> limit <= dest h ->
  (forall h', h' ∈ hs -> limit <= dest h' /\ dest h' + ph_size h' <= dest h) ->
  loaded (hs ++ [h]) (memcpy m (dest h) (elf + ph_offset h) (ph_size h)).
Proof.
  intros [Hin Hout] Hsrc Hdst Hbefore. split.
  - intros h' i Hh Hi. rewrite byte_at_memcpy by lia. rewrite elem_of_app, list_elem_of_singleton in Hh.
    destruct Hh as [Hh| ->].
    + destruct (Hbefore h' Hh). rewrite decide_False by lia. by apply Hin.
    + rewrite decide_True by lia. replace (dest h + i - dest h) with i by lia. apply Hout.
      intros h' Hh. destruct (Hbefore h' Hh). lia.
  - intros x Hx. rewrite byte_at_memcpy, decide_False by (lia || (apply Hx; rewrite elem_of_app; right; by left)).
    apply Hout. intros h' Hh. apply Hx. rewrite elem_of_app. by left.
Qed.

Lemma loaded_skip hs m h : ph_size h = 0 -> loaded hs m -> loaded (hs ++ [h]) m.
Proof.
  intros Hz [Hin Hout]. split.
  - intros h' i Hh Hi. rewrite elem_of_app, list_elem_of_singleton in Hh. destruct Hh as [Hh| ->]; [by apply Hin | lia].
  - intros x Hx. apply Hout. intros h' Hh. apply Hx. rewrite elem_of_app. by left.
Qed.

(** Memory below the limit is untouched. *)
Lemma loaded_low limit hs m :
  loaded hs m -> (forall h, h ∈ hs -> limit <= dest h) -> same_on (fun x => x < limit) m0 m.
Proof. intros [_ Hout] Hlow x Hx. symmetry. apply Hout. intros h Hh. specialize (Hlow h Hh). lia. Qed.
End Loaded.

Lemma phdr_at_same limit m m' s : same_on (fun x => x < limit) m m' -> s + PHDR_SIZE <= limit -> phdr_at m' s = phdr_at m s.
Proof.
  intros Hs Hle. unfold phdr_at, p_vaddr, p_offset, p_memsz.
  f_equal; symmetry; apply load_ext; intros x Hx; apply Hs; simpl in Hx; lia.
Qed.

(** ** Steps on one CPU's description and memory *)

Lemma touched_mem id c bm s0 s : touched id c bm s0 s -> b_mem s = boot_memory bm.
Proof. intros H. unfold b_mem. by rewrite (tc_ct _ _ _ _ _ H). Qed.

Lemma touched_poke id c bm s0 s f :
  touched id c bm s0 s ->
  wp (poke_b f) s (fun _ s' => touched id c (set_boot_memory (f (boot_memory bm)) bm) s0 s').
Proof.
  intros H. pose proof (touched_mem _ _ _ _ _ H) as Hm. destruct H as [Hc Ho Hct Hr].
  unfold post. rewrite poke_b_ok, Hm. split; try done. cbn. by rewrite Hct.
Qed.

Lemma touched_set id c bm s0 s f :
  touched id c bm s0 s -> wp (set_b_cpu id f) s (fun _ s' => touched id (f c) bm s0 s').
Proof.
  intros [Hc Ho Hct Hr]. unfold set_b_cpu. wp_step. split; cbn; try done.
  - rewrite lookup_insert_eq. cbn. by rewrite Hc.
  - intros j Hj. rewrite lookup_insert_ne by done. by apply Ho.
Qed.

Lemma touched_set_vm id c bm s0 s g :
  touched id c bm s0 s -> wp (set_b_vm id g) s (fun _ s' => touched id (set_vm_info (g (vm_info c)) c) bm s0 s').
Proof. intros H. exact (touched_set id c bm s0 s (fun c => set_vm_info (g (vm_info c)) c) H). Qed.

Lemma malloc_align_room size k s :
  boot_ok s -> 0 < size -> 0 <= k <= 62 -> 2 ^ k < memory_size s ->
  ALIGN (boot_free_addr s) (2 ^ k) + size <= memory_size s ->
  wp (malloc_align size (2 ^ k)) s (fun p s' => p = ALIGN (boot_free_addr s) (2 ^ k) /\
    s' = BootMem (memory_size s) (ALIGN (p + size) 16) (boot_memory s)).
Proof.
  intros Hok Hs Hk Hbig Hroom. destruct (align_free s k Hok Hk) as ([Hf _] & Hle & _).
  pose proof Hok as [Hfree Hsize]. cbn [boot_free_addr set_boot_free] in Hf, Hle. unfold malloc_align, post.
  destruct (Z.eqb_spec size 0); [lia |]. erewrite bind_step by done.
  assert (boot_uninitialized s = false) as ->.
  { unfold boot_uninitialized. destruct (Z.eqb_spec (boot_free_addr s) 0); [lia |]. apply andb_false_r. }
  destruct (Z.leb_spec (memory_size s) (2 ^ k)); [lia |].
  erewrite bind_step by done. erewrite bind_step by done.
  cbn [memory_size set_boot_free boot_free_addr]. rewrite (w64_small (ALIGN _ _ + _)) by lia.
  destruct (Z.ltb_spec (memory_size s) (ALIGN (boot_free_addr s) (2 ^ k) + size)); [lia |].
  unfold bump. erewrite bind_step by done. cbn [set_boot_free boot_free_addr memory_size boot_memory mret M_ret].
  by rewrite (w64_small (ALIGN _ _ + _)) by lia.
Qed.

(** ** The sections of a server *)

(** What is recorded about section [i]. *)
Definition recorded (i : Z) (x : section) (v : vm_proc) : vm_proc :=
  if i =? 0 then set_vm_regs (set_rg_rip (vm_start_vaddr v) (vm_regs v)) (set_vm_code x (set_vm_start_paddr (s_paddr x) v))
  else if i =? 1 then set_vm_data x v else set_vm_rodata x v.
Definition placed (h : phdr) : section := Sec (if 0 <? ph_size h then ph_vaddr h else 0) (ph_vaddr h) (ph_size h).

Lemma touched_record id i x c bm s0 s :
  touched id c bm s0 s -> wp (record_section id i x) s (fun _ s' => touched id (set_vm_info (recorded i x (vm_info c)) c) bm s0 s').
Proof.
  intros H. unfold record_section, recorded. destruct (i =? 0); [by apply (touched_set_vm id c) |].
  destruct (i =? 1); by apply (touched_set_vm id c).
Qed.

(** One iteration: section [h], whose header is at [sp]. *)
Lemma server_section_step id elf phys limit m0 i rest sp hs h c bm s0 s Q :
  touched id c bm s0 s -> phdr_at (boot_memory bm) sp = h -> 0 <= elf -> limit < 2 ^ 62 ->
  (i = 0 -> 0 < ph_size h /\ ph_vaddr h = phys) ->
  loaded 0 elf m0 hs (boot_memory bm) -> elf + ph_offset h + ph_size h <= limit -> limit <= ph_vaddr h ->
  (forall h', h' ∈ hs -> limit <= ph_vaddr h' /\ ph_vaddr h' + ph_size h' <= ph_vaddr h) ->
  (forall m s', loaded 0 elf m0 (hs ++ [h]) m ->
     touched id (set_vm_info (recorded i (placed h) (vm_info c)) c) (set_boot_memory m bm) s0 s' ->
     wp (load_server_sections rest id elf phys (sp + PHDR_SIZE)) s' Q) ->
  wp (load_server_sections (i :: rest) id elf phys sp) s Q.
Proof.
  intros Ht Hh Helf Hlim Hcode Hl Hsrc Hdst Hbefore Hrest.
  assert (Hhs : 0 <= ph_offset h /\ 0 <= ph_size h)
    by (subst h; cbn [ph_offset ph_size phdr_at]; split; apply load_bound).
  assert (Hf : p_vaddr (boot_memory bm) sp = ph_vaddr h /\ p_offset (boot_memory bm) sp = ph_offset h /\
    p_memsz (boot_memory bm) sp = ph_size h) by (by subst h). destruct Hf as (Hv & Ho & Hn).
  cbn [load_server_sections]. wp_step. apply post_gets. rewrite (touched_mem _ _ _ _ _ Ht), Hv, Hn. cbv zeta. wp_step.
  assert (Hguards : (i =? 0) && (ph_size h =? 0) = false /\ (i =? 0) && negb (phys =? ph_vaddr h) = false).
  { destruct (Z.eqb_spec i 0) as [Hi|]; [|done]. destruct (Hcode Hi) as [Hpos <-]. rewrite Z.eqb_refl.
    destruct (Z.eqb_spec (ph_size h) 0); [lia | done]. }
  destruct Hguards as [-> ->].
  eapply post_mono; [by apply (touched_record id i (placed h) c bm s0) |]. intros [] s1 _ Ht1. wp_step.
  unfold copy_elf_section. wp_step. apply post_gets. rewrite (touched_mem _ _ _ _ _ Ht1), Hn. wp_step.
  - eapply post_mono; [exact (touched_poke _ _ _ _ _ _ Ht1) |]. intros [] s2 _ Ht2. cbv beta in Ht2.
    rewrite Ho, Hn, w64_small in Ht2 by lia. rewrite H in Ht2. eapply Hrest; [|exact Ht2]. replace (ph_vaddr h) with (dest 0 h) by (unfold dest; lia).
    apply (loaded_copy 0 elf m0 limit); unfold dest; try done; try lia.
    intros h' Hh'. destruct (Hbefore h' Hh'). lia.
  - apply (Hrest (boot_memory bm)); [|by destruct bm].
    apply loaded_skip; [|done]. destruct (Z.ltb_spec 0 (ph_size h)); [done | lia].
Qed.

Lemma touched_alloc {A} id c bm s0 s (m : M boot_mem A) R :
  touched id c bm s0 s -> wp m bm R -> wp (on_boot m) s (fun a s' => exists bm', R a bm' /\ touched id c bm' s0 s').
Proof.
  intros [Hc Ho Hct Hr] Hm. unfold on_boot, on_table. wp_step. wp_step. rewrite Hct. cbn [ct_mem set_ct_mem].
  eapply post_mono; [exact Hm |]. intros a bm' _ HR. exists bm'. by split.
Qed.

Lemma touched_info id c bm n i s0 s :
  touched id c bm s0 s -> cpus_found n s0 -> 0 <= i < n -> get_info i s = Ok i s.
Proof.
  intros Ht [_ Htab Hp Hc _] Hi. pose proof (tc_ct _ _ _ _ _ Ht) as Hct.
  apply get_info_ok; rewrite Hct; [by destruct Htab; split | done | cbn; lia].
Qed.

(** The executable of a server: linked for [phys], the sections in order, and
    together with the bss within 2MB. *)
Record server_image (phys limit : Z) (h0 h1 h2 h3 : phdr) : Prop := {
  si_code : 0 < ph_size h0 /\ ph_vaddr h0 = phys;
  si_above : limit <= phys;
  si_order : ph_vaddr h0 + ph_size h0 <= ph_vaddr h1 /\ ph_vaddr h1 + ph_size h1 <= ph_vaddr h2 /\
    ph_vaddr h2 + ph_size h2 <= ph_vaddr h3;
  si_top : ph_vaddr h3 + ph_size h3 + 16 <= phys + _2MB_
}.

(** What [load_server_vms] makes of the description [c]. *)
Definition server_stack (h3 : phdr) : Z := ALIGN (ph_vaddr h3 + ph_size h3) 16.
Record server_described (h0 h1 h2 h3 : phdr) (c c' : cpu_info) : Prop := {
  sd_runs : vmm_has_vm c' = true;
  sd_code : vm_code (vm_info c') = placed h0;
  sd_data : vm_data (vm_info c') = placed h1;
  sd_rodata : vm_rodata (vm_info c') = placed h2;
  sd_bss : vm_bss (vm_info c') = Sec (ph_vaddr h3) (ph_vaddr h3) (if 0 <? ph_size h3 then ph_size h3 else s_size (vm_bss (vm_info c)));
  sd_stack : vm_stack (vm_info c') = Sec (server_stack h3) (server_stack h3) VM_STACK_SIZE;
  sd_start : rg_rip (vm_regs (vm_info c')) = ph_vaddr h0 /\ rg_rsp (vm_regs (vm_info c')) = server_stack h3 + VM_STACK_SIZE;
  sd_range : (vm_start_paddr (vm_info c'), vm_end_paddr (vm_info c')) = (ph_vaddr h0, server_stack h3) /\
    (vm_start_vaddr (vm_info c'), vm_end_vaddr (vm_info c')) = (ph_vaddr h0, server_stack h3);
  sd_fds : vm_fds (vm_info c') = 0;
  sd_msgs : (cpuid c', msg_input c', msg_output c', msg_ready_bitmap c') = (cpuid c, msg_input c, msg_output c, msg_ready_bitmap c)
}.

Ltac tstep H L := wp_step; eapply post_mono; [eapply L; exact H |]; clear H; intros [] ? _ H; cbv beta in H.

(** After the sections: bss, stack and sizes. *)
Definition server_tail (id s : Z) : M boot_state unit :=
  m ← gets b_mem;
  let bss_vaddr := p_vaddr m s in
  let bss_size := p_memsz m s in
  set_b_vm id (fun v => set_vm_bss (Sec bss_vaddr bss_vaddr (s_size (vm_bss v))) v) ;;
  when (0 <? bss_size)
    (set_b_vm id (set_vm_bss (Sec bss_vaddr bss_vaddr bss_size)) ;;
     poke_b (fun m => boot_memset m bss_vaddr 0 bss_size)) ;;
  poke_b (fun m => boot_memset m (p_vaddr m s) 0 (p_memsz m s)) ;;
  m ← gets b_mem;
  let stack := ALIGN (w64 (p_vaddr m s + p_memsz m s)) 16 in
  set_b_vm id (fun v => set_vm_regs (set_rg_rflags 2 (set_rg_rsp (w64 (stack + VM_STACK_SIZE)) (vm_regs v)))
    (set_vm_stack (Sec stack stack VM_STACK_SIZE) v)) ;;
  c ← b_cpu id;
  let vm_size := w64 (stack - vm_start_vaddr (vm_info c)) in
  set_b_vm id (fun v => set_vm_end_paddr (w64 (vm_start_paddr v + vm_size))
                          (set_vm_end_vaddr (w64 (vm_start_vaddr v + vm_size)) v)) ;;
  c ← b_cpu id;
  if negb (vm_end_paddr (vm_info c) =? vm_end_vaddr (vm_info c))
  then panic "Second Boot Stage: VM is worngfully loaded into memory!" else
  if VM_MAX_SIZE <? vm_size then panic "Second Boot Stage: vm is too large!" else
  set_b_vm id (set_vm_fds 0).

Lemma load_server_vms_unfold cpuid elf :
  load_server_vms cpuid elf =
    (phys ← on_boot (malloc_align VM_MAX_SIZE VM_MAX_SIZE);
     if phys =? 0 then panic "Second Boot Stage: Memory Allocation Failed!" else
     id ← get_info cpuid;
     set_b_cpu id (set_vmm_has_vm true) ;;
     set_b_vm id (set_vm_start_paddr phys) ;;
     m ← gets b_mem;
     if negb (e_phnum m elf =? 4) then panic "Unexpected VMM Header!" else
     let s := w64 (elf + e_phoff m elf) in
     set_b_vm id (fun v => set_vm_start_vaddr (p_vaddr m s) (set_vm_start_paddr (p_vaddr m s) v)) ;;
     s ← load_server_sections [0; 1; 2] id elf phys s;
     server_tail id s).
Proof. reflexivity. Qed.

(** The description after the tail. *)
Definition tail_vm (h3 : phdr) (v : vm_proc) : vm_proc :=
  let st := server_stack h3 in
  let bss := Sec (ph_vaddr h3) (ph_vaddr h3) (if 0 <? ph_size h3 then ph_size h3 else s_size (vm_bss v)) in
  set_vm_fds 0 (set_vm_end_paddr st (set_vm_end_vaddr st
    (set_vm_regs (set_rg_rflags 2 (set_rg_rsp (st + VM_STACK_SIZE) (vm_regs v)))
    (set_vm_stack (Sec st st VM_STACK_SIZE) (set_vm_bss bss v))))).

(** [m] is [m0] with the bss cleared. *)
Definition cleared (h : phdr) (m0 m : memory) : Prop :=
  forall x, byte_at m x = if decide (ph_vaddr h <= x < ph_vaddr h + ph_size h) then 0 else byte_at m0 x.

Lemma cleared_memset h m0 m : m = m0 \/ cleared h m0 m -> cleared h m0 (memset m (ph_vaddr h) 0 (ph_size h)).
Proof.
  intros Hm x. rewrite byte_at_memset. case_decide; [done |].
  destruct Hm as [-> | ->]; [done |]. by rewrite decide_False.
Qed.

Lemma cleared_header limit h m0 m sp :
  cleared h m0 m -> sp + PHDR_SIZE <= limit -> limit <= ph_vaddr h -> phdr_at m sp = phdr_at m0 sp.
Proof.
  intros Hm Hsp Hl. apply (phdr_at_same limit); [|done]. intros x Hx. by rewrite Hm, decide_False by lia.
Qed.

Lemma server_tail_spec id limit phys h3 sp c bm s0 s :
  touched id c bm s0 s -> phdr_at (boot_memory bm) sp = h3 -> sp + PHDR_SIZE <= limit -> limit <= ph_vaddr h3 ->
  vm_start_vaddr (vm_info c) = phys -> vm_start_paddr (vm_info c) = phys -> 0 <= phys <= ph_vaddr h3 ->
  ph_vaddr h3 + ph_size h3 + 16 <= phys + _2MB_ -> phys + _2MB_ <= 2 ^ 62 ->
  wp (server_tail id sp) s (fun _ s' => exists m,
    touched id (set_vm_info (tail_vm h3 (vm_info c)) c) (set_boot_memory m bm) s0 s' /\ cleared h3 (boot_memory bm) m).
Proof.
  intros Ht Hh Hsp Hlim Hsv Hspa Hphys Htop Hmax.
  assert (Hf : p_vaddr (boot_memory bm) sp = ph_vaddr h3 /\ p_memsz (boot_memory bm) sp = ph_size h3) by (by subst h3).
  destruct Hf as (Hv & Hn). assert (Hn0 : 0 <= ph_size h3) by (rewrite <-Hn; apply load_bound).
  unfold server_tail. wp_step. apply post_gets. rewrite (touched_mem _ _ _ _ _ Ht), Hv, Hn. cbv zeta.
  tstep Ht touched_set_vm.
  set (c1 := set_vm_info _ c) in Ht.
  wp_step. eapply (post_mono _ _ _ (fun _ s' => exists m, (m = boot_memory bm \/ cleared h3 (boot_memory bm) m) /\
    touched id (set_vm_info (set_vm_bss (Sec (ph_vaddr h3) (ph_vaddr h3)
      (if 0 <? ph_size h3 then ph_size h3 else s_size (vm_bss (vm_info c)))) (vm_info c)) c) (set_boot_memory m bm) s0 s')).
  { destruct (0 <? ph_size h3); cbn [when].
    - tstep Ht touched_set_vm.
      eapply post_mono; [exact (touched_poke _ _ _ _ _ _ Ht) |]. intros [] s3 _ Ht3. eexists. split; [|exact Ht3].
      right. apply cleared_memset. by left.
    - apply post_ret. exists (boot_memory bm). split; [by left |]. by destruct bm. }
  clear Ht. intros [] s2 _ (m1 & Hm1 & Ht). set (c2 := set_vm_info _ c) in Ht.
  assert (Hh1 : phdr_at m1 sp = h3).
  { destruct Hm1 as [-> | Hm1]; [done |]. by rewrite (cleared_header limit h3 (boot_memory bm) m1 sp). }
  assert (Hf : p_vaddr m1 sp = ph_vaddr h3 /\ p_memsz m1 sp = ph_size h3) by (by rewrite <-Hh1).
  destruct Hf as (Hv1 & Hn1).
  tstep Ht touched_poke. unfold boot_memset in Ht. cbn [boot_memory set_boot_memory] in Ht. rewrite Hv1, Hn1 in Ht.
  apply cleared_memset in Hm1. set (m2 := memset m1 _ _ _) in *.
  change (set_boot_memory m2 (set_boot_memory m1 bm)) with (set_boot_memory m2 bm) in Ht.
  assert (Hh2 : phdr_at m2 sp = h3) by (by rewrite (cleared_header limit h3 (boot_memory bm) m2 sp)).
  assert (Hf : p_vaddr m2 sp = ph_vaddr h3 /\ p_memsz m2 sp = ph_size h3) by (by rewrite <-Hh2).
  destruct Hf as (Hv2 & Hn2).
  wp_step. apply post_gets. rewrite (touched_mem _ _ _ _ _ Ht). cbn [boot_memory set_boot_memory]. rewrite Hv2, Hn2.
  destruct (ALIGN_pow2 (ph_vaddr h3 + ph_size h3) 4) as (_ & Hst & _); [lia.. |]. change (2 ^ 4) with 16 in Hst.
  rewrite (w64_small (ph_vaddr h3 + ph_size h3)) by lia. fold (server_stack h3). fold (server_stack h3) in Hst. cbv zeta.
  tstep Ht touched_set_vm. rewrite (w64_small (server_stack h3 + VM_STACK_SIZE)) in Ht by lia.
  set (c3 := set_vm_info _ c2) in Ht.
  wp_step. unfold b_cpu at 1. apply post_gets. rewrite (tc_cpu _ _ _ _ _ Ht).
  change (vm_start_vaddr (vm_info c3)) with (vm_start_vaddr (vm_info c)). rewrite Hsv, (w64_small (server_stack h3 - phys)) by lia.
  tstep Ht touched_set_vm. change (vm_start_vaddr (vm_info c3)) with (vm_start_vaddr (vm_info c)) in Ht.
  change (vm_start_paddr (vm_info c3)) with (vm_start_paddr (vm_info c)) in Ht.
  rewrite Hsv, Hspa, Zplus_minus, (w64_small (server_stack h3)) in Ht by lia. set (c4 := set_vm_info _ c3) in Ht.
  wp_step. unfold b_cpu. apply post_gets. rewrite (tc_cpu _ _ _ _ _ Ht).
  change (vm_end_paddr (vm_info c4)) with (server_stack h3). change (vm_end_vaddr (vm_info c4)) with (server_stack h3).
  rewrite Z.eqb_refl. cbn [negb]. destruct (Z.ltb_spec VM_MAX_SIZE (server_stack h3 - phys)); [lia |].
  eapply post_mono; [eapply touched_set_vm; exact Ht |]. clear Ht. intros [] s6 _ Ht. by exists m2.
Qed.

(** The header at position [k] of the table, in memory that agrees below the limit. *)
Lemma elf_header m elf limit h0 h1 h2 h3 m' k h :
  elf_file m elf limit [h0; h1; h2; h3] -> same_on (fun x => x < limit) m m' ->
  (k, h) ∈ [(0, h0); (1, h1); (2, h2); (3, h3)] ->
  phdr_at m' (elf + e_phoff m elf + k * PHDR_SIZE) = h /\ elf + e_phoff m elf + k * PHDR_SIZE + PHDR_SIZE <= limit.
Proof.
  intros [_ _ _ _ Htab Hhs _] Hs Hk. cbn in Hhs. injection Hhs as -> -> -> ->.
  assert (0 <= k <= 3 /\ h = phdr_at m (elf + e_phoff m elf + k * PHDR_SIZE)) as [Hk3 ->].
  { rewrite !elem_of_cons in Hk. destruct Hk as [[= -> ->]|[[= -> ->]|[[= -> ->]|[[= -> ->]|Hk]]]]; try done.
    by apply not_elem_of_nil in Hk. }
  assert (Hle : elf + e_phoff m elf + k * PHDR_SIZE + PHDR_SIZE <= limit) by lia.
  split; [|done]. by apply (phdr_at_same limit).
Qed.

(** The three sections. *)
Lemma server_sections_spec id elf phys limit h0 h1 h2 h3 c bm s0 s Q :
  let m0 := boot_memory bm in
  touched id c bm s0 s -> elf_file m0 elf limit [h0; h1; h2; h3] -> server_image phys limit h0 h1 h2 h3 ->
  (forall m s', loaded 0 elf m0 [h0; h1; h2] m ->
     touched id (set_vm_info (recorded 2 (placed h2) (recorded 1 (placed h1) (recorded 0 (placed h0) (vm_info c)))) c)
       (set_boot_memory m bm) s0 s' ->
     Q (elf + e_phoff m0 elf + 3 * PHDR_SIZE) s') ->
  wp (load_server_sections [0; 1; 2] id elf phys (elf + e_phoff m0 elf)) s Q.
Proof.
  intros m0 Ht Hf Hi HQ. pose proof Hf as [H0 Hlim _ _ _ _ Hsec]. destruct Hi as [[Hc0 Hc1] Hab (O1 & O2 & O3) Htop].
  cbn [take] in Hsec. rewrite !Forall_cons in Hsec. destruct Hsec as (S0 & S1 & S2 & _).
  assert (Hsz : 0 <= ph_size h1 /\ 0 <= ph_size h2).
  { pose proof (ef_headers _ _ _ _ Hf) as Hh. cbn in Hh. injection Hh as _ -> -> _. split; apply load_bound. }
  assert (Hnext : forall hs m k h, loaded 0 elf m0 hs m -> (forall h', h' ∈ hs -> limit <= ph_vaddr h') ->
    (k, h) ∈ [(0, h0); (1, h1); (2, h2); (3, h3)] -> phdr_at m (elf + e_phoff m0 elf + k * PHDR_SIZE) = h).
  { intros hs m k h Hl Hab' Hk. eapply elf_header; [exact Hf | | exact Hk].
    eapply loaded_low; [exact Hl |]. intros h' Hh. unfold dest. specialize (Hab' h' Hh). lia. }
  assert (I0 : forall h', h' ∈ [h0] -> limit <= ph_vaddr h' /\ ph_vaddr h' + ph_size h' <= ph_vaddr h1)
    by (intros h' ->%list_elem_of_singleton; lia).
  assert (I1 : forall h', h' ∈ [h0; h1] -> limit <= ph_vaddr h' /\ ph_vaddr h' + ph_size h' <= ph_vaddr h2)
    by (intros h' [->| ->%list_elem_of_singleton]%elem_of_cons; lia).
  assert (L0 : loaded 0 elf m0 [] m0) by apply loaded_nil.
  eapply (server_section_step id elf phys limit m0 0 _ _ [] h0 c bm s0);
    [exact Ht | | done | done | done | done | done | lia | by intros ? ?%not_elem_of_nil |].
  { rewrite <-(Z.add_0_r (elf + _)). apply (Hnext [] m0 0 h0 L0); [by intros ? ?%not_elem_of_nil | by left]. }
  clear Ht. intros m1 s1 L1 Ht. eapply (server_section_step id elf phys limit m0 1 _ _ [h0] h1);
    [exact Ht | | done | done | done | done | done | lia | done |].
  { apply (Hnext [h0] m1 1 h1 L1); [intros h' Hh; by apply I0 | right; by left]. }
  clear Ht. intros m2 s2 L2 Ht. eapply (server_section_step id elf phys limit m0 2 _ _ [h0; h1] h2);
    [exact Ht | | done | done | done | done | done | lia | done |].
  { rewrite <-Z.add_assoc. apply (Hnext [h0; h1] m2 2 h2 L2); [intros h' Hh; by apply I1 | right; right; by left]. }
  clear Ht. intros m3 s3 L3 Ht. cbn [load_server_sections]. apply post_ret.
  replace (elf + e_phoff m0 elf + 56 + 56 + 56) with (elf + e_phoff m0 elf + 3 * 56) by lia. by apply (HQ m3).
Qed.

(** C14: with room for it, [load_server_vms] loads an executable that is linked
    for the next free multiple of 2MB: each section is copied byte for byte
    to the address it is linked for, the bss is zero, the CPU's description
    names the sections, entry point and stack, and no byte outside the 2MB
    block and no other description changes; the block is not handed out
    again. *)
Theorem load_server_correct n id elf limit h0 h1 h2 h3 s :
  let phys := ALIGN (boot_free_addr (ct_mem (b_ct s))) _2MB_ in
  cpus_found n s -> 0 <= id < n -> phys + _2MB_ <= memory_size (ct_mem (b_ct s)) ->
  elf_file (b_mem s) elf limit [h0; h1; h2; h3] -> server_image phys limit h0 h1 h2 h3 ->
  exists s', load_server_vms id elf s = Ok tt s' /\
    server_described h0 h1 h2 h3 (default no_cpu (b_cpus s !! id)) (default no_cpu (b_cpus s' !! id)) /\
    (forall j, j <> id -> b_cpus s' !! j = b_cpus s !! j) /\
    (forall h i, h ∈ [h0; h1; h2] -> 0 <= i < ph_size h ->
       byte_at (b_mem s') (ph_vaddr h + i) = byte_at (b_mem s) (elf + ph_offset h + i)) /\
    (forall x, ph_vaddr h3 <= x < ph_vaddr h3 + ph_size h3 -> byte_at (b_mem s') x = 0) /\
    (forall x, ~ (phys <= x < phys + _2MB_) -> byte_at (b_mem s') x = byte_at (b_mem s) x) /\
    boot_free_addr (ct_mem (b_ct s')) = phys + _2MB_.
Proof.
  intros phys Hcf Hid Hroom Hf Hi. set (c := default no_cpu (b_cpus s !! id)). set (bm := ct_mem (b_ct s)) in *.
  pose proof (cf_boot _ _ Hcf) as Hok. fold bm in Hok. pose proof Hok as [Hfree Hmax].
  destruct (ALIGN_pow2 (boot_free_addr bm) 21) as (Hal & Hle & _); [lia.. |]. change (2 ^ 21) with _2MB_ in *. fold phys in Hal, Hle.
  pose proof Hf as [He Hlim Hnum _ Htab _ _]. pose proof Hi as [[Hc0 Hc1] Hab (O1 & O2 & O3) Htop].
  assert (Hsz : 0 <= ph_size h1 /\ 0 <= ph_size h2 /\ 0 <= ph_size h3).
  { pose proof (ef_headers _ _ _ _ Hf) as Hh. cbn in Hh. injection Hh as _ -> -> ->. split_and!; apply load_bound. }
  pose proof (load_bound 8 (b_mem s) (elf + 32)) as Hoff. change (load 8 (b_mem s) (elf + 32)) with (e_phoff (b_mem s) elf) in Hoff.
  set (bm1 := BootMem (memory_size bm) (phys + _2MB_) (boot_memory bm)).
  set (cd := set_vm_info (tail_vm h3 (recorded 2 (placed h2) (recorded 1 (placed h1) (recorded 0 (placed h0)
    (set_vm_start_vaddr phys (set_vm_start_paddr phys (set_vm_start_paddr phys (vm_info c)))))))) (set_vmm_has_vm true c)).
  destruct (wp_elim_unit (load_server_vms id elf) s (fun s' => exists m m', loaded 0 elf (b_mem s) [h0; h1; h2] m /\
    cleared h3 m m' /\ touched id cd (set_boot_memory m' bm1) s s')) as (s' & Hrun & m & m' & Hl & Hcl & Ht).
  { rewrite load_server_vms_unfold. pose proof (touched_none id s) as Ht. fold c bm in Ht. wp_step.
    eapply post_mono; [eapply touched_alloc; [exact Ht |]; apply (malloc_align_room _2MB_ 21); [done | lia | lia | lia | done] |].
    clear Ht. intros p s1 _ (bm2 & (-> & ->) & Ht). change (2 ^ 21) with _2MB_ in *. fold phys in Ht |- *.
    replace (ALIGN (phys + _2MB_) 16) with (phys + _2MB_) in Ht.
    2: { symmetry. apply (ALIGN_unique _ 4); [lia | lia | | lia]. apply Z.mod_divide in Hal as [q ->]; [|lia].
         replace (q * _2MB_ + _2MB_) with ((q + 1) * 131072 * 2 ^ 4) by lia. by apply Z.mod_mul. }
    fold bm1 in Ht. destruct (Z.eqb_spec phys 0); [lia |]. wp_step. unfold post at 1. rewrite (touched_info _ _ _ _ _ _ _ Ht Hcf Hid).
    tstep Ht touched_set. tstep Ht touched_set_vm. wp_step. apply post_gets. rewrite (touched_mem _ _ _ _ _ Ht).
    change (boot_memory bm1) with (b_mem s). rewrite Hnum. cbn [Z.eqb Pos.eqb negb]. rewrite (w64_small (elf + _)) by lia. cbv zeta.
    assert (p_vaddr (b_mem s) (elf + e_phoff (b_mem s) elf) = phys) as ->.
    { pose proof (ef_headers _ _ _ _ Hf) as Hh. cbn in Hh. injection Hh as Hh _ _ _. rewrite Hh, Z.add_0_r in Hc1. exact Hc1. }
    tstep Ht touched_set_vm. wp_step. eapply (server_sections_spec id elf phys limit h0 h1 h2 h3 _ bm1 s); [exact Ht | exact Hf | exact Hi |].
    clear Ht. intros m s5 Hl Ht. change (boot_memory bm1) with (b_mem s) in *.
    eapply post_mono; [eapply (server_tail_spec id limit phys h3); [exact Ht | | | lia | done | | lia | lia | lia] |].
    - eapply elf_header; [exact Hf | | right; right; right; by left]. eapply loaded_low; [exact Hl |].
      intros h Hh. unfold dest. rewrite !elem_of_cons in Hh.
      destruct Hh as [->|[->|[->|Hh]]]; [lia | lia | lia | by apply not_elem_of_nil in Hh].
    - change (e_phoff (boot_memory bm1) elf) with (e_phoff (b_mem s) elf). lia.
    - cbn. destruct (Z.ltb_spec 0 (ph_size h0)); [done | lia].
    - clear Ht. intros [] s6 _ (m' & Ht & Hcl). exists m, m'. by split_and!. }
  assert (Hmem : b_mem s' = m') by (by rewrite (touched_mem _ _ _ _ _ Ht)). exists s'. rewrite Hmem.
  rewrite (tc_cpu _ _ _ _ _ Ht), (tc_ct _ _ _ _ _ Ht). split_and!; [done | | apply Ht | | | | done].
  - split; try done; rewrite Hc1. split; [|done]. f_equal. cbn.
    destruct (Z.ltb_spec 0 (ph_size h0)); [done | lia].
  - intros h i Hh Hx. rewrite Hcl, decide_False.
    + replace (ph_vaddr h) with (dest 0 h) by (unfold dest; lia). by apply Hl.
    + rewrite !elem_of_cons in Hh. destruct Hh as [->|[->|[->|Hh]]]; [lia | lia | lia | by apply not_elem_of_nil in Hh].
  - intros x Hx. by rewrite Hcl, decide_True.
  - intros x Hx. rewrite Hcl, decide_False by lia. apply Hl. intros h Hh. unfold dest. rewrite !elem_of_cons in Hh.
    destruct Hh as [->|[->|[->|Hh]]]; [lia | lia | lia | by apply not_elem_of_nil in Hh].
Qed.
