(* ===== verification/Startup.v ===== *)
(** * Starting the other processors (boot/stage2: mp.c, dev/lapic.c, dev/i8253.c, cpuinfo.c)

    The boot processor waits with the interval timer, sends interrupts through
    its local APIC and waits for the started processor's flag.  The accesses
    are recorded in order; [answer] gives what an input reads after the
    accesses made so far.  [rounds] bounds the waiting loops: when it is used
    up the model stops with [Diverge]. *)

From S2P Require Import Prelude PhysMem CpuInfo BootMem Boot.

Abbreviation CHANNEL2 := 0x61.
Abbreviation TIMER2 := 0x42.
Abbreviation TIMER_MODE := 0x43.
Abbreviation ONE_SHOT := 0xB0.
Abbreviation LAPIC_ID := 0x020.
Abbreviation LAPIC_TPRI := 0x080.
Abbreviation LAPIC_LDR := 0x0d0.
Abbreviation LAPIC_DFR := 0x0e0.
Abbreviation LAPIC_SVR := 0x0f0.
Abbreviation LAPIC_ICRLO := 0x300.
Abbreviation LAPIC_ICRHI := 0x310.
Abbreviation LAPIC_LVTT := 0x320.
Abbreviation LAPIC_PCINT := 0x340.
Abbreviation LAPIC_LVINT0 := 0x350.
Abbreviation LAPIC_LVINT1 := 0x360.
Abbreviation LAPIC_ICR_TIMER := 0x380.
Abbreviation LAPIC_CCR_TIMER := 0x390.
Abbreviation LAPIC_DCR_TIMER := 0x3e0.
Abbreviation LAPIC_LVT_MASKED := 0x10000.
Abbreviation LAPIC_SVR_ENABLE := 0x100.
Abbreviation LAPIC_DCRT_DIV16 := 0x03.
Abbreviation LAPIC_DLSTAT_BUSY := 0x1000.
Abbreviation LAPIC_DLMODE_INIT := 0x500.
Abbreviation LAPIC_DLMODE_STARTUP := 0x600.
Abbreviation LAPIC_LVL_ASSERT := 0x4000.
Abbreviation LAPIC_LVL_DEASSERT := 0.
Abbreviation LAPIC_LVL_TRIG := 0x8000.
Abbreviation IO_RTC := 0x70.
Abbreviation NVRAM_RESET := 0xf.
Abbreviation NVRAM_RESET_JUMP := 0xa.
Abbreviation BOOT_APS_BASE_ADDR := 0x9F000.
Abbreviation CPU_INFO_PTR_ADDR := (0x9F000 + 512).

(** ** Accesses *)

Inductive input :=
| IN (port : Z)
| LR (off : Z)             (* local APIC *)
| RDTSC
| READY (cpu : Z).         (* [cpu->ready], set by the started processor *)
Inductive event :=
| READ (i : input)
| OUT (port v : Z)
| LW (off v : Z).

Record starter := Starter {
  st_boot : boot_state;
  st_log : list event
}.
Definition set_st_boot (v : boot_state) (s : starter) : starter := Starter v (st_log s).
Definition set_st_log (v : list event) (s : starter) : starter := Starter (st_boot s) v.
Definition on_state {A} (m : M boot_state A) : M starter A := zoom st_boot set_st_boot m.

Section Platform.
Context (answer : list event -> input -> Z) (rounds : nat).

Definition record (e : event) : M starter unit := modify (fun s => set_st_log (st_log s ++ [e]) s).
Definition read_input (i : input) : M starter Z :=
  v ← gets (fun s => answer (st_log s) i); record (READ i) ;; mret v.
Definition inb (port : Z) : M starter Z := v ← read_input (IN port); mret (w8 v).
Definition outb (v port : Z) : M starter unit := record (OUT port (w8 v)).
Definition lapic_read (off : Z) : M starter Z := v ← read_input (LR off); mret (w32 v).
Definition lapic_write (off val : Z) : M starter unit :=
  record (LW off (w32 val)) ;; lapic_read LAPIC_ID ;; mret tt.
Definition rdtsc : M starter Z := v ← read_input RDTSC; mret (w64 v).

(** [while (!test);] *)
Fixpoint wait_for (fuel : nat) (test : M starter bool) : M starter unit :=
  b ← test;
  if b : bool then mret tt else
  match fuel with
  | O => stop_with Diverge
  | S fuel => wait_for fuel test
  end.
(** Output 2 of the interval timer is up. *)
Definition timer_expired : M starter bool := v ← inb CHANNEL2; mret (negb (Z.land v 0x20 =? 0)).

(** ** Delays *)

Definition one_msec : M starter unit :=
  v ← inb CHANNEL2;
  outb (Z.lor (Z.land v 0x0C) 1) CHANNEL2 ;;
  outb ONE_SHOT TIMER_MODE ;;
  outb 0xA9 TIMER2 ;;
  outb 0x04 TIMER2 ;;
  wait_for rounds timer_expired ;;
  v ← inb CHANNEL2;
  outb (Z.land v 0x0C) CHANNEL2.
Definition i8253_delay (msec : Z) : M starter unit := forM (seqZ 0 msec) (fun _ => one_msec).
Definition timer_delay := i8253_delay.

(** ** Interprocessor interrupts *)

Definition icr_busy : M starter bool := v ← lapic_read LAPIC_ICRLO; mret (negb (Z.land v LAPIC_DLSTAT_BUSY =? 0)).
(** [i] more busy reads are tolerated. *)
Fixpoint icr_wait_loop (i : nat) : M starter Z :=
  b ← icr_busy;
  if b : bool then
    match i with
    | O | S O => mret (-1)
    | S i' => icr_wait_loop i'
    end
  else mret 0.
Definition lapic_icr_wait : M starter Z := icr_wait_loop (Z.to_nat 100000).

Definition lapic_ipi_init (apicid : Z) : M starter Z :=
  lapic_write LAPIC_ICRHI (apicid * 2 ^ 24) ;;
  lapic_write LAPIC_ICRLO (Z.lor (Z.lor (Z.lor apicid LAPIC_DLMODE_INIT) LAPIC_LVL_TRIG) LAPIC_LVL_ASSERT) ;;
  lapic_icr_wait ;;
  timer_delay 10 ;;
  lapic_write LAPIC_ICRLO (Z.lor (Z.lor (Z.lor apicid LAPIC_DLMODE_INIT) LAPIC_LVL_TRIG) LAPIC_LVL_DEASSERT) ;;
  lapic_icr_wait ;;
  b ← icr_busy;
  mret (if b : bool then -1 else 0).

(** lib/include/lapic.h: a program interrupts another core. *)
Definition lapic_send_ipi (vector cpuid : Z) : M starter unit :=
  wait_for rounds (b ← icr_busy; mret (negb b)) ;;
  lapic_write LAPIC_ICRHI (cpuid * 2 ^ 24) ;;
  lapic_write LAPIC_ICRLO vector.

Definition send_startup (apicid : Z) : M starter unit :=
  lapic_icr_wait ;;
  lapic_write LAPIC_ICRHI (apicid * 2 ^ 24) ;;
  lapic_write LAPIC_ICRLO (Z.lor LAPIC_DLMODE_STARTUP (BOOT_APS_BASE_ADDR / 2 ^ 12)) ;;
  timer_delay 1.

Definition lapic_startaps (apicid : Z) : M starter unit :=
  cpu ← on_state (on_table (boot_get_cpu_info apicid));
  if cpu =? 0 then panic "Failed to get cpu information. boot/stage2/lapic.c" else
  id ← on_state (cpu_of cpu);
  c ← on_state (b_cpu id);
  m ← gets (fun s => b_mem (st_boot s));
  if negb (byte_at m (msg_ready c) =? 0) then panic "Why do you try to boot a booted processor?!" else
  outb NVRAM_RESET IO_RTC ;;
  outb NVRAM_RESET_JUMP (IO_RTC + 1) ;;
  on_state (poke_b (fun m => store 2 m 0x467 0)) ;;
  on_state (poke_b (fun m => store 2 m (0x467 + 2) (BOOT_APS_BASE_ADDR / 2 ^ 4))) ;;
  on_state (poke_b (fun m => store64 m CPU_INFO_PTR_ADDR cpu)) ;;
  r ← lapic_ipi_init (w32 apicid);
  if r <? 0 then panic "unable to send init error r" else
  timer_delay 10 ;;
  send_startup apicid ;; send_startup apicid.

(** ** All processors, then the hypervisor of the process manager *)

(** The jump: page tables, stack, first argument and entry point. *)
Record vmm_jump := VmmJump { j_cr3 : Z; j_rsp : Z; j_rdi : Z; j_rip : Z }.

Definition start_cpu (i : Z) : M starter unit :=
  id ← on_state (get_info i);
  v ← on_state (b_vmm id);
  lapic_startaps (lapic_id v) ;;
  wait_for rounds (v ← read_input (READY id); mret (negb (w8 v =? 0))).

Definition mp_bootothers : M starter vmm_jump :=
  n ← on_state (on_table get_ncpus);
  forM (seqZ 1 (n - 1)) start_cpu ;;
  cpu ← on_state (on_table (boot_get_cpu_info PM));
  id ← on_state (cpu_of cpu);
  v ← on_state (b_vmm id);
  on_state (poke_b (fun m => store64 m CPU_INFO_PTR_ADDR cpu)) ;;
  mret (VmmJump (vmm_page_tables v) (vmm_rsp v) cpu (vmm_start_vaddr v)).

(** ** Frequencies *)

(** Ten milliseconds on channel 2, with the gate reopened. *)
Definition start_10msec : M starter unit :=
  v ← inb CHANNEL2;
  outb (Z.lor (Z.land v 0x0C) 1) CHANNEL2 ;;
  outb ONE_SHOT TIMER_MODE ;;
  outb 0x9B TIMER2 ;;
  inb 0x60 ;;
  outb 0x2E TIMER2 ;;
  v ← inb CHANNEL2;
  outb (Z.land v 0xFE) CHANNEL2 ;;
  outb (Z.lor (Z.land v 0xFE) 1) CHANNEL2.

Definition get_cpu_freq : M starter Z :=
  start_10msec ;;
  before ← rdtsc;
  wait_for rounds timer_expired ;;
  after ← rdtsc;
  mret (w64 (w64 (after - before) * 100)).

(** The product is computed in 32 bits. *)
Definition get_bus_freq : M starter Z :=
  lapic_write LAPIC_DFR 0xffffffff ;;
  ldr ← lapic_read LAPIC_LDR;
  lapic_write LAPIC_LDR (Z.lor (Z.land ldr 0x00ffffff) 1) ;;
  lapic_write LAPIC_LVTT LAPIC_LVT_MASKED ;;
  lapic_write LAPIC_PCINT (4 * 2 ^ 8) ;;
  lapic_write LAPIC_LVINT0 LAPIC_LVT_MASKED ;;
  lapic_write LAPIC_LVINT1 LAPIC_LVT_MASKED ;;
  lapic_write LAPIC_TPRI 0 ;;
  lapic_write LAPIC_SVR (Z.lor 39 LAPIC_SVR_ENABLE) ;;
  lapic_write LAPIC_LVTT 32 ;;
  lapic_write LAPIC_DCR_TIMER LAPIC_DCRT_DIV16 ;;
  start_10msec ;;
  lapic_write LAPIC_ICR_TIMER 0xFFFFFFFF ;;
  wait_for rounds timer_expired ;;
  lapic_write LAPIC_LVTT LAPIC_LVT_MASKED ;;
  ccr ← lapic_read LAPIC_CCR_TIMER;
  mret (w32 ((0xFFFFFFFF - ccr + 1) * 16 * 100)).
End Platform.
