(* ===== verification/StartupSpec.v ===== *)
(** * The other processors are started as the architecture demands

    Of the recorded accesses, the writes to the local APIC and the
    milliseconds waited are what the started processor notices: every
    processor gets the universal start-up sequence, once and in order. *)

From S2P Require Import Prelude PhysMem MemMgr CpuInfo BootMem Boot Startup.

(** ** What an access sequence does *)

Inductive effect :=
| Sent (off v : Z)      (* written to the local APIC *)
| Msec.                 (* a one-shot of 1193 counts, one millisecond *)
#[global] Instance effect_eq_dec : EqDecision effect.
Proof. solve_decision. Defined.

Definition effect_of (e : event) : list effect :=
  match e with
  | LW off v => [Sent off v]
  | OUT port v => if (port =? TIMER2) && (v =? 0x04) then [Msec] else []
  | READ _ => []
  end.
Definition effects (l : list event) : list effect := l ≫= effect_of.

(** The universal start-up algorithm for processor [id]: INIT, 10ms, end of
    INIT, 10ms, and twice the start-up interrupt with the page of the code,
    each followed by a millisecond. *)
Definition init_sequence (id : Z) : list effect :=
  [Sent LAPIC_ICRHI (w32 (id * 2 ^ 24)); Sent LAPIC_ICRLO (w32 (Z.lor (Z.lor (Z.lor id LAPIC_DLMODE_INIT) LAPIC_LVL_TRIG) LAPIC_LVL_ASSERT))] ++
  replicate 10 Msec ++ [Sent LAPIC_ICRLO (w32 (Z.lor (Z.lor id LAPIC_DLMODE_INIT) LAPIC_LVL_TRIG))].
Definition sipi_sequence (id : Z) : list effect :=
  [Sent LAPIC_ICRHI (w32 (id * 2 ^ 24)); Sent LAPIC_ICRLO (Z.lor LAPIC_DLMODE_STARTUP 0x9F); Msec].
Definition startup_sequence (id : Z) : list effect :=
  init_sequence id ++ replicate 10 Msec ++ sipi_sequence id ++ sipi_sequence id.

Section Platform.
Context (answer : list event -> input -> Z) (rounds : nat).

(** What the code relies on: the interval timer expires, the local APIC
    delivers an interrupt and stays idle until the next one, and a processor
    that was sent the start-up sequence reports itself ready. *)
Definition icr_idle (log : list event) : Prop := Z.testbit (answer log (LR LAPIC_ICRLO)) 12 = false.
Class Platform : Prop := {
  timer_fires log : exists k, (k <= rounds)%nat /\ Z.testbit (answer (log ++ replicate k (READ (IN CHANNEL2))) (IN CHANNEL2)) 5 = true;
  icr_delivers log : exists k, Z.of_nat k < 100000 /\ icr_idle (log ++ replicate k (READ (LR LAPIC_ICRLO)));
  icr_stays log : icr_idle log -> icr_idle (log ++ [READ (LR LAPIC_ICRLO)]);
  cpu_comes_up log l id : effects log = l ++ startup_sequence id ->
    exists k, (k <= rounds)%nat /\ w8 (answer (log ++ replicate k (READ (READY id))) (READY id)) <> 0
}.
Context `{HP : !Platform}.

(** Only accesses with the effects [l] were made. *)
Definition ran (l : list effect) (s s' : starter) : Prop :=
  st_boot s' = st_boot s /\ exists ext, st_log s' = st_log s ++ ext /\ effects ext = l.
Lemma ran_nil s : ran [] s s.
Proof. split; [done |]. exists []. by rewrite app_nil_r. Qed.
Lemma ran_app l1 l2 s s1 s2 : ran l1 s s1 -> ran l2 s1 s2 -> ran (l1 ++ l2) s s2.
Proof.
  intros (B1 & e1 & L1 & E1) (B2 & e2 & L2 & E2). split; [congruence |]. exists (e1 ++ e2).
  rewrite L2, L1, app_assoc. split; [done |]. unfold effects in *. by rewrite bind_app, E1, E2.
Qed.
Lemma ran_log l s s' : ran l s s' -> effects (st_log s') = effects (st_log s) ++ l.
Proof. intros (_ & e & L & E). rewrite L. unfold effects in *. by rewrite bind_app, E. Qed.

Lemma record_ran e s : ran (effect_of e) s (set_st_log (st_log s ++ [e]) s).
Proof. split; [done |]. exists [e]. split; [done |]. cbn. apply app_nil_r. Qed.

Lemma input_run i s : read_input answer i s = Ok (answer (st_log s) i) (set_st_log (st_log s ++ [READ i]) s).
Proof. reflexivity. Qed.
Lemma inb_spec port s : wp (inb answer port) s (fun _ s' => ran [] s s').
Proof. eapply post_run; [reflexivity |]. apply (record_ran (READ _)). Qed.
Lemma lapic_read_spec off s : wp (lapic_read answer off) s (fun _ s' => ran [] s s').
Proof. eapply post_run; [reflexivity |]. apply (record_ran (READ _)). Qed.
Lemma outb_spec v port s : wp (outb v port) s (fun _ s' => ran (effect_of (OUT port (w8 v))) s s').
Proof. eapply post_run; [reflexivity |]. apply record_ran. Qed.
Lemma lapic_write_spec off v s : wp (lapic_write answer off v) s (fun _ s' => ran [Sent off (w32 v)] s s').
Proof.
  unfold lapic_write. wp_step. eapply post_run; [reflexivity |]. wp_step. eapply post_mono; [apply lapic_read_spec |]. intros ? s1 _ H.
  wp_step. exact (ran_app [Sent off (w32 v)] [] _ _ _ (record_ran (LW off (w32 v)) s) H).
Qed.

(** ** Waiting *)

Lemma wait_spec i (good : Z -> bool) (test : M starter bool) :
  (forall s, test s = Ok (good (answer (st_log s) i)) (set_st_log (st_log s ++ [READ i]) s)) ->
  forall fuel k s, (k <= fuel)%nat -> good (answer (st_log s ++ replicate k (READ i)) i) = true ->
  wp (wait_for fuel test) s (fun _ s' => ran [] s s').
Proof.
  intros Ht. induction fuel as [|fuel IH]; intros k s Hk Hg; cbn [wait_for]; wp_step; (eapply post_run; [apply Ht |]).
  - replace k with O in Hg by lia. cbn in Hg. rewrite app_nil_r in Hg. rewrite Hg. wp_step. apply (record_ran (READ i)).
  - destruct (good (answer (st_log s) i)) eqn:E; [wp_step; apply (record_ran (READ i)) |].
    destruct k as [|k]; [cbn [replicate] in Hg; rewrite app_nil_r in Hg; congruence |].
    eapply post_mono; [apply (IH k); [lia |] |].
    + cbn [st_log set_st_log]. rewrite <-app_assoc. exact Hg.
    + intros [] s' _ H. exact (ran_app [] [] _ _ _ (record_ran (READ i) s) H).
Qed.

Lemma mask_bit v n k : 0 <= k < n -> negb (Z.land (v mod 2 ^ n) (2 ^ k) =? 0) = Z.testbit v k.
Proof.
  intros Hk. rewrite <-(Z.mod_pow2_bits_low v n k) by lia. set (x := v mod 2 ^ n). destruct (Z.testbit x k) eqn:E.
  - apply negb_true_iff, Z.eqb_neq. intros E0. assert (Ht : Z.testbit (Z.land x (2 ^ k)) k = true).
    { rewrite Z.land_spec, E, Z.pow2_bits_true by lia. done. }
    rewrite E0 in Ht. by rewrite Z.bits_0 in Ht.
  - apply negb_false_iff, Z.eqb_eq, Z.bits_inj'. intros i Hi. rewrite Z.land_spec, Z.bits_0, Z.pow2_bits_eqb by lia.
    destruct (Z.eqb_spec k i) as [<-|]; [by rewrite E | apply andb_false_r].
Qed.

Lemma timer_wait_spec s : wp (wait_for rounds (timer_expired answer)) s (fun _ s' => ran [] s s').
Proof.
  destruct (timer_fires (st_log s)) as (k & Hk & Hf).
  apply (wait_spec (IN CHANNEL2) (fun v => Z.testbit v 5)) with (k := k); [|done | done]. intros s1. unfold timer_expired, inb.
  erewrite bind_step by reflexivity. cbn [mret M_ret]. unfold mret, M_ret. f_equal. apply (mask_bit _ 8 5). lia.
Qed.
Lemma icr_busy_run s : icr_busy answer s =
  Ok (Z.testbit (answer (st_log s) (LR LAPIC_ICRLO)) 12) (set_st_log (st_log s ++ [READ (LR LAPIC_ICRLO)]) s).
Proof.
  unfold icr_busy, lapic_read. erewrite bind_step by reflexivity. unfold mret, M_ret. f_equal. apply (mask_bit _ 32 12). lia.
Qed.
Lemma icr_loop_spec i : forall k s, (k < i)%nat -> icr_idle (st_log s ++ replicate k (READ (LR LAPIC_ICRLO))) ->
  wp (icr_wait_loop answer i) s (fun r s' => r = 0 /\ ran [] s s' /\ icr_idle (st_log s')).
Proof.
  induction i as [|i IH]; intros k s Hk Hi; [lia |]. cbn [icr_wait_loop]. wp_step. eapply post_run; [apply icr_busy_run |].
  destruct (Z.testbit _ 12) eqn:E.
  - destruct k as [|k]; [unfold icr_idle in Hi; cbn [replicate] in Hi; rewrite app_nil_r in Hi; congruence |]. destruct i as [|i]; [lia |].
    eapply post_mono; [apply (IH k); [lia |] |].
    + cbn [st_log set_st_log]. rewrite <-app_assoc. exact Hi.
    + intros r s' _ (-> & H & Hid). split_and!; [done | | done]. exact (ran_app [] [] _ _ _ (record_ran (READ _) s) H).
  - wp_step. split_and!; [done | apply (record_ran (READ _)) | by apply icr_stays].
Qed.
Lemma icr_wait_spec s : wp (lapic_icr_wait answer) s (fun _ s' => ran [] s s' /\ icr_idle (st_log s')).
Proof.
  destruct (icr_delivers (st_log s)) as (k & Hk & Hi). unfold lapic_icr_wait.
  eapply post_mono; [apply (icr_loop_spec _ k); [lia | done] |]. by intros r s' _ (_ & ? & ?).
Qed.

(** ** The sequences *)

(** One more step after those of [H]. *)
Ltac run_last lem H :=
  eapply post_mono; [apply lem |];
  let H' := fresh "H" in intros ? ? _ H'; apply (ran_app _ _ _ _ _ H) in H'; clear H; rename H' into H.
Ltac run_step lem H := wp_step; run_last lem H.

Lemma one_msec_spec s : wp (one_msec answer rounds) s (fun _ s' => ran [Msec] s s').
Proof.
  unfold one_msec. pose proof (ran_nil s) as H. run_step inb_spec H. do 4 run_step outb_spec H. run_step timer_wait_spec H. run_step inb_spec H.
  run_last outb_spec H. exact H.
Qed.
Lemma delay_spec msec s : 0 <= msec -> wp (timer_delay answer rounds msec) s (fun _ s' => ran (replicate (Z.to_nat msec) Msec) s s').
Proof.
  intros Hm. unfold timer_delay, i8253_delay.
  assert (G : forall l s, wp (forM l (fun _ : Z => one_msec answer rounds)) s (fun _ s' => ran (replicate (length l) Msec) s s')).
  { clear msec s Hm. induction l as [|x l IH]; intros s; [apply (post_ret _ tt), ran_nil |]. cbn [forM]. wp_step.
    eapply post_mono; [apply one_msec_spec |]. intros [] s1 _ H1. eapply post_mono; [apply IH |]. intros [] s2 _ H2.
    exact (ran_app [Msec] _ _ _ _ H1 H2). }
  eapply post_mono; [apply G |]. intros [] s' _ H. by rewrite length_seqZ in H.
Qed.
Lemma icr_waited s : wp (lapic_icr_wait answer) s (fun _ s' => ran [] s s').
Proof. eapply post_mono; [apply icr_wait_spec |]. by intros ? ? _ [? _]. Qed.

Lemma ipi_init_spec id s : wp (lapic_ipi_init answer rounds id) s (fun r s' => r = 0 /\ ran (init_sequence id) s s').
Proof.
  unfold lapic_ipi_init. pose proof (ran_nil s) as H. run_step lapic_write_spec H. run_step lapic_write_spec H. run_step icr_waited H.
  wp_step. eapply post_mono; [apply delay_spec; lia |]. intros [] s1 _ H1. apply (ran_app _ _ _ _ _ H) in H1. clear H.
  run_step lapic_write_spec H1. wp_step. eapply post_mono; [apply icr_wait_spec |]. intros ? s2 _ [H2 Hidle].
  apply (ran_app _ _ _ _ _ H1) in H2. wp_step. eapply post_run; [apply icr_busy_run |]. rewrite Hidle. wp_step. split; [done |].
  pose proof (ran_app _ [] _ _ _ H2 (record_ran (READ (LR LAPIC_ICRLO)) s2)) as H. rewrite Z.lor_0_r in H. exact H.
Qed.
Lemma send_startup_spec id s : wp (send_startup answer rounds id) s (fun _ s' => ran (sipi_sequence id) s s').
Proof.
  unfold send_startup. pose proof (ran_nil s) as H. run_step icr_waited H. run_step lapic_write_spec H. run_step lapic_write_spec H.
  eapply post_mono; [apply delay_spec; lia |]. intros [] s1 _ H1. exact (ran_app _ _ _ _ _ H H1).
Qed.

(** ** The memory the started processor reads *)

Definition poked (m : memory) (b : boot_state) : boot_state :=
  set_b_ct (set_ct_mem (set_boot_memory m (ct_mem (b_ct b))) (b_ct b)) b.
Lemma poke_b_run f s : on_state (poke_b f) s = Ok tt (set_st_boot (poked (f (b_mem (st_boot s))) (st_boot s)) s).
Proof. reflexivity. Qed.

(** The warm reset vector and the pointer to the processor's description. *)
Definition startup_area (x : Z) : Prop := 0x467 <= x < 0x46B \/ CPU_INFO_PTR_ADDR <= x < CPU_INFO_PTR_ADDR + 8.
Definition vector_set (m : memory) (cpu : Z) : memory :=
  store64 (store 2 (store 2 m 0x467 0) (0x467 + 2) (BOOT_APS_BASE_ADDR / 2 ^ 4)) CPU_INFO_PTR_ADDR cpu.
Lemma vector_set_same m cpu : same_on (fun x => ~ startup_area x) (vector_set m cpu) m.
Proof. intros x Hx. unfold startup_area in Hx. unfold vector_set, store64. rewrite !byte_at_store_out by lia. done. Qed.

(** CPU [i] is described by page [i] of the pool, has local APIC [i], and has
    not been started. *)
Record startable (b : boot_state) (i : Z) : Prop := Startable {
  sb_slot : cpuinfo_table (b_ct b) !! i = Some (cpuinfo_pool (b_ct b) + i * _4KB_);
  sb_id : lapic_id (default no_vmm (b_vmms b !! i)) = i;
  sb_high : 0x100000 <= msg_ready (default no_cpu (b_cpus b !! i));
  sb_fresh : byte_at (b_mem b) (msg_ready (default no_cpu (b_cpus b !! i))) = 0
}.
Lemma startable_poked b i m :
  same_on (fun x => ~ startup_area x) m (b_mem b) -> startable b i -> startable (poked m b) i.
Proof.
  intros Hs [A1 A2 A3 A4]. split; [done | done | done |]. change (b_mem (poked m b)) with m. rewrite <-A4. apply Hs. unfold startup_area. cbn. lia.
Qed.

Section Boot.
Context (b0 : boot_state) (Hpool : 0 < cpuinfo_pool (b_ct b0)).

Lemma info_run s i :
  cpuinfo_pool (b_ct (st_boot s)) = cpuinfo_pool (b_ct b0) -> 0 <= i < MAX_CPUS -> startable (st_boot s) i ->
  on_state (on_table (boot_get_cpu_info i)) s = Ok (cpuinfo_pool (b_ct b0) + i * _4KB_) s /\
  on_state (cpu_of (cpuinfo_pool (b_ct b0) + i * _4KB_)) s = Ok i s /\ on_state (get_info i) s = Ok i s.
Proof.
  intros Hp Hi Hs.
  assert (H1 : on_table (boot_get_cpu_info i) (st_boot s) = Ok (cpuinfo_pool (b_ct b0) + i * _4KB_) (st_boot s)).
  { unfold on_table, zoom, boot_get_cpu_info. rewrite (proj2 (Z.ltb_ge _ _)), (proj2 (Z.leb_gt _ _)) by lia.
    erewrite bind_step by reflexivity. rewrite (sb_slot _ _ Hs), Hp. unfold mret, M_ret. f_equal. by destruct (st_boot s). }
  assert (H2 : cpu_of (cpuinfo_pool (b_ct b0) + i * _4KB_) (st_boot s) = Ok i (st_boot s)).
  { unfold cpu_of. rewrite (proj2 (Z.eqb_neq _ _)) by lia. erewrite bind_step by reflexivity. rewrite Hp. unfold mret, M_ret. f_equal.
    replace (cpuinfo_pool (b_ct b0) + i * _4KB_ - cpuinfo_pool (b_ct b0)) with (i * _4KB_) by lia. by apply Z.div_mul. }
  assert (Hs0 : set_st_boot (st_boot s) s = s) by (by destruct s).
  split_and!; unfold on_state, zoom; [by rewrite H1, Hs0 | by rewrite H2, Hs0 |].
  unfold get_info. rewrite (bind_step _ _ _ _ _ H1), H2. by rewrite Hs0.
Qed.

Lemma startaps_spec s i :
  cpuinfo_pool (b_ct (st_boot s)) = cpuinfo_pool (b_ct b0) -> 0 <= i < MAX_CPUS -> startable (st_boot s) i ->
  wp (lapic_startaps answer rounds i) s (fun _ s' =>
    st_boot s' = poked (vector_set (b_mem (st_boot s)) (cpuinfo_pool (b_ct b0) + i * _4KB_)) (st_boot s) /\
    effects (st_log s') = effects (st_log s) ++ startup_sequence i).
Proof.
  intros Hp Hi Hs. destruct (info_run s i Hp Hi Hs) as (R1 & R2 & _). unfold lapic_startaps.
  wp_step. eapply post_run; [exact R1 |]. rewrite (proj2 (Z.eqb_neq _ _)) by lia.
  wp_step. eapply post_run; [exact R2 |]. wp_step. eapply post_run; [reflexivity |]. wp_step. apply post_gets.
  replace (byte_at _ _) with 0 by (symmetry; apply Hs). cbn [Z.eqb negb].
  wp_step. eapply post_run; [reflexivity |]. wp_step. eapply post_run; [reflexivity |].
  wp_step. eapply post_run; [apply poke_b_run |]. wp_step. eapply post_run; [apply poke_b_run |]. wp_step. eapply post_run; [apply poke_b_run |].
  match goal with |- post _ _ ?t _ => set (s1 := t) end.
  wp_step. eapply post_mono; [apply ipi_init_spec |]. intros r s2 _ [-> H2]. cbn [Z.ltb Z.compare].
  wp_step. eapply post_mono; [apply delay_spec; lia |]. intros [] s3 _ H3. apply (ran_app _ _ _ _ _ H2) in H3.
  wp_step. eapply post_mono; [apply send_startup_spec |]. intros [] s4 _ H4. apply (ran_app _ _ _ _ _ H3) in H4.
  eapply post_mono; [apply send_startup_spec |]. intros [] s5 _ H5. apply (ran_app _ _ _ _ _ H4) in H5.
  split; [rewrite (proj1 H5); reflexivity |]. rewrite (ran_log _ _ _ H5). rewrite w32_small by lia.
  unfold startup_sequence. rewrite <-!app_assoc. f_equal. cbn [st_log set_st_log set_st_boot s1]. unfold effects. rewrite !bind_app. by rewrite !app_nil_r.
Qed.

Lemma start_cpu_spec s i :
  cpuinfo_pool (b_ct (st_boot s)) = cpuinfo_pool (b_ct b0) -> 0 <= i < MAX_CPUS -> startable (st_boot s) i ->
  wp (start_cpu answer rounds i) s (fun _ s' =>
    st_boot s' = poked (vector_set (b_mem (st_boot s)) (cpuinfo_pool (b_ct b0) + i * _4KB_)) (st_boot s) /\
    effects (st_log s') = effects (st_log s) ++ startup_sequence i).
Proof.
  intros Hp Hi Hs. destruct (info_run s i Hp Hi Hs) as (_ & _ & R3). unfold start_cpu. wp_step. eapply post_run; [exact R3 |].
  wp_step. eapply post_run; [reflexivity |]. cbv beta.
  match goal with |- post _ _ ?t _ => replace t with s by (by destruct s as [[] ?]) end.
  replace (lapic_id _) with i by (symmetry; apply Hs). wp_step. eapply post_mono; [by apply startaps_spec |]. intros [] s1 _ [Hb He].
  destruct (cpu_comes_up _ _ _ He) as (k & Hk & Hr).
  eapply post_mono; [apply (wait_spec (READY i) (fun v => negb (w8 v =? 0)) _ ltac:(reflexivity) rounds k); [done |] |].
  - apply negb_true_iff. by apply Z.eqb_neq.
  - intros [] s2 _ H2. split; [by rewrite (proj1 H2) |]. by rewrite (ran_log _ _ _ H2), app_nil_r.
Qed.
End Boot.

Definition areas_only (b b' : boot_state) : Prop :=
  exists m, b' = poked m b /\ same_on (fun x => ~ startup_area x) m (b_mem b).


(** [lapic_send_ipi] waits until the last interrupt was delivered and sends
    the vector to exactly the given core. *)
Theorem lapic_send_ipi_correct vector cpuid s :
  (exists k, (k <= rounds)%nat /\ icr_idle (st_log s ++ replicate k (READ (LR LAPIC_ICRLO)))) ->
  wp (lapic_send_ipi answer rounds vector cpuid) s
    (fun _ s' => ran [Sent LAPIC_ICRHI (w32 (cpuid * 2 ^ 24)); Sent LAPIC_ICRLO (w32 vector)] s s').
Proof.
  intros (k & Hk & Hi). unfold lapic_send_ipi. wp_step.
  eapply post_mono; [apply (wait_spec (LR LAPIC_ICRLO) (fun v => negb (Z.testbit v 12))) with (k := k); [|done |] |].
  - intros s1. by erewrite bind_step by apply icr_busy_run.
  - unfold icr_idle in Hi. by rewrite Hi.
  - intros [] s1 _ H. run_step lapic_write_spec H. run_last lapic_write_spec H. exact H.
Qed.

(** ** Frequencies *)

Lemma start_10msec_spec s : wp (start_10msec answer) s (fun _ s' => ran [] s s').
Proof.
  unfold start_10msec. pose proof (ran_nil s) as H. run_step inb_spec H. do 3 run_step outb_spec H. run_step inb_spec H. run_step outb_spec H.
  run_step inb_spec H. run_step outb_spec H. run_last outb_spec H. exact H.
Qed.

(** [get_bus_freq] returns 1600 times the number of counts of the local timer,
    started with 0xFFFFFFFF, when the ten milliseconds are over; the product is
    exact up to a frequency of 2^32 Hz. *)
Theorem get_bus_freq_correct s :
  exists s' log, get_bus_freq answer rounds s = Ok (w32 ((2 ^ 32 - w32 (answer log (LR LAPIC_CCR_TIMER))) * 1600)) s' /\
    st_log s' = log ++ [READ (LR LAPIC_CCR_TIMER)] /\ st_boot s' = st_boot s /\
    exists l, effects log = l ++ [Sent LAPIC_ICR_TIMER 0xFFFFFFFF; Sent LAPIC_LVTT LAPIC_LVT_MASKED].
Proof.
  assert (Hw : wp (get_bus_freq answer rounds) s (fun r s' => exists log, r = w32 ((2 ^ 32 - w32 (answer log (LR LAPIC_CCR_TIMER))) * 1600) /\
    st_log s' = log ++ [READ (LR LAPIC_CCR_TIMER)] /\ st_boot s' = st_boot s /\
    exists l, effects log = l ++ [Sent LAPIC_ICR_TIMER 0xFFFFFFFF; Sent LAPIC_LVTT LAPIC_LVT_MASKED])).
  2:{ destruct (wp_elim _ _ _ Hw) as (r & s' & Hrun & log & -> & H). by exists s', log. }
  unfold get_bus_freq. pose proof (ran_nil s) as H. run_step lapic_write_spec H. run_step lapic_read_spec H. do 9 run_step lapic_write_spec H.
  run_step start_10msec_spec H. match type of H with ran ?l _ _ => set (l0 := l) in H; clearbody l0 end.
  run_step lapic_write_spec H. run_step timer_wait_spec H. run_step lapic_write_spec H.
  wp_step. eapply post_run; [reflexivity |]. wp_step. eexists. split; [|split; [reflexivity |]].
  - f_equal. lia.
  - split; [exact (proj1 H) |]. rewrite (ran_log _ _ _ H). exists (effects (st_log s) ++ l0). rewrite app_nil_r, <-!app_assoc. reflexivity.
Qed.
End Platform.
