(* ===== verification/Stage1.v ===== *)
(** * The first boot stage (boot/stage1)

    The 32-bit program Grub starts: it checks the processor, finds its modules
    in the multiboot information, puts the second stage where it is linked to
    run and calls it.  Addresses and sizes are 32 bits wide here.  The
    processor's identification is a function of the state. *)

From S2P Require Import Prelude PhysMem MemMgr CpuInfo Pm PmProc Boot.

(** ** State *)

Record cpuid_regs := CpuidRegs { ci_eax : Z; ci_ebx : Z; ci_ecx : Z; ci_edx : Z }.

Record stage1 := Stage1 {
  t_mem : memory;
  t_xpos : Z;                    (* [xpos], *)
  t_ypos : Z;                    (* [ypos] of screen.c *)
  t_cr0 : Z;
  t_cr4 : Z;
  t_cpuid : Z -> cpuid_regs
}.
Definition set_t_mem (v : memory) (s : stage1) : stage1 := Stage1 v (t_xpos s) (t_ypos s) (t_cr0 s) (t_cr4 s) (t_cpuid s).
Definition set_t_pos (x y : Z) (s : stage1) : stage1 := Stage1 (t_mem s) x y (t_cr0 s) (t_cr4 s) (t_cpuid s).
Definition set_t_cr (cr0 cr4 : Z) (s : stage1) : stage1 := Stage1 (t_mem s) (t_xpos s) (t_ypos s) cr0 cr4 (t_cpuid s).

Definition poke_t (f : memory -> memory) : M stage1 unit := modify (fun s => set_t_mem (f (t_mem s)) s).

(** ** Screen (screen.c) *)

Abbreviation COLUMNS := 80.
Abbreviation LINES := 24.
Abbreviation ATTRIBUTE := 7.
Abbreviation VIDEO := 0xB8000.

Definition put_video (i v : Z) : M stage1 unit := poke_t (fun m => <[VIDEO + i := w8 v]> m).

Definition clrscr : M stage1 unit :=
  forM (seqZ 0 (COLUMNS * LINES)) (fun k =>
    put_video (2 * k) 0 ;;
    put_video (2 * k + 1) 0xF) ;;
  modify (set_t_pos 0 0).

Definition newline : M stage1 unit :=
  s ← get;
  modify (set_t_pos 0 (if LINES <=? t_ypos s + 1 then 0 else t_ypos s + 1)).

Definition putchar (c : Z) : M stage1 unit :=
  if (c =? 10) || (c =? 13) then newline else
  s ← get;
  put_video ((t_xpos s + t_ypos s * COLUMNS) * 2) (Z.land c 0xFF) ;;
  put_video ((t_xpos s + t_ypos s * COLUMNS) * 2 + 1) ATTRIBUTE ;;
  modify (set_t_pos (t_xpos s + 1) (t_ypos s)) ;;
  if COLUMNS <=? t_xpos s + 1 then newline else mret tt.

(** ** Formatted output (bootio.c) *)

(** [do { *p++ = digit; } while (ud /= divisor);], into the room the buffer
    has. *)
Fixpoint itoa_loop (room : nat) (ud divisor : Z) : option (list Z) :=
  match room with
  | O => None
  | S room' =>
      let remainder := ud mod divisor in
      let c := if remainder <? 10 then remainder + 48 else remainder + 97 - 10 in
      if ud / divisor =? 0 then Some [c] else cons c <$> itoa_loop room' (ud / divisor) divisor
  end.

(** [while (p1 < p2)]: exchange the characters at both ends. *)
Fixpoint reverse_loop (n : nat) (buf : list Z) (p1 p2 : nat) : list Z :=
  match n with
  | O => buf
  | S n' =>
      if decide (p1 < p2)%nat
      then reverse_loop n' (<[p2 := buf !!! p1]> (<[p1 := buf !!! p2]> buf)) (S p1) (p2 - 1)
      else buf
  end.

(** [char buf[20]]: terminator and sign take a place each.  [-d] overflows for
    the smallest [int]. *)
Definition itoa (base d : Z) : option (list Z) :=
  let minus := (base =? 100) && (d <? 0) in
  if minus && (d =? - 2 ^ 31) then None else
  let ud := if (minus : bool) then - d else w32 d in
  let divisor := if base =? 120 then 16 else 10 in
  digits ← itoa_loop (if minus then 18 else 19) ud divisor;
  Some ((if minus then [45] else []) ++ reverse_loop (length digits) digits 0 (length digits - 1)).

(** Arguments: an [int], or a string ([None] is the null pointer). *)
Inductive print_arg := PInt (d : Z) | PStr (s : option (list Z)).

Definition null_text : list Z := [40; 110; 117; 108; 108; 41].

Fixpoint printf1 (format : list Z) (ap : list print_arg) : M stage1 unit :=
  match format with
  | [] => mret tt
  | c :: format =>
      if negb (c =? 37) then putchar c ;; printf1 format ap else
      match format, ap with
      | [], _ => stop_with (Fault "format")
      | _, [] => stop_with (Fault "va_arg")
      | c :: format, a :: ap =>
          (if (c =? 100) || (c =? 117) || (c =? 120) then
             match a with
             | PInt d => buf ← of_option (Fault "itoa") (itoa c (s32 d)); forM buf putchar
             | PStr _ => stop_with (Fault "va_arg")
             end
           else if c =? 115 then
             match a with
             | PStr s => forM (default null_text s) putchar
             | PInt _ => stop_with (Fault "va_arg")
             end
           else match a with
                | PInt d => putchar (s32 d)
                | PStr _ => stop_with (Fault "va_arg")
                end) ;;
          printf1 format ap
      end
  end.

(** The characters of a literal. *)
Definition chars (s : string) : list Z := (fun a => Z.of_N (Ascii.N_of_ascii a)) <$> String.list_ascii_of_string s.
Definition print (s : string) : M stage1 unit := printf1 (chars s) [].
(** [printf (...); halt ();] *)
Definition refuse {A} (s : string) : M stage1 A := print s ;; stop_with Halt.

(** ** Copying (string.c)

    The loops of [bcopy] and [memset] count in an [int]. *)
Definition bcopy (src dst count : Z) : M stage1 unit :=
  if 2 ^ 31 <=? count then stop_with (Fault "int overflow") else poke_t (fun m => memcpy m dst src count).
Definition memset1 (ptr c n : Z) : M stage1 unit :=
  if 2 ^ 31 <=? n then stop_with (Fault "int overflow") else poke_t (fun m => memset m ptr c n).

(** ** The processor (cpu_check.h) *)

Definition cpu_has_longmode (s : stage1) : bool :=
  (0x8000000 <? ci_eax (t_cpuid s 0x80000000)) && Z.testbit (ci_edx (t_cpuid s 0x80000001)) 29.

(** The error message, if there is one. *)
Definition cpu_has_x87_and_media_support (s : stage1) : option string :=
  let ecx := ci_ecx (t_cpuid s 1) in
  let edx := ci_edx (t_cpuid s 1) in
  if negb (Z.testbit edx 0) then Some "ERROR: Your CPU does not support x87!"%string else
  if negb (Z.testbit edx 25) then Some "ERROR: Your CPU does not support SSE!"%string else
  if negb (Z.testbit edx 26) then Some "ERROR: Your CPU does not support SSE2!"%string else
  if negb (Z.testbit ecx 0) then Some "ERROR: Your CPU does not support SSE3!"%string else
  if negb (Z.testbit ecx 9) then Some "ERROR: Your CPU does not support SSSE3!"%string else
  if negb (Z.testbit ecx 19) then Some "ERROR: Your CPU does not support SSE4.1!"%string else
  if negb (Z.testbit ecx 20) then Some "ERROR: Your CPU does not support SSE4.2!"%string else
  if negb (Z.testbit edx 23) then Some "ERROR: Your CPU does not support MMX!"%string else
  if negb (Z.testbit edx 24) then Some "ERROR: Your CPU does not support fxsave/fxstore!"%string else
  None.

Definition enable_x87_and_media : M stage1 unit :=
  modify (fun s => set_t_cr (t_cr0 s) (Z.lor (t_cr4 s) (2 ^ 9)) s) ;;
  modify (fun s => set_t_cr (Z.ldiff (t_cr0 s) (2 ^ 2)) (t_cr4 s) s) ;;
  modify (fun s => set_t_cr (Z.lor (t_cr0 s) (2 ^ 1)) (t_cr4 s) s).

Definition cpu_has_1GBpage (s : stage1) : bool := Z.testbit (ci_edx (t_cpuid s 0x80000001)) 26.
Definition cpu_has_vmx (s : stage1) : bool := Z.testbit (ci_ecx (t_cpuid s 1)) 5.
Definition cpu_has_msr (s : stage1) : bool := Z.testbit (ci_edx (t_cpuid s 1)) 5.
Definition cpu_has_physical_address_extention (s : stage1) : bool := Z.testbit (ci_edx (t_cpuid s 1)) 6.
Definition cpu_has_monitor_mwait (s : stage1) : bool := Z.testbit (ci_ecx (t_cpuid s 1)) 3.
Definition cpu_has_rdtscp (s : stage1) : bool := Z.testbit (ci_edx (t_cpuid s 0x80000001)) 27.

Definition cpu_cache_disable (s : stage1) : bool := Z.testbit (t_cr0 s) 30.
Definition cpu_enable_cache : M stage1 unit :=
  modify (fun s => set_t_cr (Z.ldiff (Z.ldiff (t_cr0 s) (2 ^ 29)) (2 ^ 30)) (t_cr4 s) s).

(** ** The loader (loader.c) *)

Definition check_cpu_features : M stage1 unit :=
  s ← get;
  if negb (cpu_has_longmode s) then refuse "ERROR: Your system does not supporting longmode!" else
  match cpu_has_x87_and_media_support s with
  | Some result => printf1 (chars "%s") [PStr (Some (chars result))] ;; stop_with Halt
  | None =>
      if negb (cpu_has_msr s) then refuse "ERROR: Your cpu does not support MSR!" else
      if negb (cpu_has_vmx s) then refuse "ERROR: Your cpu does not support VMX!" else
      if negb (cpu_has_physical_address_extention s) then refuse "ERROR: Your cpu does not support physical address extention!" else
      if negb (cpu_has_monitor_mwait s) then refuse "ERROR: monitor/mwait instructions are not supported!" else
      if negb (cpu_has_rdtscp s) then refuse "ERROR: your cpu does not support rdtscp instruction" else
      mret tt
  end.

(** The sections with contents; the result is the header behind them. *)
Fixpoint load_stage2_sections (l : list Z) (elf s : Z) : M stage1 Z :=
  match l with
  | [] => mret s
  | _ :: rest =>
      m ← gets t_mem;
      let section_src_addr := w32 (elf + p_offset m s) in
      let section_dst_addr := w32 (p_vaddr m s) in
      let section_size := w32 (p_memsz m s) in
      when (0 <? section_size) (bcopy section_src_addr section_dst_addr section_size) ;;
      load_stage2_sections rest elf (s + PHDR_SIZE)
  end.

(** Entry point and end of the second stage. *)
Definition load_stage2 (stage2_elf_addr : Z) : M stage1 (Z * Z) :=
  m ← gets t_mem;
  let s := w32 (stage2_elf_addr + e_phoff m stage2_elf_addr) in
  let ph_num := e_phnum m stage2_elf_addr in
  if negb (ph_num =? 4) then print "Unexpected stage2 Header!" ;; putchar 10 ;; stop_with Halt else
  let stage2 := w32 (p_vaddr m s) in
  s ← load_stage2_sections [0; 1; 2] stage2_elf_addr s;
  m ← gets t_mem;
  memset1 (w32 (p_vaddr m s)) 0 (w32 (p_memsz m s)) ;;
  m ← gets t_mem;
  mret (stage2, w32 (p_vaddr m s + p_memsz m s)).

(** [multiboot_info_t] and [multiboot_module_t] *)
Definition mb_flags (m : memory) (a : Z) : Z := load32 m a.
Definition mem_upper (m : memory) (a : Z) : Z := load32 m (a + 8).
Definition mods_count (m : memory) (a : Z) : Z := load32 m (a + 20).
Definition mods_addr (m : memory) (a : Z) : Z := load32 m (a + 24).
Abbreviation MODULE_SIZE := 16.
Definition mod_start (m : memory) (a : Z) : Z := load32 m a.
Definition mod_end (m : memory) (a : Z) : Z := load32 m (a + 4).

Abbreviation NUMBER_MODULES := 7.
Abbreviation BOOT_APS_BASE_ADDR := 0x9F000.
Abbreviation BOOT_APS_LENGTH := 512.

(** One module: its start; the message ends in a line feed. *)
Definition take_module (what : string) (mod_ : Z) : M stage1 Z :=
  m ← gets t_mem;
  let start := mod_start m mod_ in
  if 0x200000 <? mod_end m mod_ then print what ;; putchar 10 ;; stop_with Halt else mret start.

Definition overlap_vmm : string := "ERROR: loaded module overlaps with VMM start address".

(** The modules in their order; the code that starts the other processors is
    copied to its place on the way. *)
Record modules := Modules { md_stage2 : Z; md_vmm : Z; md_pm : Z; md_fs : Z; md_init : Z; md_initrd : Z }.
Definition take_modules (mod_ : Z) : M stage1 modules :=
  boot_stage2_elf_addr ← take_module "ERROR: loaded module overlaps with stage2 start address" mod_;
  boot_aps_bin_addr ← take_module overlap_vmm (mod_ + MODULE_SIZE);
  poke_t (fun m => memcpy m BOOT_APS_BASE_ADDR boot_aps_bin_addr BOOT_APS_LENGTH) ;;
  vmm ← take_module overlap_vmm (mod_ + MODULE_SIZE * 2);
  pm ← take_module overlap_vmm (mod_ + MODULE_SIZE * 3);
  fs ← take_module overlap_vmm (mod_ + MODULE_SIZE * 4);
  init ← take_module overlap_vmm (mod_ + MODULE_SIZE * 5);
  initrd ← take_module overlap_vmm (mod_ + MODULE_SIZE * 6);
  mret (Modules boot_stage2_elf_addr vmm pm fs init initrd).

(** The entry point of the second stage and the arguments it is called with;
    the field for the page tables stays zero. *)
Definition boot_loader (addr : Z) : M stage1 (Z * boot_args) :=
  clrscr ;;
  s ← get;
  when (cpu_cache_disable s)
    (cpu_enable_cache ;;
     s ← get;
     if cpu_cache_disable s then refuse "Cache is still disabled!" else mret tt) ;;
  check_cpu_features ;;
  s ← get;
  let support_1GB_page := cpu_has_1GBpage s in
  enable_x87_and_media ;;
  m ← gets t_mem;
  if negb (Z.testbit (mb_flags m addr) 0) then print "ERROR: Size of memory is not known!" ;; putchar 10 ;; stop_with Halt else
  let memory_size := w32 (mem_upper m addr + 1) in
  if negb (Z.testbit (mb_flags m addr) 3) then print "ERROR: stage2 is not loaded as multiboot!" ;; putchar 10 ;; stop_with Halt else
  if negb (mods_count m addr =? NUMBER_MODULES) then
    printf1 (chars "ERROR: Grub failed to load all needed modules. %d modules loaded, but 3 were needed!" ++ [10]) [PInt (mods_count m addr)] ;;
    stop_with Halt else
  mods ← take_modules (mods_addr m addr);
  stage2 ← load_stage2 (md_stage2 mods);
  mret (stage2.1, BootArgs (md_pm mods) (md_fs mods) (md_init mods) (md_vmm mods) (md_initrd mods) stage2.2 memory_size
    (if support_1GB_page then 1 else 0) 0).
