(* ===== verification/Stage1Spec.v ===== *)
(** * Correctness of the first boot stage

    Output stays on the screen, numbers are printed as the digits of their
    value, and the loader hands over exactly when processor and modules are
    as they should be, with the second stage in place. *)

From S2P Require Import Prelude PhysMem MemMgr MemMgrSpec Paging BootMem BootMemSpec CpuInfo Ipc Pm PmProc.
From S2P Require Import Boot BootSpec BootEpt BootElf Stage1.

(** ** The screen *)

Abbreviation SCREEN_SIZE := 3840.
Definition video (a : Z) : Prop := VIDEO <= a < VIDEO + SCREEN_SIZE.

Definition on_screen (s : stage1) : Prop := 0 <= t_xpos s < COLUMNS /\ 0 <= t_ypos s < LINES.

(** Nothing but the screen and the cursor changes. *)
Record screen_only (s s' : stage1) : Prop := {
  so_cr0 : t_cr0 s' = t_cr0 s;
  so_cr4 : t_cr4 s' = t_cr4 s;
  so_cpuid : t_cpuid s' = t_cpuid s;
  so_mem : same_on (fun a => ~ video a) (t_mem s) (t_mem s');
  so_pos : on_screen s'
}.

Lemma screen_only_trans s1 s2 s3 : screen_only s1 s2 -> screen_only s2 s3 -> screen_only s1 s3.
Proof.
  intros [A1 A2 A3 A4 A5] [B1 B2 B3 B4 B5]. split; [congruence.. | | done].
  intros a Ha. by rewrite A4, B4.
Qed.

Lemma screen_only_refl s : on_screen s -> screen_only s s.
Proof. by split. Qed.

Lemma newline_run s : on_screen s -> exists s', newline s = Ok tt s' /\ screen_only s s'.
Proof.
  intros [Hx Hy]. eexists. split; [reflexivity |]. split; try done. split; cbn; [lia |].
  destruct (Z.leb_spec LINES (t_ypos s + 1)); lia.
Qed.

Lemma put_video_frame i v m : 0 <= i < SCREEN_SIZE -> same_on (fun a => ~ video a) m (<[VIDEO + i := w8 v]> m).
Proof. intros Hi a Ha. unfold video in Ha. by rewrite byte_at_insert, decide_False by lia. Qed.

Lemma putchar_run c s : on_screen s -> exists s', putchar c s = Ok tt s' /\ screen_only s s'.
Proof.
  intros [Hx Hy]. unfold putchar. destruct ((c =? 10) || (c =? 13)); [by apply newline_run |].
  assert (Hmem : same_on (fun a => ~ video a) (t_mem s)
    (<[VIDEO + ((t_xpos s + t_ypos s * COLUMNS) * 2 + 1) := w8 ATTRIBUTE]>
      (<[VIDEO + ((t_xpos s + t_ypos s * COLUMNS) * 2) := w8 (Z.land c 0xFF)]> (t_mem s)))).
  { intros a Ha. assert (Hi : 0 <= (t_xpos s + t_ypos s * COLUMNS) * 2 < SCREEN_SIZE - 1) by lia.
    rewrite (put_video_frame ((t_xpos s + t_ypos s * COLUMNS) * 2) (Z.land c 0xFF) (t_mem s) ltac:(lia) a Ha).
    apply put_video_frame; [lia | done]. }
  do 4 (erewrite bind_step by reflexivity). destruct (Z.leb_spec COLUMNS (t_xpos s + 1)).
  - eexists. split; [reflexivity |]. split; try done. split; cbn; [lia |]. destruct (Z.leb_spec LINES (t_ypos s + 1)); lia.
  - eexists. split; [reflexivity |]. split; try done. split; cbn; lia.
Qed.

Lemma putchars_run l s : on_screen s -> exists s', forM l putchar s = Ok tt s' /\ screen_only s s'.
Proof.
  revert s. induction l as [|c l IH]; intros s Hs; [exists s; split; [done | by apply screen_only_refl] |].
  cbn [forM]. destruct (putchar_run c s Hs) as (s1 & E1 & H1). erewrite bind_step by exact E1.
  destruct (IH s1 (so_pos _ _ H1)) as (s2 & E2 & H2). exists s2. split; [done |]. by eapply screen_only_trans.
Qed.

(** Clearing puts the cursor at the top. *)
Lemma clrscr_run s : exists s', clrscr s = Ok tt s' /\ screen_only s s' /\
  (forall i, 0 <= i < SCREEN_SIZE -> byte_at (t_mem s') (VIDEO + i) = if Z.even i then 0 else 0xF).
Proof.
  destruct (wp_elim clrscr s (fun _ s' => screen_only s s' /\
    (forall i, 0 <= i < SCREEN_SIZE -> byte_at (t_mem s') (VIDEO + i) = if Z.even i then 0 else 0xF))) as ([] & s' & H); [|by exists s'].
  unfold clrscr. wp_step.
  eapply post_mono; [apply (post_forM _ (fun l s' => exists k, l = seqZ k (COLUMNS * LINES - k) /\ 0 <= k <= COLUMNS * LINES /\
    t_cr0 s' = t_cr0 s /\ t_cr4 s' = t_cr4 s /\ t_cpuid s' = t_cpuid s /\ same_on (fun a => ~ video a) (t_mem s) (t_mem s') /\
    forall i, 0 <= i < 2 * k -> byte_at (t_mem s') (VIDEO + i) = if Z.even i then 0 else 0xF)) |].
  - exists 0. split_and!; try done; lia.
  - intros k0 l' s' (k & Hl & Hk & H1 & H2 & H3 & Hm & Hv).
    assert (Hlt : k < COLUMNS * LINES) by (destruct (Z.lt_ge_cases k (COLUMNS * LINES)); [done |]; rewrite seqZ_nil in Hl by lia; done).
    rewrite seqZ_cons in Hl by lia. injection Hl as -> ->. unfold put_video, poke_t. do 2 wp_step. exists (k + 1).
    split_and!; [f_equal; lia | lia | lia | done | done | done | |]; cbn [t_mem set_t_mem].
    + intros a Ha. unfold video in Ha. rewrite !byte_at_insert, !decide_False by lia. by apply Hm.
    + intros i Hi. rewrite !byte_at_insert. repeat case_decide.
      * replace i with (2 * k + 1) by lia. by rewrite Z.even_add, Z.even_mul.
      * replace i with (2 * k) by lia. by rewrite Z.even_mul.
      * apply Hv. lia.
  - intros [] s' _ (k & Hl & Hk & H1 & H2 & H3 & Hm & Hv). wp_step.
    assert (k = COLUMNS * LINES) as ->.
    { destruct (Z.lt_ge_cases k (COLUMNS * LINES)); [|lia]. rewrite seqZ_cons in Hl by lia. done. }
    split; [split; try done; split; cbn; lia |]. intros i Hi. apply Hv. lia.
Qed.

(** A text without conversions is printed, and nothing else happens. *)
Definition plain (l : list Z) : bool := forallb (fun c => negb (c =? 37)) l.

Lemma printf_plain l s : plain l = true -> on_screen s -> exists s', printf1 l [] s = Ok tt s' /\ screen_only s s'.
Proof.
  intros Hl Hs. destruct (putchars_run l s Hs) as (s' & E & H). exists s'. split; [|done]. rewrite <-E. clear E H Hs. revert s.
  induction l as [|c l IH]; intros s; [done |]. cbn [plain forallb] in Hl. apply andb_true_iff in Hl as [Hc Hl].
  cbn [printf1 forM]. rewrite Hc. unfold mbind, M_bind. destruct (putchar c s); [|done]. by apply IH.
Qed.

Lemma refuse_run {A} msg s : plain (chars msg) = true -> on_screen s -> (refuse msg : M stage1 A) s = Stop Halt.
Proof. intros Hp Hs. destruct (printf_plain _ s Hp Hs) as (s' & E & _). unfold refuse, print. by erewrite bind_step by exact E. Qed.

Lemma refuse_line_run {A} msg s :
  plain (chars msg) = true -> on_screen s -> (print msg ;; putchar 10 ;; stop_with Halt : M stage1 A) s = Stop Halt.
Proof.
  intros Hp Hs. destruct (printf_plain _ s Hp Hs) as (s1 & E1 & H1). unfold print. erewrite bind_step by exact E1.
  destruct (putchar_run 10 s1 (so_pos _ _ H1)) as (s2 & E2 & _). by erewrite bind_step by exact E2.
Qed.

(** ** Numbers *)

Lemma swap_ends (a mid b : list Z) x y :
  let l := a ++ x :: mid ++ y :: b in
  let p2 := (length a + S (length mid))%nat in
  l !!! length a = x /\ l !!! p2 = y /\ <[p2 := x]> (<[length a := y]> l) = a ++ y :: mid ++ x :: b.
Proof.
  intros l p2. unfold l, p2. split_and!.
  - apply list_lookup_total_correct. rewrite lookup_app_r by lia. by rewrite Nat.sub_diag.
  - apply list_lookup_total_correct. rewrite lookup_app_r by lia. replace (length a + S (length mid) - length a)%nat with (S (length mid)) by lia.
    rewrite lookup_cons_ne_0 by lia. cbn [Nat.pred]. rewrite lookup_app_r by lia. by rewrite Nat.sub_diag.
  - rewrite <-(Nat.add_0_r (length a)) at 2. rewrite !insert_app_r. f_equal.
    change (<[S (length mid) := x]> (<[0%nat := y]> (x :: mid ++ y :: b))) with (y :: <[length mid := x]> (mid ++ y :: b)).
    f_equal. rewrite <-(Nat.add_0_r (length mid)). by rewrite insert_app_r.
Qed.

(** Exchanging from both ends reverses. *)
Lemma reverse_loop_spec n mid a b :
  (length mid <= n)%nat ->
  reverse_loop n (a ++ mid ++ b) (length a) (length a + length mid - 1) = a ++ reverse mid ++ b.
Proof.
  revert mid a b. induction n as [|n IH]; intros mid a b Hn; [by destruct mid; [|simpl in Hn; lia] |].
  cbn [reverse_loop]. destruct mid as [|x mid]; [by rewrite decide_False by (simpl; lia) |].
  destruct mid as [|y mid _] using rev_ind; [by rewrite decide_False by (simpl; lia) |].
  rewrite decide_True by (simpl; rewrite length_app; simpl; lia).
  assert (Hlen : length (x :: mid ++ [y]) = (length mid + 2)%nat) by (simpl; rewrite length_app; simpl; lia). rewrite Hlen in *.
  replace (length a + (length mid + 2) - 1)%nat with (length a + S (length mid))%nat by lia.
  replace (a ++ (x :: mid ++ [y]) ++ b) with (a ++ x :: mid ++ y :: b) by (simpl; by rewrite <-app_assoc).
  destruct (swap_ends a mid b x y) as (-> & -> & ->).
  specialize (IH mid (a ++ [y]) (x :: b) ltac:(lia)). rewrite length_app in IH. cbn [length] in IH.
  replace (S (length a)) with (length a + 1)%nat by lia.
  replace (length a + S (length mid) - 1)%nat with (length a + 1 + length mid - 1)%nat by lia.
  rewrite <-!app_assoc in IH. cbn [app] in IH. rewrite IH. rewrite reverse_cons, reverse_app, <-!app_assoc. done.
Qed.

Lemma reverse_loop_reverse l : reverse_loop (length l) l 0 (length l - 1) = reverse l.
Proof. pose proof (reverse_loop_spec (length l) l [] [] ltac:(lia)) as H. rewrite !app_nil_r in H. exact H. Qed.

(** What a printed digit and a printed number stand for. *)
Definition digit_value (c : Z) : Z := if c <? 97 then c - 48 else c - 87.
Definition number_value (base : Z) (l : list Z) : Z := foldl (fun acc c => acc * base + digit_value c) 0 l.
Definition is_digit (base c : Z) : Prop := 48 <= c < 48 + base /\ c < 58 \/ 97 <= c < 97 + base - 10.

Lemma itoa_loop_spec room ud base :
  2 <= base <= 16 -> 0 <= ud < base ^ Z.of_nat room -> (0 < room)%nat ->
  exists l, itoa_loop room ud base = Some l /\ number_value base (reverse l) = ud /\ Forall (is_digit base) l /\
    (0 < length l <= room)%nat.
Proof.
  intros Hb. revert ud. induction room as [|room IH]; intros ud Hud Hr; [lia |]. cbn [itoa_loop].
  pose proof (Z.mod_pos_bound ud base ltac:(lia)) as Hmod. pose proof (Z.div_mod ud base ltac:(lia)) as Hdm.
  set (c := if ud mod base <? 10 then ud mod base + 48 else ud mod base + 97 - 10).
  assert (Hc : digit_value c = ud mod base /\ is_digit base c).
  { unfold c, digit_value, is_digit. destruct (Z.ltb_spec (ud mod base) 10).
    - destruct (Z.ltb_spec (ud mod base + 48) 97); lia.
    - destruct (Z.ltb_spec (ud mod base + 97 - 10) 97); lia. }
  destruct Hc as [Hv Hd]. destruct (Z.eqb_spec (ud / base) 0) as [E|E].
  - exists [c]. split_and!; [done | | by constructor | simpl; lia | simpl; lia]. unfold number_value. cbn. rewrite Hv. lia.
  - assert (0 <= ud / base) by (apply Z.div_pos; lia).
    rewrite Nat2Z.inj_succ, Z.pow_succ_r in Hud by lia.
    assert (Hq : ud / base < base ^ Z.of_nat room) by (apply Z.div_lt_upper_bound; lia).
    destruct (IH (ud / base)) as (l & -> & Hl & Hf & Hlen); [lia | |].
    { destruct room; [simpl in Hq; lia | lia]. }
    exists (c :: l). split_and!; [done | | by constructor | simpl; lia | simpl; lia].
    unfold number_value in *. rewrite reverse_cons, foldl_app, Hl. cbn. rewrite Hv. lia.
Qed.

(** The printed text of an [int] is its sign and digits: in base 10 for [%d]
    (negative numbers with a sign) and [%u], in base 16 for [%x]; it fits the
    buffer. *)
Theorem itoa_correct base d :
  (base = 100 \/ base = 117 \/ base = 120) -> - 2 ^ 31 < d < 2 ^ 31 ->
  exists sign digits, itoa base d = Some (sign ++ digits) /\ (length (sign ++ digits) <= 19)%nat /\
    Forall (is_digit (if base =? 120 then 16 else 10)) digits /\
    sign = (if (base =? 100) && (d <? 0) then [45] else []) /\
    number_value (if base =? 120 then 16 else 10) digits = (if base =? 100 then Z.abs d else w32 d).
Proof.
  intros Hb Hd. unfold itoa. set (b := if base =? 120 then 16 else 10).
  assert (Hb16 : 10 <= b <= 16) by (unfold b; destruct (base =? 120); lia).
  assert (Hroom : forall n : nat, (18 <= n)%nat -> 2 ^ 32 <= b ^ Z.of_nat n).
  { intros n Hn. transitivity (10 ^ 18); [done |]. transitivity (10 ^ Z.of_nat n); [apply Z.pow_le_mono_r | apply Z.pow_le_mono_l]; lia. }
  pose proof (Z.mod_pos_bound d (2 ^ 32) ltac:(lia)) as Hw. fold (w32 d) in Hw.
  pose proof (Hroom 18%nat ltac:(lia)) as R18. pose proof (Hroom 19%nat ltac:(lia)) as R19.
  destruct ((base =? 100) && (d <? 0)) eqn:Em; cbn [andb].
  - apply andb_true_iff in Em as [Em Hneg]. apply Z.ltb_lt in Hneg. destruct (Z.eqb_spec d (- 2 ^ 31)); [lia |].
    destruct (itoa_loop_spec 18 (- d) b) as (l & -> & Hv & Hf & Hl); [lia | lia | lia |].
    exists [45], (reverse l). cbn [mbind option_bind]. rewrite reverse_loop_reverse. rewrite Em.
    split_and!; [done | rewrite length_app, length_reverse; simpl; lia | by apply Forall_reverse | done | lia].
  - destruct (itoa_loop_spec 19 (w32 d) b) as (l & -> & Hv & Hf & Hl); [lia | lia | lia |].
    exists [], (reverse l). cbn [mbind option_bind]. rewrite reverse_loop_reverse.
    split_and!; [done | simpl; rewrite length_reverse; lia | by apply Forall_reverse | done |]. rewrite Hv.
    destruct (base =? 100); [|done]. cbn in Em. apply Z.ltb_ge in Em. rewrite Z.abs_eq by lia. apply w32_small. lia.
Qed.

(** The arguments are what the format asks for. *)
Fixpoint fits (format : list Z) (ap : list print_arg) : bool :=
  match format with
  | [] => true
  | c :: format =>
      if negb (c =? 37) then fits format ap else
      match format, ap with
      | c :: format, a :: ap =>
          match a with PInt d => negb (c =? 115) && negb ((c =? 100) && (s32 d =? - 2 ^ 31)) | PStr _ => c =? 115 end && fits format ap
      | _, _ => false
      end
  end.

Lemma itoa_text base d :
  (base = 100 \/ base = 117 \/ base = 120) -> negb ((base =? 100) && (d =? - 2 ^ 31)) = true -> - 2 ^ 31 <= d < 2 ^ 31 ->
  exists text, itoa base d = Some text.
Proof.
  intros Hb Hmin Hd. destruct (Z.eq_dec d (- 2 ^ 31)) as [->|Hne].
  - destruct Hb as [->|[-> | ->]]; [done | by eexists | by eexists].
  - destruct (itoa_correct base d Hb) as (sign & digits & H & _); [lia |]. by eexists.
Qed.

Lemma s32_bound d : - 2 ^ 31 <= s32 d < 2 ^ 31.
Proof. unfold s32. pose proof (Z.mod_pos_bound (d + 2 ^ 31) (2 ^ 32) ltac:(lia)). lia. Qed.

(** Printing changes the screen and nothing else. *)
Theorem printf_screen_only format ap s :
  fits format ap = true -> on_screen s -> exists s', printf1 format ap s = Ok tt s' /\ screen_only s s'.
Proof.
  assert (Hgen : forall n format ap s, (length format <= n)%nat -> fits format ap = true -> on_screen s ->
    exists s', printf1 format ap s = Ok tt s' /\ screen_only s s'); [|by eapply Hgen].
  clear. induction n as [|n IH]; intros format ap s Hn Hf Hs.
  { destruct format; [|simpl in Hn; lia]. exists s. split; [done | by apply screen_only_refl]. }
  destruct format as [|c format]; [exists s; split; [done | by apply screen_only_refl] |].
  cbn [printf1 fits length] in *. destruct (negb (c =? 37)).
  - destruct (putchar_run c s Hs) as (s1 & E1 & H1). erewrite bind_step by exact E1.
    destruct (IH format ap s1 ltac:(lia) Hf (so_pos _ _ H1)) as (s2 & E2 & H2). exists s2. split; [done |]. by eapply screen_only_trans.
  - destruct format as [|c' format]; [done |]. destruct ap as [|a ap]; [done |]. apply andb_true_iff in Hf as [Ha Hf]. cbn [length] in Hn.
    assert (Hone : exists s1, (if (c' =? 100) || (c' =? 117) || (c' =? 120) then
             match a with PInt d => buf ← of_option (Fault "itoa") (itoa c' (s32 d)); forM buf putchar | PStr _ => stop_with (Fault "va_arg") end
           else if c' =? 115 then match a with PStr s => forM (default null_text s) putchar | PInt _ => stop_with (Fault "va_arg") end
           else match a with PInt d => putchar (s32 d) | PStr _ => stop_with (Fault "va_arg") end) s = Ok tt s1 /\ screen_only s s1).
    { destruct a as [d|txt].
      - apply andb_true_iff in Ha as [Ha Hmin]. destruct ((c' =? 100) || (c' =? 117) || (c' =? 120)) eqn:Ec.
        + destruct (itoa_text c' (s32 d)) as (text & ->); [| done | apply s32_bound |]; [|cbn [of_option]; erewrite bind_step by reflexivity; by apply putchars_run].
          apply orb_true_iff in Ec as [Ec|Ec]; [apply orb_true_iff in Ec as [Ec|Ec] |]; apply Z.eqb_eq in Ec; lia.
        + destruct (c' =? 115); [done |]. by apply putchar_run.
      - apply Z.eqb_eq in Ha as ->. cbn [Z.eqb Pos.eqb orb]. by apply putchars_run. }
    destruct Hone as (s1 & E1 & H1). erewrite bind_step by exact E1.
    destruct (IH format ap s1 ltac:(lia) Hf (so_pos _ _ H1)) as (s2 & E2 & H2). exists s2. split; [done |]. by eapply screen_only_trans.
Qed.

(** ** Loading the second stage *)

(** The image of the second stage: its sections in order, above the modules
    and below 2GB. *)
Record stage2_image (limit : Z) (h0 h1 h2 h3 : phdr) : Prop := {
  s2_low : limit <= ph_vaddr h0;
  s2_order : ph_vaddr h0 + ph_size h0 <= ph_vaddr h1 /\ ph_vaddr h1 + ph_size h1 <= ph_vaddr h2 /\ ph_vaddr h2 + ph_size h2 <= ph_vaddr h3;
  s2_top : ph_vaddr h3 + ph_size h3 < 2 ^ 31
}.

(** A 32-bit executable file. *)
Record stage2_file (m : memory) (elf limit : Z) (h0 h1 h2 h3 : phdr) : Prop := {
  sf_file : elf_file m elf limit [h0; h1; h2; h3];
  sf_limit : limit < 2 ^ 31;
  sf_image : stage2_image limit h0 h1 h2 h3
}.

Lemma section_step elf limit m0 i rest sp hs h s (Q : Z -> stage1 -> Prop) :
  loaded 0 elf m0 hs (t_mem s) -> phdr_at (t_mem s) sp = h -> 0 <= elf -> 0 <= ph_offset h -> 0 <= ph_size h ->
  elf + ph_offset h + ph_size h <= limit -> limit <= ph_vaddr h -> limit < 2 ^ 31 -> ph_vaddr h + ph_size h < 2 ^ 31 ->
  (forall h', h' ∈ hs -> limit <= ph_vaddr h' /\ ph_vaddr h' + ph_size h' <= ph_vaddr h) ->
  (forall m, loaded 0 elf m0 (hs ++ [h]) m -> wp (load_stage2_sections rest elf (sp + PHDR_SIZE)) (set_t_mem m s) Q) ->
  wp (load_stage2_sections (i :: rest) elf sp) s Q.
Proof.
  intros Hl Hh He Ho Hs Hsrc Hdst Hlim Htop Hbefore HQ. cbn [load_stage2_sections]. wp_step. apply post_gets.
  change (p_vaddr (t_mem s) sp) with (ph_vaddr (phdr_at (t_mem s) sp)). change (p_offset (t_mem s) sp) with (ph_offset (phdr_at (t_mem s) sp)).
  change (p_memsz (t_mem s) sp) with (ph_size (phdr_at (t_mem s) sp)). rewrite Hh, !w32_small by lia. cbv zeta.
  assert (Hd : dest 0 h = ph_vaddr h) by (unfold dest; lia).
  wp_step. destruct (Z.ltb_spec 0 (ph_size h)) as [Hpos|Hpos]; cbn [when].
  - unfold bcopy, poke_t. destruct (Z.leb_spec (2 ^ 31) (ph_size h)); [lia |]. wp_step. apply HQ. rewrite <-Hd.
    apply (loaded_copy 0 elf m0 limit); [done | lia | lia |]. intros h' Hh'. unfold dest. specialize (Hbefore h' Hh'). lia.
  - wp_step. specialize (HQ (t_mem s)). replace (set_t_mem (t_mem s) s) with s in HQ by (by destruct s). apply HQ. apply loaded_skip; [lia | done].
Qed.

(** The second stage is in place. *)
Record stage2_placed (m : memory) (elf : Z) (h0 h1 h2 h3 : phdr) (m' : memory) : Prop := {
  pl_sections : forall h i, h ∈ [h0; h1; h2] -> 0 <= i < ph_size h -> byte_at m' (ph_vaddr h + i) = byte_at m (elf + ph_offset h + i);
  pl_bss : forall x, ph_vaddr h3 <= x < ph_vaddr h3 + ph_size h3 -> byte_at m' x = 0;
  pl_frame : same_on (fun x => ~ (ph_vaddr h0 <= x < ph_vaddr h3 + ph_size h3)) m m'
}.

Lemma three_elem (P : phdr -> Prop) h0 h1 h2 : P h0 -> P h1 -> P h2 -> forall h, h ∈ [h0; h1; h2] -> P h.
Proof. intros H0 H1 H2 h Hh. rewrite !elem_of_cons in Hh. destruct Hh as [->|[->|[->|Hh]]]; [done.. | by apply not_elem_of_nil in Hh]. Qed.

Lemma header_bounds m elf limit h0 h1 h2 h3 :
  elf_file m elf limit [h0; h1; h2; h3] ->
  Forall (fun h => 0 <= ph_offset h /\ 0 <= ph_size h /\ 0 <= ph_vaddr h) [h0; h1; h2; h3].
Proof. intros Hf. rewrite (ef_headers _ _ _ _ Hf). cbn [fmap list_fmap]. repeat constructor; apply load_bound. Qed.

(** Clearing the bss, and the end of the second stage. *)
Lemma stage2_bss_spec (v : Z) h3 sp s :
  phdr_at (t_mem s) sp = h3 -> sp + PHDR_SIZE <= ph_vaddr h3 -> 0 <= ph_vaddr h3 -> 0 <= ph_size h3 -> ph_vaddr h3 + ph_size h3 < 2 ^ 31 ->
  wp (m ← gets t_mem; memset1 (w32 (p_vaddr m sp)) 0 (w32 (p_memsz m sp)) ;; m ← gets t_mem; mret (v, w32 (p_vaddr m sp + p_memsz m sp))) s
    (fun r s' => r = (v, ph_vaddr h3 + ph_size h3) /\ s' = set_t_mem (memset (t_mem s) (ph_vaddr h3) 0 (ph_size h3)) s).
Proof.
  intros E3 Hsp Hv Hs Htop. wp_step. apply post_gets. set (m3 := t_mem s) in *.
  change (p_vaddr m3 sp) with (ph_vaddr (phdr_at m3 sp)). change (p_memsz m3 sp) with (ph_size (phdr_at m3 sp)).
  rewrite E3, !w32_small by lia. unfold memset1, poke_t. destruct (Z.leb_spec (2 ^ 31) (ph_size h3)); [lia |]. wp_step. wp_step.
  fold m3. set (m4 := memset _ _ _ _). wp_step. apply post_gets. cbn [t_mem set_t_mem].
  assert (E4 : phdr_at m4 sp = h3).
  { rewrite <-E3. apply (phdr_at_same (ph_vaddr h3)); [|done]. intros x Hx. unfold m4. rewrite byte_at_memset, decide_False by lia. done. }
  change (p_vaddr m4 sp) with (ph_vaddr (phdr_at m4 sp)). change (p_memsz m4 sp) with (ph_size (phdr_at m4 sp)).
  rewrite E4, w32_small by lia. by wp_step.
Qed.

Lemma load_stage2_run elf limit h0 h1 h2 h3 s :
  stage2_file (t_mem s) elf limit h0 h1 h2 h3 ->
  exists m, load_stage2 elf s = Ok (ph_vaddr h0, ph_vaddr h3 + ph_size h3) (set_t_mem m s) /\ stage2_placed (t_mem s) elf h0 h1 h2 h3 m.
Proof.
  intros [Hf Hlim [Hlow (O1 & O2 & O3) Htop]]. set (m0 := t_mem s). pose proof (header_bounds _ _ _ _ _ _ _ Hf) as Hb.
  rewrite !Forall_cons in Hb. destruct Hb as ((B00 & B01 & _) & (B10 & B11 & _) & (B20 & B21 & _) & (_ & B31 & _) & _).
  pose proof (ef_sections _ _ _ _ Hf) as Hsec. cbn [take] in Hsec. rewrite !Forall_cons in Hsec. destruct Hsec as (S0 & S1 & S2 & _).
  pose proof (load_bound 8 m0 (elf + 32)) as Hoff. change (load 8 m0 (elf + 32)) with (e_phoff m0 elf) in Hoff.
  pose proof Hf as [He _ Hnum _ Htab _ _]. fold m0 in Htab, Hnum, Hf.
  assert (Hnext : forall hs m k h, loaded 0 elf m0 hs m -> (forall h', h' ∈ hs -> limit <= ph_vaddr h') ->
    (k, h) ∈ [(0, h0); (1, h1); (2, h2); (3, h3)] -> phdr_at m (elf + e_phoff m0 elf + k * PHDR_SIZE) = h).
  { intros hs m k h Hl Hab' Hk. eapply elf_header; [exact Hf | | exact Hk].
    eapply loaded_low; [exact Hl |]. intros h' Hh. unfold dest. specialize (Hab' h' Hh). lia. }
  assert (E0 : phdr_at m0 (elf + e_phoff m0 elf) = h0).
  { rewrite <-(Z.add_0_r (elf + _)). apply (Hnext [] m0 0 h0 (loaded_nil 0 elf m0)); [by intros ? ?%not_elem_of_nil | by left]. }
  destruct (wp_elim (load_stage2 elf) s (fun r s' => r = (ph_vaddr h0, ph_vaddr h3 + ph_size h3) /\ exists m,
    s' = set_t_mem (memset m (ph_vaddr h3) 0 (ph_size h3)) s /\ loaded 0 elf m0 [h0; h1; h2] m)) as (r & s' & Hrun & -> & m & -> & Hl).
  - unfold load_stage2. wp_step. apply post_gets. fold m0. rewrite Hnum. cbn [Z.eqb Pos.eqb negb]. rewrite (w32_small (elf + _)) by lia.
    change (p_vaddr m0 (elf + e_phoff m0 elf)) with (ph_vaddr (phdr_at m0 (elf + e_phoff m0 elf))). rewrite E0, (w32_small (ph_vaddr h0)) by lia.
    cbv zeta. wp_step.
    eapply (section_step elf limit m0 0 _ _ []); [apply loaded_nil | exact E0 | lia.. | by intros ? ?%not_elem_of_nil |]. intros m1 L1.
    eapply (section_step elf limit m0 1 _ _ [h0] h1); [exact L1 | apply (Hnext [h0] m1 1 h1 L1) | lia.. | |].
    { by intros h' ->%list_elem_of_singleton. } { right; by left. } { intros h' ->%list_elem_of_singleton. lia. }
    intros m2 L2. eapply (section_step elf limit m0 2 _ _ [h0; h1] h2); [exact L2 | | lia.. | |].
    { rewrite <-Z.add_assoc. apply (Hnext [h0; h1] m2 2 h2 L2); [|right; right; by left].
      intros h' [->| ->%list_elem_of_singleton]%elem_of_cons; lia. }
    { intros h' [->| ->%list_elem_of_singleton]%elem_of_cons; lia. }
    intros m3 L3. cbn [load_stage2_sections]. apply post_ret.
    assert (E3 : phdr_at m3 (elf + e_phoff m0 elf + 56 + 56 + 56) = h3).
    { replace (elf + e_phoff m0 elf + 56 + 56 + 56) with (elf + e_phoff m0 elf + 3 * PHDR_SIZE) by lia.
      apply (Hnext _ m3 3 h3 L3); [by apply three_elem; lia | right; right; right; by left]. }
    eapply post_mono; [apply (stage2_bss_spec (ph_vaddr h0) h3); [exact E3 | lia..] |]. intros r s' _ [-> ->]. split; [done |]. by exists m3.
  - eexists. split; [exact Hrun |]. destruct Hl as [Hin Hout]. split.
    + intros h i Hh Hi. rewrite byte_at_memset, decide_False.
      * specialize (Hin h i Hh Hi). unfold dest in Hin. by rewrite Z.add_0_r in Hin.
      * apply (three_elem (fun h => ph_vaddr h + ph_size h <= ph_vaddr h3)) in Hh; lia.
    + intros x Hx. by rewrite byte_at_memset, decide_True.
    + intros x Hx. rewrite byte_at_memset, decide_False by lia. symmetry. apply Hout. unfold dest. by apply three_elem; lia.
Qed.

(** ** The processor *)

Definition cpu_ok (s : stage1) : bool :=
  cpu_has_longmode s && bool_decide (cpu_has_x87_and_media_support s = None) && cpu_has_msr s && cpu_has_vmx s &&
  cpu_has_physical_address_extention s && cpu_has_monitor_mwait s && cpu_has_rdtscp s.

Lemma check_cpu_run s : on_screen s -> check_cpu_features s = if cpu_ok s then Ok tt s else Stop Halt.
Proof.
  intros Hs. unfold check_cpu_features, cpu_ok. erewrite bind_step by reflexivity.
  destruct (cpu_has_longmode s); cbn [negb andb]; [|by apply refuse_run].
  destruct (cpu_has_x87_and_media_support s) as [msg|]; cbn [andb bool_decide].
  { rewrite bool_decide_eq_false_2 by done. destruct (printf_screen_only (chars "%s") [PStr (Some (chars msg))] s eq_refl Hs) as (s' & E & _).
    by erewrite bind_step by exact E. }
  rewrite bool_decide_eq_true_2 by done. cbn [andb].
  destruct (cpu_has_msr s); cbn [negb andb]; [|by apply refuse_run].
  destruct (cpu_has_vmx s); cbn [negb andb]; [|by apply refuse_run].
  destruct (cpu_has_physical_address_extention s); cbn [negb andb]; [|by apply refuse_run].
  destruct (cpu_has_monitor_mwait s); cbn [negb andb]; [|by apply refuse_run].
  destruct (cpu_has_rdtscp s); cbn [negb andb]; [done | by apply refuse_run].
Qed.

(** Control registers the second stage can rely on: caches on, floating point
    and media instructions usable. *)
Definition cr_ready (s : stage1) : Prop :=
  Z.testbit (t_cr0 s) 30 = false /\ Z.testbit (t_cr0 s) 2 = false /\ Z.testbit (t_cr0 s) 1 = true /\ Z.testbit (t_cr4 s) 9 = true.

Lemma cache_run s :
  exists cr0, when (cpu_cache_disable s)
    (cpu_enable_cache ;; s ← get; if cpu_cache_disable s then refuse "Cache is still disabled!" else mret tt) s = Ok tt (set_t_cr cr0 (t_cr4 s) s) /\
    Z.testbit cr0 30 = false.
Proof.
  unfold cpu_cache_disable at 1. destruct (Z.testbit (t_cr0 s) 30) eqn:E; cbn [when].
  - eexists. split.
    + erewrite bind_step by reflexivity. erewrite bind_step by reflexivity. unfold cpu_cache_disable. cbn [t_cr0 set_t_cr].
      rewrite Z.ldiff_spec, andb_false_r. reflexivity.
    + by rewrite Z.ldiff_spec, andb_false_r.
  - exists (t_cr0 s). split; [by destruct s | done].
Qed.

(** ** The multiboot information *)

Definition aps_area (a : Z) : Prop := BOOT_APS_BASE_ADDR <= a < BOOT_APS_BASE_ADDR + BOOT_APS_LENGTH.
Definition module_at (m : memory) (addr k : Z) : Z := mods_addr m addr + MODULE_SIZE * k.
Definition module_start (m : memory) (addr k : Z) : Z := mod_start m (module_at m addr k).

(** The information lies where the loader does not write, and the number of
    modules is an [int]. *)
Definition info_safe (m : memory) (addr : Z) : Prop :=
  (forall a, addr <= a < addr + 28 -> ~ video a) /\
  (forall a, mods_addr m addr <= a < mods_addr m addr + MODULE_SIZE * NUMBER_MODULES -> ~ video a /\ ~ aps_area a) /\
  mods_count m addr < 2 ^ 31.

Definition accepted (m : memory) (addr : Z) : bool :=
  Z.testbit (mb_flags m addr) 0 && Z.testbit (mb_flags m addr) 3 && (mods_count m addr =? NUMBER_MODULES) &&
  forallb (fun k => mod_end m (module_at m addr k) <=? 0x200000) (seqZ 0 NUMBER_MODULES).

Lemma load32_same P m m' a : same_on P m m' -> (forall x, a <= x < a + 4 -> P x) -> load32 m' a = load32 m a.
Proof. intros Hs Hp. symmetry. apply load_ext. intros x Hx. apply Hs, Hp. simpl in Hx. lia. Qed.

(** Reading the information after the screen was cleared. *)
Lemma info_same m m' addr :
  info_safe m addr -> same_on (fun a => ~ video a) m m' ->
  mb_flags m' addr = mb_flags m addr /\ mem_upper m' addr = mem_upper m addr /\ mods_count m' addr = mods_count m addr /\
  mods_addr m' addr = mods_addr m addr.
Proof. intros (Hi & _) Hs. split_and!; eapply load32_same; try exact Hs; intros x Hx; apply Hi; lia. Qed.

Lemma module_same m m' addr k :
  info_safe m addr -> same_on (fun a => ~ video a /\ ~ aps_area a) m m' -> 0 <= k < NUMBER_MODULES ->
  mod_start m' (module_at m addr k) = module_start m addr k /\ mod_end m' (module_at m addr k) = mod_end m (module_at m addr k).
Proof.
  intros (_ & Hm & _) Hs Hk. split; eapply load32_same; try exact Hs; intros x Hx; apply Hm; unfold module_at in Hx; lia.
Qed.

Lemma take_module_run what m addr k s :
  info_safe m addr -> same_on (fun a => ~ video a /\ ~ aps_area a) m (t_mem s) -> 0 <= k < NUMBER_MODULES -> on_screen s -> plain (chars what) = true ->
  take_module what (module_at m addr k) s =
    if mod_end m (module_at m addr k) <=? 0x200000 then Ok (module_start m addr k) s else Stop Halt.
Proof.
  intros Hi Hs Hk Hsc Hp. unfold take_module. erewrite bind_step by reflexivity. destruct (module_same m (t_mem s) addr k Hi Hs Hk) as [-> ->].
  destruct (Z.ltb_spec 0x200000 (mod_end m (module_at m addr k))), (Z.leb_spec (mod_end m (module_at m addr k)) 0x200000); try lia; [|done].
  by apply refuse_line_run.
Qed.

Definition found_modules (m : memory) (addr : Z) : modules :=
  let f := module_start m addr in Modules (f 0) (f 2) (f 3) (f 4) (f 5) (f 6).
(** Sealed: the copy of 512 bytes is never to be computed in a proof. *)
Definition aps_copied_aux : seal (fun (m : memory) (start : Z) => memcpy m BOOT_APS_BASE_ADDR start BOOT_APS_LENGTH).
Proof. by eexists. Qed.
Definition aps_copied : memory -> Z -> memory := unseal aps_copied_aux.
Lemma aps_copied_eq m start : aps_copied m start = memcpy m BOOT_APS_BASE_ADDR start BOOT_APS_LENGTH.
Proof. unfold aps_copied. by rewrite (seal_eq aps_copied_aux). Qed.

Lemma aps_copied_spec m start :
  0x100000 <= start -> (forall i, 0 <= i < BOOT_APS_LENGTH -> byte_at (aps_copied m start) (BOOT_APS_BASE_ADDR + i) = byte_at m (start + i)) /\
  same_on (fun a => ~ aps_area a) m (aps_copied m start).
Proof.
  intros Hs. rewrite aps_copied_eq. unfold aps_area. split.
  - intros i Hi. rewrite byte_at_memcpy, decide_True by lia. f_equal. lia.
  - intros a Ha. rewrite byte_at_memcpy, decide_False by lia. done.
Qed.

Lemma poke_aps start s :
  poke_t (fun m => memcpy m BOOT_APS_BASE_ADDR start BOOT_APS_LENGTH) s = Ok tt (set_t_mem (aps_copied (t_mem s) start) s).
Proof. unfold poke_t, modify. by rewrite aps_copied_eq. Qed.

Lemma take_modules_run m addr s :
  info_safe m addr -> same_on (fun a => ~ video a) m (t_mem s) -> on_screen s -> 0x100000 <= module_start m addr 1 ->
  take_modules (mods_addr m addr) s =
    if forallb (fun k => mod_end m (module_at m addr k) <=? 0x200000) (seqZ 0 NUMBER_MODULES)
    then Ok (found_modules m addr) (set_t_mem (aps_copied (t_mem s) (module_start m addr 1)) s) else Stop Halt.
Proof.
  intros Hi Hs Hsc Haps. unfold take_modules. set (b k := mod_end m (module_at m addr k) <=? 0x200000).
  change (forallb b (seqZ 0 NUMBER_MODULES)) with (b 0 && (b 1 && (b 2 && (b 3 && (b 4 && (b 5 && (b 6 && true))))))).
  assert (Hs0 : same_on (fun a => ~ video a /\ ~ aps_area a) m (t_mem s)) by (intros a [Ha _]; by apply Hs).
  assert (Hs1 : same_on (fun a => ~ video a /\ ~ aps_area a) m (aps_copied (t_mem s) (module_start m addr 1))).
  { intros a [Ha Hb]. rewrite <-(proj2 (aps_copied_spec (t_mem s) _ Haps) a Hb). by apply Hs. }
  assert (H : forall k what s', t_mem s' = t_mem s \/ t_mem s' = aps_copied (t_mem s) (module_start m addr 1) -> on_screen s' ->
    0 <= k < NUMBER_MODULES -> plain (chars what) = true ->
    take_module what (mods_addr m addr + MODULE_SIZE * k) s' = if b k then Ok (module_start m addr k) s' else Stop Halt).
  { intros k what s' Hm Hsc' Hk Hp. apply (take_module_run what m addr k s'); try done. by destruct Hm as [-> | ->]. }
  pose proof (H 0) as H0. rewrite Z.mul_0_r, Z.add_0_r in H0. pose proof (H 1) as H1. rewrite Z.mul_1_r in H1.
  unfold mbind, M_bind. rewrite H0 by (done || (by left)). destruct (b 0); cbn [andb]; [|done].
  rewrite H1 by (done || (by left)). destruct (b 1); cbn [andb]; [|done].
  rewrite poke_aps. set (m1 := aps_copied _ _) in *. clearbody m1.
  rewrite (H 2) by (done || (by right)). destruct (b 2); cbn [andb]; [|done].
  rewrite (H 3) by (done || (by right)). destruct (b 3); cbn [andb]; [|done].
  rewrite (H 4) by (done || (by right)). destruct (b 4); cbn [andb]; [|done].
  rewrite (H 5) by (done || (by right)). destruct (b 5); cbn [andb]; [|done].
  rewrite (H 6) by (done || (by right)). destruct (b 6); cbn [andb]; done.
Qed.

Lemma elf_file_same m m' elf limit h0 h1 h2 h3 :
  same_on (fun x => elf <= x < limit) m m' -> elf_file m elf limit [h0; h1; h2; h3] -> elf_file m' elf limit [h0; h1; h2; h3].
Proof.
  intros Hs [H1 H2 H3 H4 H5 H6 H7]. pose proof (load_bound 8 m (elf + 32)) as Hoff. change (load 8 m (elf + 32)) with (e_phoff m elf) in Hoff.
  assert (E1 : e_phoff m' elf = e_phoff m elf) by (symmetry; apply load_ext; intros x Hx; apply Hs; simpl in Hx; lia).
  assert (E2 : e_phnum m' elf = e_phnum m elf) by (symmetry; apply load_ext; intros x Hx; apply Hs; simpl in Hx; lia).
  assert (E3 : forall k, 0 <= k <= 3 -> phdr_at m' (elf + e_phoff m elf + k * PHDR_SIZE) = phdr_at m (elf + e_phoff m elf + k * PHDR_SIZE)).
  { intros k Hk. unfold phdr_at, p_vaddr, p_offset, p_memsz. f_equal; symmetry; apply load_ext; intros x Hx; apply Hs; simpl in Hx; lia. }
  split; try done; rewrite ?E1, ?E2; try done. rewrite H6. cbn [fmap list_fmap]. by rewrite !E3 by lia.
Qed.

Lemma count_refused n s :
  0 <= n < 2 ^ 31 -> on_screen s ->
  (printf1 (chars "ERROR: Grub failed to load all needed modules. %d modules loaded, but 3 were needed!" ++ [10]) [PInt n] ;;
   stop_with Halt : M stage1 (Z * boot_args)) s = Stop Halt.
Proof.
  intros Hn Hs. destruct (printf_screen_only (chars "ERROR: Grub failed to load all needed modules. %d modules loaded, but 3 were needed!" ++ [10])
    [PInt n] s) as (s4 & E4 & _); [|done | by erewrite bind_step by exact E4].
  change (negb (s32 n =? - 2 ^ 31) && true = true). rewrite s32_small by lia. by destruct (Z.eqb_spec n (- 2 ^ 31)); [lia |].
Qed.

(** ** The loader *)

Section loader.
Context (addr : Z) (s : stage1) (Hinfo : info_safe (t_mem s) addr).

Definition args_for (h3 : phdr) : boot_args :=
  let md := found_modules (t_mem s) addr in
  BootArgs (md_pm md) (md_fs md) (md_init md) (md_vmm md) (md_initrd md) (ph_vaddr h3 + ph_size h3)
    (w32 (mem_upper (t_mem s) addr + 1)) (if cpu_has_1GBpage s then 1 else 0) 0.

(** The last part of the loader. *)
Definition finish (m : memory) (gb : bool) : M stage1 (Z * boot_args) :=
  let md := found_modules m addr in
  stage2 ← load_stage2 (md_stage2 md);
  mret (stage2.1, BootArgs (md_pm md) (md_fs md) (md_init md) (md_vmm md) (md_initrd md) stage2.2
    (w32 (mem_upper m addr + 1)) (if gb then 1 else 0) 0).

Lemma finish_run m gb s3 s4 :
  take_modules (mods_addr m addr) s3 = Ok (found_modules m addr) s4 ->
  (mods ← take_modules (mods_addr m addr);
   stage2 ← load_stage2 (md_stage2 mods);
   mret (stage2.1, BootArgs (md_pm mods) (md_fs mods) (md_init mods) (md_vmm mods) (md_initrd mods) stage2.2
     (w32 (mem_upper m addr + 1)) (if gb : bool then 1 else 0) 0)) s3 = finish m gb s4.
Proof. intros H. by erewrite bind_step by exact H. Qed.

(** Both outcomes up to the loading of the second stage: a state before it, or
    a halt. *)
Lemma loader_run :
  0x100000 <= module_start (t_mem s) addr 1 ->
  if cpu_ok s && accepted (t_mem s) addr
  then exists s1, cr_ready s1 /\ same_on (fun a => ~ video a) (t_mem s) (t_mem s1) /\
    boot_loader addr s = finish (t_mem s) (cpu_has_1GBpage s) (set_t_mem (aps_copied (t_mem s1) (module_start (t_mem s) addr 1)) s1)
  else boot_loader addr s = Stop Halt.
Proof using Hinfo.
  intros Haps. unfold boot_loader. destruct (clrscr_run s) as (s1 & E1 & H1 & _). erewrite bind_step by exact E1.
  erewrite bind_step by reflexivity. destruct (cache_run s1) as (cr0 & E2 & Hcr). erewrite bind_step by exact E2.
  set (s2 := set_t_cr cr0 (t_cr4 s1) s1). assert (Hcpuid : t_cpuid s2 = t_cpuid s) by apply H1.
  assert (Hon : on_screen s2) by apply H1. pose proof (check_cpu_run s2 Hon) as Hcheck.
  replace (cpu_ok s2) with (cpu_ok s) in Hcheck by (unfold cpu_ok, cpu_has_longmode, cpu_has_x87_and_media_support, cpu_has_msr, cpu_has_vmx,
    cpu_has_physical_address_extention, cpu_has_monitor_mwait, cpu_has_rdtscp; by rewrite Hcpuid).
  destruct (cpu_ok s); cbn [andb]; [|by apply bind_stop].
  erewrite bind_step by exact Hcheck. erewrite bind_step by reflexivity. erewrite bind_step by reflexivity. erewrite bind_step by reflexivity.
  set (s3 := set_t_cr _ _ _). change (t_mem s3) with (t_mem s1). pose proof (so_mem _ _ H1) as Hmem. assert (Hon3 : on_screen s3) by exact Hon.
  assert (Hgb : cpu_has_1GBpage s2 = cpu_has_1GBpage s) by (unfold cpu_has_1GBpage; by rewrite Hcpuid). rewrite Hgb.
  assert (Hcr3 : cr_ready s3).
  { unfold cr_ready, s3, s2. cbn [t_cr0 t_cr4 set_t_cr]. rewrite !Z.lor_spec, !Z.ldiff_spec, !Z.pow2_bits_eqb by done. cbn [Z.eqb Pos.eqb negb].
    by rewrite !andb_false_r, !orb_true_r, Hcr. }
  assert (Hm3 : t_mem s3 = t_mem s1) by done. clearbody s3. clear Hcheck E1 E2.
  destruct (info_same _ _ _ Hinfo Hmem) as (-> & -> & -> & ->). unfold accepted.
  destruct (Z.testbit (mb_flags (t_mem s) addr) 0); cbn [negb andb]; [|by apply refuse_line_run].
  destruct (Z.testbit (mb_flags (t_mem s) addr) 3); cbn [negb andb]; [|by apply refuse_line_run].
  destruct (mods_count (t_mem s) addr =? NUMBER_MODULES); cbn [negb andb].
  - pose proof (take_modules_run (t_mem s) addr s3 Hinfo) as Hmods. rewrite Hm3 in Hmods.
    specialize (Hmods Hmem Hon3 Haps). destruct (forallb _ _); [|by apply bind_stop].
    exists s3. split_and!; [done | by rewrite Hm3 |]. rewrite Hm3. by apply finish_run.
  - apply (count_refused (mods_count (t_mem s) addr)); [|done]. split; [apply load32_bound | apply Hinfo].
Qed.
End loader.

