(* ===== verification/Descriptors.v ===== *)
(** * Descriptor tables (lib/gdt.c, lib/interrupt.c, boot/stage2/gdt.c, boot/stage2/interrupt.c)

    The segment and interrupt descriptors a program builds in memory, and the
    processor registers it loads with them.  Descriptors are bit fields packed
    into two 64-bit words ([struct system_descriptor] and
    [struct gate_descriptor] of include/cpu.h are 16 bytes each). *)

From S2P Require Import Prelude PhysMem.

Abbreviation KNL_CSEL := 0x10.
Abbreviation KNL_DSEL := 0x20.
Abbreviation GDT_KCODE := 1.
Abbreviation GDT_KDATA := 2.
Abbreviation NGDT := 5.
Abbreviation NIDT := 256.
Abbreviation DESC_SIZE := 16.
Abbreviation KNL_PVL := 0.
Abbreviation USR_PVL := 3.
Abbreviation IST := 0.
Abbreviation IDT_TRAP_GATE := 0xF.
Abbreviation IDT_INTR_GATE := 0xE.
Abbreviation IRQ_OFFSET := 32.
Abbreviation IRQ_TIMER := 0.
Abbreviation IRQ_KBD := 1.
Abbreviation IDT_SYSCALL := 0x80.

(** Segment registers, by name. *)
Inductive seg := ES | CS | SS | DS | FS_ | GS | LDTR.
#[global] Instance seg_eq_dec : EqDecision seg.
Proof. solve_decision. Defined.

(** The registers are limit and base; [d_gdt] and [d_idt] are the addresses of
    the program's static tables, the flags its [static bool initialized]. *)
Record desc_state := Desc {
  d_mem : memory;
  d_gdtr : Z * Z;
  d_idtr : Z * Z;
  d_seg : seg -> Z;
  d_gdt : Z;
  d_idt : Z;
  d_gdt_done : bool;
  d_idt_done : bool
}.
Definition set_d_mem (v : memory) (s : desc_state) : desc_state :=
  Desc v (d_gdtr s) (d_idtr s) (d_seg s) (d_gdt s) (d_idt s) (d_gdt_done s) (d_idt_done s).
Definition set_d_gdtr (v : Z * Z) (s : desc_state) : desc_state :=
  Desc (d_mem s) v (d_idtr s) (d_seg s) (d_gdt s) (d_idt s) (d_gdt_done s) (d_idt_done s).
Definition set_d_idtr (v : Z * Z) (s : desc_state) : desc_state :=
  Desc (d_mem s) (d_gdtr s) v (d_seg s) (d_gdt s) (d_idt s) (d_gdt_done s) (d_idt_done s).
Definition set_d_seg (v : seg -> Z) (s : desc_state) : desc_state :=
  Desc (d_mem s) (d_gdtr s) (d_idtr s) v (d_gdt s) (d_idt s) (d_gdt_done s) (d_idt_done s).
Definition set_d_gdt_done (v : bool) (s : desc_state) : desc_state :=
  Desc (d_mem s) (d_gdtr s) (d_idtr s) (d_seg s) (d_gdt s) (d_idt s) v (d_idt_done s).
Definition set_d_idt_done (v : bool) (s : desc_state) : desc_state :=
  Desc (d_mem s) (d_gdtr s) (d_idtr s) (d_seg s) (d_gdt s) (d_idt s) (d_gdt_done s) v.

Definition update_tables (f : memory -> memory) : M desc_state unit := modify (fun s => set_d_mem (f (d_mem s)) s).

(** ** Segments *)

(** [struct code64_descriptor]: the fields an initialiser names, the others zero. *)
Definition code64_word (c three dpl p long opndsz : Z) : Z :=
  2 ^ 42 * (c mod 2) + 2 ^ 43 * (three mod 2 ^ 2) + 2 ^ 45 * (dpl mod 2 ^ 2) + 2 ^ 47 * (p mod 2) +
  2 ^ 53 * (long mod 2) + 2 ^ 54 * (opndsz mod 2).
(** [struct data64_descriptor] *)
Definition data64_word (w one dpl p : Z) : Z :=
  2 ^ 41 * (w mod 2) + 2 ^ 44 * (one mod 2) + 2 ^ 45 * (dpl mod 2 ^ 2) + 2 ^ 47 * (p mod 2).

(** [lgdt] and the reload of the segment registers; the far return loads
    [cs]. *)
Definition load_gdt (limit base : Z) : M desc_state unit :=
  modify (set_d_gdtr (limit, base)) ;;
  modify (fun s => set_d_seg (fun r =>
    match r with
    | DS | ES | FS_ | GS | SS => KNL_DSEL
    | CS => KNL_CSEL
    | LDTR => d_seg s LDTR
    end) s).

(** [code64] and [data64] are local variables: eight bytes copied from each. *)
Definition create_new_gdt (gdt sizeof_gdt : Z) : M desc_state unit :=
  let code64 := code64_word 0 3 0 1 1 0 in
  let data64 := data64_word 1 1 0 1 in
  update_tables (fun m => memset m gdt 0 sizeof_gdt) ;;
  update_tables (fun m => store64 m (gdt + DESC_SIZE * GDT_KCODE) code64) ;;
  update_tables (fun m => store64 m (gdt + DESC_SIZE * GDT_KDATA) data64) ;;
  load_gdt (w16 (sizeof_gdt - 1)) gdt.

Definition create_default_gdt : M desc_state unit :=
  s ← get;
  when (negb (d_gdt_done s))
    (create_new_gdt (d_gdt s) (NGDT * DESC_SIZE) ;;
     modify (set_d_gdt_done true)).

(** The boot loader's copy does not remember that it ran. *)
Definition boot_create_default_gdt : M desc_state unit :=
  s ← get;
  create_new_gdt (d_gdt s) (NGDT * DESC_SIZE).

(** ** Interrupt gates *)

(** The two words of a [struct gate_descriptor]; every bit is assigned. *)
Definition gate_lo (handler typ dpl ist : Z) : Z :=
  handler mod 2 ^ 16 + 2 ^ 16 * KNL_CSEL + 2 ^ 32 * (ist mod 2 ^ 3) + 2 ^ 40 * (typ mod 2 ^ 5) +
  2 ^ 45 * (dpl mod 2 ^ 2) + 2 ^ 47 * 1 + 2 ^ 48 * ((handler / 2 ^ 16) mod 2 ^ 16).
Definition gate_hi (handler : Z) : Z := (handler / 2 ^ 32) mod 2 ^ 32.

Definition setgate (idx handler typ dpl ist : Z) : M desc_state unit :=
  s ← get;
  let gd := d_idt s + DESC_SIZE * idx in
  update_tables (fun m => store64 m gd (gate_lo handler typ dpl ist)) ;;
  update_tables (fun m => store64 m (gd + 8) (gate_hi handler)).

(** The assembly entry points (trap.S, isr.S) by name; [sym] gives their
    addresses. *)
Inductive entry_point :=
| reserved | divide_error | debug | nmi | breakpoint | overflow | bound_range | invalid_opcode
| device_not_available | double_fault | invalid_tss | segment_not_present | stack_exception
| general_protection | page_fault | fp_exception | alignment_check | machine_check | xmm
| system_call | timer_handler | kbd_handler | irq_handler.

(** The calls of [trap_init], in their order. *)
Definition trap_gates : list (Z * entry_point) :=
  [(0, divide_error); (1, debug); (2, nmi); (3, breakpoint); (4, overflow); (5, bound_range);
   (6, invalid_opcode); (7, device_not_available); (8, double_fault); (9, reserved); (10, invalid_tss);
   (11, segment_not_present); (12, stack_exception); (13, general_protection); (14, page_fault);
   (16, fp_exception); (17, alignment_check); (18, machine_check); (19, xmm)].

Definition trap_init (sym : entry_point -> Z) : M desc_state unit :=
  forM trap_gates (fun g => setgate g.1 (sym g.2) IDT_TRAP_GATE KNL_PVL IST).

Definition reserve_all (sym : entry_point -> Z) : M desc_state unit :=
  forM (seqZ 0 NIDT) (fun vec_no => setgate vec_no (sym reserved) IDT_TRAP_GATE KNL_PVL IST).

Definition lidt_table : M desc_state unit :=
  modify (fun s => set_d_idtr (NIDT * DESC_SIZE - 1, d_idt s) s).

Definition idt_init (sym : entry_point -> Z) : M desc_state unit :=
  reserve_all sym ;; trap_init sym ;; lidt_table.

Definition interrupt_init (sym : entry_point -> Z) : M desc_state unit :=
  s ← get;
  when (negb (d_idt_done s)) (idt_init sym ;; modify (set_d_idt_done true)).

Definition add_irq (sym : entry_point -> Z) (vector_idx : Z) : M desc_state unit :=
  setgate vector_idx (sym irq_handler) IDT_INTR_GATE KNL_PVL IST.

(** The boot loader also has a system-call gate and two device gates. *)
Definition boot_trap_init (sym : entry_point -> Z) : M desc_state unit :=
  trap_init sym ;; setgate IDT_SYSCALL (sym system_call) IDT_TRAP_GATE USR_PVL IST.
Definition irq_init (sym : entry_point -> Z) : M desc_state unit :=
  setgate (IRQ_OFFSET + IRQ_TIMER) (sym timer_handler) IDT_INTR_GATE KNL_PVL IST ;;
  setgate (IRQ_OFFSET + IRQ_KBD) (sym kbd_handler) IDT_INTR_GATE KNL_PVL IST.
Definition boot_idt_init (sym : entry_point -> Z) : M desc_state unit :=
  reserve_all sym ;; boot_trap_init sym ;; irq_init sym ;; lidt_table.
Definition boot_interrupt_init (sym : entry_point -> Z) : M desc_state unit := boot_idt_init sym.
