(* ===== verification/DescriptorsSpec.v ===== *)
(** * Correctness of the descriptor tables

    What the processor finds when it decodes the tables the programs build:
    the two segments of the GDT, and for each vector the handler meant for
    it. *)

From S2P Require Import Prelude PhysMem Descriptors.

(** ** Decoding *)

(** [n] bits of a word from bit [lo] on. *)
Definition bits (w lo n : Z) : Z := (w / 2 ^ lo) mod 2 ^ n.

(** A 64-bit interrupt gate, as the processor reads it. *)
Record gate := Gate {
  g_offset : Z;
  g_selector : Z;
  g_ist : Z;
  g_type : Z;
  g_dpl : Z;
  g_present : Z
}.
Definition gate_at (m : memory) (a : Z) : gate :=
  let lo := load64 m a in
  let hi := load64 m (a + 8) in
  Gate (bits lo 0 16 + 2 ^ 16 * bits lo 48 16 + 2 ^ 32 * bits hi 0 32)
    (bits lo 16 16) (bits lo 32 3) (bits lo 40 5) (bits lo 45 2) (bits lo 47 1).

Lemma gate_at_ext m m' a : same_on (fun x => a <= x < a + 16) m m' -> gate_at m a = gate_at m' a.
Proof.
  intros H. unfold gate_at, load64. by rewrite (load_ext 8 m m' a), (load_ext 8 m m' (a + 8)) by (eapply same_on_mono; [|exact H]; simpl; lia).
Qed.

(** A segment descriptor: present, privilege, system flag, code flag, long
    mode (code) or writable (data). *)
Record segment := Segment {
  sg_present : Z;
  sg_dpl : Z;
  sg_nonsystem : Z;
  sg_code : Z;
  sg_writable : Z;
  sg_long : Z;
  sg_opsize : Z
}.
Definition segment_of (w : Z) : segment :=
  Segment (bits w 47 1) (bits w 45 2) (bits w 44 1) (bits w 43 1) (bits w 41 1) (bits w 53 1) (bits w 54 1).
Definition segment_at (m : memory) (gdt sel : Z) : segment := segment_of (load64 m (gdt + sel)).

(** ** One gate *)

Lemma gate_words h typ dpl ist :
  0 <= h < 2 ^ 64 -> 0 <= typ < 32 -> 0 <= dpl < 4 -> 0 <= ist < 8 ->
  0 <= gate_lo h typ dpl ist < 2 ^ 64 /\ 0 <= gate_hi h < 2 ^ 64 /\
  bits (gate_lo h typ dpl ist) 0 16 + 2 ^ 16 * bits (gate_lo h typ dpl ist) 48 16 + 2 ^ 32 * bits (gate_hi h) 0 32 = h /\
  bits (gate_lo h typ dpl ist) 16 16 = KNL_CSEL /\ bits (gate_lo h typ dpl ist) 32 3 = ist /\
  bits (gate_lo h typ dpl ist) 40 5 = typ /\ bits (gate_lo h typ dpl ist) 45 2 = dpl /\ bits (gate_lo h typ dpl ist) 47 1 = 1.
Proof.
  intros Hh Ht Hd Hi. unfold bits, gate_lo, gate_hi.
  rewrite (Z.mod_small typ), (Z.mod_small dpl), (Z.mod_small ist) by lia. cbn [Z.pow Z.pow_pos Pos.iter Z.mul Pos.mul].
  split_and!; Z.to_euclidean_division_equations; lia.
Qed.

Definition put_gate (m : memory) (a h typ dpl ist : Z) : memory :=
  store64 (store64 m a (gate_lo h typ dpl ist)) (a + 8) (gate_hi h).

Lemma put_gate_eq m a h typ dpl ist :
  0 <= h < 2 ^ 64 -> 0 <= typ < 32 -> 0 <= dpl < 4 -> 0 <= ist < 8 ->
  gate_at (put_gate m a h typ dpl ist) a = Gate h KNL_CSEL ist typ dpl 1.
Proof.
  intros Hh Ht Hd Hi. destruct (gate_words h typ dpl ist Hh Ht Hd Hi) as (B1 & B2 & E1 & E2 & E3 & E4 & E5 & E6).
  unfold gate_at, put_gate. rewrite load64_store64_ne, !load64_store64_eq, !w64_small by (done || lia). by rewrite E1, E2, E3, E4, E5, E6.
Qed.

Lemma put_gate_same m a h typ dpl ist : same_on (fun x => ~ (a <= x < a + 16)) (put_gate m a h typ dpl ist) m.
Proof. intros x Hx. unfold put_gate, store64. rewrite !byte_at_store_out by lia. done. Qed.

Lemma gate_at_same m m' a : same_on (fun x => a <= x < a + 16) m m' -> gate_at m a = gate_at m' a.
Proof.
  intros H. assert (Hl : forall o, 0 <= o <= 8 -> load64 m (a + o) = load64 m' (a + o)).
  { intros o Ho. apply (load_ext 8). eapply same_on_mono; [|exact H]. simpl. lia. }
  unfold gate_at. rewrite <-(Z.add_0_r a), !Hl, !Z.add_0_r by lia. by rewrite Hl by lia.
Qed.

(** ** Tables *)

(** The gate of vector [v] in the table at [idt]. *)
Definition vector_gate (m : memory) (idt v : Z) : gate := gate_at m (idt + DESC_SIZE * v).

(** Gates set one after the other. *)
Definition overrides (l : list (Z * gate)) (t : Z -> gate) : Z -> gate :=
  foldl (fun t g v => if v =? g.1 then g.2 else t v) t l.

(** The table after some [setgate]s is [t], and nothing else changed. *)
Definition tables_stay (s s' : desc_state) : Prop := d_gdt s' = d_gdt s /\ d_idt s' = d_idt s.

Definition retabled (t : Z -> gate) (s s' : desc_state) : Prop :=
  exists m, s' = set_d_mem m s /\ (forall v, vector_gate m (d_idt s) v = t v) /\
    same_on (fun x => ~ (d_idt s <= x < d_idt s + NIDT * DESC_SIZE)) (d_mem s) m.

Lemma retabled_refl s : retabled (vector_gate (d_mem s) (d_idt s)) s s.
Proof. exists (d_mem s). by destruct s. Qed.

Lemma setgate_spec t s s1 idx h typ dpl ist :
  retabled t s s1 -> 0 <= idx < NIDT -> 0 <= h < 2 ^ 64 -> 0 <= typ < 32 -> 0 <= dpl < 4 -> 0 <= ist < 8 ->
  wp (setgate idx h typ dpl ist) s1 (fun _ s2 => retabled (overrides [(idx, Gate h KNL_CSEL ist typ dpl 1)] t) s s2).
Proof.
  intros (m & -> & Ht & Hsame) Hi Hh Hty Hd His. unfold setgate, update_tables. wp_step. apply post_gets. cbv zeta. wp_step. wp_step. wp_step.
  exists (put_gate m (d_idt s + DESC_SIZE * idx) h typ dpl ist). split_and!; [done | |].
  - intros v. cbn [overrides foldl fst snd]. destruct (Z.eqb_spec v idx) as [-> |Hne]; [by apply put_gate_eq |].
    rewrite <-Ht. apply gate_at_same. eapply same_on_mono; [|apply put_gate_same]. cbn beta. lia.
  - etransitivity; [exact Hsame |]. symmetry. eapply same_on_mono; [|apply put_gate_same]. cbn beta. lia.
Qed.

(** A run of [setgate]s of one kind. *)
Lemma setgates_spec {X} (l : list X) (idx h : X -> Z) typ dpl t s s1 :
  retabled t s s1 -> Forall (fun x => 0 <= idx x < NIDT /\ 0 <= h x < 2 ^ 64) l -> 0 <= typ < 32 -> 0 <= dpl < 4 ->
  wp (forM l (fun x => setgate (idx x) (h x) typ dpl IST)) s1 (fun _ s2 =>
    retabled (overrides ((fun x => (idx x, Gate (h x) KNL_CSEL IST typ dpl 1)) <$> l) t) s s2).
Proof.
  intros Hs Hl Hty Hd. revert t s1 Hs. induction Hl as [|x l [Hx Hh] Hl IH]; intros t s1 Hs; cbn [forM]; [by wp_step |].
  wp_step. eapply post_mono; [by apply setgate_spec |]. intros [] s2 _ Hs2. eapply post_mono; [by eapply IH |]. done.
Qed.

Lemma overrides_other l t v : (forall g, g ∈ l -> g.1 <> v) -> overrides l t v = t v.
Proof.
  revert t. induction l as [|g l IH]; intros t Hn; [done |]. cbn [overrides foldl] in *. unfold overrides in IH.
  rewrite IH; [|intros g' Hg'; apply Hn; by right]. destruct (Z.eqb_spec v g.1) as [E|]; [|done]. exfalso. apply (Hn g); [by left | done].
Qed.

(** The handler of a vector: the last gate set for it. *)
Definition trap_of (v : Z) : entry_point := foldl (fun e g => if v =? g.1 then g.2 else e) reserved trap_gates.

Lemma overrides_handlers (G : entry_point -> gate) l t v e :
  t v = G e -> overrides ((fun g : Z * entry_point => (g.1, G g.2)) <$> l) t v = G (foldl (fun e g => if v =? g.1 then g.2 else e) e l).
Proof.
  revert t e. induction l as [|g l IH]; intros t e Ht; [done |]. cbn [fmap list_fmap overrides foldl fst snd]. apply IH.
  by destruct (v =? g.1).
Qed.

Lemma overrides_all (g : gate) l t v : v ∈ l -> overrides ((fun i => (i, g)) <$> l) t v = g.
Proof.
  revert t. induction l as [|i l IH]; intros t Hv; [by apply not_elem_of_nil in Hv |].
  destruct (decide (v ∈ l)) as [Hin|Hn]; [by apply (IH (fun v => if v =? i then g else t v)) |].
  apply elem_of_cons in Hv as [-> |?]; [|done]. change (overrides ((fun i => (i, g)) <$> l) (fun v => if v =? i then g else t v) i = g).
  rewrite overrides_other; [by rewrite Z.eqb_refl |]. intros x (j & -> & Hj)%list_elem_of_fmap E. cbn in E. by subst.
Qed.

(** ** The interrupt table of a program *)

Section idt.
Context (sym : entry_point -> Z) (Hsym : forall e, 0 <= sym e < 2 ^ 64).

Definition trap_gate (dpl : Z) (e : entry_point) : gate := Gate (sym e) KNL_CSEL IST IDT_TRAP_GATE dpl 1.
Definition intr_gate (e : entry_point) : gate := Gate (sym e) KNL_CSEL IST IDT_INTR_GATE KNL_PVL 1.

Lemma setgate_to t s s1 idx e typ dpl :
  retabled t s s1 -> 0 <= idx < NIDT -> 0 <= typ < 32 -> 0 <= dpl < 4 ->
  wp (setgate idx (sym e) typ dpl IST) s1 (fun _ s2 => retabled (overrides [(idx, Gate (sym e) KNL_CSEL IST typ dpl 1)] t) s s2).
Proof. intros Hs Hi Ht Hd. apply setgate_spec; [done | lia | apply Hsym | lia | lia | lia]. Qed.

Lemma reserve_all_spec t s s1 :
  retabled t s s1 ->
  wp (reserve_all sym) s1 (fun _ s2 => exists t', retabled t' s s2 /\ forall v, 0 <= v < NIDT -> t' v = trap_gate KNL_PVL reserved).
Proof.
  intros Hs. eapply post_mono; [apply (setgates_spec (seqZ 0 NIDT) id (fun _ => sym reserved)); [exact Hs | | lia | lia] |].
  - apply Forall_forall. intros i Hi. apply elem_of_seqZ in Hi. cbn [id]. split; [lia | apply Hsym].
  - intros [] s2 _ Hs2. eexists. split; [exact Hs2 |]. intros v Hv. apply (overrides_all (trap_gate KNL_PVL reserved)). apply elem_of_seqZ. lia.
Qed.

Lemma trap_init_spec t s s1 :
  retabled t s s1 -> (forall v, 0 <= v < NIDT -> t v = trap_gate KNL_PVL reserved) ->
  wp (trap_init sym) s1 (fun _ s2 => exists t', retabled t' s s2 /\ forall v, 0 <= v < NIDT -> t' v = trap_gate KNL_PVL (trap_of v)).
Proof.
  intros Hs Ht. eapply post_mono; [apply (setgates_spec trap_gates fst (fun g => sym g.2)); [exact Hs | | lia | lia] |].
  - repeat constructor; try apply Hsym; cbn; lia.
  - intros [] s2 _ Hs2. eexists. split; [exact Hs2 |]. intros v Hv. apply (overrides_handlers (trap_gate KNL_PVL)). by apply Ht.
Qed.

(** What interrupt initialisation leaves. *)
Definition vectored (handler : Z -> gate) (s s' : desc_state) : Prop :=
  tables_stay s s' /\
  d_idtr s' = (NIDT * DESC_SIZE - 1, d_idt s) /\ d_gdtr s' = d_gdtr s /\ d_seg s' = d_seg s /\
  (forall v, 0 <= v < NIDT -> vector_gate (d_mem s') (d_idt s) v = handler v) /\
  same_on (fun x => ~ (d_idt s <= x < d_idt s + NIDT * DESC_SIZE)) (d_mem s) (d_mem s').

Lemma interrupt_init_run s :
  d_idt_done s = false ->
  exists s', interrupt_init sym s = Ok tt s' /\ vectored (fun v => trap_gate KNL_PVL (trap_of v)) s s' /\
    interrupt_init sym s' = Ok tt s'.
Proof.
  intros Hd. assert (Hw : wp (idt_init sym) s (fun _ s' => vectored (fun v => trap_gate KNL_PVL (trap_of v)) s s')).
  { unfold idt_init. wp_step. eapply post_mono; [eapply reserve_all_spec, retabled_refl |]. intros [] s1 _ (t1 & Hs1 & Ht1).
    wp_step. eapply post_mono; [by eapply trap_init_spec |]. intros [] s2 _ (t2 & (m & -> & Hm & Hsame) & Ht2).
    unfold lidt_table. wp_step. split_and!; try done. intros v Hv. cbn. by rewrite Hm, Ht2. }
  destruct (wp_elim _ _ _ Hw) as ([] & s' & Hrun & Hv). exists (set_d_idt_done true s'). split_and!; [|exact Hv | done].
  unfold interrupt_init. erewrite bind_step by done. rewrite Hd. cbn [negb when]. by erewrite bind_step by exact Hrun.
Qed.

(** After a program's [interrupt_init] the processor finds, for every
    vector, a present trap gate in the kernel's code segment whose offset
    is the handler meant for that exception, and the handler of unexpected
    interrupts for every other vector; no memory but the table changes, and
    calling it again changes nothing. *)
Theorem interrupt_init_correct s :
  d_idt_done s = false ->
  exists s', interrupt_init sym s = Ok tt s' /\ vectored (fun v => trap_gate KNL_PVL (trap_of v)) s s' /\
    interrupt_init sym s' = Ok tt s'.
Proof. apply interrupt_init_run. Qed.

(** [add_irq] sets one gate and leaves the others and all else. *)
Theorem add_irq_retabled s vector :
  0 <= vector < NIDT ->
  exists s', add_irq sym vector s = Ok tt s' /\
    retabled (fun v => if v =? vector then intr_gate irq_handler else vector_gate (d_mem s) (d_idt s) v) s s'.
Proof.
  intros Hv. destruct (wp_elim (add_irq sym vector) s (fun _ s' => retabled
    (overrides [(vector, intr_gate irq_handler)] (vector_gate (d_mem s) (d_idt s))) s s'))
    as ([] & s' & Hrun & Hm); [|by exists s'].
  exact (setgate_to _ s s vector irq_handler IDT_INTR_GATE KNL_PVL (retabled_refl s) Hv ltac:(lia) ltac:(lia)).
Qed.

(** The gates of the boot loader: a system call for every ring, timer and
    keyboard, and the exceptions. *)
Definition boot_gate (v : Z) : gate :=
  if v =? IRQ_OFFSET + IRQ_KBD then intr_gate kbd_handler else
  if v =? IRQ_OFFSET + IRQ_TIMER then intr_gate timer_handler else
  if v =? IDT_SYSCALL then trap_gate USR_PVL system_call else trap_gate KNL_PVL (trap_of v).

Theorem boot_interrupt_init_correct s :
  exists s', boot_interrupt_init sym s = Ok tt s' /\ vectored boot_gate s s'.
Proof.
  assert (Hw : wp (boot_interrupt_init sym) s (fun _ s' => vectored boot_gate s s')).
  { unfold boot_interrupt_init, boot_idt_init. wp_step. eapply post_mono; [eapply reserve_all_spec, retabled_refl |]. intros [] s1 _ (t1 & Hs1 & Ht1).
    wp_step. unfold boot_trap_init. wp_step. eapply post_mono; [by eapply trap_init_spec |]. intros [] s2 _ (t2 & Hs2 & Ht2).
    eapply post_mono; [apply (setgate_to _ _ _ _ _ _ _ Hs2); lia |]. intros [] s3 _ Hs3.
    wp_step. unfold irq_init. wp_step. eapply post_mono; [apply (setgate_to _ _ _ _ _ _ _ Hs3); lia |]. intros [] s4 _ Hs4.
    eapply post_mono; [apply (setgate_to _ _ _ _ _ _ _ Hs4); lia |]. intros [] s5 _ (m & -> & Hm & Hsame).
    unfold lidt_table. wp_step. split_and!; try done. intros v Hv. cbn [d_mem set_d_idtr set_d_mem]. rewrite Hm.
    unfold boot_gate. cbn [overrides foldl fst snd].
    destruct (v =? IRQ_OFFSET + IRQ_KBD); [reflexivity |]. destruct (v =? IRQ_OFFSET + IRQ_TIMER); [reflexivity |].
    destruct (v =? IDT_SYSCALL); [reflexivity |]. exact (Ht2 v Hv). }
  destruct (wp_elim _ _ _ Hw) as ([] & s' & Hrun & Hv). exists s'. split; [exact Hrun | exact Hv].
Qed.
End idt.

(** ** The segments *)

(** [create_default_gdt] leaves a present 64-bit code segment and a present
    writable data segment of ring 0 behind the selectors it loads, with the
    null descriptor before them, inside the limit of the table. *)
Definition flat_segments (s s' : desc_state) : Prop :=
  tables_stay s s' /\
  d_gdtr s' = (NGDT * DESC_SIZE - 1, d_gdt s) /\ d_idtr s' = d_idtr s /\
  (forall r, r <> LDTR -> d_seg s' r = if decide (r = CS) then KNL_CSEL else KNL_DSEL) /\ d_seg s' LDTR = d_seg s LDTR /\
  segment_at (d_mem s') (d_gdt s) KNL_CSEL = Segment 1 0 1 1 0 1 0 /\
  segment_at (d_mem s') (d_gdt s) KNL_DSEL = Segment 1 0 1 0 1 0 0 /\
  load64 (d_mem s') (d_gdt s) = 0 /\
  same_on (fun x => ~ (d_gdt s <= x < d_gdt s + NGDT * DESC_SIZE)) (d_mem s) (d_mem s').

Lemma create_new_gdt_spec s :
  exists s', create_new_gdt (d_gdt s) (NGDT * DESC_SIZE) s = Ok tt s' /\ d_idt_done s' = d_idt_done s /\ flat_segments s s'.
Proof.
  eexists. split; [reflexivity |]. split; [done |]. unfold flat_segments. cbn [d_gdtr d_idtr d_seg d_mem set_d_gdtr set_d_seg set_d_mem].
  set (a := d_gdt s). change (NGDT * DESC_SIZE) with 80. change (DESC_SIZE * GDT_KCODE) with 16. change (DESC_SIZE * GDT_KDATA) with 32.
  split; [done |]. split_and!.
  - reflexivity.
  - done.
  - intros r Hr. by destruct r.
  - done.
  - unfold segment_at. rewrite load64_store64_ne, load64_store64_eq by lia. reflexivity.
  - unfold segment_at. rewrite load64_store64_eq. reflexivity.
  - rewrite !load64_store64_ne by lia. apply (load_zero 8). intros x Hx. by rewrite byte_at_memset, decide_True by (simpl in Hx; lia).
  - intros x Hx. unfold store64. rewrite !byte_at_store_out by lia. by rewrite byte_at_memset, decide_False by lia.
Qed.

Theorem create_default_gdt_correct s :
  d_gdt_done s = false ->
  exists s', create_default_gdt s = Ok tt s' /\ flat_segments s s' /\ d_idt_done s' = d_idt_done s /\ create_default_gdt s' = Ok tt s'.
Proof.
  intros Hd. destruct (create_new_gdt_spec s) as (s' & Hrun & Hdone & Hf). exists (set_d_gdt_done true s'). split_and!; [|exact Hf | exact Hdone | done].
  unfold create_default_gdt. erewrite bind_step by done. rewrite Hd. cbn [negb when]. by erewrite bind_step by exact Hrun.
Qed.

Theorem boot_create_default_gdt_correct s :
  exists s', boot_create_default_gdt s = Ok tt s' /\ flat_segments s s'.
Proof. destruct (create_new_gdt_spec s) as (s' & Hrun & _ & Hf). by exists s'. Qed.
