(* ===== verification/Apic.v ===== *)
(** * Interrupt controllers and timer (lib/ioapic.c, lib/timer.c, boot/stage2/dev)

    The registers of the I/O APIC (reached through a select and a data
    register), of the local APIC, and the 8259 controllers behind their I/O
    ports.  Writes to ports are recorded in order, so that the controllers can
    be read off the record. *)

From S2P Require Import Prelude PhysMem Descriptors.

Abbreviation REG_VER := 0x01.
Abbreviation REG_TABLE := 0x10.
Abbreviation INT_DISABLED := 0x10000.
Abbreviation IOAPIC_ICR_INT_MASK := 0x10000.

Record apic_state := Apic {
  io_sel : Z;
  io_regs : gmap Z Z;
  la_regs : gmap Z Z;
  port_log : list (Z * Z);   (* port and byte, in order *)
  i8259_mask : Z;            (* [static uint16_t i8259_mask] *)
  ioapicva : Z;
  bus_freq : Z               (* [cpuinfo->bus_freq] *)
}.
Definition set_io (sel : Z) (regs : gmap Z Z) (s : apic_state) : apic_state :=
  Apic sel regs (la_regs s) (port_log s) (i8259_mask s) (ioapicva s) (bus_freq s).
Definition set_la_regs (v : gmap Z Z) (s : apic_state) : apic_state :=
  Apic (io_sel s) (io_regs s) v (port_log s) (i8259_mask s) (ioapicva s) (bus_freq s).
Definition set_port_log (v : list (Z * Z)) (s : apic_state) : apic_state :=
  Apic (io_sel s) (io_regs s) (la_regs s) v (i8259_mask s) (ioapicva s) (bus_freq s).
Definition set_i8259_mask (v : Z) (s : apic_state) : apic_state :=
  Apic (io_sel s) (io_regs s) (la_regs s) (port_log s) v (ioapicva s) (bus_freq s).

(** ** I/O APIC *)

Definition io_reg (s : apic_state) (reg : Z) : Z := default 0 (io_regs s !! reg).

Definition ioapic_read (reg : Z) : M apic_state Z :=
  modify (fun s => set_io (w32 reg) (io_regs s) s) ;;
  gets (fun s => io_reg s (io_sel s)).
Definition ioapic_write (reg data : Z) : M apic_state unit :=
  modify (fun s => set_io (w32 reg) (io_regs s) s) ;;
  modify (fun s => set_io (io_sel s) (<[io_sel s := w32 data]> (io_regs s)) s).

Definition ioapic_version : M apic_state Z := v ← ioapic_read REG_VER; mret (w8 v).

(** The trigger bits are level (15) and active low (13). *)
Definition ioapic_enable (irq cpunum : Z) : M apic_state unit :=
  ioapic_write (REG_TABLE + 2 * irq)
    (IRQ_OFFSET + Z.lor irq (if 16 <? irq then Z.lor (2 ^ 15) (2 ^ 13) else 0)) ;;
  ioapic_write (REG_TABLE + 2 * irq + 1) (cpunum * 2 ^ 24).

(** The boot loader's version does not set the polarity. *)
Definition boot_ioapic_enable (irq cpunum : Z) : M apic_state unit :=
  ioapic_write (REG_TABLE + 2 * irq) (IRQ_OFFSET + Z.lor irq (if 16 <? irq then 2 ^ 15 else 0)) ;;
  ioapic_write (REG_TABLE + 2 * irq + 1) (cpunum * 2 ^ 24).

Definition ioapic_disable (irq cpunum : Z) : M apic_state unit :=
  when (negb (irq =? 0)) (ioapic_write (REG_TABLE + 2 * irq) (Z.lor INT_DISABLED (IRQ_OFFSET + irq))) ;;
  ioapic_write (REG_TABLE + 2 * irq + 1) 0.

Definition ioapic_enable_pin (pin : Z) : M apic_state unit :=
  lo ← ioapic_read (REG_TABLE + 2 * pin);
  ioapic_write (REG_TABLE + 2 * pin) (Z.ldiff lo IOAPIC_ICR_INT_MASK).
Definition ioapic_disable_pin (pin : Z) : M apic_state unit :=
  lo ← ioapic_read (REG_TABLE + 2 * pin);
  ioapic_write (REG_TABLE + 2 * pin) (Z.lor lo IOAPIC_ICR_INT_MASK).

Definition ioapic_eoi (vector : Z) : M apic_state unit :=
  v ← ioapic_version;
  when (0x20 <=? v) (ioapic_write 0x40 (IRQ_OFFSET + vector)).

(** boot/stage2: every interrupt masked and routed nowhere. *)
Definition ioapic_init : M apic_state unit :=
  s ← get;
  if ioapicva s =? 0 then panic "ioapicva is NOT set" else
  v ← ioapic_read REG_VER;
  let maxintr := (v / 2 ^ 16) mod 2 ^ 8 in
  forM (seqZ 0 (maxintr + 1)) (fun i =>
    ioapic_write (REG_TABLE + 2 * i) (Z.lor INT_DISABLED (IRQ_OFFSET + i)) ;;
    ioapic_write (REG_TABLE + 2 * i + 1) 0).

(** ** 8259 controllers *)

Abbreviation MASK_ALL := 0xFF.
Abbreviation INT_CTL := 0x20.
Abbreviation INT_CTLMASK := 0x21.
Abbreviation INT2_CTL := 0xA0.
Abbreviation INT2_CTLMASK := 0xA1.

Definition outb (data port : Z) : M apic_state unit :=
  modify (fun s => set_port_log (port_log s ++ [(port, w8 data)]) s).

Definition i8259_setmask (mask : Z) : M apic_state unit :=
  let mask := w16 mask in
  s ← get;
  when (negb (i8259_mask s =? mask))
    (outb mask INT_CTLMASK ;;
     outb (mask / 2 ^ 8) INT2_CTLMASK ;;
     modify (set_i8259_mask mask)).

Definition i8259_init : M apic_state unit :=
  modify (set_i8259_mask MASK_ALL) ;;
  outb 0x11 INT_CTL ;;
  outb 0x11 INT2_CTL ;;
  outb 0x20 INT_CTLMASK ;;
  outb 0x28 INT2_CTLMASK ;;
  outb 0x04 INT_CTLMASK ;;
  outb 0x02 INT2_CTLMASK ;;
  outb 0x01 INT_CTLMASK ;;
  outb 0x01 INT2_CTLMASK ;;
  s ← get;
  outb (i8259_mask s) INT_CTLMASK ;;
  outb (i8259_mask s / 2 ^ 8) INT2_CTLMASK.

Definition i8259_eoi : M apic_state unit := outb 0x20 INT_CTL ;; outb 0x20 INT2_CTL.

Definition i8259_enable (irq : Z) : M apic_state unit :=
  s ← get; i8259_setmask (Z.ldiff (i8259_mask s) (2 ^ irq)).
Definition i8259_disable (irq : Z) : M apic_state unit :=
  s ← get; i8259_setmask (Z.lor (i8259_mask s) (2 ^ irq)).

(** dev/pic.c *)
Definition pic_init := i8259_init.
Definition pic_enable := i8259_enable.
Definition pic_disable := i8259_disable.
Definition pic_eoi := i8259_eoi.

(** ** Local APIC and timer *)

Abbreviation LAPIC_ID := 0x020.
Abbreviation LAPIC_TPRI := 0x080.
Abbreviation LAPIC_EOI := 0x0b0.
Abbreviation LAPIC_LDR := 0x0d0.
Abbreviation LAPIC_DFR := 0x0e0.
Abbreviation LAPIC_SVR := 0x0f0.
Abbreviation LAPIC_LVTT := 0x320.
Abbreviation LAPIC_PCINT := 0x340.
Abbreviation LAPIC_LVINT0 := 0x350.
Abbreviation LAPIC_LVINT1 := 0x360.
Abbreviation LAPIC_ICR_TIMER := 0x380.
Abbreviation LAPIC_DCR_TIMER := 0x3e0.
Abbreviation LAPIC_LVT_MASKED := 0x10000.
Abbreviation LAPIC_LVT_PERIODIC := 0x20000.
Abbreviation LAPIC_SVR_ENABLE := 0x100.
Abbreviation LAPIC_DCRT_DIV16 := 0x03.
Abbreviation LAPIC_DCRT_DIV1 := 0x0b.

Definition la_reg (s : apic_state) (off : Z) : Z := default 0 (la_regs s !! off).
Definition lapic_read (off : Z) : M apic_state Z := gets (fun s => la_reg s off).
(** The read of the identification register only waits for the write. *)
Definition lapic_write (off val : Z) : M apic_state unit :=
  modify (fun s => set_la_regs (<[off := w32 val]> (la_regs s)) s).
Definition lapic_eoi : M apic_state unit := lapic_write LAPIC_EOI 0.

Definition lapic_on : M apic_state unit :=
  lapic_write LAPIC_DFR 0xffffffff ;;
  ldr ← lapic_read LAPIC_LDR;
  lapic_write LAPIC_LDR (Z.lor (Z.land ldr 0x00ffffff) 1) ;;
  lapic_write LAPIC_LVTT LAPIC_LVT_MASKED ;;
  lapic_write LAPIC_PCINT (4 * 2 ^ 8) ;;
  lapic_write LAPIC_LVINT0 (Z.lor LAPIC_LVT_MASKED (2 ^ 13)) ;;
  lapic_write LAPIC_LVINT1 (Z.lor LAPIC_LVT_MASKED (2 ^ 13)) ;;
  lapic_write LAPIC_TPRI 0 ;;
  lapic_write LAPIC_SVR (Z.lor 39 LAPIC_SVR_ENABLE).

(** The register writes of [init_timer]. *)
Definition program_timer : M apic_state unit :=
  lapic_write LAPIC_LVTT LAPIC_LVT_MASKED ;;
  lapic_write LAPIC_PCINT (4 * 2 ^ 8) ;;
  lapic_write LAPIC_LVINT0 LAPIC_LVT_MASKED ;;
  lapic_write LAPIC_LVINT1 LAPIC_LVT_MASKED ;;
  lapic_write LAPIC_TPRI 0 ;;
  lapic_write LAPIC_SVR (Z.lor 39 LAPIC_SVR_ENABLE) ;;
  lapic_write LAPIC_LVTT (Z.lor 32 LAPIC_LVT_PERIODIC) ;;
  lapic_write LAPIC_DCR_TIMER LAPIC_DCRT_DIV16.
(** [init_timer] also sets the gate of its vector, in the descriptor tables. *)
Definition init_timer (sym : entry_point -> Z) : M (apic_state * desc_state) unit :=
  zoom fst (fun a s => (a, s.2)) program_timer ;;
  zoom snd (fun d s => (s.1, d)) (add_irq sym 32).

Definition timer_on (ms : Z) : M apic_state unit :=
  if ms <? 1 then panic "Invalid time interval" else
  s ← get;
  let counter_value := w64 (bus_freq s / 1000 * ms) in
  lvtt ← lapic_read LAPIC_LVTT;
  lapic_write LAPIC_LVTT (Z.ldiff lvtt LAPIC_LVT_MASKED) ;;
  lapic_write LAPIC_ICR_TIMER counter_value.

Definition timer_off : M apic_state unit :=
  lapic_write LAPIC_ICR_TIMER 0 ;;
  lapic_write LAPIC_LVTT LAPIC_LVT_MASKED.

(** boot/stage2: the timer of the boot processor. *)
Definition lapic_init : M apic_state unit :=
  lapic_write LAPIC_DCR_TIMER LAPIC_DCRT_DIV1 ;;
  lapic_write LAPIC_ICR_TIMER 0x0fffffff ;;
  lapic_write LAPIC_LVTT (Z.lor LAPIC_LVT_PERIODIC (IRQ_OFFSET + IRQ_TIMER)).
