(* ===== verification/ApicSpec.v ===== *)
(** * Correctness of the interrupt controllers

    What the registers written mean to the hardware: where an interrupt line
    is routed, which lines of the 8259 controllers are masked, and how often
    the timer fires. *)

From S2P Require Import Prelude PhysMem Descriptors DescriptorsSpec Apic.

Lemma ldiff_bound a b : 0 <= a -> 0 <= Z.ldiff a b <= a.
Proof.
  intros Ha. apply Z.ldiff_le; [done |]. apply Z.bits_inj'. intros n Hn. rewrite !Z.ldiff_spec, Z.bits_0.
  by destruct (Z.testbit a n), (Z.testbit b n).
Qed.

(** ** Routing of interrupt lines *)

(** An entry of the redirection table. *)
Record route := Route {
  rt_vector : Z;
  rt_mode : Z;
  rt_active_low : Z;
  rt_level : Z;
  rt_masked : Z;
  rt_cpu : Z
}.
Definition route_of (lo hi : Z) : route :=
  Route (bits lo 0 8) (bits lo 8 3) (bits lo 13 1) (bits lo 15 1) (bits lo 16 1) (bits hi 24 8).
Definition route_at (s : apic_state) (irq : Z) : route :=
  route_of (io_reg s (REG_TABLE + 2 * irq)) (io_reg s (REG_TABLE + 2 * irq + 1)).

(** Only the I/O APIC changed, and of its registers only those of [irq]. *)
Definition rerouted (irq : Z) (s s' : apic_state) : Prop :=
  (exists sel regs, s' = set_io sel regs s) /\
  forall r, r <> REG_TABLE + 2 * irq -> r <> REG_TABLE + 2 * irq + 1 -> io_reg s' r = io_reg s r.

Lemma ioapic_write_run reg data s :
  0 <= reg < 2 ^ 32 -> ioapic_write reg data s = Ok tt (set_io reg (<[reg := w32 data]> (io_regs s)) s).
Proof. intros H. unfold ioapic_write. erewrite bind_step by reflexivity. unfold modify. cbn [io_sel io_regs set_io]. by rewrite w32_small. Qed.

Lemma io_reg_set sel regs s r v : io_reg (set_io sel (<[r := v]> regs) s) r = v.
Proof. unfold io_reg. cbn. by rewrite lookup_insert_eq. Qed.
Lemma io_reg_ne sel sel' regs s r r' v : r <> r' -> io_reg (set_io sel (<[r := v]> regs) s) r' = io_reg (set_io sel' regs s) r'.
Proof. intros H. unfold io_reg. cbn. by rewrite lookup_insert_ne. Qed.

(** Both registers of an entry, written one after the other. *)
Lemma write_route irq lo hi s :
  0 <= irq < 2 ^ 30 ->
  exists s', (ioapic_write (REG_TABLE + 2 * irq) lo ;; ioapic_write (REG_TABLE + 2 * irq + 1) hi) s = Ok tt s' /\
    route_at s' irq = route_of (w32 lo) (w32 hi) /\ rerouted irq s s'.
Proof.
  intros H. eexists. split.
  { erewrite bind_step by (apply ioapic_write_run; lia). apply ioapic_write_run. lia. }
  cbn [io_regs set_io]. split; [|split].
  - unfold route_at. rewrite io_reg_set. rewrite (io_reg_ne _ 0) by lia. by rewrite io_reg_set.
  - eexists _, _. reflexivity.
  - intros r H1 H2. unfold io_reg. cbn. by rewrite !lookup_insert_ne by congruence.
Qed.

Lemma lor_high irq k : 0 <= irq < 2 ^ 13 -> k mod 2 ^ 13 = 0 -> Z.lor irq k = k + irq.
Proof. intros H Hk. rewrite Z.lor_comm. by apply (lor_low_add k irq 13). Qed.

(** [ioapic_enable] routes an interrupt line to a CPU: vector 32 above
    the line's number, fixed delivery, not masked, level triggered and active
    low exactly for lines above 16 (edge triggered and active high for the
    others), to the CPU named; no other entry changes. *)
Theorem ioapic_enable_correct irq cpunum s :
  0 <= irq < 224 -> 0 <= cpunum < 256 ->
  exists s', ioapic_enable irq cpunum s = Ok tt s' /\
    route_at s' irq = (let high := if 16 <? irq then 1 else 0 in Route (32 + irq) 0 high high 0 cpunum) /\ rerouted irq s s'.
Proof.
  intros Hi Hc. unfold ioapic_enable. edestruct (write_route irq) as (s' & Hrun & Hr & Hs); [|exists s'; split; [exact Hrun |]]; [lia |].
  split; [|exact Hs]. rewrite Hr. unfold route_of, bits, w32. change (Z.lor (2 ^ 15) (2 ^ 13)) with (2 ^ 15 + 2 ^ 13).
  destruct (16 <? irq); rewrite lor_high by (done || lia); cbn [Z.pow Z.pow_pos Pos.iter Z.mul Pos.mul];
    f_equal; Z.to_euclidean_division_equations; lia.
Qed.

Theorem boot_ioapic_enable_correct irq cpunum s :
  0 <= irq < 224 -> 0 <= cpunum < 256 ->
  exists s', boot_ioapic_enable irq cpunum s = Ok tt s' /\
    route_at s' irq = Route (32 + irq) 0 0 (if 16 <? irq then 1 else 0) 0 cpunum /\ rerouted irq s s'.
Proof.
  intros Hi Hc. unfold boot_ioapic_enable. edestruct (write_route irq) as (s' & Hrun & Hr & Hs); [|exists s'; split; [exact Hrun |]]; [lia |].
  split; [|exact Hs]. rewrite Hr. unfold route_of, bits, w32.
  destruct (16 <? irq); rewrite lor_high by (done || lia); cbn [Z.pow Z.pow_pos Pos.iter Z.mul Pos.mul];
    f_equal; Z.to_euclidean_division_equations; lia.
Qed.

(** [ioapic_disable] masks every line but line 0, which it leaves enabled,
    routed to CPU 0. *)
Theorem ioapic_disable_correct irq cpunum s :
  0 <= irq < 224 ->
  exists s', ioapic_disable irq cpunum s = Ok tt s' /\ rerouted irq s s' /\
    if irq =? 0 then io_reg s' REG_TABLE = io_reg s REG_TABLE else route_at s' irq = Route (32 + irq) 0 0 0 1 0.
Proof.
  intros Hi. unfold ioapic_disable. destruct (Z.eqb_spec irq 0) as [-> |Hne].
  - cbn [negb when]. erewrite bind_step by reflexivity. rewrite ioapic_write_run by lia. eexists. split_and!; [reflexivity | split | ].
    + eexists _, _. reflexivity.
    + intros r H1 H2. unfold io_reg. cbn. by rewrite lookup_insert_ne by congruence.
    + unfold io_reg. cbn. by rewrite lookup_insert_ne.
  - cbn [negb when]. edestruct (write_route irq) as (s' & Hrun & Hr & Hs); [|exists s'; split; [exact Hrun |]]; [lia |].
    split; [exact Hs |]. rewrite Hr. unfold route_of, bits, w32. rewrite (lor_low_add INT_DISABLED (IRQ_OFFSET + irq) 16) by (done || lia).
    cbn [Z.pow Z.pow_pos Pos.iter Z.mul Pos.mul]. f_equal; Z.to_euclidean_division_equations; lia.
Qed.

(** Masking a pin and unmasking it again changes no other bit. *)
Theorem pin_roundtrip pin s :
  0 <= pin < 2 ^ 30 -> 0 <= io_reg s (REG_TABLE + 2 * pin) < 2 ^ 32 ->
  exists s1 s2, ioapic_disable_pin pin s = Ok tt s1 /\ rt_masked (route_at s1 pin) = 1 /\
    ioapic_enable_pin pin s1 = Ok tt s2 /\ rt_masked (route_at s2 pin) = 0 /\
    forall i, 0 <= i -> i <> 16 ->
      Z.testbit (io_reg s2 (REG_TABLE + 2 * pin)) i = Z.testbit (io_reg s (REG_TABLE + 2 * pin)) i.
Proof.
  intros Hp Hr. set (reg := REG_TABLE + 2 * pin) in *. set (lo := io_reg s reg) in *.
  assert (Hread : forall s, ioapic_read reg s = Ok (io_reg s reg) (set_io reg (io_regs s) s)).
  { intros s0. unfold ioapic_read. erewrite bind_step by reflexivity. unfold gets. cbn [io_sel set_io]. by rewrite w32_small by lia. }
  assert (Hbit : forall x, bits x 16 1 = Z.b2z (Z.testbit x 16)).
  { intros x. unfold bits. by rewrite Z.testbit_spec' by lia. }
  assert (Hlor : 0 <= Z.lor lo IOAPIC_ICR_INT_MASK < 2 ^ 32).
  { by apply lor_bound. }
  eexists _, _. split_and!.
  - unfold ioapic_disable_pin. fold reg. erewrite bind_step by apply Hread. apply ioapic_write_run. lia.
  - unfold route_at. fold reg. cbn [rt_masked route_of]. rewrite Hbit, io_reg_set, w32_small by done. fold lo. by rewrite Z.lor_spec, orb_true_r.
  - unfold ioapic_enable_pin. fold reg. erewrite bind_step by apply Hread. apply ioapic_write_run. lia.
  - unfold route_at. fold reg. cbn [rt_masked route_of]. rewrite Hbit, !io_reg_set, (w32_small (Z.lor _ _)) by done. fold lo.
    unfold w32. rewrite Z.mod_pow2_bits_low by lia. by rewrite Z.ldiff_spec, andb_false_r.
  - intros i Hi Hne. rewrite !io_reg_set, (w32_small (Z.lor _ _)) by done. fold lo. unfold w32.
    assert (Hm : Z.testbit IOAPIC_ICR_INT_MASK i = false).
    { change IOAPIC_ICR_INT_MASK with (2 ^ 16). rewrite Z.pow2_bits_eqb by lia. by apply Z.eqb_neq. }
    destruct (Z.lt_ge_cases i 32) as [Hlt|Hge].
    + rewrite Z.mod_pow2_bits_low, Z.ldiff_spec, Z.lor_spec, Hm by lia. by rewrite orb_false_r, andb_true_r.
    + rewrite Z.mod_pow2_bits_high by lia. symmetry. destruct (decide (lo = 0)) as [-> |]; [apply Z.bits_0 |].
      apply Z.bits_above_log2; [lia |]. apply Z.log2_lt_pow2; [lia |]. eapply Z.lt_le_trans; [apply Hr |]. by apply Z.pow_le_mono_r.
Qed.

(** ** The 8259 controllers *)

(** One controller, as the bytes written to its two ports program it: a write
    of 0x11 to the first port starts an initialisation of three more words on
    the second; later words there are the mask. *)
Record chip := Chip { c_stage : Z; c_base : Z; c_cascade : Z; c_mode : Z; c_mask : Z }.
Definition chip_step (ctl data : Z) (c : chip) (w : Z * Z) : chip :=
  if w.1 =? ctl then (if Z.testbit w.2 4 then Chip 1 (c_base c) (c_cascade c) (c_mode c) 0 else c)
  else if w.1 =? data then
    (if c_stage c =? 1 then Chip 2 w.2 (c_cascade c) (c_mode c) (c_mask c)
     else if c_stage c =? 2 then Chip 3 (c_base c) w.2 (c_mode c) (c_mask c)
     else if c_stage c =? 3 then Chip 0 (c_base c) (c_cascade c) w.2 (c_mask c)
     else Chip 0 (c_base c) (c_cascade c) (c_mode c) w.2)
  else c.
Definition chip_after (ctl data : Z) (l : list (Z * Z)) (c : chip) : chip := foldl (chip_step ctl data) c l.
Definition master (s : apic_state) (c : chip) : chip := chip_after INT_CTL INT_CTLMASK (port_log s) c.
Definition slave (s : apic_state) (c : chip) : chip := chip_after INT2_CTL INT2_CTLMASK (port_log s) c.

(** The controllers agree with the variable that remembers their masks. *)
Definition pic_inv (c1 c2 : chip) (s : apic_state) : Prop :=
  0 <= i8259_mask s < 2 ^ 16 /\
  master s c1 = Chip 0 0x20 0x04 0x01 (i8259_mask s mod 2 ^ 8) /\
  slave s c2 = Chip 0 0x28 0x02 0x01 (i8259_mask s / 2 ^ 8).

(** The requests served after the initialisation. *)
Inductive pic_op := Enable (irq : Z) | Disable (irq : Z) | Eoi.
Definition run_pic (o : pic_op) : M apic_state unit :=
  match o with Enable irq => pic_enable irq | Disable irq => pic_disable irq | Eoi => pic_eoi end.
Definition op_ok (o : pic_op) : Prop := match o with Enable irq | Disable irq => 0 <= irq < 16 | Eoi => True end.

Lemma pic_init_inv c1 c2 s : wp pic_init s (fun _ s' => pic_inv c1 c2 s' /\ i8259_mask s' = MASK_ALL).
Proof.
  unfold pic_init, i8259_init, outb. repeat (wp_step || (apply post_gets; cbv beta)).
  split; [|done]. unfold pic_inv, master, slave, chip_after. cbn [port_log set_port_log set_i8259_mask i8259_mask]. split; [lia |].
  rewrite <-!app_assoc, !foldl_app. set (d1 := foldl _ c1 _). set (d2 := foldl _ c2 _). by destruct d1, d2.
Qed.

Lemma setmask_inv c1 c2 mask s : pic_inv c1 c2 s -> 0 <= mask < 2 ^ 16 -> wp (i8259_setmask mask) s (fun _ s' => pic_inv c1 c2 s').
Proof.
  intros (Hm & H1 & H2) Hk. unfold i8259_setmask, outb. wp_step. apply post_gets. rewrite (w16_small mask) by done. wp_step; [|done].
  wp_step. wp_step. wp_step. wp_step. wp_step. unfold pic_inv, master, slave, chip_after in *.
  cbn [port_log set_port_log set_i8259_mask i8259_mask]. rewrite !foldl_app, H1, H2. split; [done |]. cbn [foldl]. split; [done |].
  unfold chip_step. cbn [fst snd Z.eqb Pos.eqb c_stage c_base c_cascade c_mode]. f_equal. apply w8_small.
  Z.to_euclidean_division_equations. lia.
Qed.

Lemma run_pic_inv c1 c2 o s : op_ok o -> pic_inv c1 c2 s -> wp (run_pic o) s (fun _ s' => pic_inv c1 c2 s').
Proof.
  intros Ho Hi. destruct o as [irq|irq|]; cbn [run_pic op_ok] in *.
  - unfold pic_enable, i8259_enable. wp_step. apply post_gets. apply setmask_inv; [done |]. destruct Hi as (Hm & _).
    pose proof (ldiff_bound (i8259_mask s) (2 ^ irq)). lia.
  - unfold pic_disable, i8259_disable. wp_step. apply post_gets. apply setmask_inv; [done |]. destruct Hi as (Hm & _).
    apply lor_bound; [lia | done |]. split; [lia |]. apply Z.pow_lt_mono_r; lia.
  - unfold pic_eoi, i8259_eoi, outb. wp_step. wp_step. wp_step. destruct Hi as (Hm & H1 & H2). unfold pic_inv, master, slave, chip_after in *.
    cbn [port_log set_port_log i8259_mask]. rewrite !foldl_app, H1, H2. done.
Qed.

(** The 8259 controllers follow the mask: after [pic_init] and any
    sequence of enabling, disabling and end-of-interrupt requests for lines 0
    to 15, both controllers are initialised (vectors 0x20 and 0x28, cascaded,
    8086 mode) and their mask registers are the two bytes of [i8259_mask]. *)
Theorem pic_follows_mask c1 c2 ops s :
  Forall op_ok ops ->
  exists s', (pic_init ;; forM ops run_pic) s = Ok tt s' /\ pic_inv c1 c2 s'.
Proof.
  intros Ho. destruct (wp_elim (pic_init ;; forM ops run_pic) s (fun _ s' => pic_inv c1 c2 s')) as ([] & s' & Hrun & Hi); [|by exists s'].
  wp_step. eapply post_mono; [apply pic_init_inv |]. intros [] s1 _ [Hi _]. revert s1 Hi.
  induction Ho as [|o ops Ho Hos IH]; intros s1 Hi; cbn [forM]; [by wp_step |].
  wp_step. eapply post_mono; [by apply run_pic_inv |]. intros [] s2 _ Hi2. by apply IH.
Qed.

(** The mask [pic_init] starts from is a byte, so that every line of the
    second controller is left unmasked. *)
Theorem pic_init_unmasks_slave c1 c2 s :
  exists s', pic_init s = Ok tt s' /\ c_mask (master s' c1) = 0xFF /\ c_mask (slave s' c2) = 0.
Proof.
  destruct (wp_elim _ _ _ (pic_init_inv c1 c2 s)) as ([] & s' & Hrun & (_ & H1 & H2) & Hm). exists s'. rewrite H1, H2, Hm. done.
Qed.

(** ** The timer *)

(** What the divide configuration register stands for. *)
Definition divisor (dcr : Z) : Z :=
  let k := Z.lor (Z.land dcr 3) (Z.shiftr (Z.land dcr 8) 1) in if k =? 7 then 1 else 2 ^ (k + 1).

Lemma program_timer_run a :
  exists a1, program_timer a = Ok tt a1 /\ bus_freq a1 = bus_freq a /\ la_reg a1 LAPIC_LVTT = 0x20020 /\ la_reg a1 LAPIC_DCR_TIMER = 3.
Proof.
  destruct (wp_elim program_timer a (fun _ a1 => bus_freq a1 = bus_freq a /\ la_reg a1 LAPIC_LVTT = 0x20020 /\ la_reg a1 LAPIC_DCR_TIMER = 3))
    as ([] & a1 & H); [|by exists a1].
  unfold program_timer, lapic_write. repeat wp_step. split; [done |]. unfold la_reg. cbn [la_regs set_la_regs].
  rewrite lookup_insert_eq. by rewrite lookup_insert_ne, lookup_insert_eq.
Qed.

(** The timer is periodic, unmasked, raises vector 32 and counts [n] bus cycles. *)
Definition timer_every (n : Z) (a : apic_state) : Prop :=
  bits (la_reg a LAPIC_LVTT) 0 8 = 32 /\ bits (la_reg a LAPIC_LVTT) 16 1 = 0 /\ bits (la_reg a LAPIC_LVTT) 17 1 = 1 /\
  la_reg a LAPIC_ICR_TIMER * divisor (la_reg a LAPIC_DCR_TIMER) = n.

Lemma timer_on_run ms a :
  1 <= ms -> 0 <= bus_freq a / 1000 * ms < 2 ^ 32 -> la_reg a LAPIC_LVTT = 0x20020 -> la_reg a LAPIC_DCR_TIMER = 3 ->
  exists a2, timer_on ms a = Ok tt a2 /\ timer_every (16 * (bus_freq a / 1000 * ms)) a2 /\ bus_freq a2 = bus_freq a.
Proof.
  intros Hms Hc Hlv Hdc. set (a2 := set_la_regs (<[LAPIC_LVTT := w32 (Z.ldiff (la_reg a LAPIC_LVTT) LAPIC_LVT_MASKED)]> (la_regs a)) a).
  set (a3 := set_la_regs (<[LAPIC_ICR_TIMER := w32 (w64 (bus_freq a / 1000 * ms))]> (la_regs a2)) a2).
  exists a3. split; [unfold timer_on; destruct (Z.ltb_spec ms 1); [lia | reflexivity] |]. split; [|done].
  assert (Hl : la_reg a3 LAPIC_LVTT = 0x20020).
  { unfold la_reg, a3, a2. cbn [la_regs set_la_regs]. rewrite lookup_insert_ne, lookup_insert_eq by done. by rewrite Hlv. }
  assert (Hd : la_reg a3 LAPIC_DCR_TIMER = 3).
  { rewrite <-Hdc. unfold la_reg, a3, a2. cbn [la_regs set_la_regs]. by rewrite !lookup_insert_ne by done. }
  unfold timer_every. rewrite Hl, Hd. do 3 (split; [reflexivity |]).
  unfold la_reg, a3. cbn [la_regs set_la_regs]. rewrite lookup_insert_eq. cbn [default]. unfold id.
  rewrite w64_small, w32_small by lia. change (divisor 3) with 16. lia.
Qed.

Lemma timer_off_run a : exists a1, timer_off a = Ok tt a1 /\ bus_freq a1 = bus_freq a.
Proof. by eexists. Qed.

Lemma init_timer_run sym a d :
  (forall e, 0 <= sym e < 2 ^ 64) ->
  exists a1 d1, init_timer sym (a, d) = Ok tt (a1, d1) /\
    bus_freq a1 = bus_freq a /\ la_reg a1 LAPIC_LVTT = 0x20020 /\ la_reg a1 LAPIC_DCR_TIMER = 3 /\
    retabled (fun v => if v =? 32 then intr_gate sym irq_handler else vector_gate (d_mem d) (d_idt d) v) d d1.
Proof.
  intros Hsym. destruct (add_irq_retabled sym Hsym d 32 ltac:(lia)) as (d1 & Hirq & Hd).
  destruct (program_timer_run a) as (a1 & Ea & Hf & Hlv & Hdc). exists a1, d1. split; [|by repeat (split; [done |])].
  unfold init_timer. erewrite bind_step by (unfold zoom; cbn [fst]; rewrite Ea; reflexivity). unfold zoom. cbn [snd fst]. by rewrite Hirq.
Qed.

(** The timer of a program: after [init_timer] its vector is 32 with the
    gate of [irq_handler] and the timer is periodic; [timer_on ms] for a
    positive interval then unmasks it, and between two interrupts pass 16
    times as many bus cycles as [ms] milliseconds have, since the count is
    not divided by the divisor of 16 that was programmed. *)
Theorem timer_period sym ms a d :
  (forall e, 0 <= sym e < 2 ^ 64) -> 1 <= ms -> 0 <= bus_freq a / 1000 * ms < 2 ^ 32 ->
  exists a1 d1 a2, init_timer sym (a, d) = Ok tt (a1, d1) /\ timer_on ms a1 = Ok tt a2 /\
    vector_gate (d_mem d1) (d_idt d) 32 = intr_gate sym irq_handler /\
    timer_every (16 * (bus_freq a / 1000 * ms)) a2.
Proof.
  intros Hsym Hms Hc. destruct (init_timer_run sym a d Hsym) as (a1 & d1 & Hi & Hf & Hlv & Hdc & m & -> & Hg & _).
  destruct (timer_on_run ms a1 Hms ltac:(by rewrite Hf) Hlv Hdc) as (a2 & Ht & He & _). rewrite Hf in He.
  exists a1, (set_d_mem m d), a2. split; [done |]. split; [done |]. split; [exact (Hg 32) | done].
Qed.
