(* ===== verification/Pci.v ===== *)
(** * PCI bus scan (drivers/pci/pci.c, drivers/pci/pci.h)

    The scan reaches the configuration space of the devices through an address
    and a data port.  The hardware behind the ports is a byte per configuration
    address: bytes of functions that do not exist read as ones, and a write
    changes the bits that are writable there (a base-address register answers
    the size probe because its low bits are fixed).  [sym] gives the addresses
    of the interrupt entry points.  [DEBUG] output, compiled in only with
    [__DEBUG__], is not part of the state. *)

From S2P Require Import Prelude PhysMem Descriptors Apic.

Abbreviation PCI_VID := 0x00.
Abbreviation PCI_DID := 0x02.
Abbreviation PCI_CR := 0x04.
Abbreviation PCI_CR_MEM_EN := 0x0002.
Abbreviation PCI_CR_IO_EN := 0x0001.
Abbreviation PCI_SR := 0x06.
Abbreviation PCI_PIFR := 0x09.
Abbreviation PCI_SCR := 0x0A.
Abbreviation PCI_BCR := 0x0B.
Abbreviation PCI_HEADT := 0x0E.
Abbreviation PCI_BAR := 0x10.
Abbreviation PCI_BAR_IO := 0x00000001.
Abbreviation PCI_BAR_TYPE := 0x00000006.
Abbreviation PCI_TYPE_32 := 0x00000000.
Abbreviation PCI_TYPE_32_1M := 0x00000002.
Abbreviation PCI_TYPE_64 := 0x00000004.
Abbreviation PCI_BAR_IO_MASK := 0xFFFFFFFC.
Abbreviation PCI_BAR_MEM_MASK := 0xFFFFFFF0.
Abbreviation PCI_BAR_6 := 0x24.
Abbreviation PCI_ILR := 0x3C.
Abbreviation PCI_IPR := 0x3D.
Abbreviation NO_VID := 0xffff.
Abbreviation SUBCLASS_NET := 0x02.
Abbreviation PCII_CONFADD := 0xCF8.
Abbreviation PCII_CONFDATA := 0xCFC.
Abbreviation PCII_UNSEL := 0.
Abbreviation PCIIC_CODE := 0x80000000.
Abbreviation NR_PCIDEV := 50.
Abbreviation BAR_NR := 6.
Abbreviation PBF_IO := 1.

(** ** Configuration space *)

Definition cfg_byte (c : gmap Z Z) (a : Z) : Z := w8 (default 0xff (c !! a)).
Definition rw_byte (rw : gmap Z Z) (a : Z) : Z := w8 (default 0 (rw !! a)).
Fixpoint cfg_load (n : nat) (c : gmap Z Z) (a : Z) : Z :=
  match n with
  | O => 0
  | S n' => cfg_byte c a + 2 ^ 8 * cfg_load n' c (a + 1)
  end.
Definition masked (old mask v : Z) : Z := Z.lor (Z.ldiff old mask) (Z.land v mask).
Fixpoint cfg_store (n : nat) (rw : gmap Z Z) (c : gmap Z Z) (a v : Z) : gmap Z Z :=
  match n with
  | O => c
  | S n' => cfg_store n' rw (<[a := masked (cfg_byte c a) (rw_byte rw a) (w8 v)]> c) (a + 1) (v / 2 ^ 8)
  end.

(** ** State *)

Record bar := Bar { b_flags : Z; b_nr : Z; b_base : Z; b_size : Z }.
Record pcidev := PciDev {
  busnr : Z; devnr : Z; funcnr : Z;
  baseclass : Z; subclass : Z; infclass : Z; headt : Z;
  vid : Z; did : Z; ilr : Z; sts : Z; ipr : Z;
  bars : list bar; bar_nr : Z
}.
Definition set_place (b d f : Z) (p : pcidev) : pcidev :=
  PciDev b d f (baseclass p) (subclass p) (infclass p) (headt p) (vid p) (did p) (ilr p) (sts p)
    (ipr p) (bars p) (bar_nr p).
Definition set_ids (v d : Z) (p : pcidev) : pcidev :=
  PciDev (busnr p) (devnr p) (funcnr p) (baseclass p) (subclass p) (infclass p) (headt p) v d (ilr p)
    (sts p) (ipr p) (bars p) (bar_nr p).
Definition set_header (h st : Z) (p : pcidev) : pcidev :=
  PciDev (busnr p) (devnr p) (funcnr p) (baseclass p) (subclass p) (infclass p) h (vid p) (did p) (ilr p)
    st (ipr p) (bars p) (bar_nr p).
Definition set_class (bc sc ic : Z) (p : pcidev) : pcidev :=
  PciDev (busnr p) (devnr p) (funcnr p) bc sc ic (headt p) (vid p) (did p) (ilr p) (sts p) (ipr p)
    (bars p) (bar_nr p).
Definition set_intr (line pin : Z) (p : pcidev) : pcidev :=
  PciDev (busnr p) (devnr p) (funcnr p) (baseclass p) (subclass p) (infclass p) (headt p) (vid p) (did p)
    line (sts p) pin (bars p) (bar_nr p).
Definition set_bars (bs : list bar) (n : Z) (p : pcidev) : pcidev :=
  PciDev (busnr p) (devnr p) (funcnr p) (baseclass p) (subclass p) (infclass p) (headt p) (vid p) (did p)
    (ilr p) (sts p) (ipr p) bs n.

Record pci := Pci {
  confadd : Z;             (* the address port *)
  cfg : gmap Z Z;          (* configuration space *)
  cfg_rw : gmap Z Z;       (* its writable bits *)
  pcidevs : list pcidev;   (* [pcidev[NR_PCIDEV]] *)
  nr_pcidev : Z;
  pci_apic : apic_state;
  pci_desc : desc_state
}.
Definition set_confadd (v : Z) (s : pci) : pci :=
  Pci v (cfg s) (cfg_rw s) (pcidevs s) (nr_pcidev s) (pci_apic s) (pci_desc s).
Definition set_cfg (v : gmap Z Z) (s : pci) : pci :=
  Pci (confadd s) v (cfg_rw s) (pcidevs s) (nr_pcidev s) (pci_apic s) (pci_desc s).
Definition set_pcidevs (v : list pcidev) (s : pci) : pci :=
  Pci (confadd s) (cfg s) (cfg_rw s) v (nr_pcidev s) (pci_apic s) (pci_desc s).
Definition set_nr_pcidev (v : Z) (s : pci) : pci :=
  Pci (confadd s) (cfg s) (cfg_rw s) (pcidevs s) v (pci_apic s) (pci_desc s).
Definition set_pci_apic (v : apic_state) (s : pci) : pci :=
  Pci (confadd s) (cfg s) (cfg_rw s) (pcidevs s) (nr_pcidev s) v (pci_desc s).
Definition set_pci_desc (v : desc_state) (s : pci) : pci :=
  Pci (confadd s) (cfg s) (cfg_rw s) (pcidevs s) (nr_pcidev s) (pci_apic s) v.

(** The variables before the scan: all zero. *)
Definition no_bar : bar := Bar 0 0 0 0.
Definition no_pcidev : pcidev := PciDev 0 0 0 0 0 0 0 0 0 0 0 0 (replicate 6 no_bar) 0.

(** ** Ports *)

Definition conf_in (n : nat) (port : Z) : M pci Z :=
  gets (fun s => cfg_load n (cfg s) (confadd s + (port - PCII_CONFDATA))).
Definition conf_out (n : nat) (v port : Z) : M pci unit :=
  modify (fun s => set_cfg (cfg_store n (cfg_rw s) (cfg s) (confadd s + (port - PCII_CONFDATA)) v) s).
Definition outl (v port : Z) : M pci unit :=
  if port =? PCII_CONFADD then modify (set_confadd (w32 v)) else conf_out 4 v port.

Definition PCII_SELREG_ (bus dev func reg : Z) : Z :=
  Z.lor (Z.lor (Z.lor (Z.lor PCIIC_CODE
    (Z.land (bus * 2 ^ 16) 0xff0000))
    (Z.land (dev * 2 ^ 11) 0xf800))
    (Z.land (func * 2 ^ 8) 0x700))
    (Z.land (reg / 4 * 2 ^ 2) 0xfc).

Definition PCII_RREG8_ (bus dev func reg : Z) : M pci Z :=
  outl (PCII_SELREG_ bus dev func reg) PCII_CONFADD ;; conf_in 1 (PCII_CONFDATA + Z.land reg 3).
Definition PCII_RREG16_ (bus dev func reg : Z) : M pci Z :=
  outl (PCII_SELREG_ bus dev func reg) PCII_CONFADD ;; conf_in 2 (PCII_CONFDATA + Z.land reg 2).
Definition PCII_RREG32_ (bus dev func reg : Z) : M pci Z :=
  outl (PCII_SELREG_ bus dev func reg) PCII_CONFADD ;; conf_in 4 PCII_CONFDATA.
Definition PCII_WREG8_ (bus dev func reg val : Z) : M pci unit :=
  outl (PCII_SELREG_ bus dev func reg) PCII_CONFADD ;; conf_out 1 val (PCII_CONFDATA + Z.land reg 3).
Definition PCII_WREG16_ (bus dev func reg val : Z) : M pci unit :=
  outl (PCII_SELREG_ bus dev func reg) PCII_CONFADD ;; conf_out 2 val (PCII_CONFDATA + Z.land reg 2).
Definition PCII_WREG32_ (bus dev func reg val : Z) : M pci unit :=
  outl (PCII_SELREG_ bus dev func reg) PCII_CONFADD ;; outl val PCII_CONFDATA.

(** ** Attributes of a recorded function *)

Definition pci_dev (devidx : Z) : M pci pcidev :=
  s ← get;
  if devidx <? 0 then stop_with (Fault "pcidev") else
  of_option (Fault "pcidev") (pcidevs s !! Z.to_nat devidx).
Definition update_dev (devidx : Z) (f : pcidev -> pcidev) : M pci unit :=
  p ← pci_dev devidx;
  modify (fun s => set_pcidevs (<[Z.to_nat devidx := f p]> (pcidevs s)) s).

Definition pci_attr_w8 (devidx port value : Z) : M pci unit :=
  p ← pci_dev devidx; PCII_WREG8_ (busnr p) (devnr p) (funcnr p) port (w8 value).
Definition pci_attr_w16 (devidx port value : Z) : M pci unit :=
  p ← pci_dev devidx; PCII_WREG16_ (busnr p) (devnr p) (funcnr p) port (w16 value).
Definition pci_attr_w32 (devidx port value : Z) : M pci unit :=
  p ← pci_dev devidx; PCII_WREG32_ (busnr p) (devnr p) (funcnr p) port (w32 value).
Definition pci_attr_r8_u (devidx port : Z) : M pci Z :=
  p ← pci_dev devidx; PCII_RREG8_ (busnr p) (devnr p) (funcnr p) port.
Definition pci_attr_r16 (devidx port : Z) : M pci Z :=
  p ← pci_dev devidx; PCII_RREG16_ (busnr p) (devnr p) (funcnr p) port.
Definition pci_attr_r32_u (devidx port : Z) : M pci Z :=
  p ← pci_dev devidx; PCII_RREG32_ (busnr p) (devnr p) (funcnr p) port.
(** The status is read from device 0, function 0 of the bus. *)
Definition pci_attr_rsts (devidx : Z) : M pci Z :=
  p ← pci_dev devidx; PCII_RREG16_ (busnr p) 0 0 PCI_SR.

(** ** Base-address registers *)

(** Disable the accesses [en], write ones to the register, read it back, and
    restore both registers. *)
Definition probe_size (devidx reg bar en : Z) : M pci Z :=
  cmd ← pci_attr_r16 devidx PCI_CR;
  pci_attr_w16 devidx PCI_CR (Z.ldiff cmd en) ;;
  pci_attr_w32 devidx reg 0xffffffff ;;
  bar2 ← pci_attr_r32_u devidx reg;
  pci_attr_w32 devidx reg bar ;;
  pci_attr_w16 devidx PCI_CR cmd ;;
  mret bar2.

(** [pcidev[devidx].bar[pcidev[devidx].bar_nr++] = b] *)
Definition append_bar (devidx : Z) (b : bar) : M pci unit :=
  p ← pci_dev devidx;
  if (bar_nr p <? 0) || (BAR_NR <=? bar_nr p) then stop_with (Fault "bar") else
  update_dev devidx (set_bars (<[Z.to_nat (bar_nr p) := b]> (bars p)) (bar_nr p + 1)).

(** The memory case once the width is known. *)
Definition record_mem_bar (devidx bar_nr bar width : Z) : M pci Z :=
  bar2 ← probe_size devidx (PCI_BAR + 4 * bar_nr) bar PCI_CR_MEM_EN;
  if bar2 =? 0 then mret width else
  let base := Z.land bar PCI_BAR_MEM_MASK in
  let size := w32 (w32 (Z.lnot (Z.land bar2 PCI_BAR_MEM_MASK)) + 1) in
  append_bar devidx (Bar 0 bar_nr base size) ;;
  if base =? 0 then panic "Bar is zero!" else mret width.

Definition record_bar (devidx bar_nr : Z) (last : bool) : M pci Z :=
  let reg := PCI_BAR + 4 * bar_nr in
  bar ← pci_attr_r32_u devidx reg;
  if negb (Z.land bar PCI_BAR_IO =? 0) then
    bar2 ← probe_size devidx reg bar PCI_CR_IO_EN;
    let base := Z.land bar PCI_BAR_IO_MASK in
    let size := Z.land (Z.lnot (Z.land bar2 PCI_BAR_IO_MASK)) 0xffff + 1 in
    append_bar devidx (Bar PBF_IO bar_nr base size) ;;
    if base =? 0 then panic "Bar is zero!" else mret 1
  else
    let type := Z.land bar PCI_BAR_TYPE in
    if (type =? PCI_TYPE_32) || (type =? PCI_TYPE_32_1M) then record_mem_bar devidx bar_nr bar 1
    else if type =? PCI_TYPE_64 then
      if last then mret 1 else
      high ← pci_attr_r32_u devidx (reg + 4);
      if negb (high =? 0) then mret 2 else record_mem_bar devidx bar_nr bar 2
    else mret 1.

Fixpoint record_bars_loop (fuel : nat) (devidx i reg last_reg : Z) : M pci unit :=
  if last_reg <? reg then mret tt else
  match fuel with
  | O => stop_with Diverge
  | S fuel =>
      width ← record_bar devidx i (reg =? last_reg);
      record_bars_loop fuel devidx (i + width) (reg + 4 * width) last_reg
  end.
(** Every register is four bytes, so their number bounds the rounds. *)
Definition record_bars (devidx last_reg : Z) : M pci unit :=
  record_bars_loop (Z.to_nat last_reg) devidx 0 PCI_BAR last_reg.

(** ** The scan *)

Section Scan.
Context (sym : entry_point -> Z).

Definition route_irq (irq : Z) : M pci unit := zoom pci_apic set_pci_apic (ioapic_enable irq 3).
Definition catch_irq (vector : Z) : M pci unit := zoom pci_desc set_pci_desc (add_irq sym vector).

(** An Intel network card: its interrupts and its base-address registers. *)
Definition setup_card (devidx : Z) : M pci unit :=
  p ← pci_dev devidx;
  let devfunc := w32 (devnr p * 8 + funcnr p) in
  let pirq := Z.land (w32 (devfunc / 2 ^ 3 + ipr p - 2)) 3 in
  route_irq (pirq + 0 + 16) ;; route_irq (pirq + 1 + 16) ;;
  route_irq (pirq + 2 + 16) ;; route_irq (pirq + 3 + 16) ;;
  catch_irq (32 + pirq + 0 + 16) ;; catch_irq (32 + pirq + 1 + 16) ;;
  catch_irq (32 + pirq + 2 + 16) ;; catch_irq (32 + pirq + 3 + 16) ;;
  pci_attr_w8 devidx PCI_ILR pirq ;;
  record_bars devidx PCI_BAR_6.

(** The body of the two loops. *)
Definition probe_function (bus d f : Z) : M pci unit :=
  idx ← gets nr_pcidev;
  update_dev idx (set_place (w8 bus) (w8 d) (w8 f)) ;;
  v ← pci_attr_r16 idx PCI_VID;
  i ← pci_attr_r16 idx PCI_DID;
  if (v =? NO_VID) && (i =? NO_VID) then mret tt else
  update_dev idx (set_ids v i) ;;
  h ← pci_attr_r8_u idx PCI_HEADT;
  st ← pci_attr_rsts idx;
  update_dev idx (set_header h st) ;;
  bc ← pci_attr_r8_u idx PCI_BCR;
  sc ← pci_attr_r8_u idx PCI_SCR;
  ic ← pci_attr_r8_u idx PCI_PIFR;
  update_dev idx (set_class bc sc ic) ;;
  line ← pci_attr_r8_u idx PCI_ILR;
  pin ← pci_attr_r8_u idx PCI_IPR;
  update_dev idx (set_intr line pin) ;;
  when ((bc =? SUBCLASS_NET) && (v =? 0x8086)) (setup_card idx) ;;
  modify (fun s => set_nr_pcidev (nr_pcidev s + 1) s).

Definition probe_bus (bus : Z) : M pci unit :=
  forM (seqZ 0 32) (fun d => forM (seqZ 0 8) (fun f => probe_function bus d f)).

Definition pci_init : M pci unit :=
  PCII_RREG16_ 0 0 0 PCI_VID ;;
  PCII_RREG16_ 0 0 0 PCI_DID ;;
  outl PCII_UNSEL PCII_CONFADD ;;
  forM (seqZ 0 8) probe_bus.
End Scan.

(** The first base-address register of the first network card that has one. *)
Fixpoint e1000_reg_loop (l : list pcidev) : option (Z * Z) :=
  match l with
  | [] => None
  | p :: l' =>
      if (baseclass p =? SUBCLASS_NET) && (0 <? bar_nr p) then
        b ← bars p !! 0%nat; Some (b_base b, b_size b)
      else e1000_reg_loop l'
  end.
Definition pci_get_e1000_reg : M pci (Z * Z) :=
  s ← get;
  match e1000_reg_loop (take (Z.to_nat (nr_pcidev s)) (pcidevs s)) with
  | Some r => mret r
  | None => panic "Could not find e1000 base address and size"
  end.
