(* ===== verification/PciSpec.v ===== *)
(** * The PCI scan finds what is on the bus

    The configuration space of a function is read and written at the address
    its bus, device and function number select, without touching any other
    function; probing the size of a base-address register leaves the
    configuration space as it was; and the recorded registers are the windows
    the hardware decodes. *)

From S2P Require Import Prelude PhysMem Descriptors DescriptorsSpec Apic ApicSpec Pci.

(** ** Configuration space *)

(** Configuration spaces with the same bytes. *)
Definition cfg_eq (c1 c2 : gmap Z Z) : Prop := forall a, cfg_byte c1 a = cfg_byte c2 a.
#[global] Instance cfg_eq_equiv : Equivalence cfg_eq.
Proof. split; [by intros c a | by intros c1 c2 H a | intros c1 c2 c3 H1 H2 a; by rewrite H1, H2]. Qed.
#[global] Instance cfg_byte_proper : Proper (cfg_eq ==> eq ==> eq) cfg_byte.
Proof. intros c1 c2 H a ? <-. apply H. Qed.

Lemma cfg_byte_bound c a : 0 <= cfg_byte c a < 2 ^ 8.
Proof. apply w8_bound. Qed.

Lemma cfg_load_ext n c1 c2 a :
  (forall x, a <= x < a + Z.of_nat n -> cfg_byte c1 x = cfg_byte c2 x) -> cfg_load n c1 a = cfg_load n c2 a.
Proof.
  revert a. induction n as [|n IH]; intros a H; [done |]. cbn [cfg_load].
  rewrite (H a), (IH (a + 1)) by (intros; apply H || lia; lia) || lia. done.
Qed.
#[global] Instance cfg_load_proper n : Proper (cfg_eq ==> eq ==> eq) (cfg_load n).
Proof. intros c1 c2 H a ? <-. apply cfg_load_ext. intros. apply H. Qed.

Lemma cfg_load_bound n c a : 0 <= cfg_load n c a < 2 ^ (8 * Z.of_nat n).
Proof.
  revert a. induction n as [|n IH]; intros a; [cbn; lia |]. cbn [cfg_load].
  specialize (IH (a + 1)). pose proof (cfg_byte_bound c a).
  replace (8 * Z.of_nat (S n)) with (8 + 8 * Z.of_nat n) by lia. rewrite Z.pow_add_r by lia. nia.
Qed.

(** Byte [k] of a number that was loaded. *)
Lemma cfg_load_byte n c a k :
  0 <= k < Z.of_nat n -> w8 (cfg_load n c a / 2 ^ (8 * k)) = cfg_byte c (a + k).
Proof.
  revert a k. induction n as [|n IH]; intros a k Hk; [lia |]. cbn [cfg_load].
  pose proof (cfg_byte_bound c a) as Hb. destruct (decide (k = 0)) as [-> |].
  - rewrite Z.mul_0_r, Z.div_1_r, Z.add_0_r. unfold w8. rewrite (Z.mul_comm (2 ^ 8)), Z.mod_add by lia. by apply Z.mod_small.
  - replace (8 * k) with (8 + 8 * (k - 1)) by lia. rewrite Z.pow_add_r, <-Z.div_div by lia.
    rewrite (Z.mul_comm (2 ^ 8)), Z.div_add, (Z.div_small (cfg_byte c a)), Z.add_0_l, IH by lia. f_equal. lia.
Qed.

Lemma masked_bits old m v i :
  0 <= i -> Z.testbit (masked old m v) i = if Z.testbit m i then Z.testbit v i else Z.testbit old i.
Proof.
  intros Hi. unfold masked. rewrite Z.lor_spec, Z.ldiff_spec, Z.land_spec.
  destruct (Z.testbit m i), (Z.testbit old i), (Z.testbit v i); done.
Qed.
Lemma masked_restore old m v : masked (masked old m v) m old = old.
Proof. apply Z.bits_inj'. intros i Hi. rewrite !masked_bits by done. by destruct (Z.testbit m i). Qed.
Lemma masked_bound old m v : 0 <= old < 2 ^ 8 -> 0 <= v < 2 ^ 8 -> 0 <= masked old m v < 2 ^ 8.
Proof.
  intros Ho Hv. assert (H : masked old m v = masked old m v mod 2 ^ 8).
  { apply Z.bits_inj'. intros i Hi. destruct (Z.lt_ge_cases i 8); [by rewrite Z.mod_pow2_bits_low by lia |].
    rewrite Z.mod_pow2_bits_high, masked_bits by lia.
    rewrite <-(Z.mod_small old (2 ^ 8)), <-(Z.mod_small v (2 ^ 8)), !Z.mod_pow2_bits_high by lia. by destruct (Z.testbit m i). }
  rewrite H. apply Z.mod_pos_bound. lia.
Qed.

Lemma cfg_byte_insert c a v x : cfg_byte (<[a := v]> c) x = if x =? a then w8 v else cfg_byte c x.
Proof. unfold cfg_byte. destruct (Z.eqb_spec x a) as [-> |]; [by rewrite lookup_insert_eq | by rewrite lookup_insert_ne]. Qed.

Lemma cfg_byte_store n rw c a v x :
  cfg_byte (cfg_store n rw c a v) x =
    if (a <=? x) && (x <? a + Z.of_nat n) then masked (cfg_byte c x) (rw_byte rw x) (w8 (v / 2 ^ (8 * (x - a))))
    else cfg_byte c x.
Proof.
  revert c a v. induction n as [|n IH]; intros c a v; cbn [cfg_store].
  - destruct (Z.leb_spec a x), (Z.ltb_spec x (a + Z.of_nat 0)); try done. lia.
  - rewrite IH, cfg_byte_insert. destruct (Z.eqb_spec x a) as [-> |Hne].
    + replace (a + 1 <=? a) with false by (symmetry; apply Z.leb_gt; lia). cbn [andb].
      replace ((a <=? a) && (a <? a + Z.of_nat (S n))) with true by (symmetry; apply andb_true_iff; split; [apply Z.leb_refl | apply Z.ltb_lt; lia]).
      rewrite Z.sub_diag, Z.mul_0_r, Z.div_1_r. apply w8_small, masked_bound; [apply cfg_byte_bound | apply w8_bound].
    + destruct (Z.leb_spec a x), (Z.leb_spec (a + 1) x), (Z.ltb_spec x (a + Z.of_nat (S n))), (Z.ltb_spec x (a + 1 + Z.of_nat n));
        try lia; cbn [andb]; try done.
      do 2 f_equal. rewrite Z.div_div by lia. f_equal. rewrite <-Z.pow_add_r by lia. f_equal. lia.
Qed.

Lemma cfg_byte_store_out n rw c a v x :
  ~ (a <= x < a + Z.of_nat n) -> cfg_byte (cfg_store n rw c a v) x = cfg_byte c x.
Proof. intros H. rewrite cfg_byte_store. destruct (Z.leb_spec a x), (Z.ltb_spec x (a + Z.of_nat n)); try done. lia. Qed.
Lemma cfg_byte_store_in n rw c a v x :
  a <= x < a + Z.of_nat n ->
  cfg_byte (cfg_store n rw c a v) x = masked (cfg_byte c x) (rw_byte rw x) (w8 (v / 2 ^ (8 * (x - a)))).
Proof. intros H. rewrite cfg_byte_store. destruct (Z.leb_spec a x), (Z.ltb_spec x (a + Z.of_nat n)); try done; lia. Qed.

(** What a register reads after ones were written to it. *)
Definition rw_load (n : nat) (rw : gmap Z Z) (a : Z) : Z := load n rw a.
Definition probed (c rw : gmap Z Z) (a : Z) : Z := cfg_load 4 (cfg_store 4 rw c a 0xffffffff) a.

Lemma lor_bytes x y X Y :
  0 <= x < 2 ^ 8 -> 0 <= y < 2 ^ 8 -> Z.lor (x + 2 ^ 8 * X) (y + 2 ^ 8 * Y) = Z.lor x y + 2 ^ 8 * Z.lor X Y.
Proof.
  intros Hx Hy. assert (E : forall u U, 0 <= u < 2 ^ 8 -> u + 2 ^ 8 * U = Z.lor (Z.shiftl U 8) u).
  { intros u U Hu. rewrite Z.shiftl_mul_pow2, (lor_low_add _ u 8) by (lia || (rewrite Z.mod_mul; lia)). lia. }
  rewrite !E by (done || by apply lor_bound). rewrite Z.shiftl_lor. apply Z.bits_inj'. intros i _.
  rewrite !Z.lor_spec. destruct (Z.testbit (Z.shiftl X 8) i), (Z.testbit (Z.shiftl Y 8) i), (Z.testbit x i), (Z.testbit y i); done.
Qed.

Lemma load_probe n rw c a v :
  (forall k, 0 <= k < Z.of_nat n -> w8 (v / 2 ^ (8 * k)) = 0xff) ->
  cfg_load n (cfg_store n rw c a v) a = Z.lor (cfg_load n c a) (rw_load n rw a).
Proof.
  intros Hv.
  assert (H : forall j b, (j <= n)%nat -> a <= b -> b + Z.of_nat j = a + Z.of_nat n ->
    cfg_load j (cfg_store n rw c a v) b = Z.lor (cfg_load j c b) (rw_load j rw b)).
  { induction j as [|j IH]; intros b Hj Hb Hbj; [done |]. cbn [cfg_load rw_load load].
    fold (rw_load j rw (b + 1)). change (byte_at rw b) with (rw_byte rw b).
    rewrite lor_bytes by apply w8_bound. rewrite IH by lia. f_equal.
    rewrite cfg_byte_store_in, Hv by lia. apply Z.bits_inj'. intros i Hi. rewrite masked_bits, Z.lor_spec by done.
    assert (Hm : Z.testbit (rw_byte rw b) i = true -> Z.testbit 0xff i = true).
    { intros Ht. destruct (Z.lt_ge_cases i 8).
      - change 0xff with (Z.ones 8). apply Z.ones_spec_low. lia.
      - exfalso. rewrite <-(Z.mod_small (rw_byte rw b) (2 ^ 8)), Z.mod_pow2_bits_high in Ht by (apply w8_bound || lia). done. }
    destruct (Z.testbit (rw_byte rw b) i); [by rewrite Hm, orb_true_r | by rewrite orb_false_r]. }
  apply H; lia.
Qed.
Lemma probed_eq c rw a : probed c rw a = Z.lor (cfg_load 4 c a) (rw_load 4 rw a).
Proof.
  apply load_probe. intros k Hk. assert (k = 0 \/ k = 1 \/ k = 2 \/ k = 3) as [-> |[-> |[-> | ->]]] by lia; reflexivity.
Qed.

(** ** Addresses of functions and registers *)

Definition faddr (b d f : Z) : Z := 2 ^ 31 + b * 2 ^ 16 + d * 2 ^ 11 + f * 2 ^ 8.
Definition place_ok (b d f : Z) : Prop := 0 <= b < 2 ^ 8 /\ 0 <= d < 2 ^ 5 /\ 0 <= f < 2 ^ 3.

Lemma land_field x k n : 0 <= k -> 0 <= n -> 0 <= x < 2 ^ n -> Z.land (x * 2 ^ k) (2 ^ k * (2 ^ n - 1)) = x * 2 ^ k.
Proof.
  intros Hk Hn Hx. rewrite (Z.mul_comm (2 ^ k)), <-!Z.shiftl_mul_pow2, <-Z.shiftl_land by lia. f_equal.
  rewrite land_low by lia. by apply Z.mod_small.
Qed.

(** Distinct functions and registers have distinct addresses: the address is
    the four fields side by side. *)
Lemma selreg_eq b d f reg :
  place_ok b d f -> 0 <= reg < 2 ^ 8 -> PCII_SELREG_ b d f reg = faddr b d f + reg / 4 * 4.
Proof.
  intros (Hb & Hd & Hf) Hr. unfold PCII_SELREG_, faddr.
  assert (Hq : 0 <= reg / 4 < 2 ^ 6) by (split; [apply Z.div_pos; lia | apply Z.div_lt_upper_bound; lia]).
  change 0xff0000 with (2 ^ 16 * (2 ^ 8 - 1)). change 0xf800 with (2 ^ 11 * (2 ^ 5 - 1)).
  change 0x700 with (2 ^ 8 * (2 ^ 3 - 1)). change 0xfc with (2 ^ 2 * (2 ^ 6 - 1)).
  rewrite !land_field by (done || lia).
  change PCIIC_CODE with (2 ^ 31). set (q := reg / 4) in *. clearbody q.
  rewrite (lor_low_add (2 ^ 31) (b * 2 ^ 16) 24) by (done || lia).
  rewrite (lor_low_add _ (d * 2 ^ 11) 16) by ((Z.to_euclidean_division_equations; lia) || lia).
  rewrite (lor_low_add _ (f * 2 ^ 8) 11) by ((Z.to_euclidean_division_equations; lia) || lia).
  rewrite (lor_low_add _ (q * 2 ^ 2) 8) by ((Z.to_euclidean_division_equations; lia) || lia). lia.
Qed.

Lemma faddr_bound b d f : place_ok b d f -> 0 <= faddr b d f < 2 ^ 32 - 2 ^ 8 + 1.
Proof. unfold place_ok, faddr. lia. Qed.
Lemma faddr_inj b d f b' d' f' r r' :
  place_ok b d f -> place_ok b' d' f' -> 0 <= r < 2 ^ 8 -> 0 <= r' < 2 ^ 8 ->
  faddr b d f + r = faddr b' d' f' + r' -> b = b' /\ d = d' /\ f = f' /\ r = r'.
Proof. unfold place_ok, faddr. lia. Qed.

(** ** Register accesses *)

(** Slot [idx] of the table holds [p]. *)
Definition at_dev (s : pci) (idx : Z) (p : pcidev) : Prop :=
  0 <= idx /\ pcidevs s !! Z.to_nat idx = Some p /\ place_ok (busnr p) (devnr p) (funcnr p).
Definition pa (p : pcidev) : Z := faddr (busnr p) (devnr p) (funcnr p).
Definition selected (p : pcidev) (reg : Z) (s : pci) : pci :=
  set_confadd (PCII_SELREG_ (busnr p) (devnr p) (funcnr p) reg) s.

Lemma pci_dev_run s idx p : at_dev s idx p -> pci_dev idx s = Ok p s.
Proof.
  intros (H0 & Hp & _). unfold pci_dev. erewrite bind_step by reflexivity. rewrite (proj2 (Z.ltb_ge idx 0)) by done. by rewrite Hp.
Qed.

Lemma select_run b d f reg s :
  place_ok b d f -> 0 <= reg < 2 ^ 8 ->
  outl (PCII_SELREG_ b d f reg) PCII_CONFADD s = Ok tt (set_confadd (PCII_SELREG_ b d f reg) s).
Proof.
  intros Hp Hr. unfold outl. cbn [Z.eqb Pos.eqb]. unfold modify. rewrite w32_small; [done |].
  rewrite selreg_eq by done. pose proof (faddr_bound b d f Hp). Z.to_euclidean_division_equations; lia.
Qed.

(** The byte the data ports reach: aligned accesses reach the register. *)
Lemma reach b d f reg o :
  place_ok b d f -> 0 <= reg < 2 ^ 8 -> o = reg mod 4 ->
  PCII_SELREG_ b d f reg + (PCII_CONFDATA + o - PCII_CONFDATA) = faddr b d f + reg.
Proof. intros Hp Hr ->. rewrite selreg_eq by done. pose proof (Z.div_mod reg 4). lia. Qed.

Lemma low3 reg : Z.land reg 3 = reg mod 4.
Proof. apply (land_low reg 2). lia. Qed.
Lemma low2 reg : reg mod 2 = 0 -> Z.land reg 2 = reg mod 4.
Proof.
  intros He. rewrite <-low3. apply Z.bits_inj'. intros i Hi. rewrite !Z.land_spec.
  destruct (decide (i = 0)) as [-> |].
  - by rewrite (Z.bit0_eqb reg), He.
  - f_equal. destruct (decide (i = 1)) as [-> |]; [done |]. rewrite !Z.bits_above_log2; [done | lia | cbn; lia | lia | cbn; lia].
Qed.

(** Select the register of the recorded function, then use the data port. *)
Ltac access Hat macro :=
  erewrite bind_step by (exact (pci_dev_run _ _ _ Hat));
  destruct Hat as (_ & _ & ?); unfold macro;
  erewrite bind_step by (by apply select_run);
  unfold outl; cbn [Z.eqb Pos.eqb]; unfold conf_in, conf_out, gets, modify; cbn [confadd set_confadd cfg cfg_rw];
  rewrite ?low3, ?low2 by done; rewrite ?reach by done.

Section Access.
Context (s : pci) (idx : Z) (p : pcidev) (reg : Z).
Context (Hat : at_dev s idx p) (Hreg : 0 <= reg < 2 ^ 8).

Lemma r8_run : pci_attr_r8_u idx reg s = Ok (cfg_load 1 (cfg s) (pa p + reg)) (selected p reg s).
Proof. unfold pci_attr_r8_u. by access Hat PCII_RREG8_. Qed.
Lemma w8_run v : pci_attr_w8 idx reg v s =
  Ok tt (set_cfg (cfg_store 1 (cfg_rw s) (cfg s) (pa p + reg) (w8 v)) (selected p reg s)).
Proof. unfold pci_attr_w8. by access Hat PCII_WREG8_. Qed.
Lemma r16_run : reg mod 2 = 0 -> pci_attr_r16 idx reg s = Ok (cfg_load 2 (cfg s) (pa p + reg)) (selected p reg s).
Proof. intros He. unfold pci_attr_r16. by access Hat PCII_RREG16_. Qed.
Lemma w16_run v : reg mod 2 = 0 -> pci_attr_w16 idx reg v s =
  Ok tt (set_cfg (cfg_store 2 (cfg_rw s) (cfg s) (pa p + reg) (w16 v)) (selected p reg s)).
Proof. intros He. unfold pci_attr_w16. by access Hat PCII_WREG16_. Qed.
Lemma aligned_reach : reg mod 4 = 0 -> place_ok (busnr p) (devnr p) (funcnr p) ->
  PCII_SELREG_ (busnr p) (devnr p) (funcnr p) reg + (PCII_CONFDATA - PCII_CONFDATA) = pa p + reg.
Proof. intros He Hp. apply (reach _ _ _ reg 0); done. Qed.
Lemma r32_run : reg mod 4 = 0 -> pci_attr_r32_u idx reg s = Ok (cfg_load 4 (cfg s) (pa p + reg)) (selected p reg s).
Proof. intros He. unfold pci_attr_r32_u. access Hat PCII_RREG32_. by rewrite aligned_reach. Qed.
Lemma w32_run v : reg mod 4 = 0 -> pci_attr_w32 idx reg v s =
  Ok tt (set_cfg (cfg_store 4 (cfg_rw s) (cfg s) (pa p + reg) (w32 v)) (selected p reg s)).
Proof. intros He. unfold pci_attr_w32. access Hat PCII_WREG32_. by rewrite aligned_reach. Qed.
End Access.

(** The status register read is that of device 0, function 0. *)
Lemma rsts_run s idx p :
  at_dev s idx p -> exists x, pci_attr_rsts idx s = Ok (cfg_load 2 (cfg s) (faddr (busnr p) 0 0 + PCI_SR)) (set_confadd x s).
Proof.
  intros Hat. unfold pci_attr_rsts. erewrite bind_step by (exact (pci_dev_run _ _ _ Hat)). destruct Hat as (_ & _ & Hb & _).
  assert (Hp : place_ok (busnr p) 0 0) by (split_and!; done || lia). unfold PCII_RREG16_.
  erewrite bind_step by (by apply select_run). unfold conf_in, gets. cbn [confadd set_confadd cfg].
  rewrite low2, reach by done. by eexists.
Qed.

(** ** Probing a register *)

(** Nothing but the address port differs. *)
Record quiet (s s' : pci) : Prop := Quiet {
  q_cfg : cfg_eq (cfg s') (cfg s);
  q_rw : cfg_rw s' = cfg_rw s;
  q_devs : pcidevs s' = pcidevs s;
  q_nr : nr_pcidev s' = nr_pcidev s;
  q_apic : pci_apic s' = pci_apic s;
  q_desc : pci_desc s' = pci_desc s
}.
#[global] Instance quiet_pre : PreOrder quiet.
Proof.
  split; [by intros s; split |]. intros s1 s2 s3 [A1 B1 C1 D1 E1 F1] [A2 B2 C2 D2 E2 F2].
  split; [by etransitivity | congruence ..].
Qed.
Lemma quiet_selected s p reg : quiet s (selected p reg s).
Proof. by split. Qed.
Lemma at_dev_quiet s s' idx p : quiet s s' -> at_dev s idx p -> at_dev s' idx p.
Proof. intros Hq (H0 & Hp & Ho). split_and!; [done | by rewrite (q_devs _ _ Hq) | done..]. Qed.

(** Probing reads the register with its writable bits set and leaves the
    configuration space as it was. *)
Lemma probe_size_spec s idx p reg bar en :
  at_dev s idx p -> PCI_BAR <= reg < 2 ^ 8 -> reg mod 4 = 0 -> bar = cfg_load 4 (cfg s) (pa p + reg) ->
  wp (probe_size idx reg bar en) s (fun r s' => r = probed (cfg s) (cfg_rw s) (pa p + reg) /\ quiet s s').
Proof.
  intros Hat Hr H4 ->. unfold probe_size, post.
  erewrite bind_step by (apply r16_run; [exact Hat | lia | done]).
  erewrite bind_step by (apply w16_run; [exact Hat | lia | done]).
  erewrite bind_step by (apply w32_run; [exact Hat | lia | done]).
  erewrite bind_step by (apply r32_run; [exact Hat | lia | done]).
  erewrite bind_step by (apply w32_run; [exact Hat | lia | done]).
  erewrite bind_step by (apply w16_run; [exact Hat | lia | done]).
  unfold mret, M_ret. cbn [cfg cfg_rw set_cfg selected set_confadd].
  set (c := cfg s). set (rw := cfg_rw s). set (a := pa p).
  pose proof (cfg_load_bound 4 c (a + reg)) as B4. pose proof (cfg_load_bound 2 c (a + PCI_CR)) as B2.
  change (2 ^ (8 * Z.of_nat 4)) with (2 ^ 32) in B4. change (2 ^ (8 * Z.of_nat 2)) with (2 ^ 16) in B2.
  rewrite (w32_small (cfg_load 4 c (a + reg))), (w16_small (cfg_load 2 c (a + PCI_CR))) by lia.
  split; [|split; try done; cbn [cfg set_cfg]; intros x].
  - apply cfg_load_ext. intros x Hx. rewrite cfg_byte_store_in, cfg_byte_store_out by lia. symmetry. by apply cfg_byte_store_in.
  - assert (Hcase : (a + PCI_CR <= x < a + PCI_CR + 2) \/ (a + reg <= x < a + reg + 4) \/
      (~ (a + PCI_CR <= x < a + PCI_CR + 2) /\ ~ (a + reg <= x < a + reg + 4))) by lia.
    destruct Hcase as [Hx|[Hx|[Hx1 Hx2]]].
    + rewrite cfg_byte_store_in, 2 cfg_byte_store_out, cfg_byte_store_in by lia.
      rewrite cfg_load_byte by lia. replace (a + PCI_CR + (x - (a + PCI_CR))) with x by lia. apply masked_restore.
    + rewrite cfg_byte_store_out, 2 cfg_byte_store_in, cfg_byte_store_out by lia.
      rewrite cfg_load_byte by lia. replace (a + reg + (x - (a + reg))) with x by lia. apply masked_restore.
    + by rewrite !cfg_byte_store_out by lia.
Qed.

(** ** Base-address registers of the hardware

    What the hardware decodes: nothing, ports, or memory of [2 ^ k] bytes; a
    64-bit window takes two registers. *)
Inductive hwbar :=
| NoBar
| IoBar (base k : Z)
| Mem32 (base k : Z) (prefetch below_1M : bool)
| Mem64 (base k : Z) (prefetch : bool).

(** Contents and writable bits of the registers. *)
Definition bar_regs (h : hwbar) : list (Z * Z) :=
  match h with
  | NoBar => [(0, 0)]
  | IoBar base k => [(base + 1, 2 ^ 32 - 2 ^ k)]
  | Mem32 base k pf low => [(base + (8 * Z.b2z pf + 2 * Z.b2z low), 2 ^ 32 - 2 ^ k)]
  | Mem64 base k pf => [(base mod 2 ^ 32 + (8 * Z.b2z pf + 4), 2 ^ 32 - 2 ^ k); (base / 2 ^ 32, 2 ^ 32 - 1)]
  end.
(** Windows are aligned to their size and have been given an address. *)
Definition bar_ok (h : hwbar) : Prop :=
  match h with
  | NoBar => True
  | IoBar base k => 2 <= k <= 16 /\ 0 < base < 2 ^ 32 /\ base mod 2 ^ k = 0
  | Mem32 base k _ _ => 4 <= k < 32 /\ 0 < base < 2 ^ 32 /\ base mod 2 ^ k = 0
  | Mem64 base k _ => 4 <= k < 32 /\ 0 < base < 2 ^ 64 /\ base mod 2 ^ k = 0
  end.
(** What is to be recorded of it: windows that 32-bit addresses reach. *)
Definition recorded (i : Z) (h : hwbar) : list bar :=
  match h with
  | NoBar => []
  | IoBar base k => [Bar PBF_IO i base (2 ^ k)]
  | Mem32 base k _ _ => [Bar 0 i base (2 ^ k)]
  | Mem64 base k _ => if base <? 2 ^ 32 then [Bar 0 i base (2 ^ k)] else []
  end.
Definition width (h : hwbar) : Z := Z.of_nat (length (bar_regs h)).

Definition shows_regs (c rw : gmap Z Z) (a : Z) (l : list (Z * Z)) : Prop :=
  forall j v m, l !! j = Some (v, m) ->
    cfg_load 4 c (a + 4 * Z.of_nat j) = v /\ rw_load 4 rw (a + 4 * Z.of_nat j) = m.

Lemma lor_window q k low :
  0 <= k <= 32 -> 0 <= q < 2 ^ (32 - k) -> 0 <= low < 2 ^ k ->
  Z.lor (q * 2 ^ k + low) (2 ^ 32 - 2 ^ k) = 2 ^ 32 - 2 ^ k + low.
Proof.
  intros Hk Hq Hl. assert (E : 2 ^ 32 - 2 ^ k = Z.shiftl (Z.ones (32 - k)) k).
  { rewrite Z.shiftl_mul_pow2, Z.ones_equiv by lia. replace 32 with ((32 - k) + k) at 1 by lia. rewrite Z.pow_add_r by lia. lia. }
  assert (Hm : forall x, (x * 2 ^ k) mod 2 ^ k = 0) by (intros; apply Z.mod_mul; lia).
  rewrite E. rewrite <-(lor_low_add _ low k), <-(lor_low_add (Z.shiftl _ k) low k)
    by (rewrite ?Z.shiftl_mul_pow2 by lia; auto with lia).
  rewrite (Z.lor_comm (q * 2 ^ k)), <-Z.lor_assoc, Z.lor_comm. f_equal.
  rewrite <-Z.shiftl_mul_pow2, <-Z.shiftl_lor by lia. f_equal.
  destruct (decide (q = 0)) as [-> |]; [apply Z.lor_0_l |]. apply Z.lor_ones_low; [lia |]. apply Z.log2_lt_pow2; lia.
Qed.

Lemma land_window x n : 0 <= n <= 32 -> 0 <= x < 2 ^ 32 -> Z.land x (2 ^ 32 - 2 ^ n) = x - x mod 2 ^ n.
Proof.
  intros Hn Hx. rewrite <-land_lnot_low by lia.
  assert (E : 2 ^ 32 - 2 ^ n = Z.land (Z.ones 32) (Z.lnot (2 ^ n - 1))).
  { rewrite land_lnot_low, Z.ones_equiv by lia. replace 32 with ((32 - n) + n) by lia. rewrite Z.pow_add_r by lia.
    replace (Z.pred (2 ^ (32 - n) * 2 ^ n)) with ((2 ^ n - 1) + (2 ^ (32 - n) - 1) * 2 ^ n) by lia.
    rewrite Z.mod_add, Z.mod_small by lia. lia. }
  by rewrite E, Z.land_assoc, Z.land_ones, Z.mod_small by lia.
Qed.

(** The size of a window from the probed register. *)
Lemma window_size n k low :
  0 <= n <= k -> k <= 32 -> 0 <= low < 2 ^ n ->
  Z.land (2 ^ 32 - 2 ^ k + low) (2 ^ 32 - 2 ^ n) = 2 ^ 32 - 2 ^ k.
Proof.
  intros Hn Hk Hl. assert (2 ^ n <= 2 ^ k) by (apply Z.pow_le_mono_r; lia). assert (2 ^ k <= 2 ^ 32) by (apply Z.pow_le_mono_r; lia).
  rewrite land_window by lia.
  assert (E : forall j, n <= j -> 2 ^ j = 2 ^ (j - n) * 2 ^ n) by (intros; rewrite <-Z.pow_add_r by lia; f_equal; lia).
  replace (2 ^ 32 - 2 ^ k + low) with (low + (2 ^ (32 - n) - 2 ^ (k - n)) * 2 ^ n) at 2
    by (rewrite Z.mul_sub_distr_r, <-!E by lia; lia).
  rewrite Z.mod_add, Z.mod_small by lia. lia.
Qed.

(** ** Recording the registers *)

(** A table entry with the registers [bs] recorded. *)
Definition with_bars (p : pcidev) (bs : list bar) : pcidev :=
  set_bars (bs ++ replicate (6 - length bs) no_bar) (Z.of_nat (length bs)) p.
(** Only entry [idx] differs. *)
Definition entry_set (idx : Z) (p : pcidev) (s s' : pci) : Prop :=
  quiet (set_pcidevs (<[Z.to_nat idx := p]> (pcidevs s)) s) s'.

Lemma at_dev_entry s s' idx p q :
  at_dev s idx p -> place_ok (busnr q) (devnr q) (funcnr q) -> entry_set idx q s s' -> at_dev s' idx q.
Proof.
  intros (H0 & Hp & _) Hq Hs. split_and!; [done | | done..]. rewrite (q_devs _ _ Hs). apply list_lookup_insert_eq.
  by eapply lookup_lt_Some.
Qed.
Lemma entry_set_same s s' idx p : at_dev s idx p -> quiet s s' -> entry_set idx p s s'.
Proof.
  intros (_ & Hp & _) Hq. unfold entry_set. rewrite list_insert_id by done. etransitivity; [|exact Hq]. by split.
Qed.
Lemma entry_set_trans idx p q s s1 s2 : entry_set idx p s s1 -> entry_set idx q s1 s2 -> entry_set idx q s s2.
Proof.
  intros [A1 B1 C1 D1 E1 F1] [A2 B2 C2 D2 E2 F2]. cbn in *. split; cbn; [by etransitivity | try congruence..].
  by rewrite C2, C1, list_insert_insert_eq.
Qed.

Lemma append_bar_spec s s0 idx p bs b :
  at_dev s idx (with_bars p bs) -> (length bs < 6)%nat -> entry_set idx (with_bars p bs) s0 s ->
  wp (append_bar idx b) s (fun _ s' => entry_set idx (with_bars p (bs ++ [b])) s0 s').
Proof.
  intros Hat Hl Hs0. unfold append_bar, post. erewrite bind_step by (by apply pci_dev_run).
  cbn [bar_nr with_bars set_bars bars]. destruct (Z.ltb_spec (Z.of_nat (length bs)) 0); [lia |].
  destruct (Z.leb_spec BAR_NR (Z.of_nat (length bs))); [lia |]. cbn [orb]. unfold update_dev.
  erewrite bind_step by (by apply pci_dev_run). unfold modify. eapply entry_set_trans; [exact Hs0 |].
  unfold entry_set. replace (with_bars p (bs ++ [b])) with
    (set_bars (<[Z.to_nat (Z.of_nat (length bs)) := b]> (bs ++ replicate (6 - length bs) no_bar)) (Z.of_nat (length bs) + 1) (with_bars p bs));
    [reflexivity |].
  unfold with_bars, set_bars. cbn. rewrite Nat2Z.id, length_app. cbn [length]. f_equal; [|lia].
  rewrite insert_app_r_alt, Nat.sub_diag by lia. replace (6 - length bs)%nat with (S (6 - (length bs + 1))) by lia.
  cbn [replicate insert list_insert]. by rewrite <-app_assoc.
Qed.

Lemma land_low4 v m : 0 <= m < 2 ^ 4 -> Z.land v m = Z.land (v mod 2 ^ 4) m.
Proof.
  intros Hm. rewrite <-Z.land_ones, <-Z.land_assoc by lia. f_equal. rewrite Z.land_comm, Z.land_ones by lia. symmetry. by apply Z.mod_small.
Qed.
Lemma aligned_low base k n : 0 <= n <= k -> base mod 2 ^ k = 0 -> base mod 2 ^ n = 0.
Proof.
  intros Hn Hb. apply Z.mod_divide; [lia |]. apply Z.mod_divide in Hb; [|lia]. etransitivity; [|exact Hb].
  exists (2 ^ (k - n)). rewrite <-Z.pow_add_r by lia. f_equal. lia.
Qed.

Lemma bar_reg_aligned i : (PCI_BAR + 4 * i) mod 4 = 0.
Proof. by rewrite Z.mul_comm, Z.mod_add. Qed.

Section Record.
Context (s : pci) (idx : Z) (p : pcidev) (bs : list bar) (i : Z).
Context (Hat : at_dev s idx (with_bars p bs)) (Hbs : (length bs < 6)%nat) (Hi : 0 <= i < 6).

(** The register is [v] with writable bits from bit [k] up. *)
Lemma probed_window base k low :
  cfg_load 4 (cfg s) (pa p + (PCI_BAR + 4 * i)) = base + low -> rw_load 4 (cfg_rw s) (pa p + (PCI_BAR + 4 * i)) = 2 ^ 32 - 2 ^ k ->
  0 <= k <= 32 -> 0 <= base < 2 ^ 32 -> base mod 2 ^ k = 0 -> 0 <= low < 2 ^ k ->
  probed (cfg s) (cfg_rw s) (pa p + (PCI_BAR + 4 * i)) = 2 ^ 32 - 2 ^ k + low.
Proof.
  intros Hv Hm Hk Hb Hal Hlow. rewrite probed_eq, Hv, Hm. rewrite <-(lor_window (base / 2 ^ k) k low); [| lia | | done].
  - do 2 f_equal. pose proof (Z.div_mod base (2 ^ k)). lia.
  - split; [by apply Z.div_pos; lia |]. apply Z.div_lt_upper_bound; [lia |]. rewrite <-Z.pow_add_r by lia. replace (k + (32 - k)) with 32 by lia. lia.
Qed.

Lemma record_mem_bar_spec base k low w :
  cfg_load 4 (cfg s) (pa p + (PCI_BAR + 4 * i)) = base + low -> rw_load 4 (cfg_rw s) (pa p + (PCI_BAR + 4 * i)) = 2 ^ 32 - 2 ^ k ->
  4 <= k < 32 -> 0 < base < 2 ^ 32 -> base mod 2 ^ k = 0 -> 0 <= low < 2 ^ 4 ->
  wp (record_mem_bar idx i (base + low) w) s (fun r s' => r = w /\ entry_set idx (with_bars p (bs ++ [Bar 0 i base (2 ^ k)])) s s').
Proof.
  intros Hv Hm Hk Hb Hal Hlow. unfold record_mem_bar. assert (2 ^ 4 <= 2 ^ k) by (apply Z.pow_le_mono_r; lia).
  assert (2 ^ k < 2 ^ 32) by (apply Z.pow_lt_mono_r; lia).
  wp_step. eapply post_mono; [apply (probe_size_spec s idx _ _ _ _ Hat); [lia | apply bar_reg_aligned | by symmetry] |].
  intros bar2 s1 _ [-> Hq]. change (pa (with_bars p bs)) with (pa p). rewrite (probed_window base k low) by (done || lia).
  destruct (Z.eqb_spec (2 ^ 32 - 2 ^ k + low) 0); [lia |]. cbv zeta.
  change PCI_BAR_MEM_MASK with (2 ^ 32 - 2 ^ 4). rewrite window_size by lia.
  assert (Hlow4 : base mod 2 ^ 4 = 0) by (eapply aligned_low; [|exact Hal]; lia).
  assert (Hfit : base + low < 2 ^ 32) by (Z.to_euclidean_division_equations; lia).
  rewrite land_window by lia. replace ((base + low) mod 2 ^ 4) with low by (Z.to_euclidean_division_equations; lia).
  replace (base + low - low) with base by lia.
  replace (w32 (w32 (Z.lnot (2 ^ 32 - 2 ^ k)) + 1)) with (2 ^ k).
  - wp_step. eapply post_mono; [apply (append_bar_spec s1 s); [by eapply at_dev_quiet | done | by apply entry_set_same] |].
    intros [] s2 _ Hs2. destruct (Z.eqb_spec base 0); [lia |]. by wp_step.
  - unfold w32, Z.lnot. replace (Z.pred (- (2 ^ 32 - 2 ^ k))) with (2 ^ k - 1 + -1 * 2 ^ 32) by lia.
    rewrite Z.mod_add, (Z.mod_small (2 ^ k - 1)) by lia. rewrite Z.mod_small; lia.
Qed.

Lemma first_reg_run :
  pci_attr_r32_u idx (PCI_BAR + 4 * i) s =
    Ok (cfg_load 4 (cfg s) (pa p + (PCI_BAR + 4 * i))) (selected (with_bars p bs) (PCI_BAR + 4 * i) s).
Proof. apply (r32_run s idx (with_bars p bs)); [done | lia | apply bar_reg_aligned]. Qed.

Lemma record_io_spec base k last :
  cfg_load 4 (cfg s) (pa p + (PCI_BAR + 4 * i)) = base + 1 -> rw_load 4 (cfg_rw s) (pa p + (PCI_BAR + 4 * i)) = 2 ^ 32 - 2 ^ k ->
  2 <= k <= 16 -> 0 < base < 2 ^ 32 -> base mod 2 ^ k = 0 ->
  wp (record_bar idx i last) s (fun r s' => r = 1 /\ entry_set idx (with_bars p (bs ++ [Bar PBF_IO i base (2 ^ k)])) s s').
Proof.
  intros Hv Hm Hk Hb Hal. unfold record_bar. cbv zeta. assert (2 ^ 2 <= 2 ^ k) by (apply Z.pow_le_mono_r; lia).
  assert (2 ^ k <= 2 ^ 16) by (apply Z.pow_le_mono_r; lia).
  assert (Hlow2 : base mod 2 ^ 2 = 0) by (eapply aligned_low; [|exact Hal]; lia).
  wp_step. eapply post_run; [apply first_reg_run |]. rewrite Hv.
  assert (Hbit : Z.land (base + 1) PCI_BAR_IO = 1).
  { rewrite (land_low _ 1) by lia. Z.to_euclidean_division_equations; lia. }
  rewrite Hbit. cbn [Z.eqb negb].
  wp_step. eapply post_mono; [eapply (probe_size_spec _ idx); [exact Hat | lia | apply bar_reg_aligned | by symmetry] |].
  intros bar2 s1 _ [-> Hq0]. assert (Hq : quiet s s1) by (etransitivity; [apply quiet_selected | exact Hq0]). change (pa (with_bars p bs)) with (pa p).
  match goal with |- context [probed ?c ?rw ?a] => change (probed c rw a) with (probed (cfg s) (cfg_rw s) (pa p + (PCI_BAR + 4 * i))) end.
  rewrite (probed_window base k 1) by (done || lia).
  change PCI_BAR_IO_MASK with (2 ^ 32 - 2 ^ 2). rewrite window_size by lia.
  assert (Hfit : base + 1 < 2 ^ 32) by (Z.to_euclidean_division_equations; lia).
  rewrite land_window by lia. replace ((base + 1) mod 2 ^ 2) with 1 by (Z.to_euclidean_division_equations; lia).
  replace (base + 1 - 1) with base by lia.
  replace (Z.land (Z.lnot (2 ^ 32 - 2 ^ k)) 0xffff + 1) with (2 ^ k).
  - wp_step. eapply post_mono; [apply (append_bar_spec s1 s); [by eapply at_dev_quiet | done | by apply entry_set_same] |].
    intros [] s2 _ Hs2. destruct (Z.eqb_spec base 0); [lia |]. by wp_step.
  - change 0xffff with (2 ^ 16 - 1). rewrite land_low by lia. unfold Z.lnot.
    replace (Z.pred (- (2 ^ 32 - 2 ^ k))) with (2 ^ k - 1 + (- 2 ^ 16) * 2 ^ 16) by lia. rewrite Z.mod_add, Z.mod_small by lia. lia.
Qed.

(** The start of [record_bar] on a memory register. *)
Lemma record_mem_start base low last :
  cfg_load 4 (cfg s) (pa p + (PCI_BAR + 4 * i)) = base + low -> base mod 2 ^ 4 = 0 -> 0 <= low < 2 ^ 4 -> Z.land low PCI_BAR_IO = 0 ->
  record_bar idx i last s =
    (let type := Z.land low PCI_BAR_TYPE in
     if (type =? PCI_TYPE_32) || (type =? PCI_TYPE_32_1M) then record_mem_bar idx i (base + low) 1
     else if type =? PCI_TYPE_64 then
       if last then mret 1 else
       high ← pci_attr_r32_u idx (PCI_BAR + 4 * i + 4);
       if negb (high =? 0) then mret 2 else record_mem_bar idx i (base + low) 2
     else mret 1) (selected (with_bars p bs) (PCI_BAR + 4 * i) s).
Proof.
  intros Hv Hal Hl Hbit. unfold record_bar. cbv zeta. erewrite bind_step by apply first_reg_run. rewrite Hv.
  assert (E : (base + low) mod 2 ^ 4 = low) by (Z.to_euclidean_division_equations; lia).
  rewrite (land_low4 _ PCI_BAR_IO), E, Hbit by lia. cbn [Z.eqb negb]. by rewrite (land_low4 _ PCI_BAR_TYPE), E by lia.
Qed.
End Record.

Lemma record_bar_spec s idx p bs i h :
  at_dev s idx (with_bars p bs) -> (length bs < 6)%nat -> 0 <= i -> i + width h <= 6 -> bar_ok h ->
  shows_regs (cfg s) (cfg_rw s) (pa p + (PCI_BAR + 4 * i)) (bar_regs h) ->
  wp (record_bar idx i (PCI_BAR + 4 * i =? PCI_BAR_6)) s (fun w s' =>
    w = width h /\ entry_set idx (with_bars p (bs ++ recorded i h)) s s').
Proof.
  intros Hat Hbs Hi Hw Hok Hregs. assert (Hi6 : 0 <= i < 6) by (unfold width in Hw; destruct h; cbn in Hw; lia).
  assert (Hsame : entry_set idx (with_bars p (bs ++ [])) s (selected (with_bars p bs) (PCI_BAR + 4 * i) s)).
  { rewrite app_nil_r. apply entry_set_same; [done | apply quiet_selected]. }
  assert (Hvia : forall q s', entry_set idx q (selected (with_bars p bs) (PCI_BAR + 4 * i) s) s' -> entry_set idx q s s').
  { intros q s'. apply (entry_set_trans _ _ _ _ _ _ Hsame). }
  destruct h as [|base k|base k pf low|base k pf]; cbn [bar_regs bar_ok recorded] in *;
    pose proof (Hregs 0%nat _ _ eq_refl) as [Hv Hm]; rewrite Z.add_0_r in Hv, Hm.
  - eapply post_eq; [apply (record_mem_start s idx p bs i Hat Hbs Hi6 0 0 _ Hv); done || lia |]. cbv zeta. change (Z.land 0 PCI_BAR_TYPE) with 0. cbn [Z.eqb orb]. change (0 + 0) with 0.
    unfold record_mem_bar. wp_step. eapply post_mono; [eapply (probe_size_spec _ idx); [exact Hat | lia | apply bar_reg_aligned | by symmetry] |].
    intros bar2 s2 _ [-> Hq]. rewrite probed_eq. cbn [cfg cfg_rw selected set_confadd]. change (pa (with_bars p bs)) with (pa p). rewrite Hv, Hm.
    change (Z.lor 0 0) with 0. cbn [Z.eqb]. wp_step. split; [done |]. apply Hvia. rewrite app_nil_r. by apply entry_set_same.
  - destruct Hok as (Hk & Hb & Hal). by apply record_io_spec.
  - destruct Hok as (Hk & Hb & Hal). assert (Hal4 : base mod 2 ^ 4 = 0) by (eapply aligned_low; [|exact Hal]; lia).
    eapply post_eq; [apply (record_mem_start s idx p bs i Hat Hbs Hi6 base _ _ Hv); destruct pf, low; done || (cbn; lia) |]. cbv zeta.
    replace ((Z.land (8 * Z.b2z pf + 2 * Z.b2z low) PCI_BAR_TYPE =? PCI_TYPE_32) || (Z.land (8 * Z.b2z pf + 2 * Z.b2z low) PCI_BAR_TYPE =? PCI_TYPE_32_1M))
      with true by (destruct pf, low; done).
    eapply post_mono; [apply (record_mem_bar_spec (selected _ _ s) idx p bs i Hat Hbs Hi6 base k _ 1 Hv Hm Hk Hb Hal); destruct pf, low; cbn; lia |].
    intros w s' _ [-> Hs]. split; [done | by apply Hvia].
  - destruct Hok as (Hk & Hb & Hal). pose proof (Hregs 1%nat _ _ eq_refl) as [Hv1 _].
    assert (Hal32 : (base mod 2 ^ 32) mod 2 ^ k = 0).
    { rewrite Z.mod_mod_divide; [done |]. exists (2 ^ (32 - k)). rewrite <-Z.pow_add_r by lia. f_equal. lia. }
    assert (Hal4 : (base mod 2 ^ 32) mod 2 ^ 4 = 0) by (eapply aligned_low; [|exact Hal32]; lia).
    eapply post_eq; [apply (record_mem_start s idx p bs i Hat Hbs Hi6 (base mod 2 ^ 32) _ _ Hv); destruct pf; done || (cbn; lia) |]. cbv zeta.
    replace (Z.land (8 * Z.b2z pf + 4) PCI_BAR_TYPE) with PCI_TYPE_64 by (destruct pf; done). cbn [Z.eqb Pos.eqb orb].
    unfold width in Hw. cbn in Hw. destruct (Z.eqb_spec (PCI_BAR + 4 * i) PCI_BAR_6); [lia |].
    wp_step. eapply post_run.
    { apply (r32_run _ idx (with_bars p bs)); [exact Hat | lia |]. replace (PCI_BAR + 4 * i + 4) with (PCI_BAR + 4 * (i + 1)) by lia. apply bar_reg_aligned. }
    cbn [cfg selected set_confadd]. change (pa (with_bars p bs)) with (pa p).
    replace (pa p + (PCI_BAR + 4 * i + 4)) with (pa p + (PCI_BAR + 4 * i) + 4 * Z.of_nat 1) by lia. rewrite Hv1.
    assert (Hvia2 : forall q s', entry_set idx q (selected (with_bars p bs) (PCI_BAR + 4 * i + 4)
      (selected (with_bars p bs) (PCI_BAR + 4 * i) s)) s' -> entry_set idx q s s').
    { intros q s' Hs. apply Hvia. eapply entry_set_trans; [apply entry_set_same; [exact Hat | apply quiet_selected] | exact Hs]. }
    destruct (Z.ltb_spec base (2 ^ 32)).
    + rewrite Z.div_small by lia. cbn [Z.eqb negb]. rewrite Z.mod_small in * by lia.
      eapply post_mono; [apply (record_mem_bar_spec (selected _ _ (selected _ _ s)) idx p bs i Hat Hbs Hi6 base k _ 2 Hv Hm Hk); [lia | done | destruct pf; cbn; lia] |].
      intros w s' _ [-> Hs]. split; [done | by apply Hvia2].
    + destruct (Z.eqb_spec (base / 2 ^ 32) 0) as [E|]; [apply Z.div_small_iff in E; lia |]. cbn [negb]. wp_step. split; [done |].
      apply Hvia2. rewrite app_nil_r. by apply entry_set_same.
Qed.

(** The six registers of a function, from register [i] on. *)
Fixpoint laid_out (c rw : gmap Z Z) (a i : Z) (l : list hwbar) : Prop :=
  match l with
  | [] => i = 6
  | h :: l' => i + width h <= 6 /\ bar_ok h /\ shows_regs c rw (a + (PCI_BAR + 4 * i)) (bar_regs h) /\
               laid_out c rw a (i + width h) l'
  end.
Fixpoint recorded_all (i : Z) (l : list hwbar) : list bar :=
  match l with
  | [] => []
  | h :: l' => recorded i h ++ recorded_all (i + width h) l'
  end.

Lemma width_pos h : 1 <= width h.
Proof. unfold width. destruct h; cbn; lia. Qed.
Lemma length_recorded i h : (length (recorded i h) <= 1)%nat.
Proof. destruct h; cbn; try lia. case_if; cbn; lia. Qed.
Lemma laid_out_ext c c' rw a i l :
  0 <= i -> (forall x, a + PCI_BAR + 4 * i <= x < a + 40 -> cfg_byte c x = cfg_byte c' x) -> laid_out c rw a i l -> laid_out c' rw a i l.
Proof.
  revert i. induction l as [|h l IH]; intros i Hi0 Hx; [done |]. cbn [laid_out]. pose proof (width_pos h). intros (Hi & Hok & Hs & Hl).
  split_and!; [done | done | | apply IH; [lia | intros; apply Hx; lia | done]]. intros j v m Hj. destruct (Hs j v m Hj) as [<- <-]. split; [|done].
  apply cfg_load_ext. apply lookup_lt_Some in Hj. intros x Hxr. symmetry. apply Hx. unfold width in Hi. lia.
Qed.

Lemma record_bars_loop_spec idx p l : forall fuel bs i s,
  at_dev s idx (with_bars p bs) -> 0 <= i -> Z.of_nat (length bs) <= i -> (length l <= fuel)%nat ->
  laid_out (cfg s) (cfg_rw s) (pa p) i l ->
  wp (record_bars_loop fuel idx i (PCI_BAR + 4 * i) PCI_BAR_6) s (fun _ s' =>
    entry_set idx (with_bars p (bs ++ recorded_all i l)) s s').
Proof.
  induction l as [|h l IH]; intros fuel bs i s Hat Hi Hbs Hf Hl; cbn [laid_out recorded_all] in *.
  - subst i. rewrite app_nil_r. destruct fuel; cbn [record_bars_loop]; apply (post_ret _ tt), entry_set_same; done.
  - destruct Hl as (Hw & Hok & Hr & Hl). destruct fuel as [|fuel]; cbn [length] in Hf; [lia |]. cbn [record_bars_loop].
    pose proof (width_pos h). destruct (Z.ltb_spec PCI_BAR_6 (PCI_BAR + 4 * i)); [lia |].
    wp_step. eapply post_mono; [apply (record_bar_spec s idx p bs i h); done || lia |]. intros w s1 _ [-> Hs1].
    replace (PCI_BAR + 4 * i + 4 * width h) with (PCI_BAR + 4 * (i + width h)) by lia.
    pose proof (length_recorded i h). eapply post_mono.
    + apply (IH fuel (bs ++ recorded i h)); [eapply at_dev_entry; [exact Hat | apply Hat | exact Hs1] | lia | rewrite length_app; lia | lia |].
      rewrite (q_rw _ _ Hs1). eapply laid_out_ext; [lia | | exact Hl]. intros x _. symmetry. apply (q_cfg _ _ Hs1).
    + intros [] s2 _ Hs2. rewrite <-app_assoc in Hs2. by eapply entry_set_trans.
Qed.

(** [record_bars] records exactly the windows the function's registers decode
    (those 32-bit addresses reach), in order, with base and size, and leaves
    the configuration space as it was. *)
Lemma record_bars_spec s idx p l :
  at_dev s idx p -> bars p = replicate 6 no_bar -> bar_nr p = 0 -> laid_out (cfg s) (cfg_rw s) (pa p) 0 l ->
  wp (record_bars idx PCI_BAR_6) s (fun _ s' => entry_set idx (with_bars p (recorded_all 0 l)) s s').
Proof.
  intros Hat Hb Hn Hl. assert (E : p = with_bars p []) by (destruct p; cbn in *; by subst).
  unfold record_bars. change PCI_BAR with (PCI_BAR + 4 * 0) at 1. apply (record_bars_loop_spec idx p l _ []).
  - by rewrite <-E.
  - lia.
  - cbn. lia.
  - assert (Hlen : forall l i, laid_out (cfg s) (cfg_rw s) (pa p) i l -> i + Z.of_nat (length l) <= 6).
    { clear. induction l as [|h l IH]; intros i Hl; cbn [laid_out length] in *; [lia |].
      destruct Hl as (_ & _ & _ & Hl). specialize (IH _ Hl). pose proof (width_pos h). lia. }
    specialize (Hlen l 0 Hl). lia.
  - exact Hl.
Qed.
