(* ===== verification/PciScan.v ===== *)
(** * The PCI scan records every function on the first eight buses

    [pci_init] enters the functions that answer, in order, with their
    configuration; of Intel network cards it also records the address windows
    and prepares the interrupt lines.  The table has 50 entries, and the
    entry after the last one found is written for every function probed. *)

From S2P Require Import Prelude PhysMem Descriptors DescriptorsSpec Apic ApicSpec Pci PciSpec.

(** A loop over a product is a loop in a loop. *)
Lemma forM_app {S X} (l1 l2 : list X) (body : X -> M S unit) s :
  forM (l1 ++ l2) body s = (forM l1 body ;; forM l2 body) s.
Proof.
  revert s. induction l1 as [|x l1 IH]; intros s; [done |]. cbn [app forM]. unfold mbind, M_bind in *.
  destruct (body x s); [apply IH | done].
Qed.
Lemma forM_mbind {S X Y} (l : list X) (f : X -> list Y) (body : Y -> M S unit) s :
  forM (l ≫= f) body s = forM l (fun x => forM (f x) body) s.
Proof.
  revert s. induction l as [|x l IH]; intros s; [done |]. change ((x :: l) ≫= f) with (f x ++ (l ≫= f)). rewrite forM_app.
  cbn [forM]. unfold mbind at 1 3, M_bind. destruct (forM (f x) body s); [apply IH | done].
Qed.
Lemma forM_ext {S X} (l : list X) (b1 b2 : X -> M S unit) s :
  (forall x s, b1 x s = b2 x s) -> forM l b1 s = forM l b2 s.
Proof.
  intros H. revert s. induction l as [|x l IH]; intros s; [done |]. cbn [forM]. unfold mbind, M_bind. rewrite H. by destruct (b2 x s).
Qed.
Lemma bind_ret_unit {S} (m : M S unit) s : (m ;; mret tt) s = m s.
Proof. unfold mbind, M_bind. by destruct (m s) as [[]|]. Qed.

Section Scan.
Context (sym : entry_point -> Z) (Hsym : forall e, 0 <= sym e < 2 ^ 64).

(** ** Interrupt lines of a card *)

(** The line is routed to CPU 3, and its vector leads to the handler. *)
Definition routed (s : pci) (irq : Z) : Prop :=
  route_at (pci_apic s) irq = (let high := if 16 <? irq then 1 else 0 in Route (32 + irq) 0 high high 0 3).
Definition caught (s : pci) (vector : Z) : Prop :=
  vector_gate (d_mem (pci_desc s)) (d_idt (pci_desc s)) vector = intr_gate sym irq_handler.

(** The lines [J] and vectors [V] were added, and nothing else changed. *)
Record wires (J V : list Z) (s s' : pci) : Prop := Wires {
  w_state : exists a d, s' = set_pci_desc d (set_pci_apic a s);
  w_routed : forall j, j ∈ J \/ routed s j -> routed s' j;
  w_caught : forall v, v ∈ V \/ caught s v -> caught s' v
}.

Lemma wires_refl s : wires [] [] s s.
Proof.
  split; [exists (pci_apic s), (pci_desc s); by destruct s | |]; intros j [H|H]; done || by apply not_elem_of_nil in H.
Qed.
Lemma wires_trans J J' V V' s s1 s2 : wires J V s s1 -> wires J' V' s1 s2 -> wires (J ++ J') (V ++ V') s s2.
Proof.
  intros [(a & d & ->) R1 C1] [(a' & d' & ->) R2 C2]. split; [by exists a', d' | |];
    intros j [[H|H]%elem_of_app|H]; eauto.
Qed.

Lemma route_irq_spec irq s : 0 <= irq < 224 -> wp (route_irq irq) s (fun _ s' => wires [irq] [] s s').
Proof.
  intros Hi. destruct (ioapic_enable_correct irq 3 (pci_apic s)) as (a & Hrun & Hr & _ & Hsame); [lia | lia |].
  unfold route_irq. apply post_zoom. eapply post_run; [exact Hrun |].
  split; [by exists a, (pci_desc s) | | intros v [H|H]; [by apply not_elem_of_nil in H | done]].
  intros j Hj. destruct (decide (j = irq)) as [-> |Hne]; [exact Hr |].
  destruct Hj as [->%list_elem_of_singleton|Hj]; [done |]. unfold routed, route_at in *. cbn [pci_apic set_pci_apic].
  by rewrite !Hsame by lia.
Qed.
Lemma catch_irq_spec v s : 0 <= v < NIDT -> wp (catch_irq sym v) s (fun _ s' => wires [] [v] s s').
Proof.
  intros Hv. unfold catch_irq. apply post_zoom. eapply post_mono.
  { exact (setgate_to sym Hsym _ _ _ v irq_handler IDT_INTR_GATE KNL_PVL (retabled_refl (pci_desc s)) Hv ltac:(lia) ltac:(lia)). }
  intros [] d _ (m & -> & Hm & _). split; [by eexists (pci_apic s), _ | intros j [H|H]; [by apply not_elem_of_nil in H | done] |].
  intros w Hw. unfold caught. cbn [pci_desc set_pci_desc d_mem d_idt set_d_mem]. rewrite Hm. cbn [overrides foldl fst snd].
  destruct (Z.eqb_spec w v); [done |]. destruct Hw as [->%list_elem_of_singleton|Hw]; done.
Qed.

Definition card_lines (pirq : Z) : list Z := [pirq + 0 + 16; pirq + 1 + 16; pirq + 2 + 16; pirq + 3 + 16].
Definition card_vectors (pirq : Z) : list Z := [32 + pirq + 0 + 16; 32 + pirq + 1 + 16; 32 + pirq + 2 + 16; 32 + pirq + 3 + 16].

(** One more line of [setup_card]. *)
Ltac wire Hs :=
  wp_step; eapply post_mono; [first [apply route_irq_spec | apply catch_irq_spec]; lia |];
  let s := fresh "s" in let H := fresh "Hw" in
  intros [] s _ H; apply (wires_trans _ _ _ _ _ _ _ Hs) in H; clear Hs; rename H into Hs.

(** Slot [idx] of the table was set to [p] since [s]. *)
Definition stage (idx : Z) (p : pcidev) (s s1 : pci) : Prop := entry_set idx p s s1 /\ at_dev s1 idx p.

(** Which of the four lines of the bridge the card's pin is connected to. *)
Definition pirq_of (p : pcidev) : Z := (devnr p + ipr p - 2) mod 4.

Lemma pirq_eq p : place_ok (busnr p) (devnr p) (funcnr p) ->
  Z.land (w32 (w32 (devnr p * 8 + funcnr p) / 2 ^ 3 + ipr p - 2)) 3 = pirq_of p.
Proof.
  intros (Hb & Hd & Hf). rewrite (w32_small (devnr p * 8 + funcnr p)) by lia. rewrite low3. unfold pirq_of, w32.
  replace ((devnr p * 8 + funcnr p) / 2 ^ 3) with (devnr p) by (Z.to_euclidean_division_equations; lia).
  rewrite Z.mod_mod_divide; [done |]. by exists (2 ^ 30).
Qed.

(** What [setup_card] leaves: the entry with the windows of the card, its
    lines prepared, and of the configuration space at most its interrupt line
    register changed. *)
Record card_set (idx : Z) (p : pcidev) (l : list hwbar) (s s' : pci) : Prop := CardSet {
  cs_cfg : forall a, a <> pa p + PCI_ILR -> cfg_byte (cfg s') a = cfg_byte (cfg s) a;
  cs_rw : cfg_rw s' = cfg_rw s;
  cs_devs : pcidevs s' = <[Z.to_nat idx := with_bars p (recorded_all 0 l)]> (pcidevs s);
  cs_nr : nr_pcidev s' = nr_pcidev s;
  cs_routed : forall j, j ∈ card_lines (pirq_of p) \/ routed s j -> routed s' j;
  cs_caught : forall v, v ∈ card_vectors (pirq_of p) \/ caught s v -> caught s' v
}.

Lemma setup_card_spec s s1 idx p l :
  stage idx p s s1 -> bars p = replicate 6 no_bar -> bar_nr p = 0 ->
  laid_out (cfg s) (cfg_rw s) (pa p) 0 l ->
  wp (setup_card sym idx) s1 (fun _ s' => card_set idx p l s s').
Proof.
  intros [[Qc Qrw Qd Qn Qa Qe] Hat] Hb Hn Hl. cbn in Qc, Qrw, Qd, Qn, Qa, Qe. unfold setup_card. wp_step.
  eapply post_run; [by apply pci_dev_run |].
  cbv zeta. rewrite pirq_eq by apply Hat. assert (Hq : 0 <= pirq_of p < 4) by (apply Z.mod_pos_bound; lia).
  pose proof (wires_refl s1) as Hw. wire Hw. wire Hw. wire Hw. wire Hw. wire Hw. wire Hw. wire Hw. wire Hw.
  match type of Hw with wires _ _ _ ?t => change (wires (card_lines (pirq_of p)) (card_vectors (pirq_of p)) s1 t) in Hw; rename t into sw end.
  destruct Hw as [(a & d & ->) R C]. wp_step. eapply post_run; [apply w8_run; [exact Hat | lia] |]. cbv beta.
  cbn [cfg cfg_rw set_pci_desc set_pci_apic].
  match goal with |- post _ _ ?t _ => set (sp := t) end. assert (Hatp : at_dev sp idx p) by exact Hat.
  assert (Hp3 : forall x, x <> pa p + PCI_ILR -> cfg_byte (cfg sp) x = cfg_byte (cfg s) x).
  { intros x Hx. cbn. rewrite cfg_byte_insert, (proj2 (Z.eqb_neq _ _) Hx). apply Qc. }
  eapply post_mono; [apply (record_bars_spec sp idx p l Hatp Hb Hn) |].
  - change (cfg_rw sp) with (cfg_rw s1). rewrite Qrw. eapply laid_out_ext; [done | | exact Hl]. intros x Hx. symmetry. apply Hp3. lia.
  - intros [] sq _ [Qc4 Qrw4 Qd4 Qn4 Qa4 Qe4]. cbn in Qrw4, Qd4, Qn4, Qa4, Qe4. split.
    + intros x Hx. rewrite (Qc4 x). by apply Hp3.
    + congruence.
    + by rewrite Qd4, Qd, list_insert_insert_eq.
    + congruence.
    + intros j Hj. unfold routed. rewrite Qa4. apply R. destruct Hj as [Hj|Hj]; [by left | right]. unfold routed. by rewrite Qa.
    + intros v Hv. unfold caught. rewrite Qe4. apply C. destruct Hv as [Hv|Hv]; [by left | right]. unfold caught. by rewrite Qe.
Qed.

(** ** One function *)

Lemma stage_quiet idx p s s1 s2 : stage idx p s s1 -> quiet s1 s2 -> stage idx p s s2.
Proof. intros [He Ha] Hq. split; [unfold entry_set in *; by etransitivity | by eapply at_dev_quiet]. Qed.
Lemma stage_cfg idx p s s1 n a : stage idx p s s1 -> cfg_load n (cfg s1) a = cfg_load n (cfg s) a.
Proof. intros [[Hc _ _ _ _ _] _]. by rewrite Hc. Qed.

Lemma stage_r8 E idx p s s1 reg :
  stage idx p s s1 -> 0 <= reg < 2 ^ 8 ->
  post E (pci_attr_r8_u idx reg) s1 (fun v s2 => v = cfg_load 1 (cfg s) (pa p + reg) /\ stage idx p s s2).
Proof.
  intros Hs Hr. eapply post_run; [apply r8_run; [apply Hs | done] |].
  split; [by eapply stage_cfg | eapply stage_quiet; [done | apply quiet_selected]].
Qed.
Lemma stage_r16 E idx p s s1 reg :
  stage idx p s s1 -> 0 <= reg < 2 ^ 8 -> reg mod 2 = 0 ->
  post E (pci_attr_r16 idx reg) s1 (fun v s2 => v = cfg_load 2 (cfg s) (pa p + reg) /\ stage idx p s s2).
Proof.
  intros Hs Hr He. eapply post_run; [apply r16_run; [apply Hs | done | done] |].
  split; [by eapply stage_cfg | eapply stage_quiet; [done | apply quiet_selected]].
Qed.
Lemma stage_rsts E idx p s s1 :
  stage idx p s s1 ->
  post E (pci_attr_rsts idx) s1 (fun v s2 => v = cfg_load 2 (cfg s) (faddr (busnr p) 0 0 + PCI_SR) /\ stage idx p s s2).
Proof.
  intros Hs. destruct (rsts_run s1 idx p (proj2 Hs)) as [x Hrun]. eapply post_run; [exact Hrun |].
  split; [by eapply stage_cfg | eapply stage_quiet; [done | by split]].
Qed.
Lemma stage_update E idx p s s1 f :
  stage idx p s s1 -> place_ok (busnr (f p)) (devnr (f p)) (funcnr (f p)) ->
  post E (update_dev idx f) s1 (fun _ s2 => stage idx (f p) s s2).
Proof.
  intros [He Ha] Hf. unfold update_dev. wp_step. eapply post_run; [by apply pci_dev_run |]. wp_step.
  assert (Hs : entry_set idx (f p) s1 (set_pcidevs (<[Z.to_nat idx:=f p]> (pcidevs s1)) s1)) by (by split).
  split; [by eapply entry_set_trans | by eapply at_dev_entry].
Qed.

(** A function by bus, device and function number. *)
Definition fn_ok (g : Z * Z * Z) : Prop := place_ok g.1.1 g.1.2 g.2.
Definition fa (g : Z * Z * Z) : Z := faddr g.1.1 g.1.2 g.2.
Definition present (c : gmap Z Z) (g : Z * Z * Z) : bool :=
  negb ((cfg_load 2 c (fa g + PCI_VID) =? NO_VID) && (cfg_load 2 c (fa g + PCI_DID) =? NO_VID)).
Definition is_card (c : gmap Z Z) (g : Z * Z * Z) : bool :=
  (cfg_load 1 c (fa g + PCI_BCR) =? SUBCLASS_NET) && (cfg_load 2 c (fa g + PCI_VID) =? 0x8086).
(** The entry of a function that answers. *)
Definition plain_entry (c : gmap Z Z) (g : Z * Z * Z) : pcidev :=
  PciDev g.1.1 g.1.2 g.2
    (cfg_load 1 c (fa g + PCI_BCR)) (cfg_load 1 c (fa g + PCI_SCR)) (cfg_load 1 c (fa g + PCI_PIFR)) (cfg_load 1 c (fa g + PCI_HEADT))
    (cfg_load 2 c (fa g + PCI_VID)) (cfg_load 2 c (fa g + PCI_DID)) (cfg_load 1 c (fa g + PCI_ILR))
    (cfg_load 2 c (faddr g.1.1 0 0 + PCI_SR)) (cfg_load 1 c (fa g + PCI_IPR)) (replicate 6 no_bar) 0.
Definition describe (layout : Z * Z * Z -> list hwbar) (c : gmap Z Z) (g : Z * Z * Z) : pcidev :=
  if is_card c g then with_bars (plain_entry c g) (recorded_all 0 (layout g)) else plain_entry c g.
Definition irq_of (c : gmap Z Z) (g : Z * Z * Z) : Z := pirq_of (plain_entry c g).

(** The next free entry, with the fields never written still zero. *)
Definition blank_at (s : pci) (idx : Z) (p : pcidev) : Prop :=
  0 <= idx /\ pcidevs s !! Z.to_nat idx = Some p /\ bars p = replicate 6 no_bar /\ bar_nr p = 0.

Record entered (layout : Z * Z * Z -> list hwbar) (g : Z * Z * Z) (s s' : pci) : Prop := Entered {
  en_cfg : forall a, is_card (cfg s) g = false \/ a <> fa g + PCI_ILR -> cfg_byte (cfg s') a = cfg_byte (cfg s) a;
  en_rw : cfg_rw s' = cfg_rw s;
  en_devs : pcidevs s' = <[Z.to_nat (nr_pcidev s) := describe layout (cfg s) g]> (pcidevs s);
  en_nr : nr_pcidev s' = nr_pcidev s + 1;
  en_routed : forall j, is_card (cfg s) g = true /\ j ∈ card_lines (irq_of (cfg s) g) \/ routed s j -> routed s' j;
  en_caught : forall v, is_card (cfg s) g = true /\ v ∈ card_vectors (irq_of (cfg s) g) \/ caught s v -> caught s' v
}.

Lemma start_stage s idx p g :
  blank_at s idx p -> fn_ok g ->
  wp (update_dev idx (set_place (w8 g.1.1) (w8 g.1.2) (w8 g.2))) s (fun _ s1 => stage idx (set_place g.1.1 g.1.2 g.2 p) s s1).
Proof.
  intros (H0 & Hp & _) Hg. pose proof Hg as (Hb & Hd & Hf). rewrite !w8_small by lia. unfold update_dev. wp_step.
  eapply post_run.
  { unfold pci_dev. erewrite bind_step by reflexivity. rewrite (proj2 (Z.ltb_ge idx 0)) by done. rewrite Hp. reflexivity. }
  wp_step. split; [by split |]. split; [done | split; [|exact Hg]]. apply list_lookup_insert_eq. by eapply lookup_lt_Some.
Qed.

Ltac stage_read lem := wp_step; eapply post_mono; [eapply lem; [eassumption | first [reflexivity | lia] ..] |]; intros ? ? _ [-> ?].
Ltac stage_write := wp_step; eapply post_mono; [eapply stage_update; [eassumption | assumption] |]; intros [] ? _ ?.

Lemma probe_function_spec layout s g p :
  blank_at s (nr_pcidev s) p -> fn_ok g ->
  (present (cfg s) g = true -> is_card (cfg s) g = true -> laid_out (cfg s) (cfg_rw s) (fa g) 0 (layout g)) ->
  wp (probe_function sym g.1.1 g.1.2 g.2) s (fun _ s' =>
    if present (cfg s) g then entered layout g s s' else entry_set (nr_pcidev s) (set_place g.1.1 g.1.2 g.2 p) s s').
Proof.
  intros Hb Hg Hl. pose proof Hb as (H0 & Hp & Hbars & Hn). unfold probe_function. wp_step. apply post_gets.
  wp_step. eapply post_mono; [by apply start_stage |]. intros [] s1 _ H1.
  stage_read stage_r16. stage_read stage_r16.
  change (pa (set_place g.1.1 g.1.2 g.2 p)) with (fa g). unfold present. destruct (_ && _) eqn:Hpr; cbn [negb].
  { wp_step. match goal with H : stage _ _ _ ?t |- entry_set _ _ _ ?t => apply H end. }
  stage_write. stage_read stage_r8. stage_read stage_rsts. stage_write.
  stage_read stage_r8. stage_read stage_r8. stage_read stage_r8. stage_write.
  stage_read stage_r8. stage_read stage_r8. stage_write.
  match goal with H : stage _ ?q s ?t |- post _ _ ?t _ => assert (Eq : q = plain_entry (cfg s) g) end.
  { destruct p. cbn in Hbars, Hn. subst. reflexivity. }
  match goal with H : stage _ _ s ?t |- post _ _ ?t _ => rewrite Eq in H; rename t into se, H into Hse end. clear Eq.
  match goal with |- post _ (mbind _ (when ?b _)) _ _ => change b with (is_card (cfg s) g) end.
  assert (Hd : describe layout (cfg s) g = if is_card (cfg s) g then with_bars (plain_entry (cfg s) g) (recorded_all 0 (layout g))
    else plain_entry (cfg s) g) by done.
  wp_step. destruct (is_card (cfg s) g) eqn:Hc; cbn [when].
  - eapply post_mono; [apply (setup_card_spec s se _ _ (layout g) Hse); [done | done |] |].
    { apply Hl; [unfold present; by rewrite Hpr | done]. }
    intros [] s3 _ [C1 C2 C3 C4 C5 C6]. wp_step. split; cbn [cfg cfg_rw pcidevs nr_pcidev set_nr_pcidev].
    + intros a [Ha|Ha]; [congruence | by apply C1].
    + done.
    + by rewrite C3, Hd.
    + by rewrite C4.
    + intros j [[_ Hj]|Hj]; apply C5; [by left | by right].
    + intros v [[_ Hv]|Hv]; apply C6; [by left | by right].
  - wp_step. wp_step. destruct Hse as [[Qc Qrw Qd Qn Qa Qe] _]. cbn in Qc, Qrw, Qd, Qn, Qa, Qe.
    split; cbn [cfg cfg_rw pcidevs nr_pcidev set_nr_pcidev].
    + intros a _. apply Qc.
    + done.
    + by rewrite Qd, Hd.
    + by rewrite Qn.
    + intros j [[? _]|Hj]; [congruence |]. unfold routed in *. cbn [pci_apic set_nr_pcidev]. by rewrite Qa.
    + intros v [[? _]|Hv]; [congruence |]. unfold caught in *. cbn [pci_desc set_nr_pcidev]. by rewrite Qe.
Qed.

(** A full table: the next probe writes behind it. *)
Lemma probe_function_full s b d f :
  pcidevs s !! Z.to_nat (nr_pcidev s) = None -> probe_function sym b d f s = Stop (Fault "pcidev").
Proof.
  intros Hp. unfold probe_function. erewrite bind_step by reflexivity. apply bind_stop. unfold update_dev. apply bind_stop.
  unfold pci_dev. erewrite bind_step by reflexivity. destruct (nr_pcidev s <? 0); [done |]. by rewrite Hp.
Qed.

(** ** The whole scan *)

Definition functions : list (Z * Z * Z) :=
  b ← seqZ 0 8; d ← seqZ 0 32; f ← seqZ 0 8; [(b, d, f)].

Lemma functions_nodup : NoDup functions.
Proof.
  apply (NoDup_fmap_1 (fun g : Z * Z * Z => g.1.1 * 2 ^ 8 + g.1.2 * 2 ^ 3 + g.2)).
  replace (_ <$> functions) with (seqZ 0 2048) by (vm_compute; reflexivity). apply NoDup_seqZ.
Qed.
Lemma functions_ok g : g ∈ functions -> fn_ok g.
Proof.
  unfold functions. rewrite list_elem_of_bind. intros (b & (d & (f & ->%list_elem_of_singleton & Hf)%list_elem_of_bind & Hd)%list_elem_of_bind & Hb).
  apply elem_of_seqZ in Hb, Hd, Hf. unfold fn_ok, place_ok. cbn. lia.
Qed.

Lemma scan_flat s : forM (seqZ 0 8) (probe_bus sym) s = forM functions (fun g => probe_function sym g.1.1 g.1.2 g.2) s.
Proof.
  unfold functions. rewrite forM_mbind. apply forM_ext. intros b s1. rewrite forM_mbind. apply forM_ext. intros d s2.
  rewrite forM_mbind. apply forM_ext. intros f s3. cbn [forM fst snd]. by rewrite bind_ret_unit.
Qed.

Section Run.
Context (layout : Z * Z * Z -> list hwbar) (s0 : pci).
Abbreviation c0 := (cfg s0).
Definition found (l : list (Z * Z * Z)) : list (Z * Z * Z) := filter (fun g => present c0 g = true) l.
Definition cards (l : list (Z * Z * Z)) : list (Z * Z * Z) := filter (fun g => is_card c0 g = true) (found l).

(** After the functions [dn] were probed. *)
Record scanned (dn : list (Z * Z * Z)) (s : pci) : Prop := Scanned {
  sc_cfg : forall a, (forall g, g ∈ cards dn -> a <> fa g + PCI_ILR) -> cfg_byte (cfg s) a = cfg_byte c0 a;
  sc_rw : cfg_rw s = cfg_rw s0;
  sc_len : length (pcidevs s) = 50%nat;
  sc_nr : nr_pcidev s = Z.of_nat (length (found dn));
  sc_devs : take (length (found dn)) (pcidevs s) = describe layout c0 <$> found dn;
  sc_blank : forall j p, (length (found dn) <= j)%nat -> pcidevs s !! j = Some p -> bars p = replicate 6 no_bar /\ bar_nr p = 0;
  sc_routed : forall g j, g ∈ cards dn -> j ∈ card_lines (irq_of c0 g) -> routed s j;
  sc_caught : forall g v, g ∈ cards dn -> v ∈ card_vectors (irq_of c0 g) -> caught s v
}.

(** Registers of a function not yet probed are as they were. *)
Section Local.
Context (c : gmap Z Z) (g : Z * Z * Z) (Hg : fn_ok g).
Context (Hb : forall g' r, fn_ok g' -> 0 <= r < 2 ^ 8 -> g' = g \/ r <> PCI_ILR -> cfg_byte c (fa g' + r) = cfg_byte c0 (fa g' + r)).

Lemma local_load n r : 0 <= r -> r + Z.of_nat n <= 2 ^ 8 -> cfg_load n c (fa g + r) = cfg_load n c0 (fa g + r).
Proof.
  intros Hr Hn. apply cfg_load_ext. intros x Hx. replace x with (fa g + (x - fa g)) by lia. apply Hb; [done | lia | by left].
Qed.
Lemma local_present : present c g = present c0 g.
Proof. unfold present. by rewrite !local_load by lia. Qed.
Lemma local_card : is_card c g = is_card c0 g.
Proof. unfold is_card. by rewrite !local_load by lia. Qed.
Lemma local_entry : plain_entry c g = plain_entry c0 g.
Proof.
  unfold plain_entry. rewrite !local_load by lia. f_equal. apply cfg_load_ext. intros x Hx.
  assert (Hz : fn_ok (g.1.1, 0, 0)) by (destruct Hg as (H & _); split_and!; done || (cbn; lia)).
  change (faddr g.1.1 0 0) with (fa (g.1.1, 0, 0)) in *.
  replace x with (fa (g.1.1, 0, 0) + (x - fa (g.1.1, 0, 0))) by lia. apply Hb; [done | lia | right; lia].
Qed.
Lemma local_describe : describe layout c g = describe layout c0 g.
Proof. unfold describe. by rewrite local_card, local_entry. Qed.
Lemma local_laid_out rw l : laid_out c0 rw (fa g) 0 l -> laid_out c rw (fa g) 0 l.
Proof.
  apply laid_out_ext; [done |]. intros x Hx. symmetry. replace x with (fa g + (x - fa g)) by lia. apply Hb; [done | lia | by left].
Qed.
End Local.

Lemma found_snoc dn g : found (dn ++ [g]) = if present c0 g then found dn ++ [g] else found dn.
Proof.
  unfold found. rewrite filter_app. destruct (present c0 g) eqn:E.
  - by rewrite filter_cons_True.
  - rewrite filter_cons_False by congruence. apply app_nil_r.
Qed.
Lemma cards_snoc dn g h :
  h ∈ cards (dn ++ [g]) <-> h ∈ cards dn \/ h = g /\ present c0 g = true /\ is_card c0 g = true.
Proof.
  unfold cards, found. rewrite !list_elem_of_filter, elem_of_app, list_elem_of_singleton. split; [|intuition (subst; auto)].
  intros (? & ? & [?| ->]); tauto.
Qed.
Lemma cards_in dn g : g ∈ cards dn -> g ∈ dn.
Proof. unfold cards, found. rewrite !list_elem_of_filter. tauto. Qed.

Lemma scanned_local dn s g :
  scanned dn s -> Forall fn_ok dn -> g ∉ dn -> fn_ok g ->
  forall g' r, fn_ok g' -> 0 <= r < 2 ^ 8 -> g' = g \/ r <> PCI_ILR -> cfg_byte (cfg s) (fa g' + r) = cfg_byte c0 (fa g' + r).
Proof.
  intros Hs Hdn Hn Hg g' r Hg' Hr Hor. apply (sc_cfg _ _ Hs). intros h Hh%cards_in E.
  assert (Hhok : fn_ok h) by (by eapply Forall_forall in Hdn).
  unfold fn_ok, fa in *. apply faddr_inj in E as (E1 & E2 & E3 & E4); [|done | done | done | lia].
  destruct Hor as [-> |]; [|done]. apply Hn. destruct g as [[??]?], h as [[??]?]. cbn in *. by subst.
Qed.

(** The entries after one more function that answers. *)
Lemma entries_snoc dn g (l : list pcidev) :
  length l = 50%nat -> (length (found dn) < 50)%nat -> take (length (found dn)) l = describe layout c0 <$> found dn ->
  take (length (found dn ++ [g])) (<[length (found dn) := describe layout c0 g]> l) = describe layout c0 <$> (found dn ++ [g]).
Proof.
  intros Hl Hlt Ht. rewrite length_app, Nat.add_1_r, fmap_app, <-Ht. cbn [length fmap list_fmap].
  rewrite (take_S_r _ _ (describe layout c0 g)) by (apply list_lookup_insert_eq; lia). f_equal. by rewrite take_insert_ge.
Qed.

Lemma scanned_skip dn g s s' p :
  scanned dn s -> present c0 g = false -> pcidevs s !! length (found dn) = Some p ->
  entry_set (nr_pcidev s) (set_place g.1.1 g.1.2 g.2 p) s s' -> scanned (dn ++ [g]) s'.
Proof.
  intros [S1 S2 S3 S4 S5 S6 S7 S8] Epr Hp [Q1 Q2 Q3 Q4 Q5 Q6]. cbn in Q1, Q2, Q3, Q4, Q5, Q6. rewrite S4, Nat2Z.id in Q3.
  assert (Hc : forall h, h ∈ cards (dn ++ [g]) -> h ∈ cards dn) by (intros h [H|(_ & H & _)]%cards_snoc; [done | congruence]).
  assert (Hcb : forall h, h ∈ cards dn -> h ∈ cards (dn ++ [g])) by (intros h H; apply cards_snoc; by left).
  split; rewrite ?found_snoc, ?Epr.
  - intros a Ha. rewrite (Q1 a). apply S1. auto.
  - congruence.
  - by rewrite Q3, length_insert.
  - congruence.
  - by rewrite Q3, take_insert_ge.
  - intros j q Hj Hq. rewrite Q3 in Hq. destruct (decide (j = length (found dn))) as [-> |].
    + rewrite list_lookup_insert_eq in Hq by (by eapply lookup_lt_Some). injection Hq as <-. by apply (S6 (length (found dn)) p).
    + rewrite list_lookup_insert_ne in Hq by congruence. eauto.
  - intros h j Hh Hj. unfold routed. rewrite Q5. eapply S7; eauto.
  - intros h v Hh Hv. unfold caught. rewrite Q6. eapply S8; eauto.
Qed.

Lemma scanned_enter dn g s s' :
  scanned dn s -> present c0 g = true -> is_card (cfg s) g = is_card c0 g -> plain_entry (cfg s) g = plain_entry c0 g ->
  (length (found dn) < 50)%nat -> entered layout g s s' -> scanned (dn ++ [g]) s'.
Proof.
  intros [S1 S2 S3 S4 S5 S6 S7 S8] Epr Ec Ee Hlt [Q1 Q2 Q3 Q4 Q5 Q6].
  assert (Ed : describe layout (cfg s) g = describe layout c0 g) by (unfold describe; by rewrite Ec, Ee).
  assert (Ei : irq_of (cfg s) g = irq_of c0 g) by (unfold irq_of; by rewrite Ee).
  rewrite Ed, S4, Nat2Z.id in Q3. rewrite Ec, Ei in Q5, Q6. rewrite Ec in Q1.
  split; rewrite ?found_snoc, ?Epr.
  - intros a Ha. rewrite Q1.
    + apply S1. intros h Hh. apply Ha, cards_snoc. by left.
    + destruct (is_card c0 g) eqn:E; [right | by left]. apply Ha, cards_snoc. by right.
  - congruence.
  - by rewrite Q3, length_insert.
  - rewrite Q4, S4, length_app. cbn [length]. lia.
  - rewrite Q3. by apply entries_snoc.
  - intros j q Hj Hq. rewrite length_app in Hj. cbn [length] in Hj. rewrite Q3, list_lookup_insert_ne in Hq by lia. apply (S6 j); [lia | done].
  - intros h j [Hh|(-> & _ & Hc)]%cards_snoc Hj; apply Q5; [right; by eapply S7 | by left].
  - intros h v [Hh|(-> & _ & Hc)]%cards_snoc Hv; apply Q6; [right; by eapply S8 | by left].
Qed.

Lemma scan_step dn g s :
  scanned dn s -> Forall fn_ok dn -> g ∉ dn -> fn_ok g ->
  (present c0 g = true -> is_card c0 g = true -> laid_out c0 (cfg_rw s0) (fa g) 0 (layout g)) ->
  post (fun e => e = Fault "pcidev" /\ (50 <= length (found dn))%nat) (probe_function sym g.1.1 g.1.2 g.2) s (fun _ s' => scanned (dn ++ [g]) s').
Proof.
  intros Hs Hdn Hn Hg Hl. pose proof (scanned_local dn s g Hs Hdn Hn Hg) as Hloc. destruct Hs as [S1 S2 S3 S4 S5 S6 S7 S8].
  assert (Enr : Z.to_nat (nr_pcidev s) = length (found dn)) by (rewrite S4; lia).
  destruct (pcidevs s !! Z.to_nat (nr_pcidev s)) as [p|] eqn:Hp; [|].
  2:{ unfold post. rewrite probe_function_full by done. split; [done |]. apply lookup_ge_None in Hp. lia. }
  assert (Hlt : (length (found dn) < 50)%nat) by (apply lookup_lt_Some in Hp; lia).
  rewrite Enr in Hp. destruct (S6 _ _ (le_n _) Hp) as [Hb1 Hb2]. rewrite <-Enr in Hp.
  eapply post_conseq; [apply (probe_function_spec layout s g p); [split_and!; [rewrite S4; lia | done..] | done |] | done |].
  { rewrite (local_present _ g Hg Hloc), (local_card _ g Hg Hloc), S2. intros H1 H2. apply local_laid_out; [done | done |]. by apply Hl. }
  intros [] s' Hs'. cbv beta in Hs'. rewrite (local_present _ g Hg Hloc) in Hs'. destruct (present c0 g) eqn:Epr.
  - eapply scanned_enter; [by split | done | by apply local_card | by apply local_entry | done | done].
  - rewrite Enr in Hp. eapply scanned_skip; [by split | done | exact Hp | done].
Qed.

(** The state at the start of the program. *)
Definition fresh : Prop := pcidevs s0 = replicate 50 no_pcidev /\ nr_pcidev s0 = 0.

Lemma scanned_start : fresh -> scanned [] s0.
Proof.
  intros [Hd Hn]. split; try done.
  - by rewrite Hd.
  - intros j p _ Hp. rewrite Hd in Hp. apply lookup_replicate_1 in Hp as [-> _]. done.
  - intros g j Hg. by apply not_elem_of_nil in Hg.
  - intros g v Hg. by apply not_elem_of_nil in Hg.
Qed.
Lemma scanned_confadd dn s x : scanned dn s -> scanned dn (set_confadd x s).
Proof. by intros [S1 S2 S3 S4 S5 S6 S7 S8]. Qed.

Lemma found_length dn g rest : functions = dn ++ g :: rest -> (length (found dn) <= length (found functions))%nat.
Proof. intros E. rewrite E. unfold found. rewrite filter_app, length_app. lia. Qed.

(** The windows of every card are laid out in its registers. *)
Definition cards_laid_out : Prop :=
  forall g, g ∈ cards functions -> laid_out c0 (cfg_rw s0) (fa g) 0 (layout g).

Lemma scan_run s :
  scanned [] s -> cards_laid_out ->
  post (fun e => e = Fault "pcidev" /\ (50 <= length (found functions))%nat) (forM functions (fun g => probe_function sym g.1.1 g.1.2 g.2)) s
    (fun _ s' => scanned functions s').
Proof.
  intros Hs Hlay. eapply post_mono; [apply (post_forM _ (fun rest s' => exists dn, functions = dn ++ rest /\ scanned dn s')) |].
  - by exists [].
  - intros g rest s1 (dn & E & Hs1). pose proof functions_nodup as Hnd. rewrite E in Hnd. apply NoDup_app in Hnd as (_ & Hnd & _).
    eapply post_conseq; [apply (scan_step dn g s1 Hs1) | |].
    + apply Forall_forall. intros h Hh. apply functions_ok. rewrite E. apply elem_of_app. by left.
    + intros Hin. apply (Hnd g Hin). by left.
    + apply functions_ok. rewrite E. apply elem_of_app. right. by left.
    + intros H1 H2. apply Hlay. unfold cards, found. rewrite !list_elem_of_filter. split_and!; [done | done |].
      rewrite E. apply elem_of_app. right. by left.
    + intros e [-> Hge]. split; [done |]. etransitivity; [exact Hge |]. by eapply found_length.
    + intros [] s2 Hs2. exists (dn ++ [g]). by rewrite <-app_assoc.
  - intros [] s1 _ (dn & E & Hs1). rewrite app_nil_r in E. by rewrite E.
Qed.

Lemma init_run :
  fresh -> cards_laid_out ->
  post (fun e => e = Fault "pcidev" /\ (50 <= length (found functions))%nat) (pci_init sym) s0 (fun _ s' => scanned functions s').
Proof.
  intros Hf Hlay. unfold pci_init. assert (Hp : place_ok 0 0 0) by (split_and!; done || lia). unfold PCII_RREG16_.
  unfold post. erewrite !bind_step by (try reflexivity; erewrite bind_step by (by apply select_run); reflexivity).
  rewrite scan_flat. apply (scan_run _); [by apply scanned_confadd, scanned_confadd, scanned_confadd, scanned_start | done].
Qed.
Lemma scan_returns :
  fresh -> cards_laid_out -> (length (found functions) < 50)%nat -> exists s', pci_init sym s0 = Ok tt s' /\ scanned functions s'.
Proof.
  intros Hf Hlay Hn. pose proof (init_run Hf Hlay) as Hrun. unfold post in Hrun. destruct (pci_init sym s0) as [[] s'|e].
  - by exists s'.
  - destruct Hrun as [_ ?]. lia.
Qed.

(** C19: the PCI scan.  From the zeroed table, with the windows of the Intel
    network cards laid out in their registers, [__pci_init] returns when fewer
    than 50 functions answer on buses 0 to 7, and then the table lists exactly
    these functions in order of bus, device and function, each with its
    configuration and a card with exactly the windows it decodes (base and
    size); the configuration space is as before but for the interrupt-line
    registers of the cards, and the lines of every card are routed to CPU 3
    with gates to the interrupt handler.  With more than 50 functions the
    scan writes behind the table. *)
Theorem pci_init_correct :
  fresh -> cards_laid_out ->
  ((length (found functions) < 50)%nat -> exists s', pci_init sym s0 = Ok tt s' /\ scanned functions s') /\
  ((50 < length (found functions))%nat -> pci_init sym s0 = Stop (Fault "pcidev")).
Proof.
  intros Hf Hlay. split; [by apply scan_returns |]. intros Hn. pose proof (init_run Hf Hlay) as Hrun.
  unfold post in Hrun. destruct (pci_init sym s0) as [[] s'|e].
  - pose proof (f_equal length (sc_devs _ _ Hrun)) as E. rewrite length_take, length_fmap, (sc_len _ _ Hrun) in E. lia.
  - by destruct Hrun as [-> _].
Qed.

(** ** The address of the card *)

(** All windows of all cards, in order. *)
Definition windows (l : list (Z * Z * Z)) : list bar := cards l ≫= (fun g => recorded_all 0 (layout g)).

Lemma found_idem l : found (found l) = found l.
Proof.
  unfold found. induction l as [|g l IH]; [done |]. destruct (decide (present c0 g = true)) as [E|E].
  - rewrite !filter_cons_True by done. by rewrite IH.
  - by rewrite !filter_cons_False by done.
Qed.

Lemma reg_loop_describe l :
  (forall g, g ∈ l -> present c0 g = true) ->
  e1000_reg_loop (describe layout c0 <$> l) = (w ← head (windows l); Some (b_base w, b_size w)).
Proof.
  induction l as [|g l IH]; intros Hl; [done |]. cbn [fmap list_fmap e1000_reg_loop].
  assert (Hg : present c0 g = true) by (apply Hl; by left).
  assert (IH' : e1000_reg_loop (describe layout c0 <$> l) = (w ← head (windows l); Some (b_base w, b_size w))).
  { apply IH. intros h Hh. apply Hl. by right. }
  unfold windows, cards, found in *. rewrite filter_cons_True by done. unfold describe at 1 2 3. destruct (is_card c0 g) eqn:Hc.
  - rewrite filter_cons_True by done. cbn [mbind list_bind]. cbn [baseclass with_bars set_bars plain_entry bar_nr bars].
    apply andb_true_iff in Hc as [-> _]. cbn [andb].
    destruct (recorded_all 0 (layout g)) as [|w ws]; [exact IH' |]. cbn [length app lookup list_lookup head]. done.
  - rewrite filter_cons_False by congruence. cbn [baseclass plain_entry bar_nr Z.ltb Z.compare]. rewrite andb_false_r. exact IH'.
Qed.

(** The driver gets base and size of the first window of the first Intel
    network card that has one, and panics when there is none. *)
Theorem card_address_correct :
  fresh -> cards_laid_out -> (length (found functions) < 50)%nat ->
  match head (windows functions) with
  | Some w => exists s', (pci_init sym ;; pci_get_e1000_reg) s0 = Ok (b_base w, b_size w) s' /\ scanned functions s'
  | None => (pci_init sym ;; pci_get_e1000_reg) s0 = Stop (Panic "Could not find e1000 base address and size")
  end.
Proof.
  intros Hf Hlay Hn. destruct (scan_returns Hf Hlay Hn) as (s' & Hrun & Hs).
  assert (E : e1000_reg_loop (take (Z.to_nat (nr_pcidev s')) (pcidevs s')) = (w ← head (windows functions); Some (b_base w, b_size w))).
  { rewrite (sc_nr _ _ Hs), Nat2Z.id, (sc_devs _ _ Hs), reg_loop_describe by (intros g [? _]%list_elem_of_filter; done).
    unfold windows, cards. by rewrite found_idem. }
  destruct (head (windows functions)) as [w|]; [exists s'; split; [|done] |];
    rewrite (bind_step _ _ _ _ _ Hrun); unfold pci_get_e1000_reg; erewrite bind_step by reflexivity; by rewrite E.
Qed.
End Run.
End Scan.
