(* ===== verification/E1000.v ===== *)
(** * Network driver (drivers/net/e1000/main.c)

    The driver and the card share two rings of 256 descriptors, each with a
    buffer of 2048 bytes.  The card is a parameter: [card] gives the value a
    register reads after the accesses made so far, [dma] what the card has
    stored in the program's memory by then.  The program's memory is indexed by
    virtual address; [cpuinfo] translates addresses for the card.  The network
    stack (lwIP, entered in lwip-input.c) is a parameter too: [lwip_input]
    takes a packet and [initialization] sets it up. *)

From S2P Require Import Prelude PhysMem Descriptors CpuInfo Apic Pci.

Abbreviation E1000_RXDESC_NR := 256.
Abbreviation E1000_TXDESC_NR := 256.
Abbreviation E1000_IOBUF_SIZE := 2048.
Abbreviation E1000_ENABLED := 0x2.
Abbreviation E1000_REG_CTRL := 0x00000.
Abbreviation E1000_REG_STATUS := 0x00008.
Abbreviation E1000_REG_FCAL := 0x00028.
Abbreviation E1000_REG_FCAH := 0x0002c.
Abbreviation E1000_REG_FCT := 0x00030.
Abbreviation E1000_REG_IMS := 0x000d0.
Abbreviation E1000_REG_RCTL := 0x00100.
Abbreviation E1000_REG_TCTL := 0x00400.
Abbreviation E1000_REG_FCTTV := 0x00170.
Abbreviation E1000_REG_RDBAL := 0x02800.
Abbreviation E1000_REG_RDBAH := 0x02804.
Abbreviation E1000_REG_RDLEN := 0x02808.
Abbreviation E1000_REG_RDH := 0x02810.
Abbreviation E1000_REG_RDT := 0x02818.
Abbreviation E1000_REG_TDBAL := 0x03800.
Abbreviation E1000_REG_TDBAH := 0x03804.
Abbreviation E1000_REG_TDLEN := 0x03808.
Abbreviation E1000_REG_TDH := 0x03810.
Abbreviation E1000_REG_TDT := 0x03818.
Abbreviation E1000_REG_CRCERRS := 0x04000.
Abbreviation E1000_REG_TPR := 0x040D0.
Abbreviation E1000_REG_RAL := 0x05400.
Abbreviation E1000_REG_RAH := 0x05404.
Abbreviation E1000_REG_MTA := 0x05200.
Abbreviation E1000_REG_CTRL_LRST := (2 ^ 3).
Abbreviation E1000_REG_CTRL_ASDE := (2 ^ 5).
Abbreviation E1000_REG_CTRL_SLU := (2 ^ 6).
Abbreviation E1000_REG_CTRL_ILOS := (2 ^ 7).
Abbreviation E1000_REG_CTRL_RST := (2 ^ 26).
Abbreviation E1000_REG_CTRL_VME := (2 ^ 30).
Abbreviation E1000_REG_CTRL_PHY_RST := (2 ^ 31).
Abbreviation E1000_REG_RCTL_EN := (2 ^ 1).
Abbreviation E1000_REG_RCTL_MPE := (2 ^ 4).
Abbreviation E1000_REG_RCTL_BSIZE := (Z.lor (2 ^ 16) (2 ^ 17)).
Abbreviation E1000_REG_TCTL_EN := (2 ^ 1).
Abbreviation E1000_REG_TCTL_PSP := (2 ^ 3).
Abbreviation E1000_REG_RAH_AV := (2 ^ 31).
(** [LSC], [RXO], [RXT], [TXQE] and [TXDW]. *)
Abbreviation E1000_INTERRUPTS := (Z.lor (Z.lor (Z.lor (Z.lor (2 ^ 2) (2 ^ 6)) (2 ^ 7)) (2 ^ 1)) (2 ^ 0)).
(** [E1000_TX_CMD_EOP], [E1000_TX_CMD_FCS] and [E1000_TX_CMD_RS]. *)
Abbreviation E1000_TX_COMMAND := (Z.lor (Z.lor (2 ^ 0) (2 ^ 1)) (2 ^ 3)).

(** The descriptors: 16 bytes, with the fields the driver uses at these
    offsets. *)
Abbreviation DESC := 16.
Abbreviation D_BUFFER := 0.
Abbreviation D_LENGTH := 8.
Abbreviation TX_COMMAND := 11.
Abbreviation TX_STATUS := 12.

(** ** State *)

(** An access to the registers of the card, by address. *)
Inductive access :=
| RD (a : Z)
| WR (a v : Z).

Record nic := Nic {
  n_mem : memory;
  n_io : list access;        (* so far, in order *)
  base_reg : Z;
  size_reg : Z;
  n_pci : pci;
  n_cpu : cpu_info;
  n_calls : list (Z * Z)     (* packets handed to the stack: address and length *)
}.
Definition set_n_mem (v : memory) (s : nic) : nic :=
  Nic v (n_io s) (base_reg s) (size_reg s) (n_pci s) (n_cpu s) (n_calls s).
Definition set_n_io (v : list access) (s : nic) : nic :=
  Nic (n_mem s) v (base_reg s) (size_reg s) (n_pci s) (n_cpu s) (n_calls s).
Definition set_window (b z : Z) (s : nic) : nic :=
  Nic (n_mem s) (n_io s) b z (n_pci s) (n_cpu s) (n_calls s).
Definition set_n_pci (v : pci) (s : nic) : nic :=
  Nic (n_mem s) (n_io s) (base_reg s) (size_reg s) v (n_cpu s) (n_calls s).
Definition set_n_calls (v : list (Z * Z)) (s : nic) : nic :=
  Nic (n_mem s) (n_io s) (base_reg s) (size_reg s) (n_pci s) (n_cpu s) v.

(** The fields of lwIP's [struct pbuf] the driver reads; [p_chained] tells that
    [next] is not null. *)
Record pbuf := Pbuf {
  p_chained : bool;
  p_payload : Z;
  p_len : Z
}.
Abbreviation ERR_OK := 0.

Section Driver.
(** The card, the stack, the entry points, and the addresses of the static
    arrays. *)
Context (card : list access -> Z -> Z) (dma : list access -> memory -> memory).
Context (lwip_input : Z -> Z -> M nic unit) (initialization : M nic unit).
Context (sym : entry_point -> Z).
Context (rx_desc tx_desc rx_buf tx_buf : Z).

(** ** Registers *)

Definition mmio_write (a v : Z) : M nic unit := modify (fun s => set_n_io (n_io s ++ [WR a (w32 v)]) s).
Definition mmio_read (a : Z) : M nic Z :=
  v ← gets (fun s => w32 (card (n_io s) a));
  modify (fun s => let io := n_io s ++ [RD a] in set_n_mem (dma io (n_mem s)) (set_n_io io s)) ;;
  mret v.

Definition e1000_reg_write (reg value : Z) : M nic unit :=
  if 0x1ffff <? reg then panic "E1000: regs > 0x1ffff" else
  s ← get; mmio_write (base_reg s + reg) value.
Definition e1000_reg_read (reg : Z) : M nic Z :=
  if 0x1ffff <=? reg then panic "E1000: regs < 0x1ffff" else
  s ← get; mmio_read (base_reg s + reg).
Definition e1000_reg_set (reg value : Z) : M nic unit :=
  data ← e1000_reg_read reg; e1000_reg_write reg (Z.lor data value).
Definition e1000_reg_unset (reg value : Z) : M nic unit :=
  data ← e1000_reg_read reg; e1000_reg_write reg (Z.ldiff data value).

(** The delay loop after the reset changes nothing. *)
Definition e1000_reset_hw : M nic unit := e1000_reg_set E1000_REG_CTRL E1000_REG_CTRL_RST.

(** ** Set-up *)

Definition on_mem (f : memory -> memory) : M nic unit := modify (fun s => set_n_mem (f (n_mem s)) s).

(** The physical address of a static array. *)
Definition card_address (what : string) (a : Z) : M nic Z :=
  s ← get;
  p ← virt2phys (n_cpu s) a;
  if p =? 0 then panic what else mret p.

Definition set_buffers (desc buf_p : Z) (n : Z) : M nic unit :=
  forM (seqZ 0 n) (fun i => on_mem (fun m => store32 m (desc + DESC * i + D_BUFFER) (w32 (buf_p + i * E1000_IOBUF_SIZE)))).

Definition e1000_init_buf : M nic unit :=
  rx_buf_p ← card_address "e1000_init_buf: rx_buf_p = 0" rx_buf;
  rx_desc_p ← card_address "e1000_init_buf: rx_desc_p = 0" rx_desc;
  tx_buf_p ← card_address "e1000_init_buf: tx_buf_p = 0" tx_buf;
  tx_desc_p ← card_address "e1000_init_buf: tx_desc_p = 0" tx_desc;
  set_buffers rx_desc rx_buf_p E1000_RXDESC_NR ;;
  set_buffers tx_desc tx_buf_p E1000_TXDESC_NR ;;
  e1000_reg_write E1000_REG_RDBAL rx_desc_p ;;
  e1000_reg_write E1000_REG_RDBAH 0 ;;
  e1000_reg_write E1000_REG_RDLEN (E1000_RXDESC_NR * DESC) ;;
  e1000_reg_write E1000_REG_RDH 0 ;;
  e1000_reg_write E1000_REG_RDT (E1000_RXDESC_NR - 1) ;;
  e1000_reg_unset E1000_REG_RCTL E1000_REG_RCTL_BSIZE ;;
  e1000_reg_set E1000_REG_RCTL E1000_REG_RCTL_EN ;;
  e1000_reg_write E1000_REG_TDBAL tx_desc_p ;;
  e1000_reg_write E1000_REG_TDBAH 0 ;;
  e1000_reg_write E1000_REG_TDLEN (E1000_TXDESC_NR * DESC) ;;
  e1000_reg_write E1000_REG_TDH 0 ;;
  e1000_reg_write E1000_REG_TDT 0 ;;
  e1000_reg_set E1000_REG_TCTL (Z.lor E1000_REG_TCTL_EN E1000_REG_TCTL_PSP).

(** Link, flow control, filters and statistics. *)
Definition e1000_configure : M nic unit :=
  e1000_reg_set E1000_REG_CTRL (Z.lor E1000_REG_CTRL_ASDE E1000_REG_CTRL_SLU) ;;
  e1000_reg_unset E1000_REG_CTRL E1000_REG_CTRL_LRST ;;
  e1000_reg_unset E1000_REG_CTRL E1000_REG_CTRL_PHY_RST ;;
  e1000_reg_unset E1000_REG_CTRL E1000_REG_CTRL_ILOS ;;
  e1000_reg_write E1000_REG_FCAL 0 ;;
  e1000_reg_write E1000_REG_FCAH 0 ;;
  e1000_reg_write E1000_REG_FCT 0 ;;
  e1000_reg_write E1000_REG_FCTTV 0 ;;
  e1000_reg_unset E1000_REG_CTRL E1000_REG_CTRL_VME ;;
  forM (seqZ 0 128) (fun i => e1000_reg_write (E1000_REG_MTA + i) 0) ;;
  forM (seqZ 0 64) (fun i => e1000_reg_write (E1000_REG_CRCERRS + i * 4) 0) ;;
  e1000_reg_write E1000_REG_RAL 0x12005452 ;;
  e1000_reg_write E1000_REG_RAH 0x5634 ;;
  e1000_reg_set E1000_REG_RAH E1000_REG_RAH_AV ;;
  e1000_reg_set E1000_REG_RCTL E1000_REG_RCTL_MPE.

Definition e1000_init : M nic unit :=
  zoom n_pci set_n_pci (pci_init sym) ;;
  r ← zoom n_pci set_n_pci pci_get_e1000_reg;
  modify (set_window r.1 r.2) ;;
  status ← e1000_reg_read E1000_REG_STATUS;
  if Z.land status E1000_ENABLED =? 0 then panic "E1000 is not enabled!" else
  e1000_reset_hw ;;
  e1000_configure ;;
  e1000_init_buf ;;
  e1000_reg_set E1000_REG_IMS E1000_INTERRUPTS.

(** ** Packets *)

(** An index into an array of [n] elements. *)
Definition in_array (n i : Z) : bool := (0 <=? i) && (i <? n).

Definition e1000_write (write_buf len : Z) : M nic unit :=
  t ← e1000_reg_read E1000_REG_TDT;
  let tail := s32 t in
  let room := E1000_TXDESC_NR * E1000_IOBUF_SIZE - tail * E1000_IOBUF_SIZE in
  if negb (in_array E1000_TXDESC_NR tail) || (len <? 0) || (room <? len) then stop_with (Fault "tx_buf") else
  on_mem (fun m => memcpy m (tx_buf + tail * E1000_IOBUF_SIZE) write_buf len) ;;
  on_mem (fun m => store 1 m (tx_desc + DESC * tail + TX_STATUS) 0) ;;
  on_mem (fun m => store 2 m (tx_desc + DESC * tail + D_LENGTH) (w16 len)) ;;
  on_mem (fun m => store 1 m (tx_desc + DESC * tail + TX_COMMAND) E1000_TX_COMMAND) ;;
  e1000_reg_write E1000_REG_TDT ((tail + 1) mod E1000_TXDESC_NR).

(** lwip-input.c: the stack sends a buffer chain through the driver; [None] is
    the null pointer.  The time stamp taken afterwards is never used. *)
Definition arp_output (p : option pbuf) : M nic Z :=
  match p with
  | None => panic "arp_output: pbuf is null"
  | Some p =>
      if p_chained p then panic "Packet is too big" else
      e1000_write (p_payload p) (p_len p) ;; mret ERR_OK
  end.

Definition e1000_read : M nic unit :=
  t ← e1000_reg_read E1000_REG_RDT;
  let tail := s32 t in
  if negb (in_array E1000_RXDESC_NR tail) then stop_with (Fault "rx_desc") else
  let cur := (tail + 1) mod E1000_RXDESC_NR in
  let buf := rx_buf + cur * E1000_IOBUF_SIZE in
  e1000_reg_write E1000_REG_RDT cur ;;
  len ← gets (fun s => load 2 (n_mem s) (rx_desc + DESC * tail + D_LENGTH));
  modify (fun s => set_n_calls (n_calls s ++ [(buf, len)]) s) ;;
  lwip_input buf len.

(** One round of the loop of [rx_packet]: the packets counted since the last. *)
Definition rx_round : M nic unit :=
  missed_packets ← e1000_reg_read E1000_REG_TPR;
  forM (seqZ 0 missed_packets) (fun _ => e1000_read).
(** [while (1)]; what follows it in the source is never reached. *)
Fixpoint rx_packet (rounds : nat) : M nic unit :=
  match rounds with
  | O => stop_with Diverge
  | S rounds => rx_round ;; rx_packet rounds
  end.

Definition on_desc {A} (m : M desc_state A) : M nic A := zoom n_pci set_n_pci (zoom pci_desc set_pci_desc m).
Definition on_apic {A} (m : M apic_state A) : M nic A := zoom n_pci set_n_pci (zoom pci_apic set_pci_apic m).

Definition e1000_main (rounds : nat) : M nic unit :=
  on_desc create_default_gdt ;;
  on_desc (interrupt_init sym) ;;
  on_apic lapic_on ;;
  initialization ;;
  e1000_init ;;
  rx_packet rounds.
End Driver.
