(* ===== verification/E1000Spec.v ===== *)
(** * Correctness of the network driver

    What the card finds in the rings: after the set-up every descriptor names
    its own buffer and the registers name the rings; [e1000_write] appends a
    frame to the queue the card transmits; a poll hands over one buffer per
    packet counted, in ring order. *)

From S2P Require Import Prelude PhysMem Descriptors DescriptorsSpec CpuInfo Apic ApicSpec Pci PciSpec PciScan E1000.

(** ** Register accesses *)

(** The value last written to a register since the last access to the control
    register, which can reset the card. *)
Definition writes_to (ctrl a : Z) (acc : option Z) (x : access) : option Z :=
  match x with
  | WR b v => if b =? a then Some v else if b =? ctrl then None else acc
  | RD _ => acc
  end.
Definition last_write (B : Z) (io : list access) (a : Z) : option Z := foldl (writes_to (B + E1000_REG_CTRL) a) None io.

Definition at_base (B : Z) (x : access) : access :=
  match x with RD r => RD (B + r) | WR r v => WR (B + r) v end.

Lemma last_write_app io l B r :
  last_write B (io ++ (at_base B <$> l)) (B + r) = foldl (writes_to E1000_REG_CTRL r) (last_write B io (B + r)) l.
Proof.
  unfold last_write. rewrite foldl_app. generalize (foldl (writes_to (B + E1000_REG_CTRL) (B + r)) None io) as acc.
  induction l as [|x l IH]; intros acc; [done |]. cbn [fmap list_fmap foldl]. rewrite IH. f_equal.
  destruct x as [a|a v]; [done |]. cbn [writes_to at_base].
  destruct (Z.eqb_spec (B + a) (B + r)), (Z.eqb_spec a r), (Z.eqb_spec (B + a) (B + E1000_REG_CTRL)), (Z.eqb_spec a E1000_REG_CTRL); done || lia.
Qed.

(** The registers that only the driver changes. *)
Definition kept_regs : list Z := [E1000_REG_TDT; E1000_REG_RDT; E1000_REG_RCTL; E1000_REG_RAH].

Section Card.
Context (rx_desc tx_desc rx_buf tx_buf : Z).

(** The memory the card writes: received data, the second half of receive
    descriptors, and the status byte of transmit descriptors. *)
Definition in_area (a n x : Z) : Prop := a <= x < a + n.
Definition card_owned (x : Z) : Prop :=
  in_area rx_buf (E1000_RXDESC_NR * E1000_IOBUF_SIZE) x \/
  in_area rx_desc (E1000_RXDESC_NR * DESC) x /\ 8 <= (x - rx_desc) mod DESC \/
  in_area tx_desc (E1000_TXDESC_NR * DESC) x /\ (x - tx_desc) mod DESC = TX_STATUS.

(** What the driver relies on of the card at [B]: ring tails, receive control
    and address read what was last written, and the card writes only where it may. *)
Class EthernetCard (card : list access -> Z -> Z) (dma : list access -> memory -> memory) (B : Z) : Prop := {
  card_keeps io r v : r ∈ kept_regs -> last_write B io (B + r) = Some v -> card io (B + r) = v;
  dma_frame io m : same_on (fun x => ~ card_owned x) (dma io m) m
}.

(** The arrays do not overlap. *)
Definition apart (a n b k : Z) : Prop := a + n <= b \/ b + k <= a.
Definition arrays_ok : Prop :=
  apart rx_desc (E1000_RXDESC_NR * DESC) tx_desc (E1000_TXDESC_NR * DESC) /\
  apart rx_desc (E1000_RXDESC_NR * DESC) rx_buf (E1000_RXDESC_NR * E1000_IOBUF_SIZE) /\
  apart rx_desc (E1000_RXDESC_NR * DESC) tx_buf (E1000_TXDESC_NR * E1000_IOBUF_SIZE) /\
  apart tx_desc (E1000_TXDESC_NR * DESC) rx_buf (E1000_RXDESC_NR * E1000_IOBUF_SIZE) /\
  apart tx_desc (E1000_TXDESC_NR * DESC) tx_buf (E1000_TXDESC_NR * E1000_IOBUF_SIZE) /\
  apart rx_buf (E1000_RXDESC_NR * E1000_IOBUF_SIZE) tx_buf (E1000_TXDESC_NR * E1000_IOBUF_SIZE).

Context (card : list access -> Z -> Z) (dma : list access -> memory -> memory) (B : Z).
Context `{HC : !EthernetCard card dma B} (Harr : arrays_ok).

(** The accesses [l] were made, by offset; the card may have used its memory. *)
Record made (l : list access) (s s' : nic) : Prop := Made {
  md_io : n_io s' = n_io s ++ (at_base B <$> l);
  md_mem : same_on (fun x => ~ card_owned x) (n_mem s') (n_mem s);
  md_base : base_reg s' = base_reg s;
  md_size : size_reg s' = size_reg s;
  md_pci : n_pci s' = n_pci s;
  md_cpu : n_cpu s' = n_cpu s;
  md_calls : n_calls s' = n_calls s
}.
Lemma made_nil s : made [] s s.
Proof. split; try done. cbn. by rewrite app_nil_r. Qed.
Lemma made_app l1 l2 s s1 s2 : made l1 s s1 -> made l2 s1 s2 -> made (l1 ++ l2) s s2.
Proof.
  intros [A1 A2 A3 A4 A5 A6 A7] [C1 C2 C3 C4 C5 C6 C7]. split; try congruence; [|by etransitivity].
  by rewrite C1, A1, fmap_app, app_assoc.
Qed.

Lemma reg_write_run r v s :
  base_reg s = B -> r <= 0x1ffff -> e1000_reg_write r v s = Ok tt (set_n_io (n_io s ++ [WR (B + r) (w32 v)]) s).
Proof.
  intros Hb Hr. unfold e1000_reg_write. rewrite (proj2 (Z.ltb_ge _ _)) by done. erewrite bind_step by reflexivity. by rewrite Hb.
Qed.
Lemma reg_write_spec E r v s :
  base_reg s = B -> r <= 0x1ffff -> post E (e1000_reg_write r v) s (fun _ s' => made [WR r (w32 v)] s s').
Proof. intros Hb Hr. eapply post_run; [by apply reg_write_run | by split]. Qed.
Lemma reg_read_spec E r s :
  base_reg s = B -> r < 0x1ffff ->
  post E (e1000_reg_read card dma r) s (fun v s' => v = w32 (card (n_io s) (B + r)) /\ made [RD r] s s' /\
    n_mem s' = dma (n_io s ++ [RD (B + r)]) (n_mem s)).
Proof.
  intros Hb Hr. unfold e1000_reg_read. rewrite (proj2 (Z.leb_gt _ _)) by done. wp_step. apply post_gets. rewrite Hb. unfold mmio_read.
  wp_step. wp_step. wp_step. wp_step. wp_step. split; [done | split; [|done]]. split; try done. apply dma_frame.
Qed.
Lemma reg_set_spec E r v s :
  base_reg s = B -> r < 0x1ffff ->
  post E (e1000_reg_set card dma r v) s (fun _ s' => made [RD r; WR r (w32 (Z.lor (w32 (card (n_io s) (B + r))) v))] s s').
Proof.
  intros Hb Hr. unfold e1000_reg_set. wp_step. eapply post_mono; [by apply reg_read_spec |]. intros d s1 _ (-> & H1 & _).
  eapply post_mono; [apply reg_write_spec; [by rewrite (md_base _ _ _ H1) | lia] |]. intros [] s2 _ H2. exact (made_app _ _ _ _ _ H1 H2).
Qed.
Lemma reg_unset_spec E r v s :
  base_reg s = B -> r < 0x1ffff ->
  post E (e1000_reg_unset card dma r v) s (fun _ s' => made [RD r; WR r (w32 (Z.ldiff (w32 (card (n_io s) (B + r))) v))] s s').
Proof.
  intros Hb Hr. unfold e1000_reg_unset. wp_step. eapply post_mono; [by apply reg_read_spec |]. intros d s1 _ (-> & H1 & _).
  eapply post_mono; [apply reg_write_spec; [by rewrite (md_base _ _ _ H1) | lia] |]. intros [] s2 _ H2. exact (made_app _ _ _ _ _ H1 H2).
Qed.
Lemma writes_spec E (l : list Z) (f : Z -> Z) v s :
  base_reg s = B -> (forall i, i ∈ l -> f i <= 0x1ffff) ->
  post E (forM l (fun i => e1000_reg_write (f i) v)) s (fun _ s' => made ((fun i => WR (f i) (w32 v)) <$> l) s s').
Proof.
  revert s. induction l as [|i l IH]; intros s Hb Hl; [apply (post_ret _ tt), made_nil |]. cbn [forM]. wp_step.
  eapply post_mono; [apply reg_write_spec; [done | apply Hl; by left] |]. intros [] s1 _ H1.
  eapply post_mono; [apply IH; [by rewrite (md_base _ _ _ H1) | intros j Hj; apply Hl; by right] |].
  intros [] s2 _ H2. exact (made_app [_] _ _ _ _ H1 H2).
Qed.

(** ** The transmit queue *)

(** [delta] is the distance from the program's addresses to the card's. *)
Context (delta : Z).

(** Every descriptor of a ring names its own buffer. *)
Definition ring_ok (desc buf : Z) (m : memory) : Prop :=
  forall i, 0 <= i < 256 -> load64 m (desc + DESC * i) = buf + delta + i * E1000_IOBUF_SIZE.
Definition tx_ok (m : memory) : Prop :=
  ring_ok tx_desc tx_buf m /\ forall i, 0 <= i < 256 -> load 2 m (tx_desc + DESC * i + D_LENGTH) <= E1000_IOBUF_SIZE.

(** The frame of descriptor [i] as the card fetches it, and the frames from
    the card's head [h] up to the tail [t]. *)
Definition frame (m : memory) (i : Z) : list Z :=
  get_bytes m (load64 m (tx_desc + DESC * i) - delta) (Z.to_nat (load 2 m (tx_desc + DESC * i + D_LENGTH))).
Definition pending (h t : Z) : Z := (t - h) mod 256.
Definition queue (m : memory) (h t : Z) : list (list Z) :=
  (fun k => frame m ((h + k) mod 256)) <$> seqZ 0 (pending h t).
Definition tail_is (r : Z) (s : nic) (t : Z) : Prop := last_write B (n_io s) (B + r) = Some t /\ 0 <= t < 256.

Lemma frame_ext m m' i :
  tx_ok m -> 0 <= i < 256 ->
  same_on (fun x => tx_desc + DESC * i <= x < tx_desc + DESC * i + 10 \/
                    tx_buf + i * E1000_IOBUF_SIZE <= x < tx_buf + (i + 1) * E1000_IOBUF_SIZE) m' m ->
  frame m' i = frame m i /\ load64 m' (tx_desc + DESC * i) = load64 m (tx_desc + DESC * i) /\
  load 2 m' (tx_desc + DESC * i + D_LENGTH) = load 2 m (tx_desc + DESC * i + D_LENGTH).
Proof.
  intros [Hr Hl] Hi Hs.
  assert (E1 : load64 m' (tx_desc + DESC * i) = load64 m (tx_desc + DESC * i)).
  { apply (load_ext 8). eapply same_on_mono; [|exact Hs]. intros x Hx. left. lia. }
  assert (E2 : load 2 m' (tx_desc + DESC * i + D_LENGTH) = load 2 m (tx_desc + DESC * i + D_LENGTH)).
  { apply load_ext. eapply same_on_mono; [|exact Hs]. intros x Hx. left. lia. }
  split_and!; [|done | done]. unfold frame. rewrite E1, E2. apply get_bytes_ext. eapply same_on_mono; [|exact Hs].
  intros x Hx. right. specialize (Hl i Hi). specialize (Hr i Hi). rewrite Hr in Hx.
  pose proof (load_bound 2 m (tx_desc + DESC * i + D_LENGTH)). lia.
Qed.

Lemma tx_apart_owned i x :
  0 <= i < 256 -> tx_desc + DESC * i <= x < tx_desc + DESC * i + 10 \/ tx_buf + i * E1000_IOBUF_SIZE <= x < tx_buf + (i + 1) * E1000_IOBUF_SIZE ->
  ~ card_owned x.
Proof.
  intros Hi Hx. destruct Harr as (A1 & A2 & A3 & A4 & A5 & A6). unfold apart in *. unfold card_owned, in_area.
  intros [H|[[H _]|[H Hm]]]; destruct Hx as [Hx|Hx]; try lia.
  replace (x - tx_desc) with ((x - tx_desc - DESC * i) + i * DESC) in Hm by lia. rewrite Z.mod_add, Z.mod_small in Hm by lia. lia.
Qed.

Lemma tx_ok_dma m m' : same_on (fun x => ~ card_owned x) m' m -> tx_ok m ->
  tx_ok m' /\ forall i, 0 <= i < 256 -> frame m' i = frame m i.
Proof.
  intros Hs Hok. assert (H : forall i, 0 <= i < 256 -> _) by
    (intros i Hi; apply (frame_ext m m' i Hok Hi); eapply same_on_mono; [|exact Hs]; intros x Hx; by apply (tx_apart_owned i)).
  split; [split|]; intros i Hi; destruct (H i Hi) as (E1 & E2 & E3); [|rewrite E3|done]; [rewrite E2|]; by apply Hok.
Qed.

(** Memory after the stores of [e1000_write]. *)
Definition enqueued (m : memory) (t write_buf len : Z) : memory :=
  store 1 (store 2 (store 1 (memcpy m (tx_buf + t * E1000_IOBUF_SIZE) write_buf len)
    (tx_desc + DESC * t + TX_STATUS) 0) (tx_desc + DESC * t + D_LENGTH) (w16 len)) (tx_desc + DESC * t + TX_COMMAND) E1000_TX_COMMAND.
Definition in_tx (x : Z) : Prop :=
  in_area tx_desc (E1000_TXDESC_NR * DESC) x \/ in_area tx_buf (E1000_TXDESC_NR * E1000_IOBUF_SIZE) x.

Section Enqueue.
Context (m : memory) (t write_buf len : Z) (Hok : tx_ok m) (Ht : 0 <= t < 256) (Hlen : 0 <= len <= E1000_IOBUF_SIZE).
Context (Hsrc : apart write_buf len tx_buf (E1000_TXDESC_NR * E1000_IOBUF_SIZE)).

(** Outside the three fields of the descriptor. *)
Lemma enqueued_byte x :
  ~ (tx_desc + DESC * t + D_LENGTH <= x < tx_desc + DESC * t + D_LENGTH + 2) ->
  ~ (tx_desc + DESC * t + TX_COMMAND <= x < tx_desc + DESC * t + TX_COMMAND + 2) ->
  byte_at (enqueued m t write_buf len) x =
    if decide (tx_buf + t * E1000_IOBUF_SIZE <= x < tx_buf + t * E1000_IOBUF_SIZE + len)
    then byte_at m (write_buf + (x - (tx_buf + t * E1000_IOBUF_SIZE))) else byte_at m x.
Proof.
  intros H1 H2. unfold enqueued. rewrite !byte_at_store_out by lia. apply byte_at_memcpy. unfold apart in Hsrc. lia.
Qed.

Lemma enqueued_same : same_on (fun x => ~ in_tx x) (enqueued m t write_buf len) m.
Proof.
  intros x Hx. unfold in_tx, in_area in Hx. rewrite enqueued_byte by lia. apply decide_False. lia.
Qed.

Lemma enqueued_other i : 0 <= i < 256 -> i <> t ->
  frame (enqueued m t write_buf len) i = frame m i /\
  load64 (enqueued m t write_buf len) (tx_desc + DESC * i) = load64 m (tx_desc + DESC * i) /\
  load 2 (enqueued m t write_buf len) (tx_desc + DESC * i + D_LENGTH) = load 2 m (tx_desc + DESC * i + D_LENGTH).
Proof.
  intros Hi Hne. apply frame_ext; [done | done |]. intros x Hx. destruct Harr as (_ & _ & _ & _ & A & _). unfold apart in A.
  rewrite enqueued_byte by lia. apply decide_False. lia.
Qed.

Lemma enqueued_this :
  load64 (enqueued m t write_buf len) (tx_desc + DESC * t) = load64 m (tx_desc + DESC * t) /\
  load 2 (enqueued m t write_buf len) (tx_desc + DESC * t + D_LENGTH) = len /\
  frame (enqueued m t write_buf len) t = get_bytes m write_buf (Z.to_nat len).
Proof.
  destruct Harr as (_ & _ & _ & _ & A & _). unfold apart in A.
  assert (E1 : load64 (enqueued m t write_buf len) (tx_desc + DESC * t) = load64 m (tx_desc + DESC * t)).
  { apply (load_ext 8). intros x Hx. rewrite enqueued_byte by lia. apply decide_False. lia. }
  assert (E2 : load 2 (enqueued m t write_buf len) (tx_desc + DESC * t + D_LENGTH) = len).
  { unfold enqueued. rewrite load_store_ne by lia. rewrite load_store_eq. change (2 ^ (8 * Z.of_nat 2)) with (2 ^ 16).
    rewrite w16_small, Z.mod_small by lia. done. }
  split_and!; [done | done |]. unfold frame. rewrite E1, E2. destruct Hok as [Hr _]. rewrite (Hr t Ht).
  unfold get_bytes. apply list_fmap_ext. intros i x Hx. apply lookup_seqZ in Hx as [-> Hi].
  rewrite enqueued_byte by lia. rewrite decide_True by lia. f_equal. lia.
Qed.

Lemma enqueued_ok : tx_ok (enqueued m t write_buf len).
Proof.
  destruct enqueued_this as (E1 & E2 & _).
  split; intros i Hi; (destruct (decide (i = t)) as [-> |Hne]; [|destruct (enqueued_other i Hi Hne) as (_ & E3 & E4)]).
  - rewrite E1. by apply Hok.
  - rewrite E3. by apply Hok.
  - lia.
  - rewrite E4. by apply Hok.
Qed.
End Enqueue.

(** The queue after the tail moved on. *)
Lemma queue_snoc m m' h t :
  0 <= h < 256 -> 0 <= t < 256 -> pending h t < 255 -> (forall i, 0 <= i < 256 -> i <> t -> frame m' i = frame m i) ->
  queue m' h ((t + 1) mod 256) = queue m h t ++ [frame m' t].
Proof.
  intros Hh Ht Hp Hf. unfold queue, pending in *.
  assert (E : ((t + 1) mod 256 - h) mod 256 = (t - h) mod 256 + 1) by (Z.to_euclidean_division_equations; lia).
  assert (H0 : 0 <= (t - h) mod 256) by (apply Z.mod_pos_bound; lia).
  rewrite E, seqZ_app, fmap_app by lia. f_equal.
  - apply list_fmap_ext. intros k x Hx. apply lookup_seqZ in Hx as [-> Hk]. apply Hf; [apply Z.mod_pos_bound; lia |].
    Z.to_euclidean_division_equations; lia.
  - change (seqZ (0 + (t - h) mod 256) 1) with [0 + (t - h) mod 256]. cbn [fmap list_fmap]. do 2 f_equal.
    Z.to_euclidean_division_equations; lia.
Qed.
Lemma queue_wraps m h t : 0 <= h < 256 -> 0 <= t < 256 -> pending h t = 255 -> queue m h ((t + 1) mod 256) = [].
Proof.
  intros Hh Ht Hp. unfold queue, pending in *. replace (((t + 1) mod 256 - h) mod 256) with 0 by (Z.to_euclidean_division_equations; lia). done.
Qed.

Lemma write_run s t write_buf len :
  base_reg s = B -> tail_is E1000_REG_TDT s t -> tx_ok (n_mem s) -> 0 <= len <= E1000_IOBUF_SIZE ->
  let m1 := dma (n_io s ++ [RD (B + E1000_REG_TDT)]) (n_mem s) in
  wp (e1000_write card dma tx_desc tx_buf write_buf len) s (fun _ s' =>
    n_mem s' = enqueued m1 t write_buf len /\ base_reg s' = B /\ n_cpu s' = n_cpu s /\ n_calls s' = n_calls s /\
    n_io s' = n_io s ++ [RD (B + E1000_REG_TDT); WR (B + E1000_REG_TDT) ((t + 1) mod 256)]).
Proof.
  intros Hb [Htl Ht] Hok Hlen m1. unfold e1000_write. wp_step. eapply post_mono; [by apply reg_read_spec |].
  intros v s1 _ (-> & [M1 M2 M3 M4 M5 M6 M7] & Hm).
  rewrite (card_keeps (n_io s) E1000_REG_TDT t) by (done || by left). rewrite w32_small, s32_small by lia. cbv zeta.
  unfold in_array. destruct (Z.leb_spec 0 t), (Z.ltb_spec t E1000_TXDESC_NR), (Z.ltb_spec len 0),
    (Z.ltb_spec (E1000_TXDESC_NR * E1000_IOBUF_SIZE - t * E1000_IOBUF_SIZE) len); try lia. cbn [andb negb orb].
  unfold on_mem. do 8 wp_step. eapply post_run; [apply reg_write_run; [cbn; congruence | lia] |].
  cbn [n_mem n_io base_reg n_cpu n_calls set_n_mem set_n_io]. split_and!; [by rewrite Hm | congruence | done | done |].
  rewrite M1, <-app_assoc. cbn. rewrite w32_small; [done |]. pose proof (Z.mod_pos_bound (t + 1) 256). lia.
Qed.

Lemma send_run s t h write_buf len :
  base_reg s = B -> tail_is E1000_REG_TDT s t -> tx_ok (n_mem s) -> 0 <= len <= E1000_IOBUF_SIZE -> 0 <= h < 256 ->
  apart write_buf len tx_buf (E1000_TXDESC_NR * E1000_IOBUF_SIZE) ->
  exists s', e1000_write card dma tx_desc tx_buf write_buf len s = Ok tt s' /\
    base_reg s' = B /\ tail_is E1000_REG_TDT s' ((t + 1) mod 256) /\ tx_ok (n_mem s') /\
    let m1 := dma (n_io s ++ [RD (B + E1000_REG_TDT)]) (n_mem s) in
    same_on (fun x => ~ in_tx x) (n_mem s') m1 /\
    (pending h t < 255 -> queue (n_mem s') h ((t + 1) mod 256) = queue (n_mem s) h t ++ [get_bytes m1 write_buf (Z.to_nat len)]) /\
    (pending h t = 255 -> queue (n_mem s') h ((t + 1) mod 256) = []).
Proof.
  intros Hb Hta Hok Hlen Hh Hsrc. pose proof (proj2 Hta) as Ht. destruct (wp_elim _ _ _ (write_run s t write_buf len Hb Hta Hok Hlen))
    as ([] & s' & Hrun & Hm & Hb' & _ & _ & Hio). exists s'. split; [done |]. set (m1 := dma _ _) in *.
  destruct (tx_ok_dma (n_mem s) m1) as [Hok1 Hf1]; [apply dma_frame | done |].
  split; [done |]. split; [split; [|apply Z.mod_pos_bound; lia] | split; [rewrite Hm; by apply enqueued_ok |]].
  { rewrite Hio. change [RD (B + E1000_REG_TDT); WR (B + E1000_REG_TDT) ((t + 1) mod 256)] with
      (at_base B <$> [RD E1000_REG_TDT; WR E1000_REG_TDT ((t + 1) mod 256)]). by rewrite last_write_app. }
  cbv zeta. rewrite Hm. split_and!; [by apply enqueued_same | |].
  - intros Hp. rewrite (queue_snoc (n_mem s)); [| done | done | done |].
    + do 2 f_equal. by apply enqueued_this.
    + intros i Hi Hne. rewrite <-Hf1 by done. by apply enqueued_other.
  - intros Hp. by apply queue_wraps.
Qed.

(** C21: transmission.  With a frame of at most 2048 bytes that is not in the
    transmit ring, [e1000_write] returns, keeps the ring in order, moves the
    tail one on, and the card, whose head is [h], finds its queue extended by
    exactly the bytes of the frame; other memory is untouched.  When 255
    frames are pending the queue becomes empty instead: nothing checks that the
    ring has room. *)
Theorem e1000_write_correct s t h write_buf len :
  base_reg s = B -> tail_is E1000_REG_TDT s t -> tx_ok (n_mem s) -> 0 <= len <= E1000_IOBUF_SIZE -> 0 <= h < 256 ->
  apart write_buf len tx_buf (E1000_TXDESC_NR * E1000_IOBUF_SIZE) ->
  exists s', e1000_write card dma tx_desc tx_buf write_buf len s = Ok tt s' /\
    base_reg s' = B /\ tail_is E1000_REG_TDT s' ((t + 1) mod 256) /\ tx_ok (n_mem s') /\
    let m1 := dma (n_io s ++ [RD (B + E1000_REG_TDT)]) (n_mem s) in
    same_on (fun x => ~ in_tx x) (n_mem s') m1 /\
    (pending h t < 255 -> queue (n_mem s') h ((t + 1) mod 256) = queue (n_mem s) h t ++ [get_bytes m1 write_buf (Z.to_nat len)]) /\
    (pending h t = 255 -> queue (n_mem s') h ((t + 1) mod 256) = []).
Proof. apply send_run. Qed.

(** What the stack hands to [arp_output] in one buffer is queued; a chain of
    buffers ends in a panic. *)
Theorem arp_output_correct s t h p :
  base_reg s = B -> tail_is E1000_REG_TDT s t -> tx_ok (n_mem s) -> 0 <= p_len p <= E1000_IOBUF_SIZE -> 0 <= h < 256 -> pending h t < 255 ->
  apart (p_payload p) (p_len p) tx_buf (E1000_TXDESC_NR * E1000_IOBUF_SIZE) ->
  if p_chained p then arp_output card dma tx_desc tx_buf (Some p) s = Stop (Panic "Packet is too big")
  else exists s', arp_output card dma tx_desc tx_buf (Some p) s = Ok ERR_OK s' /\
    queue (n_mem s') h ((t + 1) mod 256) = queue (n_mem s) h t ++
      [get_bytes (dma (n_io s ++ [RD (B + E1000_REG_TDT)]) (n_mem s)) (p_payload p) (Z.to_nat (p_len p))].
Proof.
  intros Hb Ht Hok Hl Hh Hp Hsrc. unfold arp_output. destruct (p_chained p); [done |].
  destruct (send_run s t h (p_payload p) (p_len p) Hb Ht Hok Hl Hh Hsrc) as (s' & Hrun & _ & _ & _ & _ & Hq & _).
  exists s'. split; [by rewrite (bind_step _ _ _ _ _ Hrun) | by apply Hq].
Qed.

(** ** Reception *)

(** The buffer handed over is that of the descriptor after the tail, the
    length that of the descriptor at the tail. *)
Lemma e1000_read_run lwip_input s t :
  base_reg s = B -> tail_is E1000_REG_RDT s t ->
  let cur := (t + 1) mod 256 in
  let m1 := dma (n_io s ++ [RD (B + E1000_REG_RDT)]) (n_mem s) in
  let buf := rx_buf + cur * E1000_IOBUF_SIZE in
  let len := load 2 m1 (rx_desc + DESC * t + D_LENGTH) in
  exists s1, e1000_read card dma lwip_input rx_desc rx_buf s = lwip_input buf len s1 /\
    n_mem s1 = m1 /\ base_reg s1 = B /\ n_calls s1 = n_calls s ++ [(buf, len)] /\
    n_io s1 = n_io s ++ [RD (B + E1000_REG_RDT); WR (B + E1000_REG_RDT) cur].
Proof.
  intros Hb [Htl Ht] cur m1 buf len.
  destruct (wp_elim _ _ _ (reg_read_spec (fun _ => False) E1000_REG_RDT s Hb ltac:(lia))) as (v & s1 & Hrun & -> & [M1 M2 M3 M4 M5 M6 M7] & Hm).
  unfold e1000_read. rewrite (bind_step _ _ _ _ _ Hrun). rewrite (card_keeps (n_io s) E1000_REG_RDT t) by (done || by right; left).
  rewrite w32_small, s32_small by lia. cbv zeta. unfold in_array. destruct (Z.leb_spec 0 t), (Z.ltb_spec t E1000_RXDESC_NR); try lia.
  cbn [andb negb]. erewrite bind_step by (apply reg_write_run; [congruence | lia]). erewrite bind_step by reflexivity. erewrite bind_step by reflexivity.
  cbn [n_mem n_io base_reg n_calls set_n_io set_n_calls]. fold cur buf. rewrite Hm. fold m1 len. eexists. split; [reflexivity |].
  cbn [n_mem n_io base_reg n_calls set_n_io set_n_calls]. split_and!; [done | congruence | by rewrite M7 |].
  rewrite M1, <-app_assoc. cbn. rewrite w32_small; [done |]. pose proof (Z.mod_pos_bound (t + 1) 256). lia.
Qed.

(** The stack returns, and leaves the receive side of the card alone. *)
Definition stack_ok (lwip_input : Z -> Z -> M nic unit) : Prop :=
  forall buf len s, base_reg s = B -> wp (lwip_input buf len) s (fun _ s' =>
    base_reg s' = B /\ n_calls s' = n_calls s /\ last_write B (n_io s') (B + E1000_REG_RDT) = last_write B (n_io s) (B + E1000_REG_RDT)).

Lemma e1000_read_spec lwip_input s t :
  stack_ok lwip_input -> base_reg s = B -> tail_is E1000_REG_RDT s t ->
  wp (e1000_read card dma lwip_input rx_desc rx_buf) s (fun _ s' =>
    base_reg s' = B /\ tail_is E1000_REG_RDT s' ((t + 1) mod 256) /\
    (fst <$> n_calls s') = (fst <$> n_calls s) ++ [rx_buf + (t + 1) mod 256 * E1000_IOBUF_SIZE]).
Proof.
  intros Hst Hb Hta. destruct (e1000_read_run lwip_input s t Hb Hta) as (s1 & Hrun & _ & Hb1 & Hc1 & Hio).
  eapply (post_eq _ _ (lwip_input _ _)); [exact Hrun |]. eapply post_mono; [by apply Hst |]. intros [] s' _ (Hb' & Hc' & Hw).
  split_and!; [done | split; [|apply Z.mod_pos_bound; lia] |].
  - rewrite Hw, Hio. change [RD (B + E1000_REG_RDT); WR (B + E1000_REG_RDT) ((t + 1) mod 256)] with
      (at_base B <$> [RD E1000_REG_RDT; WR E1000_REG_RDT ((t + 1) mod 256)]). by rewrite last_write_app.
  - by rewrite Hc', Hc1, fmap_app.
Qed.

(** Reception.  One round of the polling loop reads the card's packet
    count [n] and hands exactly [n] buffers to the stack: those of the [n]
    descriptors after the tail, in ring order; each is given back to the card,
    so the tail has moved [n] on. *)
Theorem rx_round_correct lwip_input s t :
  stack_ok lwip_input -> base_reg s = B -> tail_is E1000_REG_RDT s t ->
  let n := w32 (card (n_io s) (B + E1000_REG_TPR)) in
  exists s', rx_round card dma lwip_input rx_desc rx_buf s = Ok tt s' /\ base_reg s' = B /\
    tail_is E1000_REG_RDT s' ((t + n) mod 256) /\
    (fst <$> n_calls s') = (fst <$> n_calls s) ++ ((fun k => rx_buf + (t + 1 + k) mod 256 * E1000_IOBUF_SIZE) <$> seqZ 0 n).
Proof.
  intros Hst Hb Hta n. pose proof (proj2 Hta) as Ht. assert (Hn : 0 <= n) by (apply Z.mod_pos_bound; lia).
  assert (Hw : wp (rx_round card dma lwip_input rx_desc rx_buf) s (fun _ s' => base_reg s' = B /\
    tail_is E1000_REG_RDT s' ((t + n) mod 256) /\
    (fst <$> n_calls s') = (fst <$> n_calls s) ++ ((fun k => rx_buf + (t + 1 + k) mod 256 * E1000_IOBUF_SIZE) <$> seqZ 0 n))).
  2:{ destruct (wp_elim _ _ _ Hw) as ([] & s' & Hrun & H). by exists s'. }
  unfold rx_round. wp_step. eapply post_mono; [by apply reg_read_spec |]. intros v s1 _ (-> & [M1 M2 M3 M4 M5 M6 M7] & _). fold n. clearbody n.
  assert (Hta1 : tail_is E1000_REG_RDT s1 t). { split; [|done]. rewrite M1, last_write_app. apply Hta. }
  eapply post_mono; [apply (post_forM _ (fun rest s' => exists j, rest = seqZ j (n - j) /\ 0 <= j <= n /\ base_reg s' = B /\
    tail_is E1000_REG_RDT s' ((t + j) mod 256) /\
    (fst <$> n_calls s') = (fst <$> n_calls s) ++ ((fun k => rx_buf + (t + 1 + k) mod 256 * E1000_IOBUF_SIZE) <$> seqZ 0 j))) |].
  - exists 0. rewrite Z.sub_0_r, Z.add_0_r, Z.mod_small by lia. split_and!; [done | lia | lia | congruence | done |].
    rewrite M7. cbn. by rewrite app_nil_r.
  - intros x rest s2 (j & E & Hj & Hb2 & Hta2 & Hc). destruct (decide (n = j)) as [-> |Hne]; [by rewrite Z.sub_diag in E |].
    rewrite (seqZ_cons j (n - j)) in E by lia. injection E as -> ->.
    eapply post_mono; [by eapply e1000_read_spec |]. intros [] s3 _ (Hb3 & Hta3 & Hc3). exists (j + 1).
    split_and!; [by f_equal; lia | lia | lia | done | split; [|apply Z.mod_pos_bound; lia] |].
    + rewrite (proj1 Hta3). f_equal. Z.to_euclidean_division_equations; lia.
    + rewrite Hc3, Hc, <-app_assoc. f_equal. rewrite seqZ_app, fmap_app by lia. f_equal.
      change (seqZ (0 + j) 1) with [0 + j]. cbn [fmap list_fmap].
      replace (((t + j) mod 256 + 1) mod 256) with ((t + 1 + (0 + j)) mod 256) by (Z.to_euclidean_division_equations; lia). done.
  - intros [] s' _ (j & E & Hj & Hb' & Hta' & Hc). assert (j = n) as ->; [|done].
    apply (f_equal length) in E. rewrite length_seqZ in E. cbn in E. lia.
Qed.

(** ** Set-up *)

(** Reading back a register that only the driver changes. *)
Lemma kept_read l s s1 r v :
  made l s s1 -> r ∈ kept_regs -> foldl (writes_to E1000_REG_CTRL r) (last_write B (n_io s) (B + r)) l = Some v -> card (n_io s1) (B + r) = v.
Proof. intros Hm Hr Hl. apply card_keeps; [done |]. by rewrite (md_io _ _ _ Hm), last_write_app. Qed.

(** One more register operation after those of [Hm]. *)
Ltac reg_lemma :=
  lazymatch goal with
  | |- post _ (e1000_reg_write _ _) _ _ => eapply reg_write_spec
  | |- post _ (e1000_reg_set _ _ _ _) _ _ => eapply reg_set_spec
  | |- post _ (e1000_reg_unset _ _ _ _) _ _ => eapply reg_unset_spec
  | |- post _ (forM _ _) _ _ => eapply writes_spec
  end.
Ltac reg_last Hb Hm :=
  eapply post_mono;
    [reg_lemma; [exact (eq_trans (md_base _ _ _ Hm) Hb) | first [lia | intros ? ?%elem_of_seqZ; lia]] |];
  let H := fresh "H" in intros [] ? _ H; apply (made_app _ _ _ _ _ Hm) in H; clear Hm; rename H into Hm.
Ltac reg_step Hb Hm := wp_step; reg_last Hb Hm.

Lemma never_written r l :
  Forall (fun x => match x with WR a _ => a <> r | RD _ => True end) l -> foldl (writes_to E1000_REG_CTRL r) None l = None.
Proof.
  induction 1 as [|x l Hx Hl IH]; [done |]. cbn [foldl]. destruct x as [|a v]; [done |].
  cbn [writes_to]. rewrite (proj2 (Z.eqb_neq _ _) Hx). by case_if.
Qed.

Lemma configure_spec s :
  base_reg s = B ->
  wp (e1000_configure card dma) s (fun _ s' => exists l rctl, made l s s' /\
    foldl (writes_to E1000_REG_CTRL E1000_REG_RAL) None l = Some 0x12005452 /\
    foldl (writes_to E1000_REG_CTRL E1000_REG_RAH) None l = Some 0x80005634 /\
    foldl (writes_to E1000_REG_CTRL E1000_REG_RCTL) None l = Some rctl /\ Z.testbit rctl 4 = true /\
    forall i, 32 <= i < 128 -> foldl (writes_to E1000_REG_CTRL (E1000_REG_MTA + 4 * i)) None l = None).
Proof.
  intros Hb. unfold e1000_configure. pose proof (made_nil s) as Hm.
  do 13 reg_step Hb Hm.
  match type of Hm with made _ s ?t => assert (Hrah : card (n_io t) (B + E1000_REG_RAH) = 0x5634) end.
  { eapply kept_read; [exact Hm | by do 3 right; left |]. rewrite foldl_app. reflexivity. }
  reg_step Hb Hm. rewrite Hrah in Hm. reg_last Hb Hm. rewrite <-!app_assoc in Hm. cbn [app] in Hm.
  repeat match type of Hm with context [card ?io ?a] => let z := fresh "z" in set (z := card io a) in Hm; clearbody z end.
  eexists _, _. split; [exact Hm |]. clear Hm. split_and!.
  - vm_compute. reflexivity.
  - vm_compute. reflexivity.
  - reflexivity.
  - unfold w32. rewrite Z.mod_pow2_bits_low, Z.lor_spec by lia. apply orb_true_r.
  - intros i Hi. apply never_written. rewrite !Forall_cons, !Forall_app, !Forall_fmap, !Forall_cons.
    split_and!; try done || lia; apply Forall_forall; intros j Hj%elem_of_seqZ; cbn; lia.
Qed.

(** Only the buffer fields of a ring are set, each to its own buffer. *)
Definition outside_buffers (desc x : Z) : Prop := forall i, 0 <= i < 256 -> ~ (desc + DESC * i <= x < desc + DESC * i + 4).

Lemma set_buffers_spec desc p s :
  wp (set_buffers desc p 256) s (fun _ s' => exists m, s' = set_n_mem m s /\
    (forall i, 0 <= i < 256 -> load32 m (desc + DESC * i) = w32 (p + i * E1000_IOBUF_SIZE)) /\
    same_on (outside_buffers desc) m (n_mem s)).
Proof.
  unfold set_buffers. eapply post_mono; [apply (post_forM _ (fun rest s' => exists j m, rest = seqZ j (256 - j) /\ 0 <= j <= 256 /\ s' = set_n_mem m s /\
    (forall i, 0 <= i < j -> load32 m (desc + DESC * i) = w32 (p + i * E1000_IOBUF_SIZE)) /\ same_on (outside_buffers desc) m (n_mem s))) |].
  - exists 0, (n_mem s). split_and!; [done | lia | lia | by destruct s | lia | done].
  - intros x rest s1 (j & m & E & Hj & -> & Hm & Hsame). destruct (decide (j = 256)) as [-> |]; [done |].
    rewrite (seqZ_cons j (256 - j)) in E by lia. injection E as -> ->. unfold on_mem. wp_step.
    exists (j + 1), (store32 m (desc + DESC * j + D_BUFFER) (w32 (p + j * E1000_IOBUF_SIZE))).
    rewrite Z.add_0_r. split_and!; [by f_equal; lia | lia | lia | done | |].
    + intros i Hi. destruct (decide (i = j)) as [-> |].
      * unfold load32, store32. rewrite load_store_eq. apply Z.mod_small, Z.mod_pos_bound. lia.
      * unfold load32, store32. rewrite load_store_ne by lia. apply Hm. lia.
    + intros y Hy. unfold store32. rewrite byte_at_store_out by (apply (Hy j); lia). by apply Hsame.
  - intros [] s' _ (j & m & E & Hj & -> & Hm & Hsame). assert (j = 256) as -> by (apply (f_equal length) in E; rewrite length_seqZ in E; cbn in E; lia).
    by exists m.
Qed.

Lemma load_app n k m a : load (n + k) m a = load n m a + 2 ^ (8 * Z.of_nat n) * load k m (a + Z.of_nat n).
Proof.
  revert a. induction n as [|n IH]; intros a; [cbn [Nat.add load]; rewrite Z.add_0_r; lia |]. cbn [Nat.add load]. rewrite IH.
  replace (8 * Z.of_nat (S n)) with (8 + 8 * Z.of_nat n) by lia. rewrite Z.pow_add_r by lia.
  replace (a + 1 + Z.of_nat n) with (a + Z.of_nat (S n)) by lia. lia.
Qed.
Lemma load64_split m a : load64 m a = load32 m a + 2 ^ 32 * load32 m (a + 4).
Proof. apply (load_app 4 4). Qed.

(** The arrays are where the card is told, below 4GB. *)
Definition arrays_mapped (info : cpu_info) : Prop :=
  forall a, a ∈ [rx_buf; rx_desc; tx_buf; tx_desc] ->
    (forall T (x : T), virt2phys info a x = Ok (a + delta) x) /\ 0 < a + delta /\ a + delta + E1000_RXDESC_NR * E1000_IOBUF_SIZE <= 2 ^ 32.
(** Descriptors as the program starts, but for what the card has written. *)
Definition desc_blank (desc : Z) (m : memory) : Prop :=
  forall i k, 0 <= i < 256 -> 4 <= k < 10 -> ~ card_owned (desc + DESC * i + k) -> byte_at m (desc + DESC * i + k) = 0.

Lemma rx_apart_owned i k : 0 <= i < 256 -> 0 <= k < 8 -> ~ card_owned (rx_desc + DESC * i + k).
Proof.
  intros Hi Hk. destruct Harr as (A1 & A2 & A3 & A4 & A5 & A6). unfold apart in *. unfold card_owned, in_area.
  intros [H|[[_ Hm]|[H _]]]; try lia.
  replace (rx_desc + DESC * i + k - rx_desc) with (k + i * DESC) in Hm by lia. rewrite Z.mod_add, Z.mod_small in Hm; lia.
Qed.

Lemma ring_set desc buf m :
  (forall i, 0 <= i < 256 -> load32 m (desc + DESC * i) = w32 (buf + delta + i * E1000_IOBUF_SIZE)) ->
  0 < buf + delta -> buf + delta + E1000_RXDESC_NR * E1000_IOBUF_SIZE <= 2 ^ 32 ->
  (forall i x, 0 <= i < 256 -> desc + DESC * i + 4 <= x < desc + DESC * i + 8 -> byte_at m x = 0) -> ring_ok desc buf m.
Proof.
  intros Hl H0 H1 Hz i Hi. rewrite load64_split, (Hl i Hi), w32_small by lia.
  unfold load32 at 1. rewrite (load_zero 4); [lia |]. intros x Hx. apply (Hz i); lia.
Qed.

Lemma card_address_run what a s :
  arrays_mapped (n_cpu s) -> a ∈ [rx_buf; rx_desc; tx_buf; tx_desc] -> card_address what a s = Ok (a + delta) s.
Proof.
  intros Hm Ha. destruct (Hm a Ha) as (Hv & Hp & _). unfold card_address. erewrite bind_step by reflexivity.
  rewrite (bind_step _ _ _ _ _ (Hv _ s)). by rewrite (proj2 (Z.eqb_neq _ _)) by lia.
Qed.

(** What the ring registers were last set to by the accesses [l]. *)
Definition set_to (l : list access) (r v : Z) : Prop := foldl (writes_to E1000_REG_CTRL r) None l = Some v.
Definition rings_set (l : list access) : Prop :=
  set_to l E1000_REG_RDBAL (rx_desc + delta) /\ set_to l E1000_REG_RDBAH 0 /\ set_to l E1000_REG_RDLEN 4096 /\
  set_to l E1000_REG_RDH 0 /\ set_to l E1000_REG_RDT 255 /\
  set_to l E1000_REG_TDBAL (tx_desc + delta) /\ set_to l E1000_REG_TDBAH 0 /\ set_to l E1000_REG_TDLEN 4096 /\
  set_to l E1000_REG_TDH 0 /\ set_to l E1000_REG_TDT 0.

Lemma set_buffers_both s :
  arrays_mapped (n_cpu s) -> desc_blank rx_desc (n_mem s) -> desc_blank tx_desc (n_mem s) ->
  wp (set_buffers rx_desc (rx_buf + delta) E1000_RXDESC_NR ;; set_buffers tx_desc (tx_buf + delta) E1000_TXDESC_NR) s
    (fun _ s' => exists m, s' = set_n_mem m s /\ tx_ok m /\ ring_ok rx_desc rx_buf m).
Proof.
  intros Hmap Hz1 Hz2. destruct Harr as (A1 & _). unfold apart in A1.
  wp_step. eapply post_mono; [apply set_buffers_spec |]. intros [] s1 _ (m1 & -> & H1 & S1).
  eapply post_mono; [apply set_buffers_spec |]. intros [] s2 _ (m2 & -> & H2 & S2). cbn [n_mem set_n_mem] in S2.
  destruct (Hmap rx_buf ltac:(by left)) as (_ & R1 & R2). destruct (Hmap tx_buf ltac:(by do 2 right; left)) as (_ & T1 & T2).
  assert (Hkeep : forall desc i k, desc = rx_desc \/ desc = tx_desc -> 0 <= i < 256 -> 4 <= k < 10 ->
    byte_at m2 (desc + DESC * i + k) = byte_at (n_mem s) (desc + DESC * i + k)).
  { intros desc i k Hd Hi Hk. rewrite S2 by (intros j Hj; destruct Hd as [-> | ->]; lia). apply S1. intros j Hj. destruct Hd as [-> | ->]; lia. }
  assert (Hz : forall i k, 0 <= i < 256 -> 4 <= k < 10 -> byte_at m2 (tx_desc + DESC * i + k) = 0).
  { intros i k Hi Hk. rewrite Hkeep by (done || by right). apply Hz2; [done | done |]. apply (tx_apart_owned i); [done |]. left. lia. }
  exists m2. split; [done |]. split; [split|].
  - apply ring_set; [exact H2 | lia | lia |]. intros i x Hi Hx. replace x with (tx_desc + DESC * i + (x - tx_desc - DESC * i)) by lia. apply Hz; lia.
  - intros i Hi. rewrite load_zero; [lia |]. intros x Hx. replace x with (tx_desc + DESC * i + (x - tx_desc - DESC * i)) by lia. apply Hz; lia.
  - apply ring_set; [| lia | lia |].
    + intros i Hi. rewrite <-(H1 i Hi). apply (load_ext 4). intros x Hx. apply S2. intros j Hj. lia.
    + intros i x Hi Hx. replace x with (rx_desc + DESC * i + (x - rx_desc - DESC * i)) by lia. rewrite Hkeep by (lia || by left).
      apply Hz1; [done | lia |]. apply rx_apart_owned; lia.
Qed.

Lemma w32_bit x i : 0 <= i < 32 -> Z.testbit (w32 x) i = Z.testbit x i.
Proof. intros Hi. unfold w32. apply Z.mod_pow2_bits_low. lia. Qed.

Lemma init_buf_spec s rctl :
  base_reg s = B -> arrays_mapped (n_cpu s) -> desc_blank rx_desc (n_mem s) -> desc_blank tx_desc (n_mem s) ->
  last_write B (n_io s) (B + E1000_REG_RCTL) = Some rctl ->
  wp (e1000_init_buf card dma rx_desc tx_desc rx_buf tx_buf) s (fun _ s' => exists m l v w,
    made l (set_n_mem m s) s' /\ tx_ok m /\ ring_ok rx_desc rx_buf m /\ rings_set l /\
    set_to l E1000_REG_RCTL v /\ Z.testbit v 1 = true /\ Z.testbit v 4 = Z.testbit rctl 4 /\ Z.testbit v 16 = false /\ Z.testbit v 17 = false /\
    set_to l E1000_REG_TCTL w /\ Z.testbit w 1 = true /\ Z.testbit w 3 = true /\
    (forall acc, foldl (writes_to E1000_REG_CTRL E1000_REG_RAL) acc l = acc) /\
    (forall acc, foldl (writes_to E1000_REG_CTRL E1000_REG_RAH) acc l = acc) /\
    forall i, 32 <= i < 128 -> foldl (writes_to E1000_REG_CTRL (E1000_REG_MTA + 4 * i)) None l = None).
Proof.
  intros Hb Hmap Hz1 Hz2 Hrctl. unfold e1000_init_buf.
  wp_step. eapply post_run; [apply card_address_run; [done | by left] |].
  wp_step. eapply post_run; [apply card_address_run; [done | by right; left] |].
  wp_step. eapply post_run; [apply card_address_run; [done | by do 2 right; left] |].
  wp_step. eapply post_run; [apply card_address_run; [done | by do 3 right; left] |].
  destruct (Hmap rx_desc ltac:(by right; left)) as (_ & R1 & R2). destruct (Hmap tx_desc ltac:(by do 3 right; left)) as (_ & T1 & T2).
  destruct (wp_elim _ _ _ (set_buffers_both s Hmap Hz1 Hz2)) as ([] & s1 & Hrun & m & -> & Htx & Hrx).
  apply bind_ok in Hrun as ([] & s1 & Hrun1 & Hrun2). wp_step. eapply post_run; [exact Hrun1 |]. wp_step. eapply post_run; [exact Hrun2 |].
  pose proof (made_nil (set_n_mem m s)) as Hm. assert (Hb1 : base_reg (set_n_mem m s) = B) by exact Hb.
  do 5 reg_step Hb1 Hm.
  match type of Hm with made _ _ ?t => assert (Hr0 : card (n_io t) (B + E1000_REG_RCTL) = rctl) end.
  { eapply kept_read; [exact Hm | by do 2 right; left |]. exact Hrctl. }
  reg_step Hb1 Hm. rewrite Hr0 in Hm.
  match type of Hm with made _ _ ?t => assert (Hr1 : card (n_io t) (B + E1000_REG_RCTL) = w32 (Z.ldiff (w32 rctl) E1000_REG_RCTL_BSIZE)) end.
  { eapply kept_read; [exact Hm | by do 2 right; left |]. reflexivity. }
  do 6 reg_step Hb1 Hm. reg_last Hb1 Hm. rewrite Hr1 in Hm. rewrite <-!app_assoc in Hm. cbn [app] in Hm.
  match type of Hm with context [card ?io ?a] => set (z := card io a) in Hm; clearbody z end.
  eexists m, _, (w32 (Z.lor (w32 (w32 (Z.ldiff (w32 rctl) E1000_REG_RCTL_BSIZE))) E1000_REG_RCTL_EN)),
    (w32 (Z.lor (w32 z) (Z.lor E1000_REG_TCTL_EN E1000_REG_TCTL_PSP))).
  split; [exact Hm |]. clear Hm. split; [done |]. split; [done |].
  split; [unfold rings_set, set_to; rewrite (w32_small (rx_desc + delta)), (w32_small (tx_desc + delta)) by lia; by split_and! |].
  rewrite !w32_bit, !Z.lor_spec, !w32_bit, !Z.ldiff_spec, !w32_bit by lia.
  split; [reflexivity |]. split; [apply orb_true_r |]. split; [by rewrite andb_true_r, orb_false_r |].
  split; [by rewrite andb_false_r |]. split; [by rewrite andb_false_r |]. split; [reflexivity |].
  split; [apply orb_true_r |]. split; [apply orb_true_r |]. split; [reflexivity |]. split; [reflexivity |].
  intros i Hi. apply never_written. rewrite !Forall_cons. split_and!; done || lia.
Qed.

(** Register [r] was last set to [v]. *)
Definition reg_is (s : nic) (r v : Z) : Prop := last_write B (n_io s) (B + r) = Some v.

Lemma set_to_reg l s s' r v : made l s s' -> set_to l r v -> reg_is s' r v.
Proof.
  intros Hm Hl. unfold reg_is. rewrite (md_io _ _ _ Hm), last_write_app.
  unfold set_to in Hl. revert Hl. generalize (last_write B (n_io s) (B + r)) as acc.
  assert (H : forall l a1 a2, a1 = None -> foldl (writes_to E1000_REG_CTRL r) a1 l = Some v -> foldl (writes_to E1000_REG_CTRL r) a2 l = Some v).
  { clear. induction l as [|x l IH]; intros a1 a2 E H1; cbn [foldl] in *; [congruence |]. destruct x as [a|a u]; cbn [writes_to] in *.
    - by apply (IH a1).
    - repeat case_if; try done. by apply (IH a1). }
  intros acc Hl. by apply (H l None).
Qed.
Lemma set_later l s s' r v : made l s s' -> reg_is s r v -> foldl (writes_to E1000_REG_CTRL r) (Some v) l = Some v -> reg_is s' r v.
Proof. intros Hm Hr Hl. unfold reg_is in *. by rewrite (md_io _ _ _ Hm), last_write_app, Hr. Qed.

(** A ring as its registers describe it: base, length, head and tail. *)
Definition ring_regs (s : nic) (bal bah len head tail : Z) (desc t : Z) : Prop :=
  reg_is s bal (desc + delta) /\ reg_is s bah 0 /\ reg_is s len 4096 /\ reg_is s head 0 /\ tail_is tail s t.
(** Bits of a control register. *)
Definition reg_bits (s : nic) (r : Z) (on off : list Z) : Prop :=
  exists v, reg_is s r v /\ (forall i, i ∈ on -> Z.testbit v i = true) /\ (forall i, i ∈ off -> Z.testbit v i = false).

Lemma blank_made l s s' desc : made l s s' -> desc_blank desc (n_mem s) -> desc_blank desc (n_mem s').
Proof. intros Hm Hz i k Hi Hk Ho. rewrite (md_mem _ _ _ Hm) by done. by apply Hz. Qed.

(** After the card was found: reset, configuration, rings and interrupts. *)
Lemma start_card_spec s :
  base_reg s = B -> arrays_mapped (n_cpu s) -> desc_blank rx_desc (n_mem s) -> desc_blank tx_desc (n_mem s) ->
  (forall i, 32 <= i < 128 -> last_write B (n_io s) (B + (E1000_REG_MTA + 4 * i)) = None) ->
  wp (e1000_reset_hw card dma ;; e1000_configure card dma ;; e1000_init_buf card dma rx_desc tx_desc rx_buf tx_buf ;;
      e1000_reg_set card dma E1000_REG_IMS E1000_INTERRUPTS) s (fun _ s' =>
    base_reg s' = B /\ size_reg s' = size_reg s /\ n_pci s' = n_pci s /\ tx_ok (n_mem s') /\ ring_ok rx_desc rx_buf (n_mem s') /\
    ring_regs s' E1000_REG_RDBAL E1000_REG_RDBAH E1000_REG_RDLEN E1000_REG_RDH E1000_REG_RDT rx_desc 255 /\
    ring_regs s' E1000_REG_TDBAL E1000_REG_TDBAH E1000_REG_TDLEN E1000_REG_TDH E1000_REG_TDT tx_desc 0 /\
    reg_is s' E1000_REG_RAL 0x12005452 /\ reg_is s' E1000_REG_RAH 0x80005634 /\
    reg_bits s' E1000_REG_RCTL [1; 4] [16; 17] /\ reg_bits s' E1000_REG_TCTL [1; 3] [] /\ reg_bits s' E1000_REG_IMS [0; 1; 2; 6; 7] [] /\
    forall i, 32 <= i < 128 -> last_write B (n_io s') (B + (E1000_REG_MTA + 4 * i)) = None).
Proof.
  intros Hb Hmap Hz1 Hz2 Hmta. wp_step. unfold e1000_reset_hw. eapply post_mono; [apply reg_set_spec; [done | lia] |]. intros [] s1 _ M1.
  assert (Hb1 : base_reg s1 = B) by (by rewrite (md_base _ _ _ M1)).
  wp_step. eapply post_mono; [by apply configure_spec |]. intros [] s2 _ (l & rctl & M2 & Hral & Hrah & Hrctl & Hbit & Hmta2).
  pose proof (made_app _ _ _ _ _ M1 M2) as M12. assert (Hb2 : base_reg s2 = B) by (by rewrite (md_base _ _ _ M12)).
  wp_step. eapply post_mono; [apply (init_buf_spec s2 rctl Hb2) |].
  { by rewrite (md_cpu _ _ _ M12). } { by eapply blank_made. } { by eapply blank_made. } { exact (set_to_reg _ _ _ _ _ M2 Hrctl). }
  intros [] s3 _ (m & l3 & v & w & M3 & Htx & Hrx & Hrs & Hv & V1 & V4 & V16 & V17 & Hw & W1 & W3 & Kral & Krah & Kmta).
  assert (Hb3 : base_reg s3 = B) by (by rewrite (md_base _ _ _ M3)).
  eapply post_mono; [apply reg_set_spec; [done | lia] |]. intros [] s4 _ M4.
  pose proof (made_app _ _ _ _ _ M3 M4) as M34. set (x := w32 (Z.lor _ _)) in M34.
  assert (K : forall r u, r <> E1000_REG_IMS -> set_to l3 r u -> reg_is s4 r u).
  { intros r u Hr Hu. apply (set_to_reg _ _ _ _ _ M34). unfold set_to. rewrite foldl_app, Hu. cbn [foldl writes_to].
    rewrite (proj2 (Z.eqb_neq E1000_REG_IMS r)) by done. done. }
  assert (Hold : forall r u, r <> E1000_REG_IMS -> set_to l r u -> (forall acc, foldl (writes_to E1000_REG_CTRL r) acc l3 = acc) -> reg_is s4 r u).
  { intros r u Hr Hu Hk. apply (set_later _ _ _ _ _ M34); [exact (set_to_reg _ _ _ _ _ M2 Hu) |]. rewrite foldl_app, Hk. cbn [foldl writes_to].
    rewrite (proj2 (Z.eqb_neq E1000_REG_IMS r)) by done. done. }
  destruct Hrs as (R1 & R2 & R3 & R4 & R5 & T1 & T2 & T3 & T4 & T5). destruct (tx_ok_dma m (n_mem s4)) as [Htx4 _]; [exact (md_mem _ _ _ M34) | done |].
  split; [by rewrite (md_base _ _ _ M34) |].
  split; [rewrite (md_size _ _ _ M34); cbn; by rewrite (md_size _ _ _ M12) |]. split; [rewrite (md_pci _ _ _ M34); cbn; by rewrite (md_pci _ _ _ M12) |].
  split; [done |]. split; [intros i Hi; rewrite <-(Hrx i Hi); apply (load_ext 8); intros y Hy; rewrite (md_mem _ _ _ M34); [done |];
    replace y with (rx_desc + DESC * i + (y - rx_desc - DESC * i)) by lia; apply rx_apart_owned; lia |].
  split; [split_and!; [by apply K .. | split; [by apply K | lia]] |]. split; [split_and!; [by apply K .. | split; [by apply K | lia]] |].
  split; [by apply Hold |]. split; [by apply Hold |].
  split; [exists v; split_and!; [by apply K | |]; intros i Hi; (apply elem_of_cons in Hi as [-> |Hi]; [congruence |]; apply list_elem_of_singleton in Hi as ->; congruence) |].
  split; [exists w; split_and!; [by apply K | |]; intros i Hi; [|by apply not_elem_of_nil in Hi]; apply elem_of_cons in Hi as [-> |Hi]; [done |]; by apply list_elem_of_singleton in Hi as -> |].
  split.
  - exists x. split_and!; [|intros i Hi | intros i Hi; by apply not_elem_of_nil in Hi].
    + apply (set_to_reg _ _ _ _ _ M34). unfold set_to. by rewrite foldl_app.
    + subst x. assert (Hi' : 0 <= i < 32) by (repeat (apply elem_of_cons in Hi as [-> |Hi]; [lia |]); by apply not_elem_of_nil in Hi).
      rewrite w32_bit, Z.lor_spec by done. apply orb_true_iff. right.
      repeat (apply elem_of_cons in Hi as [-> |Hi]; [reflexivity |]). by apply not_elem_of_nil in Hi.
  - intros i Hi. rewrite (md_io _ _ _ M34), last_write_app. cbn [n_io set_n_mem]. rewrite (md_io _ _ _ M12), last_write_app, Hmta by done.
    rewrite !foldl_app. cbn [foldl writes_to]. replace (E1000_REG_CTRL =? E1000_REG_MTA + 4 * i) with false by (symmetry; apply Z.eqb_neq; lia).
    replace (E1000_REG_IMS =? E1000_REG_MTA + 4 * i) with false by (symmetry; apply Z.eqb_neq; lia).
    change (E1000_REG_CTRL =? E1000_REG_CTRL) with true. cbn iota. by rewrite Hmta2, Kmta by done.
Qed.

Lemma e1000_init_run sym layout s w :
  (forall e, 0 <= sym e < 2 ^ 64) -> fresh (n_pci s) -> cards_laid_out layout (n_pci s) ->
  (length (found (n_pci s) functions) < 50)%nat -> head (windows layout (n_pci s) functions) = Some w -> b_base w = B ->
  n_io s = [] -> arrays_mapped (n_cpu s) ->
  (forall x, in_area rx_desc (E1000_RXDESC_NR * DESC) x \/ in_area tx_desc (E1000_TXDESC_NR * DESC) x -> byte_at (n_mem s) x = 0) ->
  if Z.testbit (card [] (B + E1000_REG_STATUS)) 1 then
    exists s', e1000_init card dma sym rx_desc tx_desc rx_buf tx_buf s = Ok tt s' /\
      base_reg s' = B /\ size_reg s' = b_size w /\ tx_ok (n_mem s') /\ ring_ok rx_desc rx_buf (n_mem s') /\
      ring_regs s' E1000_REG_RDBAL E1000_REG_RDBAH E1000_REG_RDLEN E1000_REG_RDH E1000_REG_RDT rx_desc 255 /\
      ring_regs s' E1000_REG_TDBAL E1000_REG_TDBAH E1000_REG_TDLEN E1000_REG_TDH E1000_REG_TDT tx_desc 0 /\
      reg_is s' E1000_REG_RAL 0x12005452 /\ reg_is s' E1000_REG_RAH 0x80005634 /\
      reg_bits s' E1000_REG_RCTL [1; 4] [16; 17] /\ reg_bits s' E1000_REG_TCTL [1; 3] [] /\ reg_bits s' E1000_REG_IMS [0; 1; 2; 6; 7] [] /\
      forall i, 32 <= i < 128 -> last_write B (n_io s') (B + (E1000_REG_MTA + 4 * i)) = None
  else e1000_init card dma sym rx_desc tx_desc rx_buf tx_buf s = Stop (Panic "E1000 is not enabled!").
Proof.
  intros Hsym Hf Hl Hn Hw HB Hio Hmap Hzero.
  pose proof (card_address_correct sym Hsym layout (n_pci s) Hf Hl Hn) as Hcard. rewrite Hw in Hcard. destruct Hcard as (p & Hrun & _).
  apply bind_ok in Hrun as ([] & p1 & Hrun1 & Hrun2).
  assert (Hz : forall desc, desc = rx_desc \/ desc = tx_desc -> desc_blank desc (n_mem s)).
  { intros desc Hd i k Hi Hk _. apply Hzero. unfold in_area. destruct Hd as [-> | ->]; [left | right]; lia. }
  unfold e1000_init. erewrite bind_step by (unfold zoom; by rewrite Hrun1).
  erewrite bind_step by (unfold zoom; cbn [n_pci set_n_pci]; by rewrite Hrun2). erewrite bind_step by reflexivity. cbn [fst snd].
  match goal with |- context [set_window _ _ ?t] => set (s1 := set_window (b_base w) (b_size w) t) end.
  assert (Hb1 : base_reg s1 = B) by exact HB. assert (Hio1 : n_io s1 = []) by exact Hio.
  destruct (wp_elim _ _ _ (reg_read_spec (fun _ => False) E1000_REG_STATUS s1 Hb1 ltac:(lia))) as (v & s2 & Hread & -> & M2 & _).
  erewrite bind_step by exact Hread. rewrite Hio1.
  assert (Hbit : (Z.land (w32 (card [] (B + E1000_REG_STATUS))) E1000_ENABLED =? 0) = negb (Z.testbit (card [] (B + E1000_REG_STATUS)) 1)).
  { rewrite <-(w32_bit _ 1) by lia. set (x := w32 _). destruct (Z.testbit x 1) eqn:E.
    - apply Z.eqb_neq. intros E0. assert (Ht : Z.testbit (Z.land x E1000_ENABLED) 1 = true) by (rewrite Z.land_spec, E; reflexivity).
      rewrite E0 in Ht. by rewrite Z.bits_0 in Ht.
    - apply Z.eqb_eq, Z.bits_inj'. intros i Hi. rewrite Z.land_spec, Z.bits_0. change E1000_ENABLED with (2 ^ 1). rewrite Z.pow2_bits_eqb by lia.
      destruct (Z.eqb_spec 1 i) as [<-|]; [by rewrite E | apply andb_false_r]. }
  rewrite Hbit. destruct (Z.testbit (card [] _) 1); cbn [negb]; [|done].
  edestruct (wp_elim _ _ _ (start_card_spec s2 ltac:(by rewrite (md_base _ _ _ M2)) ltac:(rewrite (md_cpu _ _ _ M2); exact Hmap)
    ltac:(eapply blank_made; [exact M2 |]; apply Hz; by left) ltac:(eapply blank_made; [exact M2 |]; apply Hz; by right)
    ltac:(intros i Hi; by rewrite (md_io _ _ _ M2), last_write_app, Hio1))) as ([] & s' & Hrun' & R1 & R2 & _ & R).
  exists s'. split; [exact Hrun' |]. split; [done |]. split; [|exact R]. rewrite R2, (md_size _ _ _ M2). done.
Qed.

(** C20: set-up of the network card.  With an Intel card on the bus whose first
    window is at [B], enabled, the static arrays zero and at the addresses the
    card is told, [e1000_init] returns; the driver uses the card's window, every
    descriptor of both rings names its own buffer, the ring registers name the
    rings with 255 free receive descriptors and an empty transmit queue, the
    receive address is 52:54:00:12:34:56, receiver and transmitter are enabled
    with 2048-byte buffers, and the interrupts are unmasked.  Of the multicast
    table the entries from 32 on are never written.  A card that is not enabled
    ends in a panic. *)
Theorem e1000_init_correct sym layout s w :
  (forall e, 0 <= sym e < 2 ^ 64) -> fresh (n_pci s) -> cards_laid_out layout (n_pci s) ->
  (length (found (n_pci s) functions) < 50)%nat -> head (windows layout (n_pci s) functions) = Some w -> b_base w = B ->
  n_io s = [] -> arrays_mapped (n_cpu s) ->
  (forall x, in_area rx_desc (E1000_RXDESC_NR * DESC) x \/ in_area tx_desc (E1000_TXDESC_NR * DESC) x -> byte_at (n_mem s) x = 0) ->
  if Z.testbit (card [] (B + E1000_REG_STATUS)) 1 then
    exists s', e1000_init card dma sym rx_desc tx_desc rx_buf tx_buf s = Ok tt s' /\
      base_reg s' = B /\ size_reg s' = b_size w /\ tx_ok (n_mem s') /\ ring_ok rx_desc rx_buf (n_mem s') /\
      ring_regs s' E1000_REG_RDBAL E1000_REG_RDBAH E1000_REG_RDLEN E1000_REG_RDH E1000_REG_RDT rx_desc 255 /\
      ring_regs s' E1000_REG_TDBAL E1000_REG_TDBAH E1000_REG_TDLEN E1000_REG_TDH E1000_REG_TDT tx_desc 0 /\
      reg_is s' E1000_REG_RAL 0x12005452 /\ reg_is s' E1000_REG_RAH 0x80005634 /\
      reg_bits s' E1000_REG_RCTL [1; 4] [16; 17] /\ reg_bits s' E1000_REG_TCTL [1; 3] [] /\ reg_bits s' E1000_REG_IMS [0; 1; 2; 6; 7] [] /\
      forall i, 32 <= i < 128 -> last_write B (n_io s') (B + (E1000_REG_MTA + 4 * i)) = None
  else e1000_init card dma sym rx_desc tx_desc rx_buf tx_buf s = Stop (Panic "E1000 is not enabled!").
Proof. apply e1000_init_run. Qed.
End Card.
