(* ===== verification/Vmm.v ===== *)
(** * The hypervisor (vmm/vmx.c, vmm/main.c)

    Every CPU runs a hypervisor that gives its one virtual machine the memory
    and registers the process manager has put into the CPU's [struct
    cpu_info].  The state is the shared machine, the processor's control,
    model-specific and descriptor registers, and the virtual-machine control
    structures (VMCS) the VMX instructions work on.  The instructions are
    modelled as the processor documents them; what depends on the model of the
    processor is part of the state: its MSRs, the VMCS fields it has and its
    checks on VM entry. *)

From S2P Require Import Prelude PhysMem MemMgr CpuInfo Ipc Descriptors.

(** ** Registers and fields *)

Abbreviation MSR_IA32_FEATURE_CONTROL := 0x3a.
Abbreviation MSR_IA32_SYSENTER_CS := 0x174.
Abbreviation MSR_IA32_SYSENTER_ESP := 0x175.
Abbreviation MSR_IA32_SYSENTER_EIP := 0x176.
Abbreviation MSR_IA32_VMX_BASIC := 0x480.
Abbreviation MSR_IA32_VMX_PINBASED_CTLS := 0x481.
Abbreviation MSR_IA32_VMX_PROCBASED_CTLS := 0x482.
Abbreviation MSR_IA32_VMX_EXIT_CTLS := 0x483.
Abbreviation MSR_IA32_VMX_ENTRY_CTLS := 0x484.
Abbreviation MSR_IA32_VMX_PROCBASED_CTLS2 := 0x48b.
Abbreviation MSR_IA32_VMX_EPT_VPID_CAP := 0x48c.

(** Control bits, by number (vmm/include/vmx.h gives the masks). *)
Abbreviation PIN_MIN := (Z.lor 0x1 0x8).
Abbreviation PIN_OPT := 0x20.
Definition CPU_MIN : Z :=
  Z.lor 0x80000 (Z.lor 0x100000 (Z.lor 0x8000 (Z.lor 0x10000 (Z.lor 0x800000 (Z.lor 0x8 (Z.lor 0x400
    (Z.lor 0x20000000 (Z.lor 0x200 0x80)))))))).
Abbreviation CPU_OPT := (Z.lor 0x200000 (Z.lor 0x10000000 0x80000000)).
Abbreviation CPU2_OPT := (Z.lor 0x40 (Z.lor 0x20 (Z.lor 0x2 0x8))).
Abbreviation CPU_BASED_CR8_LOAD_EXITING := 0x80000.
Abbreviation CPU_BASED_CR8_STORE_EXITING := 0x100000.
Abbreviation CPU_BASED_TPR_SHADOW := 0x200000.
Abbreviation CPU_BASED_CR3_LOAD_EXITING := 0x8000.
Abbreviation CPU_BASED_CR3_STORE_EXITING := 0x10000.
Abbreviation CPU_BASED_INVLPG_EXITING := 0x200.
Abbreviation CPU_BASED_ACTIVATE_SECONDARY_CONTROLS := 0x80000000.
Abbreviation SECONDARY_EXEC_VIRTUALIZE_APIC_ACCESSES := 0x1.
Abbreviation SECONDARY_EXEC_ENABLE_EPT := 0x2.
Abbreviation VM_EXIT_HOST_ADDR_SPACE_SIZE := 0x200.
Abbreviation VM_ENTRY_LOAD_IA32_EFER := 0x8000.
Abbreviation VM_EXIT_LOAD_IA32_EFER := 0x200000.
Abbreviation VMX_EPT_EXTENT_GLOBAL_BIT := 0x4000000.
Abbreviation VMX_VPID_EXTENT_SINGLE_CONTEXT_BIT := 0x200.
Abbreviation FEATURE_BITS := (Z.lor 0x1 0x4).
Abbreviation X86_CR4_VMXE := 0x2000.
Abbreviation EIO := 5.

(** A field's width is in its encoding: 16, 64, 32 bits or natural. *)
Definition field_width (f : Z) : Z :=
  let k := (f / 2 ^ 13) mod 4 in if k =? 0 then 16 else if k =? 2 then 32 else 64.

Record vmcs_config := VmcsConfig {
  cf_size : Z;
  cf_revision_id : Z;
  cf_pin_based : Z;
  cf_cpu_based : Z;
  cf_cpu_based_2nd : Z;
  cf_vmexit : Z;
  cf_vmentry : Z
}.
Record vmx_capability := VmxCapability { vc_ept : Z; vc_vpid : Z; vc_load_efer : bool }.

(** A VMCS: launch state and fields. *)
Record vmcs := Vmcs { vc_launched : bool; vc_fields : gmap Z Z }.
Definition no_vmcs : vmcs := Vmcs false ∅.

Record vmx_state := Vmx {
  x_m : machine;
  x_pm : list (cpu_info -> cpu_info);  (* what the process manager does to this CPU's
                                        [cpu_info] before each message it sends here *)
  x_msr : Z -> Z;
  x_cr0 : Z;
  x_cr3 : Z;
  x_cr4 : Z;
  x_gdtr : Z * Z;
  x_idtr : Z * Z;
  x_seg : seg -> Z;
  x_tables : Z * Z;                  (* addresses of the hypervisor's [gdt] and [idt] *)
  x_init : bool * bool;              (* their [initialized] flags *)
  x_vmxon : option Z;                (* the VMXON region, in VMX operation *)
  x_vmcs : gmap Z vmcs;
  x_current : option Z;
  x_has_field : Z -> bool;           (* fields this processor has *)
  x_entry_ok : gmap Z Z -> bool;     (* its checks of host and guest state on VM entry *)
  x_config : vmcs_config;
  x_cap : vmx_capability;
  x_vmcs_ptr : Z;                    (* [vm_info.vm_vmcs_ptr], [vm_vmxon_ptr], *)
  x_vmxon_ptr : Z;
  x_vmm_rsp : Z;                     (* [vmm_info.vmm_regs.rsp], *)
  x_lapic_id : Z;                    (* [lapic_id] and *)
  x_ready : bool;                    (* [ready] of [cpuinfo] *)
  x_host_entry : Z;                  (* address of [host_entry] *)
  x_real_id : Z                      (* what CPUID says of the local APIC *)
}.

Definition set_x_m (v : machine) (s : vmx_state) : vmx_state :=
  Vmx v (x_pm s) (x_msr s) (x_cr0 s) (x_cr3 s) (x_cr4 s) (x_gdtr s) (x_idtr s) (x_seg s) (x_tables s) (x_init s) (x_vmxon s) (x_vmcs s)
    (x_current s) (x_has_field s) (x_entry_ok s) (x_config s) (x_cap s) (x_vmcs_ptr s) (x_vmxon_ptr s) (x_vmm_rsp s) (x_lapic_id s) (x_ready s)
    (x_host_entry s) (x_real_id s).
Definition set_x_pm (v : list (cpu_info -> cpu_info)) (s : vmx_state) : vmx_state :=
  Vmx (x_m s) v (x_msr s) (x_cr0 s) (x_cr3 s) (x_cr4 s) (x_gdtr s) (x_idtr s) (x_seg s) (x_tables s) (x_init s) (x_vmxon s) (x_vmcs s)
    (x_current s) (x_has_field s) (x_entry_ok s) (x_config s) (x_cap s) (x_vmcs_ptr s) (x_vmxon_ptr s) (x_vmm_rsp s) (x_lapic_id s) (x_ready s)
    (x_host_entry s) (x_real_id s).
Definition set_x_regs (msr : Z -> Z) (cr0 cr4 : Z) (s : vmx_state) : vmx_state :=
  Vmx (x_m s) (x_pm s) msr cr0 (x_cr3 s) cr4 (x_gdtr s) (x_idtr s) (x_seg s) (x_tables s) (x_init s) (x_vmxon s) (x_vmcs s)
    (x_current s) (x_has_field s) (x_entry_ok s) (x_config s) (x_cap s) (x_vmcs_ptr s) (x_vmxon_ptr s) (x_vmm_rsp s) (x_lapic_id s) (x_ready s)
    (x_host_entry s) (x_real_id s).
Definition set_x_desc (d : desc_state) (s : vmx_state) : vmx_state :=
  Vmx (set_m_mem (d_mem d) (x_m s)) (x_pm s) (x_msr s) (x_cr0 s) (x_cr3 s) (x_cr4 s) (d_gdtr d) (d_idtr d) (d_seg d) (d_gdt d, d_idt d)
    (d_gdt_done d, d_idt_done d) (x_vmxon s) (x_vmcs s)
    (x_current s) (x_has_field s) (x_entry_ok s) (x_config s) (x_cap s) (x_vmcs_ptr s) (x_vmxon_ptr s) (x_vmm_rsp s) (x_lapic_id s) (x_ready s)
    (x_host_entry s) (x_real_id s).
Definition set_x_vmcs (vmxon : option Z) (v : gmap Z vmcs) (current : option Z) (s : vmx_state) : vmx_state :=
  Vmx (x_m s) (x_pm s) (x_msr s) (x_cr0 s) (x_cr3 s) (x_cr4 s) (x_gdtr s) (x_idtr s) (x_seg s) (x_tables s) (x_init s) vmxon v
    current (x_has_field s) (x_entry_ok s) (x_config s) (x_cap s) (x_vmcs_ptr s) (x_vmxon_ptr s) (x_vmm_rsp s) (x_lapic_id s) (x_ready s)
    (x_host_entry s) (x_real_id s).
Definition set_x_config (c : vmcs_config) (cap : vmx_capability) (s : vmx_state) : vmx_state :=
  Vmx (x_m s) (x_pm s) (x_msr s) (x_cr0 s) (x_cr3 s) (x_cr4 s) (x_gdtr s) (x_idtr s) (x_seg s) (x_tables s) (x_init s) (x_vmxon s) (x_vmcs s)
    (x_current s) (x_has_field s) (x_entry_ok s) c cap (x_vmcs_ptr s) (x_vmxon_ptr s) (x_vmm_rsp s) (x_lapic_id s) (x_ready s)
    (x_host_entry s) (x_real_id s).
Definition set_x_ready (v : bool) (s : vmx_state) : vmx_state :=
  Vmx (x_m s) (x_pm s) (x_msr s) (x_cr0 s) (x_cr3 s) (x_cr4 s) (x_gdtr s) (x_idtr s) (x_seg s) (x_tables s) (x_init s) (x_vmxon s) (x_vmcs s)
    (x_current s) (x_has_field s) (x_entry_ok s) (x_config s) (x_cap s) (x_vmcs_ptr s) (x_vmxon_ptr s) (x_vmm_rsp s) (x_lapic_id s) v
    (x_host_entry s) (x_real_id s).

Definition x_mem (s : vmx_state) : memory := m_mem (x_m s).
Definition my_vm (s : vmx_state) : vm_proc := vm_info (self (x_m s)).
Definition vmm_machine {A} (m : M machine A) : M vmx_state A := zoom x_m set_x_m m.
Definition vmm_poke (f : memory -> memory) : M vmx_state unit := vmm_machine (update_mem f).
Definition on_tables {A} (m : M desc_state A) : M vmx_state A :=
  zoom (fun s => Desc (x_mem s) (x_gdtr s) (x_idtr s) (x_seg s) (x_tables s).1 (x_tables s).2 (x_init s).1 (x_init s).2) set_x_desc m.

(** The registers the VMM reads. *)
Definition rdmsr (msr : Z) : M vmx_state Z := gets (fun s => w64 (x_msr s msr)).
(** The two halves of an MSR: low, high. *)
Definition read_msr (msr : Z) : M vmx_state (Z * Z) := v ← rdmsr msr; mret (w32 v, v / 2 ^ 32).
(** Writing the locked feature-control register is a protection fault. *)
Definition wrmsr_feature (v : Z) : M vmx_state unit :=
  s ← get;
  if Z.testbit (x_msr s MSR_IA32_FEATURE_CONTROL) 0 then stop_with (Fault "#GP: feature control is locked") else
  modify (fun s => set_x_regs (fun r => if r =? MSR_IA32_FEATURE_CONTROL then w64 v else x_msr s r) (x_cr0 s) (x_cr4 s) s).
Definition lcr0 (v : Z) : M vmx_state unit := modify (fun s => set_x_regs (x_msr s) v (x_cr4 s) s).
Definition lcr4 (v : Z) : M vmx_state unit := modify (fun s => set_x_regs (x_msr s) (x_cr0 s) v s).

(** ** Capabilities *)

(** [None] is -EIO. *)
Definition adjust_vmx_controls (ctl_min ctl_opt msr : Z) : M vmx_state (option Z) :=
  v ← read_msr msr;
  let ctl := Z.lor (Z.land (Z.lor ctl_min ctl_opt) v.2) v.1 in
  if negb (Z.ldiff ctl_min ctl =? 0) then mret None else mret (Some ctl).

Definition allow_1_setting (msr ctl : Z) : M vmx_state bool :=
  v ← read_msr msr; mret (negb (Z.land v.2 ctl =? 0)).

(** The rest of a function unless an adjustment failed. *)
Definition or_eio (m : M vmx_state (option Z)) (rest : Z -> M vmx_state Z) : M vmx_state Z :=
  r ← m; match r with None => mret (- EIO) | Some x => rest x end.

Definition has (w mask : Z) : bool := negb (Z.land w mask =? 0).

Definition setup_vmcs_config : M vmx_state Z :=
  or_eio (adjust_vmx_controls PIN_MIN PIN_OPT MSR_IA32_VMX_PINBASED_CTLS) (fun pin =>
  or_eio (adjust_vmx_controls CPU_MIN CPU_OPT MSR_IA32_VMX_PROCBASED_CTLS) (fun cpu =>
  let cpu := if has cpu CPU_BASED_TPR_SHADOW
             then Z.ldiff (Z.ldiff cpu CPU_BASED_CR8_LOAD_EXITING) CPU_BASED_CR8_STORE_EXITING else cpu in
  or_eio (if has cpu CPU_BASED_ACTIVATE_SECONDARY_CONTROLS
          then adjust_vmx_controls 0 CPU2_OPT MSR_IA32_VMX_PROCBASED_CTLS2 else mret (Some 0)) (fun cpu2 =>
  let cpu := if negb (has cpu2 SECONDARY_EXEC_VIRTUALIZE_APIC_ACCESSES)
             then Z.ldiff cpu CPU_BASED_TPR_SHADOW else cpu in
  let ept := has cpu2 SECONDARY_EXEC_ENABLE_EPT in
  let cpu := if (ept : bool)
             then Z.ldiff cpu (Z.lor CPU_BASED_CR3_LOAD_EXITING (Z.lor CPU_BASED_CR3_STORE_EXITING CPU_BASED_INVLPG_EXITING))
             else cpu in
  when ept (v ← read_msr MSR_IA32_VMX_EPT_VPID_CAP;
            modify (fun s => set_x_config (x_config s) (VmxCapability v.1 v.2 (vc_load_efer (x_cap s))) s)) ;;
  or_eio (adjust_vmx_controls VM_EXIT_HOST_ADDR_SPACE_SIZE 0 MSR_IA32_VMX_EXIT_CTLS) (fun vmexit =>
  or_eio (adjust_vmx_controls 0 0 MSR_IA32_VMX_ENTRY_CTLS) (fun vmentry =>
  basic ← read_msr MSR_IA32_VMX_BASIC;
  if _4KB_ <? Z.land basic.2 0x1fff then mret (- EIO) else
  if has basic.2 (2 ^ 16) then mret (- EIO) else
  if negb (Z.land (Z.shiftr basic.2 18) 15 =? 6) then mret (- EIO) else
  e1 ← allow_1_setting MSR_IA32_VMX_ENTRY_CTLS VM_ENTRY_LOAD_IA32_EFER;
  e2 ← allow_1_setting MSR_IA32_VMX_EXIT_CTLS VM_EXIT_LOAD_IA32_EFER;
  modify (fun s => set_x_config (VmcsConfig (Z.land basic.2 0x1fff) basic.1 pin cpu cpu2 vmexit vmentry)
                     (VmxCapability (vc_ept (x_cap s)) (vc_vpid (x_cap s)) (e1 && e2)) s) ;;
  mret 0))))).

Definition check_cpu_vmx_features : M vmx_state unit :=
  r ← setup_vmcs_config;
  if r <? 0 then panic "setup_vmcs_config failed!" else
  s ← get;
  if negb (has (cf_cpu_based_2nd (x_config s)) SECONDARY_EXEC_ENABLE_EPT) then panic "no ept" else
  if negb (has (cf_cpu_based (x_config s)) CPU_BASED_ACTIVATE_SECONDARY_CONTROLS) then panic "no secondary exec controls" else
  if negb (has (vc_ept (x_cap s)) VMX_EPT_EXTENT_GLOBAL_BIT) then panic "no invept global" else
  if negb (has (vc_vpid (x_cap s)) VMX_VPID_EXTENT_SINGLE_CONTEXT_BIT) then panic "no invpid single" else
  mret tt.

(** ** VMX operation *)

Definition enable_cr0 : M vmx_state unit := s ← get; lcr0 (Z.lor (x_cr0 s) (2 ^ 5)).

Definition msr_lock : M vmx_state unit :=
  s ← get;
  if has (x_cr4 s) X86_CR4_VMXE then panic "VMXE is already set!" else
  old ← rdmsr MSR_IA32_FEATURE_CONTROL;
  when (negb (Z.land old FEATURE_BITS =? FEATURE_BITS)) (wrmsr_feature (Z.lor old FEATURE_BITS)) ;;
  s ← get;
  lcr4 (Z.lor (x_cr4 s) X86_CR4_VMXE).

(** A region a VMX instruction accepts: page aligned, and with the
    processor's revision identifier where it is checked. *)
Definition region_ok (s : vmx_state) (p : Z) : bool :=
  (p mod 4096 =? 0) && (load32 (x_mem s) p =? w32 (x_msr s MSR_IA32_VMX_BASIC)).

(** VMXON: undefined without CR4.VMXE, a protection fault without CR0.NE or
    the feature; its failure flags are not looked at. *)
Definition __vmxon (vmxon_ptr : Z) : M vmx_state unit :=
  s ← get;
  if negb (has (x_cr4 s) X86_CR4_VMXE) then stop_with (Fault "#UD") else
  if negb (Z.testbit (x_cr0 s) 5) || negb (Z.land (x_msr s MSR_IA32_FEATURE_CONTROL) FEATURE_BITS =? FEATURE_BITS)
  then stop_with (Fault "#GP") else
  when (region_ok s vmxon_ptr) (modify (fun s => set_x_vmcs (Some vmxon_ptr) (x_vmcs s) None s)).

Definition vmxon (vmcs_ptr vmxon_ptr : Z) : M vmx_state unit :=
  id ← rdmsr MSR_IA32_VMX_BASIC;
  vmm_poke (fun m => memset m vmxon_ptr 0 4096) ;;
  vmm_poke (fun m => memset m vmcs_ptr 0 4096) ;;
  vmm_poke (fun m => store32 m vmxon_ptr id) ;;
  vmm_poke (fun m => store32 m (vmxon_ptr + 4) 0) ;;
  vmm_poke (fun m => store32 m vmcs_ptr id) ;;
  vmm_poke (fun m => store32 m (vmcs_ptr + 4) 0) ;;
  __vmxon vmxon_ptr.

Definition vmcs_at (s : vmx_state) (p : Z) : vmcs := default no_vmcs (x_vmcs s !! p).

(** VMCLEAR: the launch state becomes clear; the VMCS is no longer current. *)
Definition clear_vmcs (p : Z) : M vmx_state unit :=
  s ← get;
  match x_vmxon s with
  | None => stop_with (Fault "#UD")
  | Some region =>
      if negb (p mod 4096 =? 0) || (p =? region) then panic "vmclear fail" else
      modify (fun s => set_x_vmcs (x_vmxon s) (<[p := Vmcs false (vc_fields (vmcs_at s p))]> (x_vmcs s))
                (if decide (x_current s = Some p) then None else x_current s) s)
  end.

(** VMPTRLD *)
Definition load_vmcs (p : Z) : M vmx_state unit :=
  s ← get;
  match x_vmxon s with
  | None => stop_with (Fault "#UD")
  | Some region =>
      if negb (region_ok s p) || (p =? region) then panic "vmclear fail" else
      modify (fun s => set_x_vmcs (x_vmxon s) (x_vmcs s) (Some p) s)
  end.

(** The value of a field after a write: an odd encoding is the upper half of
    a 64-bit field. *)
Definition vmcs_put (f v : Z) (m : gmap Z Z) : gmap Z Z :=
  if Z.testbit f 0
  then <[f - 1 := default 0 (m !! (f - 1)) mod 2 ^ 32 + w32 v * 2 ^ 32]> m
  else <[f := v mod 2 ^ field_width f]> m.

Definition vmx_vmread (f : Z) : M vmx_state Z :=
  s ← get;
  match x_current s with
  | None => stop_with (Fault "vmread without a VMCS")
  | Some p => mret (default 0 (vc_fields (vmcs_at s p) !! f))
  end.
Definition vmx_vmwrite (f v : Z) : M vmx_state unit :=
  s ← get;
  match x_current s with
  | None => panic "Error executing VMXWRITE"
  | Some p =>
      if negb (x_has_field s f) then panic "Error executing VMXWRITE" else
      modify (fun s => set_x_vmcs (x_vmxon s)
        (<[p := Vmcs (vc_launched (vmcs_at s p)) (vmcs_put f v (vc_fields (vmcs_at s p)))]> (x_vmcs s)) (x_current s) s)
  end.

(** The encodings of the fields used (vmm/include/vmx.h). *)
Abbreviation HOST_ES_SELECTOR := 0x00000c00.
Abbreviation HOST_CS_SELECTOR := 0x00000c02.
Abbreviation HOST_SS_SELECTOR := 0x00000c04.
Abbreviation HOST_DS_SELECTOR := 0x00000c06.
Abbreviation HOST_FS_SELECTOR := 0x00000c08.
Abbreviation HOST_GS_SELECTOR := 0x00000c0a.
Abbreviation HOST_TR_SELECTOR := 0x00000c0c.
Abbreviation VMCS_LINK_POINTER := 0x00002800.
Abbreviation VMCS_LINK_POINTER_HIGH := 0x00002801.
Abbreviation PIN_BASED_VM_EXEC_CONTROL := 0x00004000.
Abbreviation CPU_BASED_VM_EXEC_CONTROL := 0x00004002.
Abbreviation SECONDARY_VM_EXEC_CONTROL := 0x0000401e.
Abbreviation VM_EXIT_CONTROLS := 0x0000400c.
Abbreviation VM_ENTRY_CONTROLS := 0x00004012.
Abbreviation VM_EXIT_MSR_STORE_COUNT := 0x0000400e.
Abbreviation VM_EXIT_MSR_LOAD_COUNT := 0x00004010.
Abbreviation VM_ENTRY_MSR_LOAD_COUNT := 0x00004014.
Abbreviation VM_ENTRY_INTR_INFO_FIELD := 0x00004016.
Abbreviation TSC_OFFSET := 0x00002010.
Abbreviation TSC_OFFSET_HIGH := 0x00002011.
Abbreviation PAGE_FAULT_ERROR_CODE_MASK := 0x00004006.
Abbreviation PAGE_FAULT_ERROR_CODE_MATCH := 0x00004008.
Abbreviation CR3_TARGET_COUNT := 0x0000400a.
Abbreviation CR3_TARGET_VALUE0 := 0x00006008.
Abbreviation CR3_TARGET_VALUE1 := 0x0000600a.
Abbreviation CR3_TARGET_VALUE2 := 0x0000600c.
Abbreviation CR3_TARGET_VALUE3 := 0x0000600e.
Abbreviation GUEST_ES_SELECTOR := 0x00000800.
Abbreviation GUEST_CS_SELECTOR := 0x00000802.
Abbreviation GUEST_SS_SELECTOR := 0x00000804.
Abbreviation GUEST_DS_SELECTOR := 0x00000806.
Abbreviation GUEST_FS_SELECTOR := 0x00000808.
Abbreviation GUEST_GS_SELECTOR := 0x0000080a.
Abbreviation GUEST_LDTR_SELECTOR := 0x0000080c.
Abbreviation GUEST_TR_SELECTOR := 0x0000080e.
Abbreviation GUEST_CS_LIMIT := 0x00004802.
Abbreviation GUEST_ES_LIMIT := 0x00004800.
Abbreviation GUEST_SS_LIMIT := 0x00004804.
Abbreviation GUEST_DS_LIMIT := 0x00004806.
Abbreviation GUEST_FS_LIMIT := 0x00004808.
Abbreviation GUEST_GS_LIMIT := 0x0000480a.
Abbreviation GUEST_LDTR_LIMIT := 0x0000480c.
Abbreviation GUEST_TR_LIMIT := 0x0000480e.
Abbreviation GUEST_GDTR_LIMIT := 0x00004810.
Abbreviation GUEST_IDTR_LIMIT := 0x00004812.
Abbreviation GUEST_DR7 := 0x0000681a.
Abbreviation GUEST_INTERRUPTIBILITY_INFO := 0x00004824.
Abbreviation GUEST_ACTIVITY_STATE := 0x00004826.
Abbreviation GUEST_CS_AR_BYTES := 0x00004816.
Abbreviation GUEST_ES_AR_BYTES := 0x00004814.
Abbreviation GUEST_SS_AR_BYTES := 0x00004818.
Abbreviation GUEST_DS_AR_BYTES := 0x0000481a.
Abbreviation GUEST_FS_AR_BYTES := 0x0000481c.
Abbreviation GUEST_GS_AR_BYTES := 0x0000481e.
Abbreviation GUEST_LDTR_AR_BYTES := 0x00004820.
Abbreviation GUEST_TR_AR_BYTES := 0x00004822.
Abbreviation GUEST_SYSENTER_CS := 0x0000482a.
Abbreviation GUEST_CR0 := 0x00006800.
Abbreviation GUEST_CR3 := 0x00006802.
Abbreviation GUEST_CR4 := 0x00006804.
Abbreviation GUEST_ES_BASE := 0x00006806.
Abbreviation GUEST_CS_BASE := 0x00006808.
Abbreviation GUEST_SS_BASE := 0x0000680a.
Abbreviation GUEST_DS_BASE := 0x0000680c.
Abbreviation GUEST_FS_BASE := 0x0000680e.
Abbreviation GUEST_GS_BASE := 0x00006810.
Abbreviation GUEST_LDTR_BASE := 0x00006812.
Abbreviation GUEST_TR_BASE := 0x00006814.
Abbreviation GUEST_GDTR_BASE := 0x00006816.
Abbreviation GUEST_IDTR_BASE := 0x00006818.
Abbreviation EPT_POINTER := 0x0000201a.
Abbreviation GUEST_RFLAGS := 0x00006820.
Abbreviation GUEST_SYSENTER_ESP := 0x00006824.
Abbreviation GUEST_SYSENTER_EIP := 0x00006826.
Abbreviation HOST_CR0 := 0x00006c00.
Abbreviation HOST_CR3 := 0x00006c02.
Abbreviation HOST_CR4 := 0x00006c04.
Abbreviation HOST_FS_BASE := 0x00006c06.
Abbreviation HOST_GS_BASE := 0x00006c08.
Abbreviation HOST_TR_BASE := 0x00006c0a.
Abbreviation HOST_GDTR_BASE := 0x00006c0c.
Abbreviation HOST_IDTR_BASE := 0x00006c0e.
Abbreviation GUEST_RSP := 0x0000681c.
Abbreviation GUEST_RIP := 0x0000681e.
Abbreviation HOST_RSP := 0x00006c14.
Abbreviation HOST_RIP := 0x00006c16.
Abbreviation VM_EXIT_REASON := 0x00004402.
Abbreviation GUEST_LINEAR_ADDRESS := 0x0000640a.
Abbreviation GUEST_PHYSICAL_ADDRESS := 0x00002400.
Abbreviation EXIT_QUALIFICATION := 0x00006400.

(** ** Setting up a VMCS *)

(** SGDT and SIDT: limit and base, packed. *)
Definition store_dtr (m : memory) (a : Z) (r : Z * Z) : memory := store64 (store 2 m a r.1) (a + 2) r.2.
Definition dr_base (m : memory) (a : Z) : Z := load64 m (a + 2).

(** The writes of [setup_vmcs], in their order; the values depend on registers
    and memory that the writes do not change.  [gdtr] and [idtr] are both null
    pointers: the hypervisor reads and writes address 0. *)
Definition setup_writes (s : vmx_state) : list (Z * Z) :=
  let msr r := w64 (x_msr s r) in
  let vm := my_vm s in
  [(HOST_ES_SELECTOR, w16 (x_seg s ES));
   (HOST_CS_SELECTOR, w16 (x_seg s CS));
   (HOST_SS_SELECTOR, w16 (x_seg s SS));
   (HOST_DS_SELECTOR, w16 (x_seg s DS));
   (HOST_FS_SELECTOR, w16 (x_seg s FS_));
   (HOST_GS_SELECTOR, w16 (x_seg s GS));
   (HOST_TR_SELECTOR, 0x18);
   (VMCS_LINK_POINTER, 0xffffffff);
   (VMCS_LINK_POINTER_HIGH, 0xffffffff);
   (PIN_BASED_VM_EXEC_CONTROL, w32 (msr MSR_IA32_VMX_PINBASED_CTLS));
   (CPU_BASED_VM_EXEC_CONTROL, Z.lor (w32 (msr MSR_IA32_VMX_PROCBASED_CTLS)) (w64 (- 2 ^ 31)));
   (SECONDARY_VM_EXEC_CONTROL, Z.lor (Z.lor (w32 (msr MSR_IA32_VMX_PROCBASED_CTLS2)) (2 ^ 1)) (2 ^ 3));
   (VM_EXIT_CONTROLS, Z.lor (w32 (msr MSR_IA32_VMX_EXIT_CTLS)) (2 ^ 9));
   (VM_ENTRY_CONTROLS, Z.lor (w32 (msr MSR_IA32_VMX_ENTRY_CTLS)) (2 ^ 9));
   (VM_EXIT_MSR_STORE_COUNT, 0);
   (VM_EXIT_MSR_LOAD_COUNT, 0);
   (VM_ENTRY_MSR_LOAD_COUNT, 0);
   (VM_ENTRY_INTR_INFO_FIELD, 0);
   (TSC_OFFSET, 0);
   (TSC_OFFSET_HIGH, 0);
   (PAGE_FAULT_ERROR_CODE_MASK, 0);
   (PAGE_FAULT_ERROR_CODE_MATCH, 0);
   (CR3_TARGET_COUNT, 0);
   (CR3_TARGET_VALUE0, 0);
   (CR3_TARGET_VALUE1, 0);
   (CR3_TARGET_VALUE2, 0);
   (CR3_TARGET_VALUE3, 0);
   (GUEST_ES_SELECTOR, w16 (x_seg s ES));
   (GUEST_CS_SELECTOR, w16 (x_seg s CS));
   (GUEST_SS_SELECTOR, w16 (x_seg s SS));
   (GUEST_DS_SELECTOR, w16 (x_seg s DS));
   (GUEST_FS_SELECTOR, w16 (x_seg s FS_));
   (GUEST_GS_SELECTOR, w16 (x_seg s GS));
   (GUEST_LDTR_SELECTOR, w16 (x_seg s LDTR));
   (GUEST_TR_SELECTOR, 0x18);
   (GUEST_CS_LIMIT, 0xffffffff);
   (GUEST_ES_LIMIT, 0xffffffff);
   (GUEST_SS_LIMIT, 0xffffffff);
   (GUEST_DS_LIMIT, 0xffffffff);
   (GUEST_FS_LIMIT, 0xffffffff);
   (GUEST_GS_LIMIT, 0xffffffff);
   (GUEST_LDTR_LIMIT, 0xffff);
   (GUEST_TR_LIMIT, 0xff);
   (GUEST_GDTR_LIMIT, 0);
   (GUEST_IDTR_LIMIT, 0);
   (GUEST_DR7, 0);
   (GUEST_INTERRUPTIBILITY_INFO, 0);
   (GUEST_ACTIVITY_STATE, 0);
   (GUEST_CS_AR_BYTES, 0xa09b);
   (GUEST_ES_AR_BYTES, 0xa093);
   (GUEST_SS_AR_BYTES, 0xa093);
   (GUEST_DS_AR_BYTES, 0xa093);
   (GUEST_FS_AR_BYTES, 0xa093);
   (GUEST_GS_AR_BYTES, 0xa093);
   (GUEST_LDTR_AR_BYTES, 0x00010000);
   (GUEST_TR_AR_BYTES, 0x8b);
   (GUEST_SYSENTER_CS, msr MSR_IA32_SYSENTER_CS);
   (GUEST_CR0, x_cr0 s);
   (GUEST_CR3, vm_page_tables vm);
   (GUEST_CR4, x_cr4 s);
   (GUEST_ES_BASE, 0);
   (GUEST_CS_BASE, 0);
   (GUEST_SS_BASE, 0);
   (GUEST_DS_BASE, 0);
   (GUEST_FS_BASE, 0);
   (GUEST_GS_BASE, 0);
   (GUEST_LDTR_BASE, 0);
   (GUEST_TR_BASE, 0);
   (GUEST_GDTR_BASE, 0);
   (GUEST_IDTR_BASE, 0);
   (EPT_POINTER, Z.ldiff (Z.lor (Z.lor (vm_ept vm) 0x6) (3 * 2 ^ 3)) (2 ^ 6));
   (GUEST_RFLAGS, rg_rflags (vm_regs vm));
   (GUEST_SYSENTER_ESP, msr MSR_IA32_SYSENTER_ESP);
   (GUEST_SYSENTER_EIP, msr MSR_IA32_SYSENTER_EIP);
   (HOST_CR0, x_cr0 s);
   (HOST_CR3, x_cr3 s);
   (HOST_CR4, x_cr4 s);
   (HOST_FS_BASE, 0);
   (HOST_GS_BASE, 0);
   (HOST_TR_BASE, 0);
   (HOST_GDTR_BASE, dr_base (x_mem s) 0);
   (HOST_IDTR_BASE, dr_base (x_mem s) 0);
   (GUEST_RSP, rg_rsp (vm_regs vm));
   (GUEST_RIP, rg_rip (vm_regs vm));
   (HOST_RSP, x_vmm_rsp s);
   (HOST_RIP, x_host_entry s)].

Definition setup_vmcs : M vmx_state unit :=
  s ← get;
  vmm_poke (fun m => store_dtr m 0 (x_gdtr s)) ;;
  vmm_poke (fun m => store_dtr m 0 (x_idtr s)) ;;
  s ← get;
  forM (setup_writes s) (fun w => vmx_vmwrite w.1 w.2).

(** ** Entering the guest *)

(** The general registers loaded from [vm_info.vm_regs], in the order of the
    instructions; the stack pointer comes from the VMCS. *)
Definition guest_gprs (r : regs) : list Z :=
  [rg_rax r; rg_rbx r; rg_rcx r; rg_rdx r; rg_rsi r; rg_rbp r; rg_r8 r; rg_r9 r; rg_r10 r; rg_r11 r;
   rg_r12 r; rg_r13 r; rg_r14 r; rg_r15 r; rg_rdi r].

(** A control word is legal when it has every bit the low half of its
    capability MSR requires and none the high half does not allow. *)
Definition ctl_legal (v c : Z) : bool := (Z.ldiff (w32 v) c =? 0) && (Z.ldiff c (v / 2 ^ 32) =? 0).
Definition controls_legal (s : vmx_state) (fields : gmap Z Z) : bool :=
  let c f := default 0 (fields !! f) in
  let msr r := w64 (x_msr s r) in
  ctl_legal (msr MSR_IA32_VMX_PINBASED_CTLS) (c PIN_BASED_VM_EXEC_CONTROL) &&
  ctl_legal (msr MSR_IA32_VMX_PROCBASED_CTLS) (c CPU_BASED_VM_EXEC_CONTROL) &&
  (negb (Z.testbit (c CPU_BASED_VM_EXEC_CONTROL) 31) ||
   ctl_legal (msr MSR_IA32_VMX_PROCBASED_CTLS2) (c SECONDARY_VM_EXEC_CONTROL)) &&
  ctl_legal (msr MSR_IA32_VMX_EXIT_CTLS) (c VM_EXIT_CONTROLS) &&
  ctl_legal (msr MSR_IA32_VMX_ENTRY_CTLS) (c VM_ENTRY_CONTROLS).

(** VMLAUNCH needs a clear VMCS, VMRESUME a launched one, both legal controls;
    otherwise the instruction fails and execution goes on behind it ([None]).
    [Some] is the guest running with these registers. *)
Definition vmenter (launch : bool) : M vmx_state (option (list Z)) :=
  s ← get;
  match x_current s with
  | None => mret None
  | Some p =>
      let c := vmcs_at s p in
      if Bool.eqb (vc_launched c) launch || negb (controls_legal s (vc_fields c)) then mret None else
      if negb (x_entry_ok s (vc_fields c)) then stop_with (Fault "VM entry checks") else
      modify (fun s => set_x_vmcs (x_vmxon s) (<[p := Vmcs true (vc_fields c)]> (x_vmcs s)) (x_current s) s) ;;
      mret (Some (guest_gprs (vm_regs (my_vm s))))
  end.
Definition vmresume : M vmx_state (option (list Z)) := vmenter false.
Definition vmlaunch : M vmx_state (option (list Z)) := vmenter true.

(** Waiting for the process manager, which has changed this CPU's
    [struct cpu_info] before it sends its message. *)
Definition wait_pm : M vmx_state unit :=
  vmm_machine (msg_receive PM) ;;
  s ← get;
  match x_pm s with
  | [] => mret tt
  | f :: rest =>
      modify (set_x_pm rest) ;;
      vmm_machine (update_cpu (m_self (x_m s)) f)
  end.

(** Where the guest's exits arrive.  What is printed before the CPU stops is
    not kept. *)
Definition host_entry : M vmx_state (list Z) :=
  reason ← vmx_vmread VM_EXIT_REASON;
  if reason =? 18 then
    wait_pm ;;
    s ← get;
    let r := load_int (x_mem s) (msg_data (inbox (x_m s) PM)) in
    when (negb (r =? -1)) (clear_vmcs (x_vmcs_ptr s)) ;;
    load_vmcs (x_vmcs_ptr s) ;;
    setup_vmcs ;;
    e ← (if r =? -1 then vmresume else vmlaunch);
    of_option (Fault "return from host_entry") e
  else if reason =? 48 then
    vmx_vmread GUEST_LINEAR_ADDRESS ;;
    vmx_vmread GUEST_PHYSICAL_ADDRESS ;;
    vmx_vmread GUEST_RIP ;;
    vmx_vmread EXIT_QUALIFICATION ;;
    vmx_vmread EPT_POINTER ;;
    stop_with Halt
  else stop_with Diverge.

Definition vmx_init : M vmx_state (list Z) :=
  check_cpu_vmx_features ;;
  enable_cr0 ;;
  msr_lock ;;
  s ← get;
  vmxon (x_vmcs_ptr s) (x_vmxon_ptr s) ;;
  clear_vmcs (x_vmcs_ptr s) ;;
  load_vmcs (x_vmcs_ptr s) ;;
  setup_vmcs ;;
  e ← vmlaunch;
  of_option (Panic "We MUST NEVER get here.") e.

(** ** The hypervisor's main function *)

Definition check_lapic_id : M vmx_state unit :=
  s ← get;
  if negb (cpuid (self (x_m s)) =? x_lapic_id s) then panic "Cpuid is different from lapic_id" else
  if negb (x_real_id s =? x_lapic_id s) then panic "Real lapic ID is different from the one in cpuinfo" else
  mret tt.

Definition vmm_main (sym : entry_point -> Z) : M vmx_state (list Z) :=
  on_tables create_default_gdt ;;
  on_tables (interrupt_init sym) ;;
  modify (set_x_ready true) ;;
  s ← get;
  when (negb (cpuid (self (x_m s)) =? PM)) wait_pm ;;
  s ← get;
  when (negb (vmm_has_vm (self (x_m s)))) wait_pm ;;
  check_lapic_id ;;
  vmx_init.
