(* ===== verification/VmmSpec.v ===== *)
(** * Correctness of the hypervisor

    What the feature check guarantees about the processor, what the VMCS
    holds when the guest runs, and that every exit the hypervisor serves ends
    with the guest running again, by the instruction the VMCS is ready for. *)

From S2P Require Import Prelude PhysMem MemMgr CpuInfo Ipc IpcSpec Descriptors DescriptorsSpec ApicSpec Vmm.

(** ** Bits *)

Lemma has_bit w k : 0 <= k -> has w (2 ^ k) = Z.testbit w k.
Proof.
  intros Hk. unfold has. destruct (Z.testbit w k) eqn:E.
  - apply negb_true_iff, Z.eqb_neq. intros H. assert (Z.testbit (Z.land w (2 ^ k)) k = true) as Ht; [|by rewrite H, Z.bits_0 in Ht].
    by rewrite Z.land_spec, E, Z.pow2_bits_true.
  - apply negb_false_iff, Z.eqb_eq, Z.bits_inj'. intros n Hn. rewrite Z.land_spec, Z.bits_0, Z.pow2_bits_eqb by done.
    destruct (Z.eqb_spec k n) as [<-|]; [by rewrite E | by rewrite andb_false_r].
Qed.

Lemma ldiff_zero a b : Z.ldiff a b = 0 <-> forall n, 0 <= n -> Z.testbit a n = true -> Z.testbit b n = true.
Proof.
  split.
  - intros H n Hn Ha. assert (Hl : Z.testbit (Z.ldiff a b) n = false) by (by rewrite H, Z.bits_0).
    rewrite Z.ldiff_spec, Ha in Hl. by destruct (Z.testbit b n).
  - intros H. apply Z.bits_inj'. intros n Hn. rewrite Z.ldiff_spec, Z.bits_0. destruct (Z.testbit a n) eqn:E; [|done]. by rewrite H.
Qed.

(** ** Adjusting controls *)

(** The two halves of a capability MSR. *)
Definition low (v : Z) : Z := w32 v.
Definition high (v : Z) : Z := v / 2 ^ 32.
Definition ctl_of (s : vmx_state) (msr : Z) : Z := w64 (x_msr s msr).

(** [adjust_vmx_controls] reports an error exactly when the processor
    neither allows nor forces some bit of [ctl_min]; otherwise its result has
    every bit of [ctl_min], every bit the processor forces, and beyond those
    exactly the bits of [ctl_opt] the processor allows. *)
Theorem adjust_vmx_controls_correct min opt msr s :
  0 <= min -> 0 <= opt ->
  let v := ctl_of s msr in
  exists r, adjust_vmx_controls min opt msr s = Ok r s /\
    match r with
    | None => exists n, 0 <= n /\ Z.testbit min n = true /\ Z.testbit (low v) n = false /\ Z.testbit (high v) n = false
    | Some c => forall n, 0 <= n ->
        (Z.testbit min n = true -> Z.testbit c n = true) /\ (Z.testbit (low v) n = true -> Z.testbit c n = true) /\
        (Z.testbit c n = true -> Z.testbit (low v) n = true \/
           (Z.testbit (high v) n = true /\ (Z.testbit min n = true \/ Z.testbit opt n = true)))
    end.
Proof.
  intros Hm Ho v. unfold adjust_vmx_controls. erewrite bind_step by reflexivity. cbn [fst snd].
  fold (low v) (high v). change (w64 (x_msr s msr)) with v. fold (low v) (high v). set (c := Z.lor (Z.land (Z.lor min opt) (high v)) (low v)).
  destruct (Z.eqb_spec (Z.ldiff min c) 0) as [E|E]; cbn [negb]; eexists; (split; [reflexivity |]).
  - intros n Hn. split_and!.
    + by apply ldiff_zero.
    + intros Hl. unfold c. by rewrite Z.lor_spec, Hl, orb_true_r.
    + unfold c. rewrite Z.lor_spec, Z.land_spec, Z.lor_spec. intros [[[?|?]%orb_true_iff ?]%andb_true_iff|?]%orb_true_iff; auto.
  - pose proof (ldiff_bound min c Hm) as [Hl _]. exists (Z.log2 (Z.ldiff min c)). split; [apply Z.log2_nonneg |].
    pose proof (Z.bit_log2 (Z.ldiff min c) ltac:(lia)) as Hb. rewrite Z.ldiff_spec in Hb. apply andb_true_iff in Hb as [H1 H2].
    remember (Z.log2 (Z.ldiff min c)) as k eqn:Hk. clear Hk. unfold c in H2. rewrite Z.lor_spec, Z.land_spec, Z.lor_spec, H1 in H2. cbn [orb andb] in H2.
    apply negb_true_iff, orb_false_iff in H2 as [H2 H3]. done.
Qed.

(** What it computes, for the functions that use it. *)
Definition adjusted (min opt v : Z) : option Z :=
  let c := Z.lor (Z.land (Z.lor min opt) (high v)) (low v) in
  if Z.ldiff min c =? 0 then Some c else None.

Lemma adjust_run min opt msr s : adjust_vmx_controls min opt msr s = Ok (adjusted min opt (ctl_of s msr)) s.
Proof.
  unfold adjust_vmx_controls, adjusted. erewrite bind_step by reflexivity. cbn [fst snd].
  change (w64 (x_msr s msr)) with (ctl_of s msr). fold (low (ctl_of s msr)) (high (ctl_of s msr)). by destruct (_ =? 0).
Qed.

(** A bit is available when the processor allows or forces it. *)
Definition available (v n : Z) : bool := Z.testbit (high v) n || Z.testbit (low v) n.
Definition all_available (v min : Z) : Prop := Z.ldiff min (Z.lor (high v) (low v)) = 0.

Lemma adjusted_some min opt v :
  all_available v min <-> exists c, adjusted min opt v = Some c.
Proof.
  unfold all_available, adjusted. set (c := Z.lor (Z.land (Z.lor min opt) (high v)) (low v)).
  assert (H : Z.ldiff min (Z.lor (high v) (low v)) = Z.ldiff min c).
  { apply Z.bits_inj'. intros n Hn. unfold c. rewrite !Z.ldiff_spec, !Z.lor_spec, Z.land_spec, Z.lor_spec.
    by destruct (Z.testbit min n), (Z.testbit opt n), (Z.testbit (high v) n), (Z.testbit (low v) n). }
  rewrite H. destruct (Z.eqb_spec (Z.ldiff min c) 0); split; intros Hx; [by eexists | done | done | by destruct Hx].
Qed.

Lemma adjusted_bit min opt v c n :
  adjusted min opt v = Some c -> 0 <= n -> Z.testbit (Z.lor min opt) n = true -> Z.testbit c n = available v n.
Proof.
  unfold adjusted. destruct (_ =? 0); [|done]. intros [= <-] Hn Hb. rewrite Z.lor_spec, Z.land_spec, Hb. done.
Qed.

(** ** The feature check *)

(** What the processor must offer. *)
Record capable (s : vmx_state) : Prop := {
  cp_pin : all_available (ctl_of s MSR_IA32_VMX_PINBASED_CTLS) PIN_MIN;
  cp_cpu : all_available (ctl_of s MSR_IA32_VMX_PROCBASED_CTLS) CPU_MIN;
  cp_secondary : available (ctl_of s MSR_IA32_VMX_PROCBASED_CTLS) 31 = true;
  cp_ept : available (ctl_of s MSR_IA32_VMX_PROCBASED_CTLS2) 1 = true;
  cp_exit : available (ctl_of s MSR_IA32_VMX_EXIT_CTLS) 9 = true;
  cp_size : Z.land (high (ctl_of s MSR_IA32_VMX_BASIC)) 0x1fff <= 4096;
  cp_wide : Z.testbit (high (ctl_of s MSR_IA32_VMX_BASIC)) 16 = false;
  cp_type : Z.land (Z.shiftr (high (ctl_of s MSR_IA32_VMX_BASIC)) 18) 15 = 6;
  cp_invept : Z.testbit (low (ctl_of s MSR_IA32_VMX_EPT_VPID_CAP)) 26 = true;
  cp_invvpid : Z.testbit (high (ctl_of s MSR_IA32_VMX_EPT_VPID_CAP)) 9 = true
}.

(** The words [setup_vmcs_config] computes. *)
Definition config_cpu (cpu : Z) : Z :=
  if has cpu CPU_BASED_TPR_SHADOW then Z.ldiff (Z.ldiff cpu CPU_BASED_CR8_LOAD_EXITING) CPU_BASED_CR8_STORE_EXITING else cpu.

Lemma config_cpu_31 cpu : has (config_cpu cpu) CPU_BASED_ACTIVATE_SECONDARY_CONTROLS = Z.testbit cpu 31.
Proof.
  change CPU_BASED_ACTIVATE_SECONDARY_CONTROLS with (2 ^ 31). rewrite has_bit by done. unfold config_cpu.
  destruct (has cpu CPU_BASED_TPR_SHADOW); [|done]. rewrite !Z.ldiff_spec. change (Z.testbit CPU_BASED_CR8_LOAD_EXITING 31) with false.
  change (Z.testbit CPU_BASED_CR8_STORE_EXITING 31) with false. by rewrite !andb_true_r.
Qed.

Definition config_ok (s : vmx_state) : Prop :=
  all_available (ctl_of s MSR_IA32_VMX_PINBASED_CTLS) PIN_MIN /\
  all_available (ctl_of s MSR_IA32_VMX_PROCBASED_CTLS) CPU_MIN /\
  all_available (ctl_of s MSR_IA32_VMX_EXIT_CTLS) VM_EXIT_HOST_ADDR_SPACE_SIZE /\
  Z.land (high (ctl_of s MSR_IA32_VMX_BASIC)) 0x1fff <= 4096 /\
  Z.testbit (high (ctl_of s MSR_IA32_VMX_BASIC)) 16 = false /\
  Z.land (Z.shiftr (high (ctl_of s MSR_IA32_VMX_BASIC)) 18) 15 = 6.

(** What the configuration tells when it succeeds. *)
Record configured (s : vmx_state) (c : vmcs_config) (cap : vmx_capability) : Prop := {
  cg_secondary : Z.testbit (cf_cpu_based c) 31 = available (ctl_of s MSR_IA32_VMX_PROCBASED_CTLS) 31;
  cg_ept : Z.testbit (cf_cpu_based_2nd c) 1 =
    available (ctl_of s MSR_IA32_VMX_PROCBASED_CTLS) 31 && available (ctl_of s MSR_IA32_VMX_PROCBASED_CTLS2) 1;
  cg_cap : Z.testbit (cf_cpu_based_2nd c) 1 = true ->
    vc_ept cap = low (ctl_of s MSR_IA32_VMX_EPT_VPID_CAP) /\ vc_vpid cap = high (ctl_of s MSR_IA32_VMX_EPT_VPID_CAP)
}.

Lemma or_eio_some m rest s c s1 : m s = Ok (Some c) s1 -> or_eio m rest s = rest c s1.
Proof. intros H. unfold or_eio. by erewrite bind_step by exact H. Qed.
Lemma or_eio_none m rest s s1 : m s = Ok None s1 -> or_eio m rest s = Ok (- EIO) s1.
Proof. intros H. unfold or_eio. by erewrite bind_step by exact H. Qed.

(** The last part of the configuration, from the exit controls on. *)
Definition config_tail (pin cpu cpu2 : Z) : M vmx_state Z :=
  or_eio (adjust_vmx_controls VM_EXIT_HOST_ADDR_SPACE_SIZE 0 MSR_IA32_VMX_EXIT_CTLS) (fun vmexit =>
  or_eio (adjust_vmx_controls 0 0 MSR_IA32_VMX_ENTRY_CTLS) (fun vmentry =>
  basic ← read_msr MSR_IA32_VMX_BASIC;
  if _4KB_ <? Z.land basic.2 0x1fff then mret (- EIO) else
  if has basic.2 (2 ^ 16) then mret (- EIO) else
  if negb (Z.land (Z.shiftr basic.2 18) 15 =? 6) then mret (- EIO) else
  e1 ← allow_1_setting MSR_IA32_VMX_ENTRY_CTLS VM_ENTRY_LOAD_IA32_EFER;
  e2 ← allow_1_setting MSR_IA32_VMX_EXIT_CTLS VM_EXIT_LOAD_IA32_EFER;
  modify (fun s => set_x_config (VmcsConfig (Z.land basic.2 0x1fff) basic.1 pin cpu cpu2 vmexit vmentry)
                     (VmxCapability (vc_ept (x_cap s)) (vc_vpid (x_cap s)) (e1 && e2)) s) ;;
  mret 0)).

Definition tail_ok (s : vmx_state) : Prop :=
  all_available (ctl_of s MSR_IA32_VMX_EXIT_CTLS) VM_EXIT_HOST_ADDR_SPACE_SIZE /\
  Z.land (high (ctl_of s MSR_IA32_VMX_BASIC)) 0x1fff <= 4096 /\
  Z.testbit (high (ctl_of s MSR_IA32_VMX_BASIC)) 16 = false /\
  Z.land (Z.shiftr (high (ctl_of s MSR_IA32_VMX_BASIC)) 18) 15 = 6.

Lemma config_tail_run pin cpu cpu2 s :
  (tail_ok s /\ exists c cap, config_tail pin cpu cpu2 s = Ok 0 (set_x_config c cap s) /\
     cf_cpu_based c = cpu /\ cf_cpu_based_2nd c = cpu2 /\ vc_ept cap = vc_ept (x_cap s) /\ vc_vpid cap = vc_vpid (x_cap s)) \/
  (~ tail_ok s /\ config_tail pin cpu cpu2 s = Ok (- EIO) s).
Proof.
  unfold config_tail, tail_ok. destruct (adjusted VM_EXIT_HOST_ADDR_SPACE_SIZE 0 (ctl_of s MSR_IA32_VMX_EXIT_CTLS)) as [ex|] eqn:Eex.
  2: { right. split; [intros (H & _); apply (adjusted_some _ 0) in H as (? & ?); congruence |]. apply or_eio_none. by rewrite adjust_run, Eex. }
  erewrite or_eio_some by (rewrite adjust_run, Eex; reflexivity).
  destruct (proj1 (adjusted_some 0 0 (ctl_of s MSR_IA32_VMX_ENTRY_CTLS))) as (en & Een); [reflexivity |].
  erewrite or_eio_some by (rewrite adjust_run, Een; reflexivity). erewrite bind_step by reflexivity. cbn [fst snd].
  change (w64 (x_msr s MSR_IA32_VMX_BASIC) / 2 ^ 32) with (high (ctl_of s MSR_IA32_VMX_BASIC)). set (hb := high (ctl_of s MSR_IA32_VMX_BASIC)).
  rewrite has_bit by done. destruct (Z.ltb_spec 4096 (Z.land hb 0x1fff)); [right; split; [lia | done] |].
  destruct (Z.testbit hb 16); [right; split; [by intros (_ & _ & ? & _) | done] |].
  destruct (Z.eqb_spec (Z.land (Z.shiftr hb 18) 15) 6); cbn [negb]; [|right; split; [by intros (_ & _ & _ & ?) | done]].
  left. split; [|by eexists _, _]. split_and!; try done. apply (adjusted_some _ 0). by exists ex.
Qed.

(** The primary controls as the configuration keeps them. *)
Definition config_cpu_final (cpu cpu2 : Z) : Z :=
  let cpu := if negb (has cpu2 SECONDARY_EXEC_VIRTUALIZE_APIC_ACCESSES) then Z.ldiff cpu CPU_BASED_TPR_SHADOW else cpu in
  if has cpu2 SECONDARY_EXEC_ENABLE_EPT
  then Z.ldiff cpu (Z.lor CPU_BASED_CR3_LOAD_EXITING (Z.lor CPU_BASED_CR3_STORE_EXITING CPU_BASED_INVLPG_EXITING)) else cpu.

Lemma config_cpu_final_31 cpu cpu2 : Z.testbit (config_cpu_final (config_cpu cpu) cpu2) 31 = Z.testbit cpu 31.
Proof.
  unfold config_cpu_final, config_cpu. destruct (has cpu2 SECONDARY_EXEC_ENABLE_EPT), (has cpu2 _), (has cpu _); cbn [negb]; rewrite ?Z.ldiff_spec;
    repeat match goal with |- context [Z.testbit ?x 31] => is_ground x; change (Z.testbit x 31) with false end; by rewrite ?andb_true_r.
Qed.

Lemma secondary_run (b : bool) s :
  exists cpu2, (if b then adjust_vmx_controls 0 CPU2_OPT MSR_IA32_VMX_PROCBASED_CTLS2 else mret (Some 0)) s = Ok (Some cpu2) s /\
    Z.testbit cpu2 1 = b && available (ctl_of s MSR_IA32_VMX_PROCBASED_CTLS2) 1.
Proof.
  destruct b; [|by exists 0]. destruct (proj1 (adjusted_some 0 CPU2_OPT (ctl_of s MSR_IA32_VMX_PROCBASED_CTLS2))) as (c2 & E2); [reflexivity |].
  exists c2. rewrite adjust_run, E2. split; [done |]. by eapply adjusted_bit.
Qed.

Lemma capability_run (b : bool) s :
  exists cap, when b (v ← read_msr MSR_IA32_VMX_EPT_VPID_CAP;
      modify (fun s => set_x_config (x_config s) (VmxCapability v.1 v.2 (vc_load_efer (x_cap s))) s)) s = Ok tt (set_x_config (x_config s) cap s) /\
    (b = true -> vc_ept cap = low (ctl_of s MSR_IA32_VMX_EPT_VPID_CAP) /\ vc_vpid cap = high (ctl_of s MSR_IA32_VMX_EPT_VPID_CAP)).
Proof.
  destruct b; [eexists; split; [reflexivity | done] |].
  exists (x_cap s). split; [by destruct s | done].
Qed.

Lemma setup_config_run s :
  (config_ok s /\ exists c cap, setup_vmcs_config s = Ok 0 (set_x_config c cap s) /\ configured s c cap) \/
  (~ config_ok s /\ exists c cap, setup_vmcs_config s = Ok (- EIO) (set_x_config c cap s)).
Proof.
  assert (Hsame : set_x_config (x_config s) (x_cap s) s = s) by (by destruct s).
  unfold setup_vmcs_config, config_ok. destruct (adjusted PIN_MIN PIN_OPT (ctl_of s MSR_IA32_VMX_PINBASED_CTLS)) as [pin|] eqn:Ep.
  2: { right. split; [intros (H & _); apply (adjusted_some _ PIN_OPT) in H as (? & ?); congruence |]. eexists _, _. rewrite Hsame.
       apply or_eio_none. by rewrite adjust_run, Ep. }
  erewrite or_eio_some by (rewrite adjust_run, Ep; reflexivity).
  destruct (adjusted CPU_MIN CPU_OPT (ctl_of s MSR_IA32_VMX_PROCBASED_CTLS)) as [cpu|] eqn:Ec.
  2: { right. split; [intros (_ & H & _); apply (adjusted_some _ CPU_OPT) in H as (? & ?); congruence |]. eexists _, _. rewrite Hsame.
       apply or_eio_none. by rewrite adjust_run, Ec. }
  erewrite or_eio_some by (rewrite adjust_run, Ec; reflexivity). cbv zeta. fold (config_cpu cpu). rewrite config_cpu_31.
  assert (H31 : Z.testbit cpu 31 = available (ctl_of s MSR_IA32_VMX_PROCBASED_CTLS) 31) by (by eapply adjusted_bit).
  destruct (secondary_run (Z.testbit cpu 31) s) as (cpu2 & E2 & H1). erewrite or_eio_some by exact E2.
  destruct (capability_run (has cpu2 SECONDARY_EXEC_ENABLE_EPT) s) as (cap & Ecap & Hcap). erewrite bind_step by exact Ecap.
  fold (config_cpu_final (config_cpu cpu) cpu2). fold (config_tail pin (config_cpu_final (config_cpu cpu) cpu2) cpu2).
  change SECONDARY_EXEC_ENABLE_EPT with (2 ^ 1) in Hcap. rewrite has_bit in Hcap by done.
  destruct (config_tail_run pin (config_cpu_final (config_cpu cpu) cpu2) cpu2 (set_x_config (x_config s) cap s))
    as [(Hok & c & cap' & Hrun & C1 & C2 & C3 & C4)|(Hno & Hrun)].
  - left. split.
    + split; [apply (adjusted_some _ PIN_OPT); by eexists |]. split; [apply (adjusted_some _ CPU_OPT); by eexists | exact Hok].
    + exists c, cap'. split; [exact Hrun |]. split.
      * by rewrite C1, config_cpu_final_31.
      * by rewrite C2, H1, H31.
      * rewrite C2, C3, C4. exact Hcap.
  - right. split; [by intros (_ & _ & ?) |]. eexists _, _. exact Hrun.
Qed.

Lemma capable_config s :
  capable s <-> config_ok s /\ available (ctl_of s MSR_IA32_VMX_PROCBASED_CTLS) 31 = true /\ available (ctl_of s MSR_IA32_VMX_PROCBASED_CTLS2) 1 = true /\
    Z.testbit (low (ctl_of s MSR_IA32_VMX_EPT_VPID_CAP)) 26 = true /\ Z.testbit (high (ctl_of s MSR_IA32_VMX_EPT_VPID_CAP)) 9 = true.
Proof.
  assert (H9 : all_available (ctl_of s MSR_IA32_VMX_EXIT_CTLS) VM_EXIT_HOST_ADDR_SPACE_SIZE <-> available (ctl_of s MSR_IA32_VMX_EXIT_CTLS) 9 = true).
  { unfold all_available, available. rewrite ldiff_zero. change VM_EXIT_HOST_ADDR_SPACE_SIZE with (2 ^ 9). split.
    - intros H. rewrite <-Z.lor_spec. apply H; [done |]. by rewrite Z.pow2_bits_true.
    - intros H n Hn. rewrite Z.pow2_bits_eqb by done. intros <-%Z.eqb_eq. by rewrite Z.lor_spec. }
  unfold config_ok. rewrite H9. split.
  - intros []. tauto.
  - intros ((? & ? & ? & ? & ? & ?) & ? & ? & ? & ?). by split.
Qed.

Lemma check_features_run s :
  (capable s -> exists c cap, check_cpu_vmx_features s = Ok tt (set_x_config c cap s)) /\
  (~ capable s -> exists why, check_cpu_vmx_features s = Stop (Panic why)).
Proof.
  assert (Hrun : (capable s /\ exists c cap, check_cpu_vmx_features s = Ok tt (set_x_config c cap s)) \/
    (~ capable s /\ exists why, check_cpu_vmx_features s = Stop (Panic why))); [|naive_solver].
  rewrite capable_config. unfold check_cpu_vmx_features. destruct (setup_config_run s) as [(Hok & c & cap & Hr & [G1 G2 G3])|(Hno & c & cap & Hr)].
  2: { right. split; [by intros (? & _) |]. erewrite bind_step by exact Hr. by eexists. }
  erewrite bind_step by exact Hr. cbn [Z.ltb Z.compare]. erewrite bind_step by reflexivity. cbn [x_config x_cap set_x_config].
  change SECONDARY_EXEC_ENABLE_EPT with (2 ^ 1). change CPU_BASED_ACTIVATE_SECONDARY_CONTROLS with (2 ^ 31).
  change VMX_EPT_EXTENT_GLOBAL_BIT with (2 ^ 26). change VMX_VPID_EXTENT_SINGLE_CONTEXT_BIT with (2 ^ 9). rewrite !has_bit by done.
  destruct (Z.testbit (cf_cpu_based_2nd c) 1) eqn:E1; cbn [negb].
  2: { right. split; [|by eexists]. intros (_ & H31 & H1 & _). rewrite H31, H1 in G2. done. }
  destruct (G3 eq_refl) as [-> ->]. symmetry in G2. apply andb_true_iff in G2 as [H31 H1]. rewrite G1, H31. cbn [negb].
  destruct (Z.testbit (low _) 26) eqn:E26; cbn [negb]; [|right; split; [by intros (_ & _ & _ & ? & _) | by eexists]].
  destruct (Z.testbit (high _) 9) eqn:E9; cbn [negb]; [|right; split; [by intros (_ & _ & _ & _ & ?) | by eexists]].
  left. split; [done |]. by eexists _, _.
Qed.

(** C35: the feature check passes exactly on a capable processor (pin and
    processor controls the hypervisor needs, secondary controls, EPT, 64-bit
    host, a VMCS of at most a page in write-back memory, INVEPT and INVVPID),
    and changes only the configuration it records; otherwise it panics. *)
Theorem check_features_correct s :
  (capable s -> exists c cap, check_cpu_vmx_features s = Ok tt (set_x_config c cap s)) /\
  (~ capable s -> exists why, check_cpu_vmx_features s = Stop (Panic why)).
Proof. apply check_features_run. Qed.
