(* ===== verification/VmmEntry.v ===== *)
(** * Entering the guest

    The VMCS the hypervisor builds from [struct cpu_info], and that both ways
    into the guest, the first launch and the return from an exit, use the
    instruction the launch state of the VMCS asks for. *)

From S2P Require Import Prelude PhysMem MemMgr CpuInfo Ipc IpcSpec Descriptors DescriptorsSpec ApicSpec Vmm VmmSpec.

(** ** Writing fields *)

Definition put_all (ws : list (Z * Z)) (m : gmap Z Z) : gmap Z Z := fold_left (fun m w => vmcs_put w.1 w.2 m) ws m.

(** The value a list of writes leaves in a field. *)
Fixpoint last_write (f : Z) (ws : list (Z * Z)) : option Z :=
  match ws with
  | [] => None
  | w :: ws' => match last_write f ws' with Some v => Some v | None => if w.1 =? f then Some w.2 else None end
  end.

Lemma put_lookup_ne f g v m : f <> g -> f <> g + 1 -> vmcs_put f v m !! g = m !! g.
Proof. intros H1 H2. unfold vmcs_put. destruct (Z.testbit f 0); rewrite lookup_insert_ne by lia; done. Qed.

Lemma put_all_lookup_ne ws m f :
  last_write f ws = None -> forallb (fun w => negb (w.1 =? f + 1)) ws = true -> put_all ws m !! f = m !! f.
Proof.
  revert m. induction ws as [|w ws IH]; intros m; [done |]. cbn [last_write forallb put_all fold_left].
  intros Hl [H1 H2]%andb_true_iff. destruct (last_write f ws) eqn:E; [done |]. destruct (Z.eqb_spec w.1 f); [done |].
  fold (put_all ws (vmcs_put w.1 w.2 m)). rewrite IH by done. apply put_lookup_ne; [done |]. by apply negb_true_iff, Z.eqb_neq in H1.
Qed.

Lemma put_all_lookup ws m f v :
  Z.testbit f 0 = false -> forallb (fun w => negb (w.1 =? f + 1)) ws = true -> last_write f ws = Some v ->
  put_all ws m !! f = Some (v mod 2 ^ field_width f).
Proof.
  intros Hf. revert m. induction ws as [|w ws IH]; intros m; [done |]. cbn [last_write forallb].
  intros [H1 H2]%andb_true_iff. change (put_all (w :: ws) m) with (put_all ws (vmcs_put w.1 w.2 m)).
  destruct (last_write f ws) eqn:E; [by intros [= <-]; apply IH |].
  destruct (Z.eqb_spec w.1 f) as [Hw|]; [|done]. intros [= <-]. rewrite put_all_lookup_ne by done. unfold vmcs_put. rewrite Hw, Hf.
  by rewrite lookup_insert_eq.
Qed.

(** The two halves of a 64-bit field, written one after the other. *)
Lemma put_all_halves ws1 ws2 m f lo hi :
  Z.testbit f 0 = false -> Z.testbit (f + 1) 0 = true -> field_width f = 64 -> last_write f ws2 = None ->
  forallb (fun w => negb (w.1 =? f + 1)) ws2 = true -> 0 <= lo < 2 ^ 32 ->
  put_all (ws1 ++ (f, lo) :: (f + 1, hi) :: ws2) m !! f = Some (lo + w32 hi * 2 ^ 32).
Proof.
  intros Hf Hf1 Hw Hl H2 Hlo. unfold put_all. rewrite fold_left_app. cbn [fold_left fst snd]. fold (put_all ws1 m).
  set (m1 := put_all ws1 m). rewrite put_all_lookup_ne by done. unfold vmcs_put. rewrite Hf, Hf1, Hw.
  replace (f + 1 - 1) with f by lia. rewrite !lookup_insert_eq. cbn [default]. do 3 f_equal.
  rewrite (Z.mod_small lo (2 ^ 64)) by lia. rewrite Z.mod_small by done. done.
Qed.

Lemma vmwrites_run ws s p c :
  x_current s = Some p -> x_vmcs s !! p = Some c -> Forall (fun w => x_has_field s w.1 = true) ws ->
  forM ws (fun w => vmx_vmwrite w.1 w.2) s =
    Ok tt (set_x_vmcs (x_vmxon s) (<[p := Vmcs (vc_launched c) (put_all ws (vc_fields c))]> (x_vmcs s)) (Some p) s).
Proof.
  revert s c. induction ws as [|w ws IH]; intros s c Hp Hc Hf.
  - cbn [forM put_all fold_left]. rewrite insert_id; [|by destruct c]. destruct s. cbn in Hp |- *. by rewrite Hp.
  - apply Forall_cons in Hf as [Hw Hf]. cbn [forM]. erewrite bind_step.
    2: { unfold vmx_vmwrite. erewrite bind_step by reflexivity. rewrite Hp, Hw. cbn [negb]. reflexivity. }
    unfold vmcs_at. rewrite Hc. cbn [default].
    rewrite (IH _ (Vmcs (vc_launched c) (vmcs_put w.1 w.2 (vc_fields c)))); cbn [x_current x_vmcs x_vmxon set_x_vmcs vc_launched vc_fields].
    + unfold set_x_vmcs. cbn. by rewrite insert_insert_eq.
    + done.
    + by rewrite lookup_insert_eq.
    + done.
Qed.

(** ** What the VMCS says *)

(** The processor supports every field that is written. *)
Definition fields_supported (s : vmx_state) : Prop := Forall (fun f => x_has_field s f = true) (setup_writes s).*1.

Lemma fields_supported_ext s s' :
  x_has_field s' = x_has_field s -> fields_supported s -> Forall (fun w => x_has_field s' w.1 = true) (setup_writes s').
Proof. intros He Hf. rewrite He. apply (proj1 (Forall_fmap fst (fun f => x_has_field s f = true) (setup_writes s'))). exact Hf. Qed.

(** The guest starts where [struct cpu_info] says, in its page tables and its
    EPT (4-level, write-back, no accessed and dirty flags); an exit arrives in
    [host_entry] on the hypervisor's stack; there is no shadow VMCS. *)
Record guest_ready (s : vmx_state) (fields : gmap Z Z) : Prop := {
  gr_rip : fields !! GUEST_RIP = Some (w64 (rg_rip (vm_regs (my_vm s))));
  gr_rsp : fields !! GUEST_RSP = Some (w64 (rg_rsp (vm_regs (my_vm s))));
  gr_rflags : fields !! GUEST_RFLAGS = Some (w64 (rg_rflags (vm_regs (my_vm s))));
  gr_cr3 : fields !! GUEST_CR3 = Some (w64 (vm_page_tables (my_vm s)));
  gr_ept : vm_ept (my_vm s) mod 4096 = 0 -> fields !! EPT_POINTER = Some (w64 (vm_ept (my_vm s) + 0x1e));
  gr_link : fields !! VMCS_LINK_POINTER = Some (2 ^ 64 - 1);
  gr_cpu : fields !! CPU_BASED_VM_EXEC_CONTROL = Some (Z.lor (w32 (x_msr s MSR_IA32_VMX_PROCBASED_CTLS)) (2 ^ 31));
  gr_secondary : fields !! SECONDARY_VM_EXEC_CONTROL = Some (Z.lor (w32 (x_msr s MSR_IA32_VMX_PROCBASED_CTLS2)) (2 ^ 1 + 2 ^ 3));
  gr_host_rip : fields !! HOST_RIP = Some (w64 (x_host_entry s));
  gr_host_rsp : fields !! HOST_RSP = Some (w64 (x_vmm_rsp s));
  gr_host_cr3 : fields !! HOST_CR3 = Some (w64 (x_cr3 s))
}.

Lemma w32_bound x : 0 <= w32 x < 2 ^ 32.
Proof. unfold w32. apply Z.mod_pos_bound. lia. Qed.
Lemma w32_testbit x n : 0 <= n -> Z.testbit (w32 x) n = Z.testbit x n && (n <? 32).
Proof.
  intros Hn. unfold w32. destruct (Z.ltb_spec n 32); [by rewrite Z.mod_pow2_bits_low, andb_true_r by lia |].
  by rewrite Z.mod_pow2_bits_high, andb_false_r by lia.
Qed.

Lemma w32_w64 x : w32 (w64 x) = w32 x.
Proof.
  apply Z.bits_inj'. intros n Hn. rewrite !w32_testbit by done. destruct (Z.ltb_spec n 32); [|by rewrite !andb_false_r].
  by rewrite w64_testbit by lia.
Qed.

Lemma written s m f v :
  Z.testbit f 0 = false -> forallb (fun w => negb (w.1 =? f + 1)) (setup_writes s) = true -> last_write f (setup_writes s) = Some v ->
  put_all (setup_writes s) m !! f = Some (v mod 2 ^ field_width f).
Proof. apply put_all_lookup. Qed.

(** [1 << 31] is negative: the field keeps its low half. *)
Lemma cpu_control_value v : Z.lor (w32 v) (w64 (- 2 ^ 31)) mod 2 ^ 32 = Z.lor (w32 v) (2 ^ 31).
Proof.
  apply Z.bits_inj'. intros n Hn. fold (w32 (Z.lor (w32 v) (w64 (- 2 ^ 31)))). rewrite w32_testbit, !Z.lor_spec, w32_testbit by done.
  destruct (Z.ltb_spec n 32).
  - rewrite !andb_true_r, w64_testbit by lia. f_equal. change (- 2 ^ 31) with (Z.lnot (Z.ones 31)).
    rewrite Z.lnot_spec, Z.testbit_ones_nonneg, Z.pow2_bits_eqb by lia.
    destruct (Z.ltb_spec n 31), (Z.eqb_spec 31 n); try done; lia.
  - rewrite !andb_false_r. rewrite Z.pow2_bits_eqb by lia. by destruct (Z.eqb_spec 31 n); [lia |].
Qed.

Lemma eptp_value e : e mod 4096 = 0 -> Z.ldiff (Z.lor (Z.lor e 0x6) (3 * 2 ^ 3)) (2 ^ 6) = e + 0x1e.
Proof.
  intros He. rewrite <-Z.lor_assoc. change (Z.lor 6 (3 * 2 ^ 3)) with 0x1e. rewrite <-(lor_low_add e 0x1e 12) by (done || lia).
  apply Z.bits_inj'. intros n Hn. rewrite Z.ldiff_spec, Z.lor_spec, Z.pow2_bits_eqb by done.
  destruct (Z.eqb_spec 6 n) as [<-|]; [|by rewrite andb_true_r].
  rewrite andb_false_r, orb_false_r. assert (H : Z.testbit (e mod 2 ^ 12) 6 = Z.testbit e 6) by (by apply Z.mod_pow2_bits_low).
  rewrite <-H. change (2 ^ 12) with 4096. by rewrite He.
Qed.

Lemma setup_writes_ready s m : guest_ready s (put_all (setup_writes s) m).
Proof.
  split; [| | | |intros He | | | | | |].
  all: try (erewrite written by reflexivity; reflexivity).
  - erewrite written by reflexivity. cbn [snd]. by rewrite eptp_value.
  - change (setup_writes s) with (take 7 (setup_writes s) ++ (VMCS_LINK_POINTER, 0xffffffff) :: (VMCS_LINK_POINTER + 1, 0xffffffff) :: drop 9 (setup_writes s)).
    by rewrite put_all_halves.
  - erewrite written by reflexivity. cbn [snd]. change (field_width CPU_BASED_VM_EXEC_CONTROL) with 32. by rewrite cpu_control_value, w32_w64.
  - erewrite written by reflexivity. cbn [snd]. change (field_width SECONDARY_VM_EXEC_CONTROL) with 32. rewrite w32_w64, <-Z.lor_assoc. f_equal.
    apply Z.mod_small, lor_bound; [lia | apply w32_bound | done].
Qed.

(** ** The controls are legal *)

(** Every bit a capability MSR forces it also allows. *)
Definition coherent (v : Z) : Prop := Z.ldiff (low v) (high v) = 0.

(** What the processor must offer beyond the feature check: the hypervisor
    turns RDTSCP and the 64-bit guest on without asking for them. *)
Record entry_capable (s : vmx_state) : Prop := {
  ec_capable : capable s;
  ec_coherent : forall r, In r [MSR_IA32_VMX_PINBASED_CTLS; MSR_IA32_VMX_PROCBASED_CTLS; MSR_IA32_VMX_PROCBASED_CTLS2;
                                MSR_IA32_VMX_EXIT_CTLS; MSR_IA32_VMX_ENTRY_CTLS] -> coherent (ctl_of s r);
  ec_rdtscp : available (ctl_of s MSR_IA32_VMX_PROCBASED_CTLS2) 3 = true;
  ec_ia32e : available (ctl_of s MSR_IA32_VMX_ENTRY_CTLS) 9 = true
}.

Lemma coherent_allowed v n : coherent v -> 0 <= n -> available v n = true -> Z.testbit (high v) n = true.
Proof. intros Hc Hn [H|H]%orb_true_iff; [done |]. by eapply (proj1 (ldiff_zero _ _) Hc). Qed.

Lemma ctl_legal_lor v b :
  coherent v -> (forall n, 0 <= n -> Z.testbit b n = true -> available v n = true) -> ctl_legal v (Z.lor (low v) b) = true.
Proof.
  intros Hc Hb. unfold ctl_legal. fold (low v) (high v). apply andb_true_iff. split; apply Z.eqb_eq, ldiff_zero; intros n Hn.
  - intros H. by rewrite Z.lor_spec, H.
  - rewrite Z.lor_spec. intros [H|H]%orb_true_iff; [by eapply (proj1 (ldiff_zero _ _) Hc) | by apply coherent_allowed, Hb].
Qed.

Lemma ctl_legal_pow v k :
  coherent v -> available v k = true -> 0 <= k -> ctl_legal v (Z.lor (low v) (2 ^ k)) = true.
Proof. intros Hc Ha Hk. apply ctl_legal_lor; [done |]. intros n Hn. rewrite Z.pow2_bits_eqb by done. by intros <-%Z.eqb_eq. Qed.

Lemma lor_low_small v b : 0 <= b < 2 ^ 32 -> Z.lor (low v) b mod 2 ^ 32 = Z.lor (low v) b.
Proof. intros. apply Z.mod_small, lor_bound; [lia | apply w32_bound | done]. Qed.

Lemma field_value s m f v :
  Z.testbit f 0 = false -> forallb (fun w => negb (w.1 =? f + 1)) (setup_writes s) = true -> last_write f (setup_writes s) = Some v ->
  default 0 (put_all (setup_writes s) m !! f) = v mod 2 ^ field_width f.
Proof. intros. by erewrite written. Qed.

Lemma setup_controls_legal s m : entry_capable s -> controls_legal s (put_all (setup_writes s) m) = true.
Proof.
  intros [Hcap Hco H3 H9]. unfold controls_legal. cbv zeta.
  erewrite (field_value _ _ PIN_BASED_VM_EXEC_CONTROL) by reflexivity. erewrite (field_value _ _ CPU_BASED_VM_EXEC_CONTROL) by reflexivity.
  erewrite (field_value _ _ SECONDARY_VM_EXEC_CONTROL) by reflexivity. erewrite (field_value _ _ VM_EXIT_CONTROLS) by reflexivity.
  erewrite (field_value _ _ VM_ENTRY_CONTROLS) by reflexivity. cbn [snd].
  change (field_width PIN_BASED_VM_EXEC_CONTROL) with 32. change (field_width CPU_BASED_VM_EXEC_CONTROL) with 32.
  change (field_width SECONDARY_VM_EXEC_CONTROL) with 32. change (field_width VM_EXIT_CONTROLS) with 32. change (field_width VM_ENTRY_CONTROLS) with 32.
  rewrite cpu_control_value. fold (ctl_of s MSR_IA32_VMX_PINBASED_CTLS) (ctl_of s MSR_IA32_VMX_PROCBASED_CTLS)
    (ctl_of s MSR_IA32_VMX_PROCBASED_CTLS2) (ctl_of s MSR_IA32_VMX_EXIT_CTLS) (ctl_of s MSR_IA32_VMX_ENTRY_CTLS).
  repeat match goal with |- context [w32 (ctl_of s ?r)] => change (w32 (ctl_of s r)) with (low (ctl_of s r)) end.
  rewrite <-Z.lor_assoc, !lor_low_small by done.
  rewrite (Z.mod_small (low _)) by apply w32_bound. rewrite <-(Z.lor_0_r (low (ctl_of s MSR_IA32_VMX_PINBASED_CTLS))).
  rewrite !andb_true_iff. split_and!.
  - apply ctl_legal_lor; [apply Hco; simpl; tauto | by intros n _; rewrite Z.bits_0].
  - apply ctl_legal_pow; [apply Hco; simpl; tauto | apply Hcap | done].
  - apply orb_true_iff. right. apply ctl_legal_lor; [apply Hco; simpl; tauto |]. intros n Hn. rewrite Z.lor_spec, !Z.pow2_bits_eqb by done.
    intros [<-%Z.eqb_eq | <-%Z.eqb_eq]%orb_true_iff; [apply Hcap | done].
  - apply ctl_legal_pow; [apply Hco; simpl; tauto | apply Hcap | done].
  - apply ctl_legal_pow; [apply Hco; simpl; tauto | done | done].
Qed.

(** ** Into VMX operation *)

Lemma msr_lock_run s :
  Z.testbit (x_cr4 s) 13 = false ->
  Z.land (x_msr s MSR_IA32_FEATURE_CONTROL) FEATURE_BITS = FEATURE_BITS \/ Z.testbit (x_msr s MSR_IA32_FEATURE_CONTROL) 0 = false ->
  exists msr, msr_lock s = Ok tt (set_x_regs msr (x_cr0 s) (Z.lor (x_cr4 s) X86_CR4_VMXE) s) /\
    Z.land (msr MSR_IA32_FEATURE_CONTROL) FEATURE_BITS = FEATURE_BITS /\
    forall r, r <> MSR_IA32_FEATURE_CONTROL -> msr r = x_msr s r.
Proof.
  intros H13 Hfc. unfold msr_lock. erewrite bind_step by reflexivity. change X86_CR4_VMXE with (2 ^ 13). rewrite has_bit, H13 by done.
  erewrite bind_step by reflexivity. set (old := x_msr s MSR_IA32_FEATURE_CONTROL) in *.
  assert (Hlow : forall v, Z.land (w64 v) FEATURE_BITS = Z.land v FEATURE_BITS).
  { intros v. apply Z.bits_inj'. intros n Hn. rewrite !Z.land_spec. destruct (Z.lt_ge_cases n 64); [by rewrite w64_testbit |].
    change FEATURE_BITS with 5. rewrite (Z.bits_above_log2 5 n); [by rewrite !andb_false_r | done |]. change (Z.log2 5) with 2. lia. }
  rewrite Hlow. destruct (Z.eqb_spec (Z.land old FEATURE_BITS) FEATURE_BITS) as [E|E]; cbn [negb when].
  - erewrite bind_step by reflexivity. erewrite bind_step by reflexivity. by exists (x_msr s).
  - destruct Hfc as [?|H0]; [done |]. erewrite bind_step.
    2: { unfold wrmsr_feature. erewrite bind_step by reflexivity. change (x_msr s MSR_IA32_FEATURE_CONTROL) with old. rewrite H0. reflexivity. }
    erewrite bind_step by reflexivity. eexists. split; [reflexivity |]. cbn [x_msr set_x_regs]. split.
    + rewrite Z.eqb_refl. rewrite Hlow. apply Z.bits_inj'. intros n Hn. rewrite Z.land_spec, Z.lor_spec.
      by destruct (Z.testbit FEATURE_BITS n); rewrite ?orb_true_r, ?andb_false_r.
    + intros r Hr. by destruct (Z.eqb_spec r MSR_IA32_FEATURE_CONTROL).
Qed.

(** The two regions: page aligned and distinct. *)
Definition regions_ok (s : vmx_state) : Prop :=
  x_vmcs_ptr s mod 4096 = 0 /\ x_vmxon_ptr s mod 4096 = 0 /\ x_vmcs_ptr s <> x_vmxon_ptr s.

Lemma pages_apart p q : p mod 4096 = 0 -> q mod 4096 = 0 -> p <> q -> p + 4096 <= q \/ q + 4096 <= p.
Proof. intros. Z.to_euclidean_division_equations. lia. Qed.

Definition mem_as (m : memory) (s : vmx_state) : vmx_state := set_x_m (set_m_mem m (x_m s)) s.

Lemma poke_run f s : vmm_poke f s = Ok tt (mem_as (f (x_mem s)) s).
Proof. done. Qed.

Lemma x_mem_as m s : x_mem (mem_as m s) = m.
Proof. done. Qed.
Lemma mem_as_as m m' s : mem_as m (mem_as m' s) = mem_as m s.
Proof. done. Qed.
Ltac poke_step := erewrite bind_step by apply poke_run; rewrite ?x_mem_as, ?mem_as_as.

(** The memory after [vmxon] has prepared its two regions. *)
Definition regions_mem (m : memory) (p q id : Z) : memory :=
  store32 (store32 (store32 (store32 (memset (memset m q 0 4096) p 0 4096) q id) (q + 4) 0) p id) (p + 4) 0.

Lemma regions_mem_spec m p q id :
  p + 4096 <= q \/ q + 4096 <= p ->
  load32 (regions_mem m p q id) p = w32 id /\ load32 (regions_mem m p q id) q = w32 id /\
  same_on (fun a => ~ (p <= a < p + 4096) /\ ~ (q <= a < q + 4096)) m (regions_mem m p q id).
Proof.
  intros Hd. unfold regions_mem, load32, store32. split_and!.
  - rewrite load_store_ne by lia. apply load_store_eq.
  - do 3 (rewrite load_store_ne by lia). apply load_store_eq.
  - intros a [H1 H2]. do 4 (rewrite byte_at_store_out by lia). rewrite !byte_at_memset. rewrite !decide_False by lia. done.
Qed.

Lemma vmxon_run s :
  regions_ok s -> Z.testbit (x_cr4 s) 13 = true -> Z.testbit (x_cr0 s) 5 = true ->
  Z.land (x_msr s MSR_IA32_FEATURE_CONTROL) FEATURE_BITS = FEATURE_BITS ->
  vmxon (x_vmcs_ptr s) (x_vmxon_ptr s) s = Ok tt (set_x_vmcs (Some (x_vmxon_ptr s)) (x_vmcs s) None
    (mem_as (regions_mem (x_mem s) (x_vmcs_ptr s) (x_vmxon_ptr s) (w64 (x_msr s MSR_IA32_VMX_BASIC))) s)).
Proof.
  intros (Hp & Hq & Hne) H13 H5 Hfc.
  destruct (regions_mem_spec (x_mem s) _ _ (w64 (x_msr s MSR_IA32_VMX_BASIC)) (pages_apart _ _ Hp Hq Hne)) as (_ & Hid & _).
  unfold vmxon. erewrite bind_step by reflexivity. do 6 poke_step. fold (regions_mem (x_mem s) (x_vmcs_ptr s) (x_vmxon_ptr s) (w64 (x_msr s MSR_IA32_VMX_BASIC))).
  set (m := regions_mem _ _ _ _) in *. clearbody m. unfold __vmxon. erewrite bind_step by reflexivity.
  change (x_cr4 (mem_as m s)) with (x_cr4 s). change (x_cr0 (mem_as m s)) with (x_cr0 s). change (x_msr (mem_as m s)) with (x_msr s).
  change X86_CR4_VMXE with (2 ^ 13). rewrite has_bit, H13, H5 by done. rewrite Hfc, Z.eqb_refl. cbn [negb orb].
  unfold region_ok. rewrite x_mem_as, Hid, Hq, w32_w64, !Z.eqb_refl. done.
Qed.

Lemma clear_run s p q :
  x_vmxon s = Some q -> p mod 4096 = 0 -> p <> q ->
  clear_vmcs p s = Ok tt (set_x_vmcs (Some q) (<[p := Vmcs false (vc_fields (vmcs_at s p))]> (x_vmcs s))
    (if decide (x_current s = Some p) then None else x_current s) s).
Proof.
  intros Hq Hp Hne. unfold clear_vmcs. erewrite bind_step by reflexivity. rewrite Hq, Hp. cbn [negb orb Z.eqb].
  destruct (Z.eqb_spec p q); [done |]. unfold modify. by rewrite Hq.
Qed.

Lemma load_run s p q :
  x_vmxon s = Some q -> p mod 4096 = 0 -> p <> q -> load32 (x_mem s) p = w32 (x_msr s MSR_IA32_VMX_BASIC) ->
  load_vmcs p s = Ok tt (set_x_vmcs (Some q) (x_vmcs s) (Some p) s).
Proof.
  intros Hq Hp Hne Hid. unfold load_vmcs. erewrite bind_step by reflexivity. unfold region_ok. rewrite Hq, Hp, Hid, !Z.eqb_refl.
  cbn [negb orb andb]. destruct (Z.eqb_spec p q); [done |]. unfold modify. by rewrite Hq.
Qed.

(** What a capability depends on, and what the VMCS is filled in from. *)
Lemma ctl_of_ext s s' r :
  (forall r, r <> MSR_IA32_FEATURE_CONTROL -> x_msr s' r = x_msr s r) -> r <> MSR_IA32_FEATURE_CONTROL -> ctl_of s' r = ctl_of s r.
Proof. intros H Hr. unfold ctl_of. by rewrite H. Qed.

Lemma entry_capable_ext s s' :
  (forall r, r <> MSR_IA32_FEATURE_CONTROL -> x_msr s' r = x_msr s r) -> entry_capable s -> entry_capable s'.
Proof.
  intros H [[] Hco H3 H9]. split.
  - split; by rewrite (ctl_of_ext s s').
  - intros r Hr. rewrite (ctl_of_ext s s'); [by apply Hco | done |]. repeat (destruct Hr as [<-|Hr]; [done |]). destruct Hr.
  - by rewrite (ctl_of_ext s s').
  - by rewrite (ctl_of_ext s s').
Qed.

Lemma guest_ready_ext s s' F :
  my_vm s' = my_vm s -> (forall r, r <> MSR_IA32_FEATURE_CONTROL -> x_msr s' r = x_msr s r) ->
  x_host_entry s' = x_host_entry s -> x_vmm_rsp s' = x_vmm_rsp s -> x_cr3 s' = x_cr3 s ->
  guest_ready s' F -> guest_ready s F.
Proof. intros H1 H2 H3 H4 H5 []. rewrite H1, ?H3, ?H4, ?H5 in *. rewrite H2 in * by done. by split. Qed.

Lemma vmenter_run launch s p c :
  x_current s = Some p -> x_vmcs s !! p = Some c -> vc_launched c = negb launch -> controls_legal s (vc_fields c) = true ->
  vmenter launch s =
    if x_entry_ok s (vc_fields c)
    then Ok (Some (guest_gprs (vm_regs (my_vm s)))) (set_x_vmcs (x_vmxon s) (<[p := Vmcs true (vc_fields c)]> (x_vmcs s)) (Some p) s)
    else Stop (Fault "VM entry checks").
Proof.
  intros Hp Hc Hl Hok. unfold vmenter. erewrite bind_step by reflexivity. rewrite Hp. unfold vmcs_at. rewrite Hc. cbv zeta. cbn [from_option id].
  rewrite Hl, Hok. replace (Bool.eqb (negb launch) launch) with false by (by destruct launch). cbn [negb orb].
  destruct (x_entry_ok s (vc_fields c)); cbn [negb]; [|done]. erewrite bind_step by reflexivity. by rewrite Hp.
Qed.

(** Filling in the VMCS and entering: the guest runs, unless the processor's
    own checks of the host and guest state refuse it. *)
Lemma enter_run launch err s p c :
  x_current s = Some p -> x_vmcs s !! p = Some c -> vc_launched c = negb launch -> fields_supported s -> entry_capable s ->
  exists m F, guest_ready s F /\ same_on (fun a => ~ (0 <= a < 10)) (x_mem s) m /\
    (setup_vmcs ;; (e ← vmenter launch; of_option err e)) s =
      if x_entry_ok s F
      then Ok (guest_gprs (vm_regs (my_vm s))) (set_x_vmcs (x_vmxon s) (<[p := Vmcs true F]> (x_vmcs s)) (Some p) (mem_as m s))
      else Stop (Fault "VM entry checks").
Proof.
  intros Hp Hc Hl Hf Hcap. set (m := store_dtr (store_dtr (x_mem s) 0 (x_gdtr s)) 0 (x_idtr s)).
  set (F := put_all (setup_writes (mem_as m s)) (vc_fields c)). exists m, F. split_and!.
  - by apply (guest_ready_ext s (mem_as m s)), setup_writes_ready.
  - intros a Ha. unfold m, store_dtr, store64. by rewrite !byte_at_store_out by (simpl; lia).
  - erewrite bind_step.
    2: { unfold setup_vmcs. erewrite bind_step by reflexivity. do 2 poke_step. fold m. erewrite bind_step by reflexivity.
         apply (vmwrites_run _ (mem_as m s) p c); [done | done | by eapply fields_supported_ext]. }
    assert (Hlegal : controls_legal s F = true) by (by apply (setup_controls_legal (mem_as m s)), (entry_capable_ext s)).
    fold F. clearbody F m.
    set (s1 := set_x_vmcs _ _ _ _). pose proof (vmenter_run launch s1 p (Vmcs (vc_launched c) F) eq_refl) as Hv.
    unfold s1 in Hv at 1. cbn [x_vmcs set_x_vmcs] in Hv. rewrite lookup_insert_eq in Hv. specialize (Hv eq_refl Hl Hlegal).
    change (x_entry_ok s1) with (x_entry_ok s) in Hv. cbn [vc_fields] in Hv. destruct (x_entry_ok s F).
    + erewrite bind_step by exact Hv. unfold s1. cbn [of_option x_vmcs set_x_vmcs x_vmxon]. by rewrite insert_insert_eq.
    + unfold mbind, M_bind. by rewrite Hv.
Qed.

(** ** The guest runs *)

(** The hypervisor while its guest runs: in VMX operation, with the CPU's
    VMCS current and launched. *)
Record in_guest (s : vmx_state) (F : gmap Z Z) : Prop := {
  ig_vmxon : x_vmxon s = Some (x_vmxon_ptr s);
  ig_current : x_current s = Some (x_vmcs_ptr s);
  ig_vmcs : x_vmcs s !! x_vmcs_ptr s = Some (Vmcs true F);
  ig_regions : regions_ok s;
  ig_capable : entry_capable s;
  ig_fields : fields_supported s
}.

(** The memory the hypervisor changes on its way. *)
Definition vmx_frame (s : vmx_state) (a : Z) : Prop :=
  ~ (0 <= a < 10) /\ ~ (x_vmcs_ptr s <= a < x_vmcs_ptr s + 4096) /\ ~ (x_vmxon_ptr s <= a < x_vmxon_ptr s + 4096).

(** What the hypervisor keeps of itself across VMX instructions. *)
Definition own_state (s : vmx_state) := (x_gdtr s, x_idtr s, x_seg s, x_tables s, x_ready s, x_cr3 s).

(** The guest has been entered from [s]: the VMCS says what [struct cpu_info]
    said in [s], and nothing else has changed but the VMX registers and the
    hypervisor's regions. *)
Record entered (s s' : vmx_state) (F : gmap Z Z) : Prop := {
  en_guest : guest_ready s F;
  en_in : in_guest s' F;
  en_machine : x_m s' = set_m_mem (x_mem s') (x_m s);
  en_mem : same_on (vmx_frame s) (x_mem s) (x_mem s');
  en_own : own_state s' = own_state s
}.

(** A change of VMX registers only, before the entry. *)
Lemma entered_from s s1 s' F :
  my_vm s1 = my_vm s -> (forall r, r <> MSR_IA32_FEATURE_CONTROL -> x_msr s1 r = x_msr s r) ->
  x_host_entry s1 = x_host_entry s -> x_vmm_rsp s1 = x_vmm_rsp s -> x_vmcs_ptr s1 = x_vmcs_ptr s -> x_vmxon_ptr s1 = x_vmxon_ptr s ->
  set_m_mem ∅ (x_m s1) = set_m_mem ∅ (x_m s) -> same_on (vmx_frame s) (x_mem s) (x_mem s1) -> own_state s1 = own_state s ->
  entered s1 s' F -> entered s s' F.
Proof.
  intros H1 H2 H3 H4 H5 H6 H7 H8 H9 [G1 G2 G3 G4 G5]. split.
  - apply (guest_ready_ext s s1); try done. by injection H9.
  - done.
  - rewrite G3 at 1. exact (f_equal (set_m_mem (x_mem s')) H7).
  - intros a Ha. transitivity (byte_at (x_mem s1) a); [by apply H8 |]. apply G4. unfold vmx_frame. by rewrite H5, H6.
  - by rewrite G5.
Qed.

(** From VMPTRLD on, with the VMCS in the launch state of the instruction. *)
Lemma reenter_run launch err s l F0 :
  x_vmxon s = Some (x_vmxon_ptr s) -> x_vmcs s !! x_vmcs_ptr s = Some (Vmcs l F0) -> l = negb launch ->
  regions_ok s -> entry_capable s -> fields_supported s -> load32 (x_mem s) (x_vmcs_ptr s) = w32 (x_msr s MSR_IA32_VMX_BASIC) ->
  exists F s', entered s s' F /\
    (load_vmcs (x_vmcs_ptr s) ;; setup_vmcs ;; (e ← vmenter launch; of_option err e)) s =
      if x_entry_ok s F then Ok (guest_gprs (vm_regs (my_vm s))) s' else Stop (Fault "VM entry checks").
Proof.
  intros Hv HV Hl Hr Hcap Hf Hid. pose proof Hr as (Hp & Hq & Hne).
  erewrite bind_step by (by apply (load_run _ _ (x_vmxon_ptr s))). set (s4 := set_x_vmcs _ _ _ _).
  destruct (enter_run launch err s4 (x_vmcs_ptr s) (Vmcs l F0)) as (m' & F & Hg & Hm & Hrun); [done | done | done | exact Hf | by apply (entry_capable_ext s) |].
  exists F. eexists. split; [|exact Hrun]. apply (entered_from s s4); try done. split; try done; [|intros a (Ha & _); by apply Hm].
  split; try done; [by cbn [x_vmcs set_x_vmcs]; apply lookup_insert_eq | by apply (entry_capable_ext s)].
Qed.

(** From VMXON on. *)
Lemma launch_run err s :
  entry_capable s -> fields_supported s -> regions_ok s -> Z.testbit (x_cr4 s) 13 = true -> Z.testbit (x_cr0 s) 5 = true ->
  Z.land (x_msr s MSR_IA32_FEATURE_CONTROL) FEATURE_BITS = FEATURE_BITS ->
  exists F s', entered s s' F /\
    (vmxon (x_vmcs_ptr s) (x_vmxon_ptr s) ;; clear_vmcs (x_vmcs_ptr s) ;; load_vmcs (x_vmcs_ptr s) ;;
     setup_vmcs ;; (e ← vmlaunch; of_option err e)) s =
      if x_entry_ok s F then Ok (guest_gprs (vm_regs (my_vm s))) s' else Stop (Fault "VM entry checks").
Proof.
  intros Hcap Hf Hr H13 H5 Hfc. erewrite bind_step by (by apply vmxon_run). pose proof Hr as (Hp & Hq & Hne).
  destruct (regions_mem_spec (x_mem s) _ _ (w64 (x_msr s MSR_IA32_VMX_BASIC)) (pages_apart _ _ Hp Hq Hne)) as (Hid & _ & Hsame).
  set (m := regions_mem _ _ _ _) in *. clearbody m. rewrite w32_w64 in Hid.
  erewrite bind_step by (by apply (clear_run _ _ (x_vmxon_ptr s))). cbn [x_current set_x_vmcs]. rewrite decide_False by done.
  set (s4 := set_x_vmcs _ _ None _).
  destruct (reenter_run true err s4 false (vc_fields (vmcs_at s (x_vmcs_ptr s)))) as (F & s' & Hen & Hrun); try done.
  { unfold s4. cbn [x_vmcs set_x_vmcs x_vmcs_ptr]. apply lookup_insert_eq. }
  { by apply (entry_capable_ext s). }
  exists F, s'. split; [|exact Hrun]. apply (entered_from s s4); try done. intros a (_ & Hb & Hc). by apply Hsame.
Qed.

Lemma vmx_init_run s :
  entry_capable s -> fields_supported s -> regions_ok s -> Z.testbit (x_cr4 s) 13 = false ->
  Z.land (x_msr s MSR_IA32_FEATURE_CONTROL) FEATURE_BITS = FEATURE_BITS \/ Z.testbit (x_msr s MSR_IA32_FEATURE_CONTROL) 0 = false ->
  exists F s', entered s s' F /\
    vmx_init s = if x_entry_ok s F then Ok (guest_gprs (vm_regs (my_vm s))) s' else Stop (Fault "VM entry checks").
Proof.
  intros Hcap Hf Hr H13 Hfc. unfold vmx_init.
  destruct (proj1 (check_features_run s) (ec_capable s Hcap)) as (cf & cap & E1). erewrite bind_step by exact E1.
  erewrite bind_step by reflexivity. cbn [x_cr0 x_msr x_cr4 set_x_config].
  destruct (msr_lock_run (set_x_regs (x_msr s) (Z.lor (x_cr0 s) (2 ^ 5)) (x_cr4 s) (set_x_config cf cap s)) H13 Hfc) as (msr & E3 & Hfc3 & Hmsr).
  erewrite bind_step by exact E3. erewrite bind_step by reflexivity. cbn [x_msr set_x_regs set_x_config] in Hmsr. clear E1 E3.
  set (s3 := set_x_regs msr _ _ _).
  destruct (launch_run (Panic "We MUST NEVER get here.") s3) as (F & s' & Hen & Hrun); try done.
  { by apply (entry_capable_ext s). }
  { unfold s3. cbn [x_cr4 set_x_regs]. by rewrite Z.lor_spec, orb_true_r. }
  { unfold s3. cbn [x_cr0 set_x_regs]. by rewrite Z.lor_spec, orb_true_r. }
  exists F, s'. split; [by apply (entered_from s s3) | exact Hrun].
Qed.

(** On a processor that offers what the hypervisor uses, [vmx_init] enters
    the guest by VMLAUNCH with the registers of [struct cpu_info], and with a
    VMCS that holds its entry point, stack, page tables and EPT; the only
    other outcome is that the processor's own checks of the guest state refuse
    the entry.  Of memory it changes only its two regions and the ten bytes at
    address 0. *)
Theorem vmx_init_enters s :
  entry_capable s -> fields_supported s -> regions_ok s -> Z.testbit (x_cr4 s) 13 = false ->
  Z.land (x_msr s MSR_IA32_FEATURE_CONTROL) FEATURE_BITS = FEATURE_BITS \/ Z.testbit (x_msr s MSR_IA32_FEATURE_CONTROL) 0 = false ->
  exists F s', entered s s' F /\
    vmx_init s = if x_entry_ok s F then Ok (guest_gprs (vm_regs (my_vm s))) s' else Stop (Fault "VM entry checks").
Proof. apply vmx_init_run. Qed.

(** ** Exits *)

Lemma wait_pm_frame s s1 : wait_pm s = Ok tt s1 -> exists m pm, s1 = set_x_pm pm (set_x_m m s).
Proof.
  intros (u & s2 & H1 & H2)%bind_ok. unfold vmm_machine, zoom in H1.
  destruct (msg_receive PM (x_m s)) as [v m|] eqn:E; [|done]. injection H1 as _ <-.
  apply bind_ok in H2 as (s3 & s4 & H3 & H4). injection H3 as <- <-. cbn [x_pm set_x_m] in H4.
  destruct (x_pm s) as [|f rest] eqn:Epm.
  - injection H4 as <-. exists m, []. destruct s. cbn in Epm |- *. by rewrite Epm.
  - apply bind_ok in H4 as (s5 & s6 & H5 & H6). injection H5 as _ <-. injection H6 as <-. by eexists _, rest.
Qed.


(** Both descriptor-table registers are stored at address 0, the table of
    interrupts last: the VMCS gives the host its interrupt table as the table
    of segments too. *)
Theorem host_gdtr_is_idtr s p c :
  x_current s = Some p -> x_vmcs s !! p = Some c -> fields_supported s ->
  exists s' F, setup_vmcs s = Ok tt s' /\ x_vmcs s' !! p = Some (Vmcs (vc_launched c) F) /\
    F !! HOST_IDTR_BASE = Some (w64 (x_idtr s).2) /\ F !! HOST_GDTR_BASE = Some (w64 (x_idtr s).2).
Proof.
  intros Hp Hc Hf. set (m := store_dtr (store_dtr (x_mem s) 0 (x_gdtr s)) 0 (x_idtr s)). eexists _, _. split_and!.
  - unfold setup_vmcs. erewrite bind_step by reflexivity. do 2 poke_step. fold m. erewrite bind_step by reflexivity.
    apply (vmwrites_run _ (mem_as m s) p c); [done | done | by eapply fields_supported_ext].
  - cbn [x_vmcs set_x_vmcs]. apply lookup_insert_eq.
  - erewrite written by reflexivity. cbn [snd]. unfold dr_base. rewrite x_mem_as. unfold m, store_dtr. rewrite load64_store64_eq.
    f_equal. apply (w64_small (w64 _)), w64_bound.
  - erewrite written by reflexivity. cbn [snd]. unfold dr_base. rewrite x_mem_as. unfold m, store_dtr. rewrite load64_store64_eq.
    f_equal. apply (w64_small (w64 _)), w64_bound.
Qed.

(** ** The whole hypervisor *)

(** The hypervisor's view of its descriptor tables. *)
Definition tables_of (s : vmx_state) : desc_state :=
  Desc (x_mem s) (x_gdtr s) (x_idtr s) (x_seg s) (x_tables s).1 (x_tables s).2 (x_init s).1 (x_init s).2.

Lemma on_tables_run (m : M desc_state unit) s d : m (tables_of s) = Ok tt d -> on_tables m s = Ok tt (set_x_desc d s).
Proof. intros H. unfold on_tables, zoom. fold (tables_of s). by rewrite H. Qed.
Lemma tables_of_set d s : tables_of (set_x_desc d s) = d.
Proof. by destruct d. Qed.

(** C16: on the process manager's CPU, whose guest is there at boot, the
    hypervisor's [vmm_main] ends in the guest: with its interrupt table in
    force, [cpuinfo->ready] set, and the VMCS filled in from [struct
    cpu_info]. *)
Theorem vmm_main_enters sym s :
  (forall e, 0 <= sym e < 2 ^ 64) ->
  x_init s = (false, false) -> cpuid (self (x_m s)) = PM -> vmm_has_vm (self (x_m s)) = true ->
  x_lapic_id s = PM -> x_real_id s = PM ->
  entry_capable s -> fields_supported s -> regions_ok s -> Z.testbit (x_cr4 s) 13 = false ->
  Z.land (x_msr s MSR_IA32_FEATURE_CONTROL) FEATURE_BITS = FEATURE_BITS \/ Z.testbit (x_msr s MSR_IA32_FEATURE_CONTROL) 0 = false ->
  (forall a, (x_tables s).2 <= a < (x_tables s).2 + NIDT * DESC_SIZE -> vmx_frame s a) ->
  exists F s', guest_ready s F /\ in_guest s' F /\ x_ready s' = true /\ x_idtr s' = (NIDT * DESC_SIZE - 1, (x_tables s).2) /\
    (forall v, 0 <= v < NIDT -> vector_gate (x_mem s') (x_tables s).2 v = trap_gate sym KNL_PVL (trap_of v)) /\
    vmm_main sym s = if x_entry_ok s F then Ok (guest_gprs (vm_regs (my_vm s))) s' else Stop (Fault "VM entry checks").
Proof.
  intros Hsym Hi Hid Hvm Hlid Hreal Hcap Hf Hr H13 Hfc Ht. unfold vmm_main.
  destruct (create_default_gdt_correct (tables_of s)) as (d1 & E1 & ([Hs1 Hs2] & _) & Hd1 & _); [by cbn [tables_of d_gdt_done]; rewrite Hi |].
  cbn [tables_of d_idt d_idt_done] in Hs2, Hd1. rewrite Hi in Hd1. erewrite bind_step by (apply on_tables_run; exact E1).
  destruct (interrupt_init_run sym Hsym d1 Hd1) as (d2 & E2 & ([Hs3 Hs4] & Hidtr & _ & _ & Hgates & _) & _).
  erewrite bind_step by (apply on_tables_run; rewrite tables_of_set; exact E2).
  erewrite bind_step by reflexivity. erewrite bind_step by reflexivity. set (s1 := set_x_ready true _).
  assert (Hself : self (x_m s1) = self (x_m s)) by done. rewrite Hself, Hid. cbn [negb when Z.eqb].
  erewrite bind_step by reflexivity. erewrite bind_step by reflexivity. rewrite Hself, Hvm. cbn [negb when].
  erewrite bind_step by reflexivity. erewrite bind_step.
  2: { unfold check_lapic_id. erewrite bind_step by reflexivity. change (x_lapic_id s1) with (x_lapic_id s). change (x_real_id s1) with (x_real_id s).
       rewrite Hself, Hid, Hlid, Hreal. reflexivity. }
  destruct (vmx_init_run s1) as (F & s' & [G1 G2 G3 G4 G5] & Hrun); try done.
  { by apply (entry_capable_ext s). }
  injection G5 as _ Gi _ Gt Gr _. exists F, s'. split_and!.
  - by apply (guest_ready_ext s s1).
  - done.
  - by rewrite Gr.
  - rewrite Gi. unfold s1. cbn [x_idtr set_x_ready set_x_desc]. by rewrite Hidtr, Hs2.
  - intros v Hv. rewrite <-(Hgates v Hv), Hs2. apply gate_at_ext. intros a Ha. symmetry. apply (G4 a). apply Ht. lia.
  - exact Hrun.
Qed.
