(* ===== verification/Fs.v ===== *)
(** * The file server (vms/fs/main.c)

    The program on CPU 1: a read-only file system image in memory, the file
    descriptor tables of the user VMs, and the forwarding of device requests.
    Descriptor tables are physical memory ([fd_type], [fd_length], [fd_dst]
    and [fd_offset] of [Pm]); the image is a count, 56-byte headers (name at
    0, type at 32, length at 36, offset at 48) and the files. *)

From S2P Require Import Prelude PhysMem CString MemMgr CpuInfo Ipc Channel Pm.

Abbreviation O_RDONLY := 0.
Abbreviation OPEN_IPC := 1.
Abbreviation READ_IPC := 2.
Abbreviation CLOSE_IPC := 3.
Abbreviation LOAD_IPC := 4.
Abbreviation READ_ACK := 6.
Abbreviation WRITE_IPC := 7.
Abbreviation WRITE_ACK := 8.
Abbreviation CHANNEL_IPC := 5.
Abbreviation CHANNEL_CLOSE_IPC := 6.
Abbreviation HEADER_SIZE := 56.
Abbreviation OPEN_IPC_SIZE := 36.

Record fs_state := Fs {
  f_m : machine;
  filesystem : Z;      (* address of the image *)
  opentmp : Z;         (* address of the local [struct open_ipc] *)
  f_stale : Z          (* what uninitialised stack bytes hold *)
}.
Definition set_f_m (x : machine) (s : fs_state) : fs_state :=
  Fs x (filesystem s) (opentmp s) (f_stale s).
Definition f_mem (s : fs_state) : memory := m_mem (f_m s).
Definition on_fs {A} (m : M machine A) : M fs_state A := zoom f_m set_f_m m.
Definition fpoke (f : memory -> memory) : M fs_state unit := on_fs (update_mem f).

Definition set_fd_type (fds i v : Z) (m : memory) : memory := store32 m (fds + FD_SIZE * i) v.
Definition set_fd_length (fds i v : Z) (m : memory) : memory := store32 m (fds + FD_SIZE * i + 4) v.
Definition set_fd_dst (fds i v : Z) (m : memory) : memory := store64 m (fds + FD_SIZE * i + 8) v.

(** [strcmp] of a string in memory with a literal. *)
Fixpoint strcmp_lit (m : memory) (cs : Z) (lit : list Z) : Z :=
  let c1 := byte_at m cs in
  match lit with
  | [] => if c1 =? 0 then 0 else 1
  | c2 :: lit' =>
      if negb (c1 =? c2) then (if c1 <? c2 then -1 else 1) else strcmp_lit m (cs + 1) lit'
  end.
Definition str_stdin : list Z := [115; 116; 100; 105; 110].
Definition str_stdout : list Z := [115; 116; 100; 111; 117; 116].
Definition str_junkfd : list Z := [106; 117; 110; 107; 102; 100].

Definition fs_cpu_info (id : Z) : M fs_state (option Z) :=
  let id := w64 id in
  if MAX_CPUS <? id then mret None else
  s ← get;
  mret (Some (m_self (f_m s) - cpuid (self (f_m s)) + id)).

(** 0 is the null pointer. *)
Definition get_fds (from : Z) : M fs_state Z :=
  if MAX_CPUS <? from then mret 0 else
  p ← fs_cpu_info from;
  match p with
  | None => stop_with (Fault "null cpu_info")
  | Some id => gets (fun s => vm_fds (vm_info (cpu_at (f_m s) id)))
  end.

(** [for (i = 2; i < MAX_FD; i++) if (fds[i].offset == 0) break;] *)
Fixpoint lowest_fd (n : nat) (m : memory) (fds i : Z) : Z :=
  match n with
  | O => i
  | S n' => if fd_offset m fds i =? 0 then i else lowest_fd n' m fds (i + 1)
  end.

(** The reply to an open: descriptor and channel; [None] where the code leaves
    the channel unset. *)
Definition open_char (from fd dst fds : Z) : M fs_state (Z * option Z) :=
  m ← gets f_mem;
  if negb (fd_offset m fds fd =? 0) then mret (-1, None) else
  on_fs (msg_send PM CHANNEL_IPC (u64_bytes from ++ u64_bytes dst)) ;;
  on_fs (msg_receive PM) ;;
  s ← get;
  let pm_reply := inbox (f_m s) PM in
  fpoke (fun m => put_bytes m (fds + FD_SIZE * fd + 16) (get_bytes m (msg_data pm_reply) 8)) ;;
  fpoke (set_fd_type fds fd TYPE_CHAR) ;;
  fpoke (set_fd_length fds fd 0) ;;
  fpoke (set_fd_dst fds fd dst) ;;
  m ← gets f_mem;
  mret (fd, Some (fd_offset m fds fd)).

Definition local_open_char (pathname from : Z) : M fs_state (Z * option Z) :=
  if (MAX_CPUS <? from) || (from <? 0) then mret (-1, None) else
  fds ← get_fds from;
  if fds =? 0 then mret (-1, None) else
  m ← gets f_mem;
  if strcmp_lit m pathname str_stdin =? 0 then open_char from 0 KBD fds
  else if strcmp_lit m pathname str_stdout =? 0 then open_char from 1 CONSOLE fds
  else if strcmp_lit m pathname str_junkfd =? 0 then
    open_char from (lowest_fd (Z.to_nat (MAX_FD - 2)) m fds 2) JUNK fds
  else stop_with Halt.

(** The header of file [i], and the number of files: one signed byte. *)
Definition header_at (s : fs_state) (i : Z) : Z := filesystem s + 4 + i * HEADER_SIZE.
Definition num_files (s : fs_state) : Z := s8 (byte_at (f_mem s) (filesystem s)).

(** [for (i = 0; i < num_files; i++)]: the header of the file named like the
    string at [path]. *)
Fixpoint find_file (n : nat) (s : fs_state) (path i : Z) : option (option Z) :=
  match n with
  | O => Some None
  | S n' =>
      r ← strcmp (f_mem s) (header_at s i) path;
      if r =? 0 then Some (Some (header_at s i)) else find_file n' s path (i + 1)
  end.
Definition lookup_file (path : Z) : M fs_state (option Z) :=
  s ← get;
  of_option Diverge (find_file (Z.to_nat (num_files s)) s path 0).

Definition local_open (pathname flags from : Z) : M fs_state (Z * option Z) :=
  m ← gets f_mem;
  if (strcmp_lit m pathname str_stdin =? 0) || (strcmp_lit m pathname str_stdout =? 0) ||
     (strcmp_lit m pathname str_junkfd =? 0)
  then local_open_char pathname from else
  fds ← get_fds from;
  if fds =? 0 then mret (-1, None) else
  m ← gets f_mem;
  let fd := lowest_fd (Z.to_nat (MAX_FD - 2)) m fds 2 in
  if MAX_FD <=? fd then mret (-1, None) else
  if negb (flags =? O_RDONLY) then mret (-1, None) else
  r ← lookup_file pathname;
  match r with
  | None => mret (-1, None)
  | Some tmp =>
      fpoke (fun m => set_fd_type fds fd (load32 m (tmp + 32)) m) ;;
      fpoke (fun m => set_fd_length fds fd (load32 m (tmp + 36)) m) ;;
      fpoke (set_fd_dst fds fd 0) ;;
      fpoke (fun m => set_fd_offset fds fd (load64 m (tmp + 48)) m) ;;
      mret (fd, Some 0)
  end.

Definition local_read_char (fd count from : Z) : M fs_state Z :=
  if MAX_FD <? fd then stop_with Halt else
  if (MAX_CPUS <? from) || (from <? 0) then stop_with Halt else
  let to := if fd =? 0 then KBD else CONSOLE in
  fds ← get_fds from;
  if fds =? 0 then mret 0 else
  m ← gets f_mem;
  let channel_addr := fd_offset m fds fd in
  if channel_addr =? 0 then stop_with Halt else
  on_fs (msg_reply from to READ_IPC
    (u64_bytes from ++ u64_bytes channel_addr ++ u64_bytes (w64 count))) ;;
  mret count.

(** [count > length] compares as unsigned 32-bit numbers. *)
Definition local_read_file (fd buf count from : Z) : M fs_state Z :=
  fds ← get_fds from;
  if fds =? 0 then mret 0 else
  m ← gets f_mem;
  let count := if fd_length m fds fd <? w32 count then s32 (fd_length m fds fd) else count in
  s ← get;
  fpoke (fun m => memcpy m buf (w64 (filesystem s + fd_offset m fds fd)) (w64 count)) ;;
  mret count.

Definition get_type (fd from : Z) : M fs_state Z :=
  if (MAX_FD <? fd) || (fd <? 0) then mret (-1) else
  fds ← get_fds from;
  if fds =? 0 then mret (-1) else
  m ← gets f_mem;
  if fd_type m fds fd =? 0 then mret (-1) else mret (s32 (fd_type m fds fd)).

Definition local_read (fd buf count from : Z) : M fs_state Z :=
  type ← get_type fd from;
  if type <? 0 then mret (-1) else
  fds ← get_fds from;
  if fds =? 0 then mret (-1) else
  m ← gets f_mem;
  if fd_type m fds fd =? TYPE_CHAR then local_read_char fd count from
  else if fd_type m fds fd =? TYPE_FILE then local_read_file fd buf count from
  else stop_with Halt.

(** After the error reply the code goes on and forwards the request. *)
Definition local_write (fd buf count from : Z) : M fs_state unit :=
  type ← get_type fd from;
  when ((type =? TYPE_FILE) || negb (fd =? 1))
    (on_fs (msg_reply FS from WRITE_IPC (int_bytes from ++ int_bytes (-1)))) ;;
  on_fs (msg_reply from CONSOLE WRITE_IPC
    (u64_bytes (w64 from) ++ u64_bytes buf ++ u64_bytes (w64 count))).

Definition local_close_char (fd from : Z) : M fs_state Z :=
  p ← fs_cpu_info from;
  id ← of_option (Fault "null cpu_info") p;
  s ← get;
  let fds := vm_fds (vm_info (cpu_at (f_m s) id)) in
  let cnl := fd_offset (f_mem s) fds fd in
  fpoke (fun m => put_bytes m (cnl_data cnl) (u64_bytes CLOSE_CHANNEL)) ;;
  on_fs (cnl_send cnl) ;;
  on_fs (cnl_receive cnl) ;;
  on_fs (msg_send PM CHANNEL_CLOSE_IPC (u64_bytes cnl)) ;;
  on_fs (msg_receive PM) ;;
  s ← get;
  let reply_data := s8 (byte_at (f_mem s) (msg_data (inbox (f_m s) PM))) in
  if negb (reply_data =? 0) then panic "The reply from PM when closing the channel is not 0" else
  fpoke (set_fd_offset (vm_fds (vm_info (cpu_at (f_m s) id))) fd 0) ;;
  let dst := if fd =? 0 then KBD else if fd =? 1 then CONSOLE else JUNK in
  on_fs (msg_reply FS dst CHANNEL_CLOSE_IPC (int_bytes 0)) ;;
  mret 0.

Definition local_close (fd from : Z) : M fs_state Z :=
  if MAX_FD <? fd then mret (-1) else
  fds ← get_fds from;
  if fds =? 0 then mret (-1) else
  m ← gets f_mem;
  when (fd_type m fds fd =? TYPE_CHAR) (local_close_char fd from ;; mret tt) ;;
  fpoke (set_fd_type fds fd 0) ;;
  fpoke (set_fd_length fds fd 0) ;;
  fpoke (set_fd_offset fds fd 0) ;;
  mret 0.

Definition local_load (path : Z) : M fs_state Z :=
  r ← lookup_file path;
  match r with
  | None => mret 0
  | Some tmp => gets (fun s => w64 (filesystem s + load64 (f_mem s) (tmp + 48)))
  end.

(** ** The server loop *)

Definition fs_start : M fs_state unit :=
  modify (fun s => Fs (f_m s) (vm_args (self (f_m s))) (opentmp s) (f_stale s)).

(** [msg_reply (FS, m->from, number, data, size)] *)
Definition fs_reply (msg number : Z) (data : list Z) : M fs_state unit :=
  m ← gets f_mem;
  on_fs (msg_reply FS (s32 (msg_from m msg)) number data).

Definition fs_serve (msg : Z) : M fs_state unit :=
  m ← gets f_mem;
  s0 ← get;
  let stale := f_stale s0 in
  let from := s32 (msg_from m msg) in
  let number := msg_number m msg in
  let data := msg_data msg in
  if number =? OPEN_IPC then
    if is_driver (msg_from m msg) then fs_reply msg OPEN_IPC (int_bytes (-1)) else
    fpoke (fun m => memcpy m (opentmp s0) data OPEN_IPC_SIZE) ;;
    m ← gets f_mem;
    r ← local_open (opentmp s0) (load_int m (opentmp s0 + 32)) from;
    fs_reply msg OPEN_IPC (int_bytes r.1 ++ int_bytes stale ++ u64_bytes (default stale r.2))
  else if number =? READ_IPC then
    let fd := load_int m data in
    r ← local_read fd (load64 m (data + 8)) (load_int m (data + 16)) from;
    type ← get_type fd from;
    when (type =? TYPE_FILE)
      (fs_reply msg READ_IPC (int_bytes stale ++ int_bytes TYPE_FILE ++ int_bytes r ++
         int_bytes stale ++ u64_bytes 0))
  else if number =? CLOSE_IPC then
    r ← local_close (load_int m data) from;
    fs_reply msg CLOSE_IPC (int_bytes r)
  else if number =? LOAD_IPC then
    if negb (msg_from m msg =? PM) then fs_reply msg LOAD_IPC (u64_bytes 0) else
    f ← local_load data;
    fs_reply msg LOAD_IPC (u64_bytes f)
  else if number =? WRITE_IPC then
    local_write (load_int m data) (load64 m (data + 8)) (load_int m (data + 16)) from
  else if number =? READ_ACK then
    on_fs (msg_reply FS (load_int m data) READ_IPC (get_bytes m data 24)) ;;
    m ← gets f_mem;
    on_fs (msg_reply FS KBD READ_IPC (get_bytes m data 24))
  else if number =? WRITE_ACK then
    on_fs (msg_reply FS (load_int m data) WRITE_IPC (get_bytes m data 8)) ;;
    m ← gets f_mem;
    on_fs (msg_reply FS CONSOLE WRITE_IPC (get_bytes m data 8))
  else mret tt.

Definition fs_iteration : M fs_state unit :=
  msg ← on_fs msg_check;
  fs_serve msg.
