(* ===== verification/FsSpec.v ===== *)
(** * Correctness of the file server

    An abstract file system (a list of named files) and what open, read,
    close and load do in terms of it. *)

From S2P Require Import Prelude PhysMem CString MemMgr MemMgrSpec CpuInfo Ipc IpcSpec Channel Pm.
From S2P Require Import Fs.

(** ** The image *)

Record file := File { f_name : list Z; f_type : Z; f_length : Z; f_offset : Z }.

Definition fs_image (s : fs_state) (files : list file) : Prop :=
  num_files s = Z.of_nat (length files) /\
  forall i f, files !! i = Some f ->
    let h := header_at s (Z.of_nat i) in
    cstring (f_mem s) h (f_name f) /\ load32 (f_mem s) (h + 32) = f_type f /\
    load32 (f_mem s) (h + 36) = f_length f /\ load64 (f_mem s) (h + 48) = f_offset f.

(** The first file of that name. *)
Definition find_name (l : list Z) (files : list file) : option (nat * file) :=
  list_find (fun f => f_name f = l) files.

Lemma find_file_spec s files path l n i :
  fs_image s files -> cstring (f_mem s) path l -> (i + n = length files)%nat ->
  (forall j f, (j < i)%nat -> files !! j = Some f -> f_name f <> l) ->
  find_file n s path (Z.of_nat i) =
    Some ((fun '(k, _) => header_at s (Z.of_nat k)) <$> find_name l files).
Proof.
  intros [Hnum Himg] Hp. revert i. induction n as [|n IH]; intros i Hin Hbefore; cbn [find_file].
  - assert (Hnone : find_name l files = None).
    { apply list_find_None, Forall_forall. intros f (j & Hj)%list_elem_of_lookup_1.
      apply (Hbefore j); [apply lookup_lt_Some in Hj; lia | done]. }
    by rewrite Hnone.
  - destruct (lookup_lt_is_Some_2 files i) as [f Hf]; [lia |].
    destruct (Himg i f Hf) as (Hname & _).
    destruct (strcmp_spec (f_mem s) (header_at s (Z.of_nat i)) path (f_name f) l Hname Hp) as [Hcmp Heq].
    rewrite Hcmp. cbn [mbind option_bind]. rewrite Hcmp in Heq.
    destruct (Z.eqb_spec (str_compare (f_name f) l) 0) as [E|E].
    + assert (Hfind : find_name l files = Some (i, f)).
      { apply list_find_Some. split_and!; [done | by apply Heq; rewrite E |]. intros j y Hj Hlt.
        by apply (Hbefore j). }
      by rewrite Hfind.
    + replace (Z.of_nat i + 1) with (Z.of_nat (S i)) by lia.
      apply IH; [lia |]. intros j f' Hj Hf'. destruct (decide (j = i)) as [->|]; [|by apply (Hbefore j); [lia |]].
      assert (f' = f) as -> by congruence. intros Hn. apply E. by apply str_compare_eq.
Qed.

Lemma lookup_file_spec s files path l :
  fs_image s files -> cstring (f_mem s) path l ->
  lookup_file path s = Ok ((fun '(k, _) => header_at s (Z.of_nat k)) <$> find_name l files) s.
Proof.
  intros Himg Hp. pose proof Himg as [Hnum _]. unfold lookup_file. erewrite bind_step by done.
  rewrite (find_file_spec s files path l _ 0 Himg Hp); [done | | lia]. rewrite Hnum. lia.
Qed.

(** C33: [local_load], which finds the program for exec, returns the address of
    the first file with the requested name in the image, or 0 exactly when
    there is none; it terminates on every image and changes nothing. *)
Theorem load_correct s files path l :
  fs_image s files -> cstring (f_mem s) path l ->
  local_load path s = Ok (match find_name l files with
                          | Some (_, f) => w64 (filesystem s + f_offset f)
                          | None => 0
                          end) s.
Proof.
  intros Himg Hp. unfold local_load. erewrite bind_step by (by apply lookup_file_spec).
  destruct (find_name l files) as [[k f]|] eqn:E; [|done]. cbn [fmap option_fmap option_map].
  unfold gets. destruct Himg as [_ Himg]. apply list_find_Some in E as (Hk & _ & _).
  by destruct (Himg k f Hk) as (_ & _ & _ & ->).
Qed.

(** ** Literals *)

Lemma strcmp_lit_spec m p lit l :
  cstring m p l -> Forall (fun c => 0 < c) lit -> (strcmp_lit m p lit = 0 <-> l = lit).
Proof.
  revert p l. induction lit as [|c lit IH]; intros p l Hp Hlit; cbn [strcmp_lit].
  - destruct l as [|c l]; simpl in Hp; [by rewrite Hp |].
    destruct Hp as (-> & Hz & _). destruct (Z.eqb_spec c 0); done.
  - inversion Hlit as [|? ? Hc Hlit']; subst. destruct l as [|c' l]; simpl in Hp.
    + rewrite Hp. destruct (Z.eqb_spec 0 c); [lia |]. simpl. by destruct (0 <? c).
    + destruct Hp as (-> & Hz & Hp). destruct (Z.eqb_spec c' c) as [->|Hne]; simpl.
      * rewrite (IH _ l Hp Hlit'). split; [by intros -> | by intros [= ->]].
      * split; [by destruct (c' <? c) | by intros [= ? _]].
Qed.

(** ** Descriptor tables *)

Lemma lowest_fd_spec n m fds i :
  let r := lowest_fd n m fds i in
  i <= r <= i + Z.of_nat n /\ (forall j, i <= j < r -> fd_offset m fds j <> 0) /\
  (r < i + Z.of_nat n -> fd_offset m fds r = 0).
Proof.
  cbn zeta. revert i. induction n as [|n IH]; intros i; cbn [lowest_fd].
  { split_and!; [lia | lia | intros; lia | lia]. }
  destruct (Z.eqb_spec (fd_offset m fds i) 0) as [E|E].
  { split_and!; [lia | lia | intros; lia | done]. }
  destruct (IH (i + 1)) as (H1 & H2 & H3). split_and!; [lia | lia | |].
  - intros j Hj. destruct (decide (j = i)) as [->|]; [done | apply H2; lia].
  - intros Hr. apply H3. lia.
Qed.

(** The four fields of descriptor [i]. *)
Definition fd_entry (m : memory) (fds i : Z) : Z * Z * Z * Z :=
  (fd_type m fds i, fd_length m fds i, fd_dst m fds i, fd_offset m fds i).

Lemma fd_entry_ext m m' fds i :
  same_on (fun x => fds + FD_SIZE * i <= x < fds + FD_SIZE * i + FD_SIZE) m m' ->
  fd_entry m' fds i = fd_entry m fds i.
Proof.
  intros H. unfold fd_entry, fd_type, fd_length, fd_dst, fd_offset.
  f_equal; [f_equal; [f_equal|]|]; symmetry; apply load_ext; (eapply same_on_mono; [|exact H]); simpl; lia.
Qed.

(** Writing all four fields. *)
Definition write_fd (fds i t l d o : Z) (m : memory) : memory :=
  set_fd_offset fds i o (set_fd_dst fds i d (set_fd_length fds i l (set_fd_type fds i t m))).

Lemma write_fd_entry m fds i t l d o :
  fd_entry (write_fd fds i t l d o m) fds i = (w32 t, w32 l, w64 d, w64 o).
Proof.
  unfold fd_entry, write_fd, fd_type, fd_length, fd_dst, fd_offset,
    set_fd_type, set_fd_length, set_fd_dst, set_fd_offset, load32, load64, store32, store64.
  f_equal; [f_equal; [f_equal|]|]; rewrite ?load_store_ne by lia; rewrite load_store_eq; done.
Qed.

Lemma write_fd_frame m fds i t l d o x :
  ~ (fds + FD_SIZE * i <= x < fds + FD_SIZE * i + FD_SIZE) ->
  byte_at (write_fd fds i t l d o m) x = byte_at m x.
Proof.
  intros Hx. unfold write_fd, set_fd_type, set_fd_length, set_fd_dst, set_fd_offset, store32, store64.
  by rewrite !byte_at_store_out by lia.
Qed.

(** The caller is a known CPU with the table [fds]. *)
Definition client (s : fs_state) (from fds : Z) : Prop :=
  m_self (f_m s) = cpuid (self (f_m s)) /\ 0 <= from <= MAX_CPUS /\
  vm_fds (vm_info (cpu_at (f_m s) from)) = fds.

Lemma get_fds_spec s from fds : client s from fds -> get_fds from s = Ok fds s.
Proof.
  intros (Hs & Hf & Hfds). unfold get_fds. destruct (Z.ltb_spec MAX_CPUS from); [lia |].
  erewrite bind_step.
  2: { unfold fs_cpu_info. rewrite w64_small by lia. destruct (Z.ltb_spec MAX_CPUS from); [lia |].
       by erewrite bind_step by done. }
  cbv iota. unfold gets. rewrite Hs. do 2 f_equal.
  replace (cpuid (self (f_m s)) - cpuid (self (f_m s)) + from) with from by lia. done.
Qed.

Definition fs_with (m : memory) (s : fs_state) : fs_state := set_f_m (set_m_mem m (f_m s)) s.

(** The name is not one of the three devices. *)
Definition regular (l : list Z) : Prop := l <> str_stdin /\ l <> str_stdout /\ l <> str_junkfd.

Lemma regular_cmp m p l :
  cstring m p l -> regular l ->
  (strcmp_lit m p str_stdin =? 0) || (strcmp_lit m p str_stdout =? 0) ||
  (strcmp_lit m p str_junkfd =? 0) = false.
Proof.
  intros Hp (H1 & H2 & H3).
  assert (Hlit : forall lit, Forall (fun c => 0 < c) lit -> l <> lit -> (strcmp_lit m p lit =? 0) = false).
  { intros lit Hpos Hne. apply Z.eqb_neq. by rewrite (strcmp_lit_spec m p lit l Hp Hpos). }
  rewrite !Hlit; [done | ..]; try done; repeat constructor.
Qed.


(** ** Reading *)

Lemma get_type_spec s fd from fds :
  client s from fds -> fds <> 0 -> 0 <= fd <= MAX_FD ->
  get_type fd from s = Ok (if fd_type (f_mem s) fds fd =? 0 then -1
                           else s32 (fd_type (f_mem s) fds fd)) s.
Proof.
  intros Hcl Hfds Hfd. unfold get_type.
  destruct (Z.ltb_spec MAX_FD fd); [lia |]. destruct (Z.ltb_spec fd 0); [lia |]. cbn [orb].
  erewrite bind_step by (by apply get_fds_spec). destruct (Z.eqb_spec fds 0); [done |].
  erewrite bind_step by done. by destruct (_ =? 0).
Qed.

(** C32: reading from an open file copies min(count, length) bytes of the file,
    from its start, to the caller's buffer, returns that number, and changes
    no byte outside the buffer. *)
Theorem read_file_correct s fd buf count from fds :
  client s from fds -> fds <> 0 -> 0 <= fd <= MAX_FD ->
  let m := f_mem s in
  let src := filesystem s + fd_offset m fds fd in
  let n := Z.min count (fd_length m fds fd) in
  fd_type m fds fd = TYPE_FILE -> 0 <= count < 2 ^ 31 -> fd_length m fds fd < 2 ^ 31 ->
  0 <= src < 2 ^ 64 -> src + n <= buf \/ buf + n <= src ->
  exists m', local_read fd buf count from s = Ok n (fs_with m' s) /\
    (forall i, 0 <= i < n -> byte_at m' (buf + i) = byte_at m (src + i)) /\
    same_on (fun x => ~ (buf <= x < buf + n)) m m'.
Proof.
  intros Hcl Hfds Hfd m src n Htype Hcount Hlen Hsrc Hdisj.
  pose proof (load32_bound m (fds + FD_SIZE * fd + 4)) as Hlb. fold (fd_length m fds fd) in Hlb.
  assert (Hn : (if fd_length m fds fd <? w32 count then s32 (fd_length m fds fd) else count) = n).
  { rewrite w32_small by lia. unfold n. destruct (Z.ltb_spec (fd_length m fds fd) count); [|lia].
    rewrite s32_small by lia. lia. }
  exists (memcpy m buf src n). split_and!.
  - assert (Ht : get_type fd from s = Ok TYPE_FILE s)
      by (rewrite (get_type_spec s fd from fds) by done; fold m; by rewrite Htype).
    unfold local_read. erewrite bind_step by exact Ht. change (TYPE_FILE <? 0) with false. cbv iota.
    erewrite bind_step by (by apply get_fds_spec). destruct (Z.eqb_spec fds 0); [done |].
    erewrite bind_step by done. fold m. rewrite Htype.
    change (TYPE_FILE =? TYPE_CHAR) with false. change (TYPE_FILE =? TYPE_FILE) with true. cbv iota.
    unfold local_read_file. erewrite bind_step by (by apply get_fds_spec).
    destruct (Z.eqb_spec fds 0); [done |]. erewrite bind_step by done. fold m. cbv zeta. rewrite Hn.
    erewrite bind_step by done. erewrite bind_step by done. unfold mret, M_ret. do 2 f_equal.
    unfold fs_with. do 2 f_equal. change (m_mem (f_m s)) with m.
    unfold src. rewrite (w64_small (filesystem s + _)), (w64_small n) by (unfold src in *; lia). done.
  - intros i Hi. rewrite byte_at_memcpy, decide_True by (done || lia). f_equal. lia.
  - intros x Hx. by rewrite byte_at_memcpy, decide_False.
Qed.

(** A read request with a descriptor out of range is never answered: the
    server computes -1 but replies only to files, so no memory changes and the
    client waits forever. *)
Theorem read_bad_fd_silent s msg :
  let m := f_mem s in
  let fd := load_int m (msg_data msg) in
  msg_number m msg = READ_IPC -> fd < 0 \/ MAX_FD < fd -> fs_serve msg s = Ok tt s.
Proof.
  intros m fd Hnum Hfd.
  assert (Hbad : (MAX_FD <? fd) || (fd <? 0) = true).
  { destruct (Z.ltb_spec MAX_FD fd), (Z.ltb_spec fd 0); done || lia. }
  assert (Htype : forall from, get_type fd from s = Ok (-1) s)
    by (intros from; unfold get_type; by rewrite Hbad).
  unfold fs_serve. do 2 erewrite bind_step by done. fold m. rewrite Hnum. cbn [Z.eqb Pos.eqb]. cbv zeta. fold fd.
  erewrite bind_step; [|unfold local_read; erewrite bind_step by apply Htype; done].
  erewrite bind_step by apply Htype. done.
Qed.

(** ** Closing *)

(** Closing a descriptor of a regular file returns 0 and frees exactly
    that descriptor, which the next open may return again: it then is the
    lowest free one if all lower ones are in use. *)
Theorem close_correct s fd from fds :
  client s from fds -> fds <> 0 -> 2 <= fd < MAX_FD -> fd_type (f_mem s) fds fd <> TYPE_CHAR ->
  exists m', local_close fd from s = Ok 0 (fs_with m' s) /\
    fd_entry m' fds fd = (0, 0, fd_dst (f_mem s) fds fd, 0) /\
    (forall j, j <> fd -> fd_entry m' fds j = fd_entry (f_mem s) fds j) /\
    ((forall j, 2 <= j < fd -> fd_offset (f_mem s) fds j <> 0) -> lowest_fd 30 m' fds 2 = fd).
Proof.
  intros Hcl Hfds Hfd Htype.
  set (m' := set_fd_offset fds fd 0 (set_fd_length fds fd 0 (set_fd_type fds fd 0 (f_mem s)))).
  assert (Hentry : fd_entry m' fds fd = (0, 0, fd_dst (f_mem s) fds fd, 0)).
  { unfold m', fd_entry, fd_type, fd_length, fd_dst, fd_offset, set_fd_type, set_fd_length, set_fd_offset,
      load32, load64, store32, store64.
    f_equal; [f_equal; [f_equal|]|]; rewrite ?load_store_ne by lia; try rewrite load_store_eq; done. }
  assert (Hother : forall j, j <> fd -> fd_entry m' fds j = fd_entry (f_mem s) fds j).
  { intros j Hj. apply fd_entry_ext. intros x Hx. symmetry.
    unfold m', set_fd_type, set_fd_length, set_fd_offset, store32, store64.
    by rewrite !byte_at_store_out by lia. }
  exists m'. split_and!; [| done | done |].
  - unfold local_close. destruct (Z.ltb_spec MAX_FD fd); [lia |].
    erewrite bind_step by (by apply get_fds_spec). destruct (Z.eqb_spec fds 0); [done |].
    erewrite bind_step by done. destruct (Z.eqb_spec (fd_type (f_mem s) fds fd) TYPE_CHAR); [done |].
    cbn [when]. by do 4 erewrite bind_step by done.
  - intros Hbusy. destruct (lowest_fd_spec 30 m' fds 2) as (Hr & Hlow & Hzero).
    set (r := lowest_fd 30 m' fds 2) in *.
    assert (Hfree : fd_offset m' fds fd = 0) by (by injection Hentry).
    destruct (Z.lt_trichotomy r fd) as [Hlt|[?|Hgt]]; [exfalso | done | exfalso].
    + specialize (Hother r ltac:(lia)). injection Hother as _ _ _ Ho. apply (Hbusy r); [lia |].
      rewrite <-Ho. apply Hzero. lia.
    + by apply (Hlow fd); [lia |].
Qed.

(** ** Writing *)

(** A write to anything but descriptor 1 is both refused and performed:
    the client's inbox receives the error reply, and the console driver's
    inbox receives the request all the same. *)
Theorem write_error_forwards n ib ob rb s fd buf count from fds :
  ipc_layout n ib ob rb (f_m s) -> m_self (f_m s) = FS -> CONSOLE < n ->
  client s from fds -> fds <> 0 -> 0 <= fd <= MAX_FD -> fd <> 1 -> 0 <= from < n -> from <> CONSOLE ->
  exists m', local_write fd buf count from s = Ok tt (fs_with m' s) /\
    message_at m' (box_addr ib from FS) FS WRITE_IPC (int_bytes from ++ int_bytes (-1)) /\
    message_at m' (box_addr ib CONSOLE from) from WRITE_IPC
      (u64_bytes (w64 from) ++ u64_bytes buf ++ u64_bytes (w64 count)).
Proof.
  intros Hlay Hself Hcon Hcl Hfds Hfd Hne Hfrom Hnc.
  assert (H31 : n <= 31) by apply Hlay.
  assert (Hbytes : forall k v, Forall is_byte (le_bytes k v)).
  { induction k as [|k IH]; intros v; constructor; [apply w8_bound | apply IH]. }
  destruct (msg_reply_spec n ib ob rb (f_m s) FS from WRITE_IPC (int_bytes from ++ int_bytes (-1)))
    as (m1 & Hr1 & Hm1 & _); try done; [rewrite Hself; lia | by rewrite Forall_app |].
  set (s1 := set_f_m (set_m_mem m1 (f_m s)) s).
  assert (Hlay1 : ipc_layout n ib ob rb (f_m s1)) by (destruct Hlay; by split).
  destruct (msg_reply_spec n ib ob rb (f_m s1) from CONSOLE WRITE_IPC
    (u64_bytes (w64 from) ++ u64_bytes buf ++ u64_bytes (w64 count))) as (m2 & Hr2 & Hm2 & Hsame); try done.
  { simpl. rewrite Hself. lia. }
  { lia. }
  { by rewrite !Forall_app. }
  exists m2. split_and!.
  - unfold local_write. erewrite bind_step by (by apply get_type_spec).
    destruct (Z.eqb_spec fd 1); [done |]. rewrite orb_true_r. cbn [when].
    erewrite bind_step by (unfold on_fs, zoom; by rewrite Hr1). unfold on_fs, zoom.
    fold s1. by rewrite Hr2.
  - eapply message_at_ext; [simpl; lia | | exact Hm1].
    intros x Hx. apply Hsame. unfold box_addr in *. lia.
  - exact Hm2.
Qed.

(** ** The path of exec *)

(** Exec hands the file server only 8 bytes of the program's path: for a
    name of 8 characters or more the rest of what the server reads is left
    over from an earlier message, and unless it happens to continue the name,
    the string the server looks up is not the path. *)
Theorem exec_path_truncated n ib ob rb s path l :
  ipc_layout n ib ob rb s -> m_self s = PM -> 1 < n -> cstring (m_mem s) path l ->
  (8 <= length l)%nat -> byte_at (m_mem s) (ob + 16 + 8) <> default 0 (l !! 8%nat) ->
  exists s', msg_send FS LOAD_IPC (get_bytes (m_mem s) path 8) s = Ok tt s' /\
    ~ cstring (m_mem s') (msg_data ob) l.
Proof.
  intros Hlay Hself Hn Hp Hlen Hstale.
  pose proof Hlay as [H31 Hcpu Hs Hlow Hord].
  destruct (Hcpu _ Hs) as (Hid & _ & _ & Hout & Hbm).
  change (cpu_at s (m_self s)) with (self s) in *. rewrite Hself in *. replace (ob + 4096 * PM) with ob in Hout by lia.
  destruct (set_bit_word_spec (load64 (m_mem s) (rb + 8 * FS)) PM) as (w' & Hw' & _); [lia |].
  set (data := get_bytes (m_mem s) path 8).
  assert (Hdl : Z.of_nat (length data) = 8) by (unfold data; by rewrite length_get_bytes).
  set (m1 := put_bytes (store64 (store64 (m_mem s) ob PM) (ob + 8) LOAD_IPC) (msg_data ob) data).
  assert (Hword : load64 m1 (rb + 8 * FS) = load64 (m_mem s) (rb + 8 * FS)).
  { apply load_ext. intros x Hx. apply write_message_frame; [lia | lia]. }
  exists (set_m_mem (store64 m1 (rb + 8 * FS) w') s). split.
  - unfold msg_send. do 4 erewrite bind_step by done. rewrite Hid, Hout, Hbm. unfold set_bit.
    erewrite bind_step by done. cbn [m_mem set_m_mem]. fold data m1. by rewrite Hword, Hw'.
  - cbn [m_mem set_m_mem]. intros Hc.
    assert (Hb : byte_at (store64 m1 (rb + 8 * FS) w') (msg_data ob + 8) = byte_at (m_mem s) (ob + 16 + 8)).
    { unfold store64 at 1. rewrite byte_at_store_out by (unfold msg_data; lia). unfold m1.
      rewrite byte_at_put_bytes, decide_False by (unfold msg_data; lia). unfold store64.
      rewrite !byte_at_store_out by (unfold msg_data; lia). done. }
    apply Hstale. rewrite <-Hb. destruct (decide (length l = 8%nat)) as [E|].
    + pose proof (cstring_end _ _ _ Hc) as He. rewrite E in He. rewrite lookup_ge_None_2 by lia. exact He.
    + rewrite (cstring_lookup _ _ _ 8 Hc) by lia. done.
Qed.
