(* ===== verification/Initrd.v ===== *)
(** * The image writer (initrd/create_initrd.c)

    The host program that writes the file system image: the number of files,
    a header for each (56 bytes: name, type, length, destination, offset),
    then the contents.  [files] is the host's file system; its contents do
    not change while the program runs.  The image is the list of bytes
    written so far. *)

From S2P Require Import Prelude PhysMem CString MemMgr CpuInfo Ipc Channel Pm Fs.

Abbreviation MAX := 0x400000.

(** [basename]: what follows the last slash, trailing slashes left out. *)
Definition slash : Z := 47.
Fixpoint strip_slashes (rev_path : list Z) : list Z :=
  match rev_path with
  | [] => []
  | c :: r => if c =? slash then strip_slashes r else rev_path
  end.
Fixpoint until_slash (l : list Z) : list Z :=
  match l with
  | [] => []
  | c :: r => if c =? slash then [] else c :: until_slash r
  end.
Definition basename (path : list Z) : list Z :=
  match path with
  | [] => [46]
  | _ =>
      match strip_slashes (reverse path) with
      | [] => [slash]
      | r => reverse (until_slash r)
      end
  end.

(** The local variables that live across statements: the name field of
    [h_tmp] (32 bytes, uninitialised at first), [off], and the image. *)
Record writer := Writer {
  h_name : list Z;
  w_off : Z;
  initrd : list Z
}.
Definition set_h_name (x : list Z) (s : writer) : writer := Writer x (w_off s) (initrd s).
Definition set_w_off (x : Z) (s : writer) : writer := Writer (h_name s) x (initrd s).
Definition fwrite (bytes : list Z) : M writer unit :=
  modify (fun s => Writer (h_name s) (w_off s) (initrd s ++ bytes)).

(** [strcpy (h_tmp.name, name)] into 32 bytes. *)
Definition set_name (name : list Z) : M writer unit :=
  if 32 <=? Z.of_nat (length name) then stop_with (Fault "h_tmp.name") else
  modify (fun s => set_h_name (name ++ [0] ++ drop (S (length name)) (h_name s)) s).

(** [fwrite (&h_tmp, sizeof (struct header), 1, initrd)] *)
Definition write_header (type length dst offset : Z) : M writer unit :=
  s ← get;
  fwrite (h_name s ++ int_bytes type ++ int_bytes length ++ u64_bytes dst ++ u64_bytes offset).

Section Writer.
Context (files : list Z -> option (list Z)).

(** One file in the loop over the headers; [false] is [exit (1)].  [off] is an
    [int], the length a [uint32_t]. *)
Definition header_of (arg : list Z) : M writer bool :=
  match files arg with
  | None => mret false
  | Some contents =>
      let len := s32 (Z.of_nat (length contents)) in
      if MAX <? len then mret false else
      set_name (basename arg) ;;
      off ← gets w_off;
      modify (set_w_off (s32 (w32 (off + w32 len)))) ;;
      write_header TYPE_FILE len 0 (w64 off) ;;
      mret true
  end.
Fixpoint write_headers (args : list (list Z)) : M writer bool :=
  match args with
  | [] => mret true
  | arg :: args' => ok ← header_of arg; if (ok : bool) then write_headers args' else mret false
  end.

(** One file in the loop over the contents; a negative [len] reads more than
    the buffer holds. *)
Definition contents_of (arg : list Z) : M writer unit :=
  contents ← of_option (Fault "null FILE") (files arg);
  let len := s32 (Z.of_nat (length contents)) in
  if (len <? 0) || (MAX <? len) then stop_with (Fault "buffer") else
  fwrite contents.

(** [main]; [args] are [argv[1]] and following, the result is the exit status. *)
Definition create_initrd (args : list (list Z)) : M writer Z :=
  let normal_files := Z.of_nat (length args) in
  let total_files := normal_files + 2 in
  modify (set_w_off (HEADER_SIZE * total_files + 4)) ;;
  if normal_files =? 0 then mret 1 else
  fwrite (int_bytes total_files) ;;
  set_name str_stdin ;;
  write_header TYPE_CHAR 0 0 0 ;;
  set_name str_stdout ;;
  write_header TYPE_CHAR 0 0 0 ;;
  ok ← write_headers args;
  if negb (ok : bool) then mret 1 else
  forM args contents_of ;;
  mret 0.
End Writer.
