(* ===== verification/InitrdSpec.v ===== *)
(** * The image writer and the file server agree

    What create_initrd.c writes is what vms/fs/main.c reads: in any memory
    that holds the image, the file server's view of it is the list of files
    given to the writer, and each file's contents are where its header says. *)

From S2P Require Import Prelude PhysMem CString MemMgr MemMgrSpec CpuInfo Ipc IpcSpec Channel Pm.
From S2P Require Import Fs FsSpec Initrd.

(** ** Bytes of the image *)

Lemma text_at_app_inv m a l1 l2 :
  text_at m a (l1 ++ l2) -> text_at m a l1 /\ text_at m (a + Z.of_nat (length l1)) l2.
Proof.
  intros H. split; intros i c Hi.
  - apply H. by apply lookup_app_l_Some.
  - rewrite <-Z.add_assoc, <-Nat2Z.inj_add. apply H.
    rewrite lookup_app_r by lia. by replace (length l1 + i - length l1)%nat with i by lia.
Qed.

Lemma text_at_get m a l : get_bytes m a (length l) = l -> text_at m a l.
Proof.
  intros H i c Hi. rewrite <-H in Hi. unfold get_bytes in Hi.
  apply list_lookup_fmap_Some in Hi as (j & -> & Hj). apply lookup_seqZ in Hj as [-> _]. by f_equal.
Qed.

Lemma text_at_cons_inv m a c l : text_at m a (c :: l) -> byte_at m a = c /\ text_at m (a + 1) l.
Proof.
  intros H. apply (text_at_app_inv m a [c] l) in H as [H1 H2]. split; [|done].
  rewrite <-(H1 0%nat c); [by rewrite Z.add_0_r | done].
Qed.

(** The [i]-th of a sequence of records of the same size. *)
Lemma text_at_concat m a k hs i h :
  Forall (fun h => length h = k) hs -> text_at m a (concat hs) -> hs !! i = Some h ->
  text_at m (a + Z.of_nat (i * k)) h.
Proof.
  revert a i. induction hs as [|h0 hs IH]; intros a i Hk Ht Hi; [done |].
  apply Forall_cons in Hk as [Hk0 Hk]. apply text_at_app_inv in Ht as [Ht0 Ht].
  destruct i as [|i]; simplify_eq/=; [by rewrite Z.add_0_r |].
  replace (a + Z.of_nat (length h0 + i * length h0)) with (a + Z.of_nat (length h0) + Z.of_nat (i * length h0)) by lia.
  by apply IH.
Qed.

Lemma length_le_bytes n v : length (le_bytes n v) = n.
Proof. revert v. induction n as [|n IH]; intros v; [done |]. simpl. by rewrite IH. Qed.

(** An integer field reads back as the integer written. *)
Lemma load_text n m a v : text_at m a (le_bytes n v) -> load n m a = v mod 2 ^ (8 * Z.of_nat n).
Proof.
  revert a v. induction n as [|n IH]; intros a v Ht.
  { simpl. by rewrite Z.mod_1_r. }
  cbn [le_bytes] in Ht. apply text_at_cons_inv in Ht as [Hb Ht]. cbn [load].
  rewrite (IH _ _ Ht), Hb. unfold w8.
  replace (2 ^ (8 * Z.of_nat (S n))) with (2 ^ 8 * 2 ^ (8 * Z.of_nat n))
    by (rewrite <-Z.pow_add_r by lia; f_equal; lia).
  rewrite Z.rem_mul_r by lia. lia.
Qed.

Lemma cstring_text m a l pad :
  text_at m a (l ++ 0 :: pad) -> Forall (fun c => c <> 0) l -> cstring m a l.
Proof.
  revert a. induction l as [|c l IH]; intros a Ht Hl; cbn [app cstring] in *;
    apply text_at_cons_inv in Ht as [Hb Ht]; [done |].
  apply Forall_cons in Hl as [Hc Hl]. split_and!; [done | done |]. by apply IH.
Qed.

(** ** The abstract image *)

(** The bytes of a header for [f]; what follows the name's terminator is left
    open. *)
Definition header_bytes (f : file) (h : list Z) : Prop :=
  exists pad, h = f_name f ++ (0 :: pad) ++ int_bytes (f_type f) ++ int_bytes (f_length f) ++
                  u64_bytes 0 ++ u64_bytes (f_offset f) /\
    (length (f_name f) + S (length pad) = 32)%nat.

Lemma header_length f h : header_bytes f h -> length h = 56%nat.
Proof. intros (pad & -> & Hl). rewrite !length_app, !length_le_bytes. simpl. lia. Qed.

(** A header in memory is what the file server looks for. *)
Lemma header_read m a f h :
  header_bytes f h -> text_at m a h -> Forall (fun c => c <> 0) (f_name f) ->
  cstring m a (f_name f) /\ load32 m (a + 32) = w32 (f_type f) /\
  load32 m (a + 36) = w32 (f_length f) /\ load64 m (a + 48) = w64 (f_offset f).
Proof.
  intros (pad & -> & Hl) Ht Hn. rewrite app_assoc in Ht.
  apply text_at_app_inv in Ht as [Hname Ht]. rewrite length_app in Ht. cbn [length] in Ht.
  replace (a + Z.of_nat (length (f_name f) + S (length pad))) with (a + 32) in Ht by lia.
  apply text_at_app_inv in Ht as [Htype Ht]. apply text_at_app_inv in Ht as [Hlen Ht].
  apply text_at_app_inv in Ht as [_ Hoff]. rewrite !length_le_bytes in *.
  split_and!; [by apply (cstring_text _ _ _ pad) | by apply (load_text 4) | |].
  - replace (a + 36) with (a + 32 + Z.of_nat 4) by lia. by apply (load_text 4).
  - replace (a + 48) with (a + 32 + Z.of_nat 4 + Z.of_nat 4 + Z.of_nat 8) by lia. by apply (load_text 8).
Qed.

Section Files.
Context (files : list Z -> option (list Z)).

Definition contents (arg : list Z) : list Z := default [] (files arg).
Lemma contents_some arg c : files arg = Some c -> contents arg = c.
Proof. unfold contents. by intros ->. Qed.
Definition size_of (args : list (list Z)) : Z := Z.of_nat (length (concat (contents <$> args))).

(** A file the writer accepts. *)
Definition arg_ok (arg : list Z) : Prop :=
  is_Some (files arg) /\ Z.of_nat (length (contents arg)) <= MAX /\
  Forall (fun c => c <> 0) (basename arg) /\ (length (basename arg) < 32)%nat.

(** The headers of the files, laid out one behind the other from [off] on. *)
Fixpoint layout (off : Z) (args : list (list Z)) : list file :=
  match args with
  | [] => []
  | arg :: args' =>
      let len := Z.of_nat (length (contents arg)) in
      File (basename arg) TYPE_FILE len off :: layout (off + len) args'
  end.

Lemma size_of_cons arg args : size_of (arg :: args) = Z.of_nat (length (contents arg)) + size_of args.
Proof. unfold size_of. cbn [fmap list_fmap concat]. rewrite length_app. lia. Qed.

Lemma length_layout off args : length (layout off args) = length args.
Proof. revert off. induction args as [|a l IH]; intros off; [done |]. simpl. by rewrite IH. Qed.

(** Naming a header keeps 32 bytes. *)
Lemma set_name_spec name s :
  (length name < 32)%nat -> length (h_name s) = 32%nat ->
  wp (set_name name) s (fun _ s' =>
    exists pad, h_name s' = name ++ 0 :: pad /\ (length name + S (length pad) = 32)%nat /\
      w_off s' = w_off s /\ initrd s' = initrd s).
Proof.
  intros Hn Hs. unfold set_name. destruct (Z.leb_spec 32 (Z.of_nat (length name))); [lia |].
  apply post_modify. exists (drop (S (length name)) (h_name s)).
  split_and!; [done | rewrite length_drop; lia | done | done].
Qed.

(** A named header, written. *)
Lemma write_named f s :
  (length (f_name f) < 32)%nat -> length (h_name s) = 32%nat ->
  wp (set_name (f_name f) ;; write_header (f_type f) (f_length f) 0 (f_offset f)) s (fun _ s' =>
    exists h, header_bytes f h /\ initrd s' = initrd s ++ h /\ length (h_name s') = 32%nat /\
      w_off s' = w_off s).
Proof.
  intros Hn Hs. apply post_bind. eapply post_mono; [by apply set_name_spec |].
  intros [] s1 _ (pad & Hname & Hl & Hoff & Hi). unfold write_header. apply post_bind.
  unfold post at 1. cbn [get]. apply post_modify. cbn [h_name w_off initrd]. rewrite Hname, Hi.
  eexists. refine (conj _ (conj eq_refl (conj _ Hoff))); [|rewrite length_app; simpl; lia].
  exists pad. split; [by rewrite <-app_assoc | done].
Qed.

(** The order of the two steps between naming and writing does not matter. *)
Lemma header_of_spec arg s off :
  arg_ok arg -> length (h_name s) = 32%nat -> w_off s = off -> 0 <= off ->
  off + Z.of_nat (length (contents arg)) < 2 ^ 31 ->
  wp (header_of files arg) s (fun ok s' => ok = true /\
    exists h, header_bytes (File (basename arg) TYPE_FILE (Z.of_nat (length (contents arg))) off) h /\
      initrd s' = initrd s ++ h /\ length (h_name s') = 32%nat /\
      w_off s' = off + Z.of_nat (length (contents arg))).
Proof.
  intros ([c Hc] & Hmax & Hz & Hn) Hs Ho Hoff Hsum. unfold header_of.
  rewrite (contents_some arg c Hc) in *. rewrite Hc. rewrite (s32_small (Z.of_nat (length c))) by lia.
  destruct (Z.ltb_spec MAX (Z.of_nat (length c))); [lia |].
  apply post_bind. eapply post_mono; [by apply set_name_spec |].
  intros [] s1 _ (pad & Hname & Hl & Hoff1 & Hi). apply post_bind, post_gets.
  apply post_bind, post_modify. unfold write_header. apply post_bind, post_bind. unfold post at 1.
  cbn [get]. apply post_modify. apply post_ret. cbn [h_name w_off initrd set_w_off].
  rewrite Hoff1, Ho, Hname, Hi, (w32_small (Z.of_nat (length c))) by lia.
  rewrite w32_small, s32_small, w64_small by lia. split; [done |].
  eexists. refine (conj _ (conj eq_refl (conj _ eq_refl))); [|rewrite length_app; simpl; lia].
  exists pad. split; [by rewrite <-app_assoc | done].
Qed.

Lemma write_headers_spec args : forall s off,
  Forall arg_ok args -> length (h_name s) = 32%nat -> w_off s = off -> 0 <= off ->
  off + size_of args < 2 ^ 31 ->
  wp (write_headers files args) s (fun ok s' => ok = true /\
    exists hs, Forall2 header_bytes (layout off args) hs /\ initrd s' = initrd s ++ concat hs).
Proof.
  induction args as [|arg args IH]; intros s off Hok Hs Ho Hoff Hsum; cbn [write_headers layout].
  { apply post_ret. split; [done |]. exists []. by rewrite app_nil_r. }
  apply Forall_cons in Hok as [Ha Hok]. rewrite size_of_cons in Hsum.
  apply post_bind. eapply post_mono; [apply (header_of_spec arg s off); try done; unfold size_of in *; lia |].
  intros ok s1 _ (-> & h & Hh & Hi & Hs1 & Ho1). cbv iota.
  eapply post_mono; [apply (IH s1 (off + Z.of_nat (length (contents arg)))); try done; lia |].
  intros ok s2 _ (-> & hs & Hhs & Hi2). split; [done |]. exists (h :: hs).
  split; [by constructor |]. by rewrite Hi2, Hi, <-app_assoc.
Qed.

Lemma write_contents_spec args : forall s,
  Forall arg_ok args ->
  wp (forM args (contents_of files)) s (fun _ s' =>
    initrd s' = initrd s ++ concat (contents <$> args)).
Proof.
  induction args as [|arg args IH]; intros s Hok; cbn [forM].
  { apply (post_ret _ tt). by rewrite app_nil_r. }
  apply Forall_cons in Hok as [([c Hc] & Hmax & _) Hok].
  rewrite (contents_some arg c Hc) in Hmax. apply post_bind. unfold contents_of at 1. rewrite Hc.
  apply post_bind. unfold post at 1. cbn [of_option mret M_ret].
  rewrite s32_small by lia. destruct (Z.ltb_spec (Z.of_nat (length c)) 0); [lia |].
  destruct (Z.ltb_spec MAX (Z.of_nat (length c))); [lia |]. cbn [orb]. apply post_modify.
  eapply post_mono; [by apply IH |]. intros [] s' _ ->. cbn [initrd fmap list_fmap concat].
  by rewrite (contents_some arg c Hc), <-app_assoc.
Qed.

(** The files of the image: the two devices, then the arguments. *)
Definition first_offset (args : list (list Z)) : Z := HEADER_SIZE * (Z.of_nat (length args) + 2) + 4.
Definition image_files (args : list (list Z)) : list file :=
  File str_stdin TYPE_CHAR 0 0 :: File str_stdout TYPE_CHAR 0 0 :: layout (first_offset args) args.

Lemma create_initrd_spec args s :
  Forall arg_ok args -> args <> [] -> length (h_name s) = 32%nat -> initrd s = [] ->
  first_offset args + size_of args < 2 ^ 31 ->
  wp (create_initrd files args) s (fun r s' => r = 0 /\
    exists hs, Forall2 header_bytes (image_files args) hs /\
      initrd s' = int_bytes (Z.of_nat (length args) + 2) ++ concat hs ++ concat (contents <$> args)).
Proof.
  intros Hok Hne Hs Hi Hsum. unfold create_initrd. apply post_bind, post_modify.
  destruct (Z.eqb_spec (Z.of_nat (length args)) 0); [by destruct args |].
  apply post_bind, post_modify.
  set (s1 := Writer _ _ _).
  assert (Hdev : forall f s (k : M writer Z) Q, (length (f_name f) < 32)%nat -> length (h_name s) = 32%nat ->
    (forall s', (exists h, header_bytes f h /\ initrd s' = initrd s ++ h /\ length (h_name s') = 32%nat /\
      w_off s' = w_off s) -> wp k s' Q) ->
    wp (set_name (f_name f) ;; write_header (f_type f) (f_length f) 0 (f_offset f) ;; k) s Q).
  { intros f s' k' Q Hf Hs' Hk. pose proof (write_named f s' Hf Hs') as Hw.
    apply post_bind_inv in Hw. apply post_bind. eapply post_mono; [exact Hw |]. intros [] s2 _ Hw2.
    apply post_bind. eapply post_mono; [exact Hw2 |]. intros [] s3 _ Hw3. by apply Hk. }
  apply (Hdev (File str_stdin TYPE_CHAR 0 0) s1); [simpl; lia | done |].
  intros s2 (h1 & Hh1 & Hi1 & Hs2 & Ho2).
  apply (Hdev (File str_stdout TYPE_CHAR 0 0) s2); [simpl; lia | done |].
  intros s3 (h2 & Hh2 & Hi2 & Hs3 & Ho3). apply post_bind.
  assert (Ho : w_off s3 = first_offset args) by (rewrite Ho3, Ho2; done).
  eapply post_mono; [apply (write_headers_spec args s3 (first_offset args)); try done; unfold first_offset; lia |].
  intros ok s4 _ (-> & hs & Hhs & Hi4). cbn [negb]. cbv iota. apply post_bind.
  eapply post_mono; [by apply write_contents_spec |]. intros [] s5 _ Hi5. apply post_ret. split; [done |].
  exists (h1 :: h2 :: hs). split; [by repeat constructor |].
  rewrite Hi5, Hi4, Hi2, Hi1. unfold s1. cbn [initrd set_w_off]. rewrite Hi. cbn [concat app].
  by rewrite <-!app_assoc.
Qed.

(** ** Reading the image *)

(** Where the file of argument [i] is, and that its contents are there. *)
Lemma layout_lookup args off i f :
  layout off args !! i = Some f -> exists arg, args !! i = Some arg /\
    f = File (basename arg) TYPE_FILE (Z.of_nat (length (contents arg))) (off + size_of (take i args)).
Proof.
  revert off i. induction args as [|arg args IH]; intros off i Hi; [done |].
  destruct i as [|i]; cbn [layout lookup list_lookup] in Hi.
  - injection Hi as <-. exists arg. split; [done |]. f_equal. unfold size_of. simpl. lia.
  - apply IH in Hi as (a & Ha & ->). exists a. split; [done |]. cbn [take].
    rewrite size_of_cons. f_equal. lia.
Qed.

Lemma contents_at m a args i arg :
  text_at m a (concat (contents <$> args)) -> args !! i = Some arg ->
  text_at m (a + size_of (take i args)) (contents arg).
Proof.
  revert a i. induction args as [|arg' args IH]; intros a i Ht Hi; [done |].
  cbn [fmap list_fmap concat] in Ht. apply text_at_app_inv in Ht as [Ht0 Ht].
  destruct i as [|i]; cbn [lookup list_lookup take] in *.
  - injection Hi as ->. by rewrite Z.add_0_r.
  - rewrite size_of_cons, Z.add_assoc. by apply IH.
Qed.

Lemma size_of_take args i arg :
  args !! i = Some arg -> size_of (take i args) + Z.of_nat (length (contents arg)) <= size_of args.
Proof.
  revert i. induction args as [|arg' args IH]; intros i Hi; [done |].
  destruct i as [|i]; cbn [lookup list_lookup take] in *.
  - injection Hi as ->. rewrite size_of_cons. unfold size_of. simpl. lia.
  - rewrite !size_of_cons. specialize (IH _ Hi). lia.
Qed.

Lemma image_file_ok args f :
  Forall arg_ok args -> first_offset args + size_of args < 2 ^ 31 -> f ∈ image_files args ->
  Forall (fun c => c <> 0) (f_name f) /\ 0 <= f_type f < 2 ^ 32 /\ 0 <= f_length f < 2 ^ 32 /\
  0 <= f_offset f < 2 ^ 64.
Proof.
  intros Hok Hsum Hf. unfold image_files in Hf. rewrite !elem_of_cons in Hf.
  destruct Hf as [-> | [-> | (i & Hi)%list_elem_of_lookup_1]];
    [split_and!; simpl; try lia; repeat constructor; lia .. |].
  apply layout_lookup in Hi as (arg & Ha & ->).
  destruct (Forall_lookup_1 _ _ _ _ Hok Ha) as (_ & Hmax & Hz & _).
  pose proof (size_of_take _ _ _ Ha). unfold first_offset, size_of in *.
  split_and!; simpl; try lia. done.
Qed.

(** The view the file server has of a written image. *)
Lemma image_read args hs fs :
  Forall arg_ok args -> (length args <= 125)%nat -> first_offset args + size_of args < 2 ^ 31 ->
  Forall2 header_bytes (image_files args) hs ->
  text_at (f_mem fs) (filesystem fs)
    (int_bytes (Z.of_nat (length args) + 2) ++ concat hs ++ concat (contents <$> args)) ->
  fs_image fs (image_files args) /\
  forall i arg, args !! i = Some arg ->
    text_at (f_mem fs) (filesystem fs + first_offset args + size_of (take i args)) (contents arg).
Proof.
  intros Hok Hn Hsum Hhs Ht. apply text_at_app_inv in Ht as [Hnum Ht].
  apply text_at_app_inv in Ht as [Hh Hc]. rewrite length_le_bytes in *.
  assert (Hlen : Forall (fun h => length h = 56%nat) hs).
  { apply Forall_forall. intros h (i & Hi)%list_elem_of_lookup_1.
    destruct (Forall2_lookup_r _ _ _ _ _ Hhs Hi) as (f & _ & Hf). by eapply header_length. }
  assert (Hl : length hs = (length args + 2)%nat).
  { rewrite <-(Forall2_length _ _ _ Hhs). unfold image_files. cbn [length]. rewrite length_layout. lia. }
  split.
  - split.
    + unfold num_files. cbn [le_bytes] in Hnum. apply text_at_cons_inv in Hnum as [-> _].
      unfold image_files. cbn [length]. rewrite length_layout. unfold w8, s8.
      rewrite (Z.mod_small (Z.of_nat (length args) + 2)) by lia. rewrite Z.mod_small by lia. lia.
    + intros i f Hf. cbn zeta. destruct (Forall2_lookup_l _ _ _ _ _ Hhs Hf) as (h & Hi & Hfh).
      destruct (image_file_ok args f Hok Hsum) as (Hz & H1 & H2 & H3); [by eapply list_elem_of_lookup_2 |].
      replace (header_at fs (Z.of_nat i)) with (filesystem fs + Z.of_nat 4 + Z.of_nat (i * 56))
        by (unfold header_at; lia).
      pose proof (text_at_concat _ _ _ _ _ _ Hlen Hh Hi) as Hat.
      destruct (header_read _ _ _ _ Hfh Hat Hz) as (? & -> & -> & ->).
      by rewrite !w32_small, w64_small by done.
  - intros i arg Ha. replace (filesystem fs + first_offset args)
      with (filesystem fs + Z.of_nat 4 + Z.of_nat (length (concat hs))).
    + by apply contents_at.
    + assert (Z.of_nat (length (concat hs)) = 56 * Z.of_nat (length hs)).
      { clear -Hlen. induction Hlen as [|h hs Hh _ IH]; [done |]. cbn [concat length]. rewrite length_app. lia. }
      unfold first_offset. lia.
Qed.

Lemma find_name_layout l off args i arg :
  args !! i = Some arg -> basename arg = l ->
  (forall j arg', (j < i)%nat -> args !! j = Some arg' -> basename arg' <> l) ->
  find_name l (layout off args) =
    Some (i, File l TYPE_FILE (Z.of_nat (length (contents arg))) (off + size_of (take i args))).
Proof.
  intros Ha Hl Hbefore. apply list_find_Some. split_and!.
  - destruct (lookup_lt_is_Some_2 (layout off args) i) as [f Hf];
      [rewrite length_layout; by eapply lookup_lt_Some |].
    rewrite Hf. apply layout_lookup in Hf as (arg' & Ha' & ->). congruence.
  - done.
  - intros j f Hj Hlt. apply layout_lookup in Hj as (arg' & Ha' & ->). by apply (Hbefore j).
Qed.

(** C30: the image writer and the file server agree: for up to 125 existing
    files with base names of fewer than 32 characters and together less than
    2GB, create_initrd succeeds, and in any memory that holds its image,
    looking up the base name of a file finds the first file given with that
    name: the address returned is that of its contents, byte for byte. *)
Theorem image_load_roundtrip args s :
  Forall arg_ok args -> args <> [] -> (length args <= 125)%nat ->
  first_offset args + size_of args < 2 ^ 31 -> length (h_name s) = 32%nat -> initrd s = [] ->
  exists s', create_initrd files args s = Ok 0 s' /\
    forall fs path i arg, text_at (f_mem fs) (filesystem fs) (initrd s') ->
      0 <= filesystem fs -> filesystem fs + 2 ^ 31 <= 2 ^ 64 ->
      args !! i = Some arg -> regular (basename arg) -> cstring (f_mem fs) path (basename arg) ->
      (forall j arg', (j < i)%nat -> args !! j = Some arg' -> basename arg' <> basename arg) ->
      exists p, local_load path fs = Ok p fs /\ p <> 0 /\ text_at (f_mem fs) p (contents arg).
Proof.
  intros Hok Hne Hn Hsum Hs Hi.
  destruct (wp_elim _ _ _ (create_initrd_spec args s Hok Hne Hs Hi Hsum)) as (r & s' & Hrun & -> & hs & Hhs & Himg).
  exists s'. split; [done |]. intros fs path i arg Ht Hfs Hfs' Ha (Hr1 & Hr2 & _) Hp Hfirst.
  rewrite Himg in Ht. destruct (image_read args hs fs Hok Hn Hsum Hhs Ht) as [Hview Hcont].
  pose proof (find_name_layout (basename arg) (first_offset args) args i arg Ha eq_refl Hfirst) as Hf.
  assert (Hfind : find_name (basename arg) (image_files args) =
    Some (S (S i), File (basename arg) TYPE_FILE (Z.of_nat (length (contents arg))) (first_offset args + size_of (take i args)))).
  { unfold find_name, image_files in *. cbn [list_find]. rewrite !decide_False by (simpl; congruence).
    by rewrite Hf. }
  unfold local_load. erewrite bind_step by (by apply lookup_file_spec).
  rewrite Hfind. cbn [fmap option_fmap option_map]. destruct Hview as [_ Hview].
  apply list_find_Some in Hfind as (Hk & _ & _). destruct (Hview _ _ Hk) as (_ & _ & _ & Hoff).
  eexists. unfold gets. rewrite Hoff. cbn [f_offset]. split; [done |].
  pose proof (size_of_take _ _ _ Ha). assert (0 <= size_of (take i args)) by (unfold size_of; lia).
  rewrite w64_small by (unfold first_offset in *; lia).
  split; [unfold first_offset; lia |]. rewrite Z.add_assoc. by apply Hcont.
Qed.
End Files.
