(* ===== verification/Thread.v ===== *)
(** * User-level threads (lib/thread/thread.c, lib/include/frame.h)

    Preemptive threads inside one program: a linked list of [thread_t] in
    memory, and a timer interrupt that saves the interrupted thread's
    registers in a frame on its stack and continues another thread from the
    frame it left.  What a thread does between two interrupts is arbitrary;
    the segment registers, which every thread shares, are left out, and no
    further timer interrupt arrives while the handler runs. *)

From S2P Require Import Prelude PhysMem MemMgr.

(** The registers the timer interrupt saves and the switch restores. *)
Inductive reg :=
| RDI | RSI | RDX | RCX | R8 | R9 | RAX | RBX | RBP | R10 | R11 | R12 | R13 | R14 | R15
| RIP | RFLAGS | RSP.
#[global] Instance reg_eq_dec : EqDecision reg.
Proof. solve_decision. Defined.

(** Offsets in [struct intr_stack_frame]. *)
Definition tf_offset (r : reg) : Z :=
  match r with
  | RDI => 0 | RSI => 8 | RDX => 16 | RCX => 24 | R8 => 32 | R9 => 40 | RAX => 48 | RBX => 56
  | RBP => 64 | R10 => 72 | R11 => 80 | R12 => 88 | R13 => 96 | R14 => 104 | R15 => 112
  | RIP => 176 | RFLAGS => 192 | RSP => 200
  end.
Abbreviation FRAME_SIZE := 216.

Definition context : Type := reg -> Z.

Inductive sched := DefaultSched | UserSched (f : Z).

(** The static variables of thread.c, memory, the running thread's registers
    and the number of interrupts acknowledged. *)
Record threads := Threads {
  t_mem : memory;
  main_thread : Z;
  head : Z;
  last : Z;
  current : Z;
  scheduler : sched;
  t_ctx : context;
  t_eois : Z
}.
Definition set_t_mem (v : memory) (s : threads) : threads :=
  Threads v (main_thread s) (head s) (last s) (current s) (scheduler s) (t_ctx s) (t_eois s).
Definition set_last (v : Z) (s : threads) : threads :=
  Threads (t_mem s) (main_thread s) (head s) v (current s) (scheduler s) (t_ctx s) (t_eois s).
Definition set_current (v : Z) (s : threads) : threads :=
  Threads (t_mem s) (main_thread s) (head s) (last s) v (scheduler s) (t_ctx s) (t_eois s).
Definition set_scheduler (v : sched) (s : threads) : threads :=
  Threads (t_mem s) (main_thread s) (head s) (last s) (current s) v (t_ctx s) (t_eois s).
Definition set_t_ctx (v : context) (s : threads) : threads :=
  Threads (t_mem s) (main_thread s) (head s) (last s) (current s) (scheduler s) v (t_eois s).
Definition poke_t (f : memory -> memory) : M threads unit :=
  modify (fun s => set_t_mem (f (t_mem s)) s).

(** [lapic_eoi ()]. *)
Definition eoi : M threads unit :=
  modify (fun s => Threads (t_mem s) (main_thread s) (head s) (last s) (current s) (scheduler s)
                     (t_ctx s) (t_eois s + 1)).

(** The fields of a [thread_t]: [regs] at 0, [nxt] at 8. *)
Definition regs_of (m : memory) (t : Z) : Z := load64 m t.
Definition nxt_of (m : memory) (t : Z) : Z := load64 m (t + 8).

Definition save (m : memory) (fr : Z) (r : reg) (v : Z) : memory := store64 m (fr + tf_offset r) v.
Definition restore (m : memory) (fr : Z) : context := fun r => load64 m (fr + tf_offset r).

Definition default_scheduler : M threads Z :=
  s ← get;
  let t := if negb (nxt_of (t_mem s) (current s) =? 0) then nxt_of (t_mem s) (current s) else head s in
  modify (set_current t) ;;
  mret t.

Section Handler.
(** A scheduler installed by the program. *)
Context (user_scheduler : Z -> M threads Z).

Definition call_scheduler : M threads Z :=
  k ← gets scheduler;
  match k with
  | DefaultSched => default_scheduler
  | UserSched f => user_scheduler f
  end.

(** [true] when the handler has switched to another thread and does not
    return.  The inline assembly loads the registers from the next thread's
    frame, pushes its instruction pointer on its stack, acknowledges the
    interrupt and pops the pointer again. *)
Definition thread_switch_handler (current_regs : Z) : M threads bool :=
  s ← get;
  if head s =? last s then eoi ;; mret false else
  poke_t (fun m => store64 m (current s) current_regs) ;;
  next ← call_scheduler;
  modify (set_current next) ;;
  s ← get;
  let ctx := restore (t_mem s) (regs_of (t_mem s) next) in
  poke_t (fun m => store64 m (w64 (ctx RSP - 8)) (ctx RIP)) ;;
  eoi ;;
  modify (set_t_ctx ctx) ;;
  mret true.

(** The interrupt: the processor aligns the stack and pushes the last five
    words of the frame ([ss] and [cs] are the same for every thread),
    [PUSH_FRAME] saves the rest; when the handler returns, [POP_FRAME] and
    [iretq] restore the registers. *)
Definition frame_addr (c : context) : Z := w64 (Z.land (c RSP) (Z.lnot 15) - FRAME_SIZE).
Definition frame_regs : list reg :=
  [RSP; RFLAGS; RIP; RDI; RSI; RDX; RCX; R8; R9; RAX; RBX; RBP; R10; R11; R12; R13; R14; R15].
Definition push_frame (fr : Z) (c : context) (m : memory) : memory :=
  foldl (fun m r => save m fr r (c r)) m frame_regs.
Definition timer_interrupt : M threads unit :=
  s ← get;
  let fr := frame_addr (t_ctx s) in
  poke_t (push_frame fr (t_ctx s)) ;;
  switched ← thread_switch_handler fr;
  when (negb (switched : bool)) (modify (fun s => set_t_ctx (restore (t_mem s) fr) s)).
End Handler.

(** 0x2 | RFLAGS_IF *)
Abbreviation THREAD_RFLAGS := 0x202.

(** [thread] is the address of the caller's [thread_t]. *)
Definition thread_create (thread routine stack stack_size : Z) : M threads unit :=
  s ← get;
  if (head s =? 0) || (last s =? 0) then panic "thread library is not initialized yet" else
  let rsp := w64 (stack + stack_size) in
  let fr := w64 (rsp - FRAME_SIZE) in
  poke_t (fun m => store64 m thread fr) ;;
  poke_t (fun m => save m fr RIP routine) ;;
  poke_t (fun m => save m fr RSP rsp) ;;
  poke_t (fun m => save m fr RBP (load64 m (fr + tf_offset RSP))) ;;
  poke_t (fun m => save m fr RFLAGS THREAD_RFLAGS) ;;
  poke_t (fun m => store64 m (thread + 8) 0) ;;
  poke_t (fun m => store64 m (last s + 8) thread) ;;
  modify (set_last thread).

Definition thread_set_scheduler (new_scheduler : sched) : M threads unit :=
  s ← get;
  if (head s =? 0) || (last s =? 0) then panic "thread library is not initialized yet" else
  modify (set_scheduler new_scheduler).

(** The assignments of [thread_init]; the calls that follow them are in
    [ThreadTimer]. *)
Definition thread_init : M threads unit :=
  s ← get;
  let t := main_thread s in
  poke_t (fun m => store64 m (t + 8) 0) ;;
  modify (fun s => Threads (t_mem s) t t t t DefaultSched (t_ctx s) (t_eois s)).
