(* ===== verification/ThreadSpec.v ===== *)
(** * Correctness of the thread library

    An abstract scheduler (one saved context per thread, threads served in
    turn) and the proof that the linked list, the frames on the threads'
    stacks and the timer interrupt implement it. *)

From S2P Require Import Prelude PhysMem MemMgr Thread.

(** ** Frames *)

Lemma tf_offset_range r : 0 <= tf_offset r /\ tf_offset r + 8 <= FRAME_SIZE.
Proof. destruct r; simpl; lia. Qed.

Lemma tf_offset_sep r r' : r <> r' -> tf_offset r + 8 <= tf_offset r' \/ tf_offset r' + 8 <= tf_offset r.
Proof. destruct r, r'; simpl; try done; lia. Qed.

Lemma restore_save m fr r v r' :
  restore (save m fr r v) fr r' = if decide (r = r') then w64 v else restore m fr r'.
Proof.
  unfold restore, save. case_decide as E.
  - subst. apply load64_store64_eq.
  - apply load64_store64_ne. pose proof (tf_offset_sep r r' E). lia.
Qed.

Abbreviation outside := (fun a len x => ~ (a <= x < a + len)).

Lemma store64_frame m a v : same_on (outside a 8) (store64 m a v) m.
Proof. intros x Hx. apply (byte_at_store_out 8). simpl. lia. Qed.

Lemma save_frame m fr r v : same_on (outside fr FRAME_SIZE) (save m fr r v) m.
Proof.
  eapply same_on_mono; [|apply store64_frame]. intros x Hx.
  pose proof (tf_offset_range r). cbn beta in *. lia.
Qed.

Lemma restore_ext m m' fr r :
  same_on (fun x => fr <= x < fr + FRAME_SIZE) m m' -> restore m' fr r = restore m fr r.
Proof.
  intros H. unfold restore, load64. symmetry. apply load_ext. eapply same_on_mono; [|exact H].
  intros x Hx. pose proof (tf_offset_range r). cbn beta in *. lia.
Qed.

Lemma load64_ext m m' a : same_on (fun x => a <= x < a + 8) m m' -> load64 m' a = load64 m a.
Proof.
  intros H. unfold load64. symmetry. apply load_ext. eapply same_on_mono; [|exact H].
  intros x Hx. cbn beta in *. lia.
Qed.

Lemma push_regs_frame fr c l m :
  same_on (outside fr FRAME_SIZE) (foldl (fun m r => save m fr r (c r)) m l) m.
Proof.
  revert m. induction l as [|r l IH]; intros m; [done |]. cbn [foldl].
  etransitivity; [apply IH | apply save_frame].
Qed.

Lemma push_regs_restore fr (c : context) l m r :
  restore (foldl (fun m r => save m fr r (c r)) m l) fr r =
  if decide (r ∈ l) then w64 (c r) else restore m fr r.
Proof.
  revert m. induction l as [|r0 l IH]; intros m; cbn [foldl].
  { by rewrite decide_False by set_solver. }
  rewrite IH, restore_save. repeat case_decide; subst; try done; set_solver.
Qed.

Lemma push_frame_restore fr c m r : restore (push_frame fr c m) fr r = w64 (c r).
Proof.
  unfold push_frame. rewrite push_regs_restore, decide_True; [done |]. destruct r; set_solver.
Qed.

(** ** Threads and their stacks *)

(** A thread: its [thread_t] and the bounds of its stack. *)
Record tdesc := TDesc { node : Z; lo : Z; hi : Z }.

Definition in_node (d : tdesc) (x : Z) : Prop := node d <= x < node d + 16.
Definition in_stack (d : tdesc) (x : Z) : Prop := lo d <= x < hi d.

(** The areas of all threads are disjoint and below 2^64. *)
Record areas_ok (ts : list tdesc) : Prop := AreasOk {
  area_range : forall d, d ∈ ts -> 0 < node d /\ node d + 16 <= 2 ^ 64 /\ 0 <= lo d /\ hi d < 2 ^ 64;
  area_nodes : forall i j d e, i <> j -> ts !! i = Some d -> ts !! j = Some e ->
    node d + 16 <= node e \/ node e + 16 <= node d;
  area_stacks : forall i j d e, i <> j -> ts !! i = Some d -> ts !! j = Some e ->
    hi d <= lo e \/ hi e <= lo d;
  area_mixed : forall d e, d ∈ ts -> e ∈ ts -> hi d <= node e \/ node e + 16 <= lo d
}.

(** Register values that leave room for a frame on the thread's stack. *)
Definition context_ok (d : tdesc) (c : context) : Prop :=
  lo d + FRAME_SIZE + 16 <= c RSP <= hi d /\ forall r, 0 <= c r < 2 ^ 64.

(** [c] is saved in a frame on the thread's stack. *)
Definition suspended (m : memory) (d : tdesc) (c : context) : Prop :=
  exists fr, regs_of m (node d) = fr /\ lo d <= fr /\ fr + FRAME_SIZE <= hi d /\
    context_ok d c /\ forall r, restore m fr r = c r.

Definition linked (m : memory) (ts : list tdesc) : Prop :=
  forall i d, ts !! i = Some d ->
    nxt_of m (node d) = match ts !! S i with Some e => node e | None => 0 end.

(** The abstract state: the contexts, and which thread runs. *)
Record abstract := Abs { a_ctx : list context; a_cur : nat }.

Record inv (ts : list tdesc) (s : threads) (a : abstract) : Prop := Inv {
  inv_areas : areas_ok ts;
  inv_length : length (a_ctx a) = length ts;
  inv_linked : linked (t_mem s) ts;
  inv_head : node <$> ts !! 0%nat = Some (head s);
  inv_last : node <$> ts !! pred (length ts) = Some (last s);
  inv_current : node <$> ts !! a_cur a = Some (current s);
  inv_sched : scheduler s = DefaultSched;
  inv_running : forall d c, ts !! a_cur a = Some d -> a_ctx a !! a_cur a = Some c ->
    context_ok d c /\ forall r, t_ctx s r = c r;
  inv_suspended : forall j d c, j <> a_cur a -> ts !! j = Some d -> a_ctx a !! j = Some c ->
    suspended (t_mem s) d c
}.

(** What the running thread [i] leaves alone: the list and other stacks. *)
Definition protected (ts : list tdesc) (i : nat) (x : Z) : Prop :=
  (exists d, d ∈ ts /\ in_node d x) \/ (exists j d, j <> i /\ ts !! j = Some d /\ in_stack d x).

Lemma linked_ext ts m m' :
  same_on (fun x => exists d, d ∈ ts /\ node d + 8 <= x < node d + 16) m m' ->
  linked m ts -> linked m' ts.
Proof.
  intros Hs H i d Hd. rewrite <-(H i d Hd). unfold nxt_of. apply load64_ext.
  eapply same_on_mono; [|exact Hs]. intros x Hx. exists d.
  split; [by eapply list_elem_of_lookup_2 | lia].
Qed.

Lemma suspended_ext m m' d c :
  same_on (fun x => in_node d x \/ in_stack d x) m m' -> suspended m d c -> suspended m' d c.
Proof.
  intros Hs (fr & Hr & Hlo & Hhi & Hc & Hres). exists fr. split_and!; [|done|done|done|].
  - rewrite <-Hr. apply load64_ext. eapply same_on_mono; [|exact Hs]. unfold in_node. lia.
  - intros r. rewrite <-Hres. apply restore_ext. eapply same_on_mono; [|exact Hs]. unfold in_stack. lia.
Qed.

Lemma frame_addr_bounds d c :
  context_ok d c -> 0 <= lo d -> hi d < 2 ^ 64 ->
  lo d <= frame_addr c /\ frame_addr c + FRAME_SIZE <= c RSP.
Proof.
  intros (Hsp & _) Hlo Hhi. unfold frame_addr. change 15 with (2 ^ 4 - 1).
  rewrite land_lnot_low by lia. pose proof (Z.mod_pos_bound (c RSP) (2 ^ 4)).
  rewrite w64_small by lia. lia.
Qed.

(** ** The timer interrupt *)

(** The thread after the [i]-th, in turn. *)
Lemma next_thread (ts : list tdesc) i d :
  ts !! i = Some d -> exists j e, j = (S i mod length ts)%nat /\ ts !! j = Some e /\
    (match ts !! S i with Some e' => e' = e | None => ts !! 0%nat = Some e end) /\
    (j = i -> length ts = 1%nat).
Proof.
  intros Hi. pose proof (lookup_lt_Some _ _ _ Hi) as Hlt.
  destruct (decide (S i = length ts)) as [E|E].
  - destruct (lookup_lt_is_Some_2 ts 0) as [e He]; [lia |].
    exists 0%nat, e. rewrite E, Nat.Div0.mod_same. rewrite (lookup_ge_None_2 ts (length ts)) by lia.
    split_and!; [done | done | done | lia].
  - destruct (lookup_lt_is_Some_2 ts (S i)) as [e He]; [lia |]. exists (S i), e.
    rewrite Nat.mod_small by lia. rewrite He. split_and!; [done | done | done | lia].
Qed.

Lemma single_thread ts s a :
  inv ts s a -> head s = last s <-> length ts = 1%nat.
Proof.
  intros H. destruct (inv_areas _ _ _ H) as [_ Hn _ _].
  pose proof (inv_head _ _ _ H) as Hh. pose proof (inv_last _ _ _ H) as Hl.
  apply fmap_Some in Hh as (d & Hd & ->). apply fmap_Some in Hl as (e & He & ->).
  pose proof (lookup_lt_Some _ _ _ He). split.
  - intros E. destruct (decide (length ts = 1%nat)); [done |].
    destruct (Hn 0%nat (pred (length ts)) d e); [lia | done | done | lia | lia].
  - intros E. rewrite E in He. simpl in He. congruence.
Qed.

(** Memory after a switch from thread [d], whose frame is at [fr], to [e]. *)
Definition switched_mem (m : memory) (d : tdesc) (c : context) (fr rsp rip : Z) : memory :=
  store64 (store64 (push_frame fr c m) (node d) fr) (rsp - 8) rip.

Lemma switched_frame m d c fr rsp rip :
  same_on (fun x => ~ (fr <= x < fr + FRAME_SIZE) /\ ~ (node d <= x < node d + 8) /\
                    ~ (rsp - 8 <= x < rsp)) m (switched_mem m d c fr rsp rip).
Proof.
  intros x (H1 & H2 & H3). unfold switched_mem.
  rewrite store64_frame by lia. rewrite store64_frame by lia. symmetry. by apply push_regs_frame.
Qed.

Section Switch.
Context (ts : list tdesc) (m : memory) (i j : nat) (d e : tdesc) (c ce : context).
Hypothesis (Hareas : areas_ok ts) (Hij : i <> j).
Hypothesis (Hd : ts !! i = Some d) (He : ts !! j = Some e).
Hypothesis (Hc : context_ok d c) (Hce : context_ok e ce).
Let fr := frame_addr c.
Let m' := switched_mem m d c fr (ce RSP) (ce RIP).

Lemma switch_ranges :
  lo d <= fr /\ fr + FRAME_SIZE <= hi d /\ lo e <= ce RSP - 8 /\ ce RSP <= hi e /\
  0 <= fr < 2 ^ 64.
Proof.
  destruct (area_range _ Hareas d) as (_ & _ & ? & ?); [by eapply list_elem_of_lookup_2 |].
  destruct (frame_addr_bounds d c) as [? ?]; [done | done | done |].
  destruct Hc as [? _], Hce as [? _]. unfold fr. lia.
Qed.

(** Nothing of a third thread changes. *)
Lemma switch_third k f : k <> i -> k <> j -> ts !! k = Some f ->
  same_on (fun x => in_node f x \/ in_stack f x) m m'.
Proof.
  intros Hki Hkj Hf. eapply same_on_mono; [|apply switched_frame]. intros x Hx.
  pose proof switch_ranges as (? & ? & ? & ? & ?).
  pose proof (list_elem_of_lookup_2 _ _ _ Hd). pose proof (list_elem_of_lookup_2 _ _ _ He).
  pose proof (list_elem_of_lookup_2 _ _ _ Hf).
  pose proof (area_nodes _ Hareas k i f d Hki Hf Hd). pose proof (area_stacks _ Hareas k i f d Hki Hf Hd).
  pose proof (area_stacks _ Hareas k j f e Hkj Hf He).
  pose proof (area_mixed _ Hareas d f ltac:(done) ltac:(done)). pose proof (area_mixed _ Hareas e f ltac:(done) ltac:(done)).
  pose proof (area_mixed _ Hareas f d ltac:(done) ltac:(done)).
  unfold in_node, in_stack in Hx. lia.
Qed.

(** Before the jump: the frame is pushed and recorded. *)
Let m2 := store64 (push_frame fr c m) (node d) fr.

Lemma mid_frame : same_on (fun x => ~ in_stack d x /\ ~ (node d <= x < node d + 8)) m m2.
Proof.
  pose proof switch_ranges as (? & ? & _). intros x [H1 H2]. unfold m2. rewrite store64_frame by lia.
  symmetry. apply push_regs_frame. unfold in_stack in H1. lia.
Qed.

Lemma mid_suspended : suspended m e ce -> suspended m2 e ce.
Proof.
  apply suspended_ext. eapply same_on_mono; [|apply mid_frame]. intros x Hx.
  pose proof (list_elem_of_lookup_2 _ _ _ Hd) as Hin. pose proof (list_elem_of_lookup_2 _ _ _ He) as Hin'.
  pose proof (area_nodes _ Hareas i j d e Hij Hd He). pose proof (area_stacks _ Hareas i j d e Hij Hd He).
  pose proof (area_mixed _ Hareas d e Hin Hin'). pose proof (area_mixed _ Hareas e d Hin' Hin).
  unfold in_node, in_stack in *. lia.
Qed.

Lemma mid_linked : linked m ts -> linked m2 ts.
Proof.
  apply linked_ext. eapply same_on_mono; [|apply mid_frame]. intros x (f & Hf & Hx).
  pose proof (area_mixed _ Hareas d f (list_elem_of_lookup_2 _ _ _ Hd) Hf).
  apply list_elem_of_lookup_1 in Hf as (k & Hk). unfold in_stack.
  destruct (decide (k = i)) as [->|Hki]; [assert (f = d) as -> by congruence; lia |].
  pose proof (area_nodes _ Hareas k i f d Hki Hk Hd). lia.
Qed.

(** The thread switched away from is suspended with its registers. *)
Lemma switch_saves : suspended m' d c.
Proof.
  pose proof switch_ranges as (Hlo & Hhi & Hlo' & Hhi' & Hfr).
  pose proof (list_elem_of_lookup_2 _ _ _ Hd) as Hin. pose proof (list_elem_of_lookup_2 _ _ _ He) as Hin'.
  pose proof (area_stacks _ Hareas i j d e Hij Hd He).
  pose proof (area_mixed _ Hareas d d Hin Hin). pose proof (area_mixed _ Hareas e d Hin' Hin).
  exists fr. split_and!; [| done | done | done |].
  - unfold regs_of, m', switched_mem. rewrite load64_store64_ne by lia.
    by rewrite load64_store64_eq, w64_small.
  - intros r. rewrite (restore_ext (push_frame fr c m)).
    + rewrite push_frame_restore. apply w64_small. apply Hc.
    + intros x Hx. unfold m', switched_mem.
      rewrite store64_frame by lia. by rewrite store64_frame by lia.
Qed.

Lemma switch_linked : linked m ts -> linked m' ts.
Proof.
  apply linked_ext. eapply same_on_mono; [|apply switched_frame].
  intros x (f & Hf & Hx). pose proof switch_ranges as (? & ? & ? & ? & ?).
  pose proof (list_elem_of_lookup_2 _ _ _ Hd) as Hin. pose proof (list_elem_of_lookup_2 _ _ _ He) as Hin'.
  pose proof (area_mixed _ Hareas d f Hin Hf). pose proof (area_mixed _ Hareas e f Hin' Hf).
  apply list_elem_of_lookup_1 in Hf as (k & Hk). destruct (decide (k = i)) as [->|Hki].
  - assert (f = d) as -> by congruence. lia.
  - pose proof (area_nodes _ Hareas k i f d Hki Hk Hd). lia.
Qed.
End Switch.

(** The interrupt of the only thread continues it. *)
Lemma tick_single us ts s a :
  inv ts s a -> length ts = 1%nat ->
  wp (timer_interrupt us) s (fun _ s' => inv ts s' a /\ t_eois s' = t_eois s + 1).
Proof.
  intros H Hn. pose proof (proj2 (single_thread _ _ _ H) Hn) as Hhl.
  destruct H as [Hareas Hlen Hlink Hhead Hlast Hcur Hsched Hrun Hsusp].
  pose proof Hcur as Hcur'. apply fmap_Some in Hcur' as (d & Hd & Ec).
  assert (Hi : a_cur a = 0%nat) by (apply lookup_lt_Some in Hd; lia).
  destruct (lookup_lt_is_Some_2 (a_ctx a) (a_cur a)) as [c Hc]; [lia |].
  destruct (Hrun d c Hd Hc) as [Hok Hctx].
  unfold timer_interrupt. apply post_bind. unfold post at 1. cbn [get].
  apply post_bind, post_modify, post_bind. unfold thread_switch_handler. apply post_bind. unfold post at 1.
  cbn [get head last set_t_mem]. rewrite Hhl, Z.eqb_refl. apply post_bind, post_modify, post_ret.
  cbn [negb when]. apply post_modify. cbn -[push_frame frame_addr restore]. split; [|done].
  assert (Hframe : lo d <= frame_addr (t_ctx s) /\ frame_addr (t_ctx s) + FRAME_SIZE <= hi d).
  { destruct (area_range _ Hareas d) as (_ & _ & ? & ?); [by eapply list_elem_of_lookup_2 |].
    unfold frame_addr. rewrite Hctx. fold (frame_addr c).
    destruct (frame_addr_bounds d c Hok) as [? ?]; [done | done |]. destruct Hok as [? _]. lia. }
  split; try done; cbn -[push_frame frame_addr restore].
  - eapply linked_ext; [|exact Hlink]. symmetry. eapply same_on_mono; [|apply push_regs_frame].
    intros x (f & Hf & Hx). pose proof (area_mixed _ Hareas d f (list_elem_of_lookup_2 _ _ _ Hd) Hf).
    cbn beta. lia.
  - intros d' c' Hd' Hc'. assert (d' = d) as -> by congruence. assert (c' = c) as -> by congruence.
    split; [done |]. intros r. rewrite push_frame_restore, Hctx. apply w64_small, Hok.
  - intros j d' c' Hj Hd'. apply lookup_lt_Some in Hd'. lia.
Qed.

(** The scheduler picks the next thread in turn. *)
Lemma scheduler_spec us ts s i d e :
  linked (t_mem s) ts -> areas_ok ts -> scheduler s = DefaultSched ->
  ts !! i = Some d -> current s = node d -> node <$> ts !! 0%nat = Some (head s) ->
  (match ts !! S i with Some e' => e' = e | None => ts !! 0%nat = Some e end) ->
  call_scheduler us s = Ok (node e) (set_current (node e) s).
Proof.
  intros Hlink Hareas Hs Hd Hcur Hhead He. unfold call_scheduler.
  unfold mbind at 1, M_bind, gets. rewrite Hs. unfold default_scheduler, mbind, M_bind, get, modify, mret, M_ret.
  rewrite Hcur, (Hlink i d Hd). destruct (ts !! S i) as [e'|] eqn:E.
  - subst e'. destruct (area_range _ Hareas e) as [? _]; [by eapply list_elem_of_lookup_2 |].
    destruct (Z.eqb_spec (node e) 0); [lia |]. done.
  - rewrite He in Hhead. injection Hhead as ->. done.
Qed.

(** With several threads it suspends the running one and resumes the next. *)
Lemma tick_switch us ts s cs i :
  inv ts s (Abs cs i) -> length ts <> 1%nat ->
  wp (timer_interrupt us) s (fun _ s' =>
    inv ts s' (Abs cs (S i mod length ts)) /\ t_eois s' = t_eois s + 1).
Proof.
  intros H Hn. assert (Hhl : head s <> last s) by (by rewrite (single_thread _ _ _ H)).
  destruct H as [Hareas Hlen Hlink Hhead Hlast Hcur Hsched Hrun Hsusp]. cbn [a_ctx a_cur] in *.
  apply fmap_Some in Hcur as (d & Hd & Ec). destruct (next_thread ts i d Hd) as (j & e & -> & He & Hnext & Hone).
  set (j := (S i mod length ts)%nat) in *. assert (Hij : i <> j) by (intros E; by apply Hn, Hone).
  destruct (lookup_lt_is_Some_2 cs i) as [c Hc]; [rewrite Hlen; by eapply lookup_lt_Some |].
  destruct (lookup_lt_is_Some_2 cs j) as [ce Hce]; [rewrite Hlen; by eapply lookup_lt_Some |].
  destruct (Hrun d c Hd Hc) as [Hok Hctx]. pose proof (Hsusp j e ce (not_eq_sym Hij) He Hce) as Hse.
  assert (Hoke : context_ok e ce) by (by destruct Hse as (? & _ & _ & _ & ? & _)).
  pose proof (switch_ranges ts i j d e c ce Hareas Hij Hd Hok Hoke) as (Hf1 & Hf2 & Hf3 & Hf4 & Hf5).
  assert (Hfr : frame_addr (t_ctx s) = frame_addr c) by (unfold frame_addr; by rewrite Hctx).
  assert (Hpush : forall fr m, push_frame fr (t_ctx s) m = push_frame fr c m).
  { intros fr m. unfold push_frame, frame_regs. cbn [foldl]. by rewrite !Hctx. }
  set (m2 := store64 (push_frame (frame_addr c) c (t_mem s)) (node d) (frame_addr c)).
  destruct (mid_suspended ts (t_mem s) i j d e c ce Hareas Hij Hd He Hok Hoke Hse)
    as (fre & Hre2 & _ & _ & _ & Hres2).
  pose proof (mid_linked ts (t_mem s) i j d e c ce Hareas Hij Hd Hok Hoke Hlink) as Hlink2.
  fold m2 in Hre2, Hres2, Hlink2.
  unfold timer_interrupt. apply post_bind. unfold post at 1. cbn [get].
  apply post_bind, post_modify, post_bind. unfold thread_switch_handler. apply post_bind. unfold post at 1.
  cbn [get head last set_t_mem]. destruct (Z.eqb_spec (head s) (last s)); [done |].
  apply post_bind, post_modify. cbn [current set_t_mem t_mem]. rewrite Hfr, Hpush, Ec.
  change (store64 (push_frame (frame_addr c) c (t_mem s)) (node d) (frame_addr c)) with m2.
  apply post_bind. unfold post at 1. erewrite (scheduler_spec us ts _ i d e); [|done .. ].
  apply post_bind, post_modify, post_bind. unfold post at 1. cbn [get].
  cbn [t_mem set_current set_t_mem]. rewrite Hre2. apply post_bind, post_modify.
  apply post_bind, post_modify. apply post_bind, post_modify, post_ret. cbn [negb when]. apply post_ret.
  cbn [t_eois]. split; [|done]. rewrite !Hres2, (w64_small (ce RSP - 8)).
  2: { destruct (area_range _ Hareas e) as (_ & _ & ? & ?); [by eapply list_elem_of_lookup_2 | lia]. }
  change (store64 m2 (ce RSP - 8) (ce RIP)) with (switched_mem (t_mem s) d c (frame_addr c) (ce RSP) (ce RIP)).
  split; cbn [a_ctx a_cur t_mem head last current scheduler t_ctx]; try done.
  - apply (switch_linked ts (t_mem s) i j d e c ce); done.
  - by rewrite He.
  - intros d' c' Hd' Hc'. assert (d' = e) as -> by congruence. by assert (c' = ce) as -> by congruence.
  - intros k f cf Hk Hf Hcf. destruct (decide (k = i)) as [->|Hki].
    + assert (f = d) as -> by congruence. assert (cf = c) as -> by congruence. apply (switch_saves ts (t_mem s) i j d e c ce); done.
    + eapply suspended_ext; [apply (switch_third ts (t_mem s) i j d e c ce) with k; done |]. by apply (Hsusp k).
Qed.

(** ** The abstract scheduler *)

(** The running thread computes, or the next one in turn takes over with the
    registers it was left with. *)
Inductive astep : abstract -> abstract -> Prop :=
| a_run cs i c : astep (Abs cs i) (Abs (<[i := c]> cs) i)
| a_tick cs i : astep (Abs cs i) (Abs cs (S i mod length cs)).

Section Steps.
Context (us : Z -> M threads Z) (ts : list tdesc).

(** The program: the running thread, whose stack pointer stays on its stack,
    changes its registers and any memory that is not another thread's; or the
    timer interrupts it. *)
Inductive tstep : threads -> threads -> Prop :=
| t_run s m c i d :
    ts !! i = Some d -> current s = node d -> context_ok d c ->
    same_on (protected ts i) (t_mem s) m -> tstep s (set_t_ctx c (set_t_mem m s))
| t_tick s s' : timer_interrupt us s = Ok tt s' -> tstep s s'.

Lemma node_unique i j d e :
  areas_ok ts -> ts !! i = Some d -> ts !! j = Some e -> node d = node e -> i = j.
Proof.
  intros H Hi Hj E. destruct (decide (i = j)); [done |].
  pose proof (area_nodes _ H i j d e ltac:(done) Hi Hj). lia.
Qed.

Lemma run_inv s m c i d cs :
  inv ts s (Abs cs i) -> ts !! i = Some d -> context_ok d c -> same_on (protected ts i) (t_mem s) m ->
  inv ts (set_t_ctx c (set_t_mem m s)) (Abs (<[i := c]> cs) i).
Proof.
  intros [Hareas Hlen Hlink Hhead Hlast Hcur Hsched Hrun Hsusp] Hd Hc Hm. cbn [a_ctx a_cur] in *.
  assert (Hi : (i < length cs)%nat) by (rewrite Hlen; by eapply lookup_lt_Some).
  split; cbn [a_ctx a_cur t_mem head last current scheduler t_ctx set_t_ctx set_t_mem]; try done.
  - by rewrite length_insert.
  - eapply linked_ext; [|exact Hlink]. eapply same_on_mono; [|exact Hm].
    intros x (f & Hf & Hx). left. exists f. unfold in_node. split; [done | lia].
  - intros d' c' Hd' Hc'. rewrite list_lookup_insert_eq in Hc' by done. simplify_eq. done.
  - intros j f cf Hj Hf Hcf. rewrite list_lookup_insert_ne in Hcf by done.
    eapply suspended_ext; [|by apply (Hsusp j)]. eapply same_on_mono; [|exact Hm].
    intros x [Hx|Hx]; [left; exists f; split; [by eapply list_elem_of_lookup_2 | done] | right; by exists j, f].
Qed.

Lemma tick_inv s cs i :
  inv ts s (Abs cs i) ->
  wp (timer_interrupt us) s (fun _ s' => inv ts s' (Abs cs (S i mod length ts)) /\ t_eois s' = t_eois s + 1).
Proof.
  intros H. destruct (decide (length ts = 1%nat)) as [E|E]; [|by apply tick_switch].
  replace (S i mod length ts)%nat with i; [by apply tick_single |].
  rewrite E, Nat.mod_1_r. pose proof (inv_current _ _ _ H) as Hc. apply fmap_Some in Hc as (d & Hd & _).
  apply lookup_lt_Some in Hd. simpl in Hd. lia.
Qed.

(** C28: the timer interrupt always completes and serves the threads in turn:
    it acknowledges the interrupt once, suspends the running thread with all
    its registers and resumes the next one in the list, behind the last the
    first, with exactly the registers it was suspended with. *)
Theorem thread_tick_correct s cs i :
  inv ts s (Abs cs i) ->
  exists s', timer_interrupt us s = Ok tt s' /\ inv ts s' (Abs cs (S i mod length ts)) /\
    t_eois s' = t_eois s + 1.
Proof.
  intros H. destruct (wp_elim _ _ _ (tick_inv s cs i H)) as ([] & s' & Hr & Hi & He). by exists s'.
Qed.

End Steps.

(** ** Starting threads *)

(** The registers a new thread starts with: those in its frame that are not
    set are whatever its stack held. *)
Definition start_context (m : memory) (routine top : Z) : context := fun r =>
  match r with
  | RIP => routine
  | RSP | RBP => top
  | RFLAGS => THREAD_RFLAGS
  | _ => restore m (top - FRAME_SIZE) r
  end.

Definition created_mem (m : memory) (thread fr routine top last : Z) : memory :=
  store64 (store64 (save (save (save (save (store64 m thread fr) fr RIP routine) fr RSP top)
    fr RBP top) fr RFLAGS THREAD_RFLAGS) (thread + 8) 0) (last + 8) thread.

Lemma created_frame m thread fr routine top last :
  same_on (fun x => ~ (fr <= x < fr + FRAME_SIZE) /\ ~ (thread <= x < thread + 16) /\
                    ~ (last + 8 <= x < last + 16)) m (created_mem m thread fr routine top last).
Proof.
  intros x (H1 & H2 & H3). unfold created_mem. rewrite !store64_frame by lia.
  rewrite !save_frame by lia. by rewrite store64_frame by lia.
Qed.

Lemma areas_new ts d : areas_ok (ts ++ [d]) -> areas_ok ts.
Proof.
  intros [H1 H2 H3 H4]. split.
  - intros e He. apply H1. set_solver.
  - intros i j e f Hij Hi Hj. apply (H2 i j); [done | by apply lookup_app_l_Some ..].
  - intros i j e f Hij Hi Hj. apply (H3 i j); [done | by apply lookup_app_l_Some ..].
  - intros e f He Hf. apply H4; set_solver.
Qed.

Section Create.
Context (ts : list tdesc) (s : threads) (d l : tdesc) (routine : Z).
Let n := length ts.
Hypothesis (Hareas : areas_ok (ts ++ [d])) (Hsize : lo d + FRAME_SIZE + 16 <= hi d).
Hypothesis (Hl : ts !! pred n = Some l) (El : last s = node l) (Hrt : 0 <= routine < 2 ^ 64).
Let fr := hi d - FRAME_SIZE.
Let m' := created_mem (t_mem s) (node d) fr routine (hi d) (last s).

Lemma new_lookup : (ts ++ [d]) !! n = Some d.
Proof. unfold n. by rewrite lookup_app_r, Nat.sub_diag by lia. Qed.

Lemma old_lookup k e : ts !! k = Some e -> (ts ++ [d]) !! k = Some e /\ (k < n)%nat /\ e ∈ ts ++ [d].
Proof.
  intros He. pose proof (lookup_lt_Some _ _ _ He). split_and!; [by apply lookup_app_l_Some | done |].
  apply elem_of_app. left. by eapply list_elem_of_lookup_2.
Qed.

(** Where the new thread's areas are. *)
Lemma new_ranges :
  d ∈ ts ++ [d] /\ 0 < node d /\ node d + 16 <= 2 ^ 64 /\ 0 <= lo d /\ hi d < 2 ^ 64 /\
  (hi d <= node d \/ node d + 16 <= lo d) /\ (hi d <= node l \/ node l + 16 <= lo d) /\
  (node l + 16 <= node d \/ node d + 16 <= node l).
Proof.
  assert (Hd : d ∈ ts ++ [d]) by set_solver. destruct (old_lookup _ _ Hl) as (Hl' & Hlt & Hin).
  pose proof (area_range _ Hareas d Hd) as (? & ? & ? & ?).
  pose proof (area_nodes _ Hareas (pred n) n l d ltac:(lia) Hl' new_lookup).
  pose proof (area_mixed _ Hareas d d Hd Hd). pose proof (area_mixed _ Hareas d l Hd Hin). done.
Qed.

(** Of the existing threads only the last one's link changes. *)
Lemma created_old k e : ts !! k = Some e ->
  same_on (fun x => in_node e x /\ ~ (last s + 8 <= x < last s + 16) \/ in_stack e x) (t_mem s) m'.
Proof.
  intros He. eapply same_on_mono; [|apply created_frame]. intros x Hx.
  destruct (old_lookup _ _ He) as (He' & Hk & Hin). destruct (old_lookup _ _ Hl) as (Hl' & _ & Hlin).
  pose proof new_ranges as (Hd & _).
  pose proof (area_nodes _ Hareas k n e d ltac:(lia) He' new_lookup).
  pose proof (area_stacks _ Hareas k n e d ltac:(lia) He' new_lookup).
  pose proof (area_mixed _ Hareas e d Hin Hd). pose proof (area_mixed _ Hareas e l Hin Hlin).
  pose proof (area_mixed _ Hareas d e Hd Hin). unfold in_node, in_stack, fr in *. lia.
Qed.

Lemma created_node k e x : ts !! k = Some e -> in_node e x -> k <> pred n \/ x < node e + 8 ->
  ~ (last s + 8 <= x < last s + 16).
Proof.
  intros He Hx Hk. destruct (decide (k = pred n)) as [->|Hne].
  - assert (e = l) as -> by congruence. lia.
  - destruct (old_lookup _ _ He) as (He' & _ & _). destruct (old_lookup _ _ Hl) as (Hl' & _ & _).
    pose proof (area_nodes _ Hareas k (pred n) e l Hne He' Hl'). unfold in_node in Hx. lia.
Qed.

Lemma created_linked : linked (t_mem s) ts -> linked m' (ts ++ [d]).
Proof.
  intros Hlink k e He. pose proof new_ranges as (_ & ? & ? & ? & ? & ? & ? & ?). unfold nxt_of.
  destruct (decide (k = n)) as [->|Hkn].
  { assert (e = d) as -> by (rewrite new_lookup in He; congruence).
    rewrite (lookup_ge_None_2 _ (S n)) by (rewrite length_app; unfold n; simpl; lia).
    unfold m', created_mem. rewrite load64_store64_ne by lia. by rewrite load64_store64_eq. }
  assert (Hk : (k < n)%nat) by (apply lookup_lt_Some in He; rewrite length_app in He; unfold n in *; simpl in He; lia).
  rewrite lookup_app_l in He by done. destruct (decide (k = pred n)) as [->|Hkp].
  - assert (e = l) as -> by congruence. replace (S (pred n)) with n by lia. rewrite new_lookup.
    unfold m', created_mem. rewrite El, load64_store64_eq. apply w64_small. lia.
  - rewrite lookup_app_l by (unfold n in *; lia). rewrite <-(Hlink k e He). apply load64_ext.
    eapply same_on_mono; [|by apply (created_old k)]. intros x Hx. left.
    assert (in_node e x) by (unfold in_node; lia). split; [done |]. by eapply created_node; [|done | left].
Qed.

Lemma created_keeps k e c : ts !! k = Some e -> suspended (t_mem s) e c -> suspended m' e c.
Proof.
  intros He (fre & Hr & Hlo & Hhi & Hok & Hres). exists fre. split_and!; [|done|done|done|].
  - rewrite <-Hr. apply load64_ext. eapply same_on_mono; [|by apply (created_old k)]. intros x Hx. left.
    assert (in_node e x) by (unfold in_node; lia). split; [done |].
    eapply created_node; [done | done | right; lia].
  - intros r. rewrite <-Hres. apply restore_ext. eapply same_on_mono; [|by apply (created_old k)].
    unfold in_stack. lia.
Qed.

Lemma created_suspended : suspended m' d (start_context (t_mem s) routine (hi d)).
Proof.
  pose proof new_ranges as (_ & ? & ? & ? & ? & ? & ? & ?). exists fr.
  assert (Hres : forall r, restore m' fr r = start_context (t_mem s) routine (hi d) r).
  { intros r. unfold m', created_mem.
    rewrite (restore_ext (save (save (save (save (store64 (t_mem s) (node d) fr) fr RIP routine) fr RSP (hi d))
      fr RBP (hi d)) fr RFLAGS THREAD_RFLAGS)).
    2: { intros x Hx. unfold fr in *. by rewrite !store64_frame by lia. }
    rewrite !restore_save.
    rewrite (restore_ext (t_mem s) (store64 (t_mem s) (node d) fr)).
    2: { intros x Hx. unfold fr in *. by rewrite store64_frame by lia. }
    destruct r; cbn [decide decide_rel reg_eq_dec]; simpl; try done; by rewrite w64_small by lia. }
  split_and!; [| unfold fr; lia | unfold fr; lia | | done].
  - unfold regs_of, m', created_mem. rewrite !load64_store64_ne by (unfold fr in *; lia).
    unfold save. rewrite !load64_store64_ne by (unfold fr in *; simpl; lia).
    rewrite load64_store64_eq. apply w64_small. unfold fr. lia.
  - split; [simpl; lia |]. intros r. rewrite <-Hres. apply load64_bound.
Qed.

Lemma thread_create_runs h : head s = node h -> 0 < node h ->
  thread_create (node d) routine (lo d) (hi d - lo d) s = Ok tt (set_last (node d) (set_t_mem m' s)).
Proof.
  intros Eh Hh. pose proof new_ranges as (_ & ? & ? & ? & ? & ? & ? & ?).
  destruct (old_lookup _ _ Hl) as (_ & _ & Hin). pose proof (area_range _ Hareas l Hin) as [? _].
  unfold thread_create, mbind, M_bind, get, poke_t, modify.
  destruct (Z.eqb_spec (head s) 0); [lia |]. destruct (Z.eqb_spec (last s) 0); [lia |]. cbn [orb].
  cbn [t_mem set_t_mem]. replace (lo d + (hi d - lo d)) with (hi d) by lia.
  rewrite (w64_small (hi d)), w64_small by lia. fold fr.
  assert (E : forall m, load64 (save m fr RSP (hi d)) (fr + tf_offset RSP) = hi d).
  { intros m. unfold save. rewrite load64_store64_eq. apply w64_small. lia. }
  by rewrite E.
Qed.
End Create.

(** The state after [thread_create]. *)
Definition created (d : tdesc) (routine : Z) (s : threads) : threads :=
  set_last (node d) (set_t_mem (created_mem (t_mem s) (node d) (hi d - FRAME_SIZE) routine (hi d) (last s)) s).

Lemma create_inv ts s cs i d routine :
  inv ts s (Abs cs i) -> areas_ok (ts ++ [d]) -> lo d + FRAME_SIZE + 16 <= hi d ->
  0 <= routine < 2 ^ 64 ->
  thread_create (node d) routine (lo d) (hi d - lo d) s = Ok tt (created d routine s) /\
  inv (ts ++ [d]) (created d routine s) (Abs (cs ++ [start_context (t_mem s) routine (hi d)]) i).
Proof.
  intros [Hold Hlen Hlink Hhead Hlast Hcur Hsched Hrun Hsusp] Hareas Hsz Hrt. cbn [a_ctx a_cur] in *.
  apply fmap_Some in Hlast as (l & Hl & El). apply fmap_Some in Hhead as (h & Hh & Eh).
  apply fmap_Some in Hcur as (e & He & Ee). pose proof (lookup_lt_Some _ _ _ He) as Hi.
  destruct (area_range _ Hareas h) as [Hh0 _]; [apply list_elem_of_lookup_2 in Hh; set_solver |].
  split; [by apply (thread_create_runs ts s d l routine Hareas Hsz Hl El Hrt h) |]. unfold created.
  split; cbn [a_ctx a_cur t_mem head last current scheduler t_ctx set_last set_t_mem]; try done.
  - rewrite !length_app. simpl. lia.
  - by apply (created_linked ts s d l routine).
  - rewrite lookup_app_l by lia. by rewrite Hh, Eh.
  - rewrite length_app. replace (pred (length ts + length [d])) with (length ts) by (simpl; lia).
    by rewrite new_lookup.
  - rewrite lookup_app_l by done. by rewrite He, Ee.
  - intros f c Hf Hc. rewrite lookup_app_l in Hf by done. rewrite lookup_app_l in Hc by lia. by apply Hrun.
  - intros k f c Hk Hf Hc. apply lookup_app_Some in Hf as [Hf | [Hkn Hf]].
    + rewrite lookup_app_l in Hc by (apply lookup_lt_Some in Hf; lia).
      eapply (created_keeps ts s d l routine); try done. by apply (Hsusp k).
    + apply list_lookup_singleton_Some in Hf as [Hz <-]. rewrite lookup_app_r in Hc by lia.
      replace (k - length cs)%nat with 0%nat in Hc by lia. injection Hc as <-.
      by apply (created_suspended ts s d l routine).
Qed.

(** A new thread is appended to the list without disturbing the others:
    with memory for its [thread_t] and its stack apart from theirs, it is
    suspended at the start of its routine with the stack pointer at the top
    of its stack and interrupts enabled, and every other thread is as it was. *)
Theorem thread_create_correct ts s cs i d routine :
  inv ts s (Abs cs i) -> areas_ok (ts ++ [d]) -> lo d + FRAME_SIZE + 16 <= hi d ->
  0 <= routine < 2 ^ 64 ->
  exists s', thread_create (node d) routine (lo d) (hi d - lo d) s = Ok tt s' /\
    inv (ts ++ [d]) s' (Abs (cs ++ [start_context (t_mem s) routine (hi d)]) i).
Proof. intros. eexists. by apply create_inv. Qed.

(** [thread_init] leaves one running thread, the program itself. *)
Definition initial_threads (s : threads) : threads :=
  let t := main_thread s in
  Threads (store64 (t_mem s) (t + 8) 0) t t t t DefaultSched (t_ctx s) (t_eois s).
Theorem thread_init_run s d c :
  main_thread s = node d -> areas_ok [d] -> context_ok d c -> (forall r, t_ctx s r = c r) ->
  thread_init s = Ok tt (initial_threads s) /\ inv [d] (initial_threads s) (Abs [c] 0).
Proof.
  intros Em Hareas Hc Hctx. split; [reflexivity |]. unfold initial_threads. rewrite Em.
  split; cbn [a_ctx a_cur t_mem head last current scheduler t_ctx]; try done.
  - intros [|k] e He; [|done]. injection He as <-. unfold nxt_of. by rewrite load64_store64_eq.
  - intros e c' [= <-] [= <-]. done.
  - intros [|k] e c' Hk He; done.
Qed.
