(* ===== verification/ThreadTimer.v ===== *)
(** * The thread library and its interrupts (lib/thread/thread.c)

    [thread_init] and [thread_set_timer_freq] as a whole: the thread list
    together with the program's descriptor tables, its local APIC and the
    interrupt flag.  Thread list and tables are in one memory. *)

From S2P Require Import Prelude PhysMem Descriptors Apic Thread.

(** The memory is that of [p_threads]; the copy in [p_desc] is not used. *)
Record program := Program {
  p_threads : threads;
  p_apic : apic_state;
  p_desc : desc_state;
  p_if : bool               (* RFLAGS.IF *)
}.
Definition tables (s : program) : desc_state := set_d_mem (t_mem (p_threads s)) (p_desc s).
Definition set_tables (d : desc_state) (s : program) : program :=
  Program (set_t_mem (d_mem d) (p_threads s)) (p_apic s) d (p_if s).
Definition set_p_threads (v : threads) (s : program) : program := Program v (p_apic s) (p_desc s) (p_if s).
Definition set_p_apic (v : apic_state) (s : program) : program := Program (p_threads s) v (p_desc s) (p_if s).
Definition set_p_if (v : bool) (s : program) : program := Program (p_threads s) (p_apic s) (p_desc s) v.

Definition on_threads {A} (m : M threads A) : M program A := zoom p_threads set_p_threads m.
Definition on_tables {A} (m : M desc_state A) : M program A := zoom tables set_tables m.
Definition on_apic {A} (m : M apic_state A) : M program A := zoom p_apic set_p_apic m.
Definition on_timer {A} (m : M (apic_state * desc_state) A) : M program A :=
  zoom (fun s => (p_apic s, tables s)) (fun p s => set_p_apic p.1 (set_tables p.2 s)) m.
Definition cli : M program unit := modify (set_p_if false).
Definition sti : M program unit := modify (set_p_if true).

Section Symbols.
Context (sym : entry_point -> Z).

Definition start_threads : M program unit :=
  on_threads thread_init ;;
  on_tables create_default_gdt ;;
  on_tables (interrupt_init sym) ;;
  on_timer (init_timer sym) ;;
  sti ;;
  on_apic (timer_on 100).

Definition thread_set_timer_freq (ms : Z) : M program unit :=
  s ← gets p_threads;
  if (head s =? 0) || (last s =? 0) then panic "thread library is not initialized yet" else
  cli ;;
  on_apic timer_off ;;
  on_timer (init_timer sym) ;;
  on_apic (timer_on ms) ;;
  sti.
End Symbols.
