(* ===== verification/ThreadTimerSpec.v ===== *)
(** * Threads are set up with their interrupts

    After [thread_init] the processor has everything preemption needs; and
    changing the timer interval leaves the threads alone. *)

From S2P Require Import Prelude PhysMem Descriptors DescriptorsSpec Apic ApicSpec Thread ThreadSpec ThreadTimer.

Abbreviation GDT_SIZE := (NGDT * DESC_SIZE).
Abbreviation IDT_SIZE := (NIDT * DESC_SIZE).

(** Memory the threads do not look at may change. *)
Lemma inv_mem ts s cs i m :
  inv ts s (Abs cs i) -> same_on (protected ts i) (t_mem s) m -> inv ts (set_t_mem m s) (Abs cs i).
Proof.
  intros [Hareas Hlen Hlink Hhead Hlast Hcur Hsched Hrun Hsusp] Hm. cbn [a_ctx a_cur] in *.
  split; cbn [a_ctx a_cur t_mem head last current scheduler t_ctx set_t_mem]; try done.
  - eapply linked_ext; [|exact Hlink]. eapply same_on_mono; [|exact Hm].
    intros x (f & Hf & Hx). left. exists f. unfold in_node. split; [done | lia].
  - intros j f cf Hj Hf Hcf. eapply suspended_ext; [|by apply (Hsusp j)]. eapply same_on_mono; [|exact Hm].
    intros x [Hx|Hx]; [left; exists f; split; [by eapply list_elem_of_lookup_2 | done] | right; by exists j, f].
Qed.

Section Symbols.
Context (sym : entry_point -> Z) (Hsym : forall e, 0 <= sym e < 2 ^ 64).

(** The gates of a program with threads. *)
Definition thread_gate (v : Z) : gate :=
  if v =? 32 then intr_gate sym irq_handler else trap_gate sym KNL_PVL (trap_of v).

(** The program has no tables yet, and their room is not in the way. *)
Record tables_apart (s : program) (d : tdesc) : Prop := {
  ta_gdt : d_gdt_done (p_desc s) = false;
  ta_idt : d_idt_done (p_desc s) = false;
  ta_tables : d_gdt (p_desc s) + GDT_SIZE <= d_idt (p_desc s) \/ d_idt (p_desc s) + IDT_SIZE <= d_gdt (p_desc s);
  ta_node_gdt : node d + 16 <= d_gdt (p_desc s) \/ d_gdt (p_desc s) + GDT_SIZE <= node d;
  ta_node_idt : node d + 16 <= d_idt (p_desc s) \/ d_idt (p_desc s) + IDT_SIZE <= node d
}.

Lemma segment_ext m m' gdt sel :
  same_on (fun x => gdt <= x < gdt + GDT_SIZE) m m' -> 0 <= sel -> sel + 8 <= GDT_SIZE -> segment_at m gdt sel = segment_at m' gdt sel.
Proof.
  intros Hs Hsel Hend. unfold segment_at. f_equal. symmetry. apply load64_ext. eapply same_on_mono; [|exact Hs]. simpl. lia.
Qed.

Lemma program_tables_run (m : M desc_state unit) s d : m (tables s) = Ok tt d -> on_tables m s = Ok tt (set_tables d s).
Proof. unfold on_tables, zoom. by intros ->. Qed.
Lemma on_timer_run (m : M (apic_state * desc_state) unit) s a d :
  m (p_apic s, tables s) = Ok tt (a, d) -> on_timer m s = Ok tt (set_p_apic a (set_tables d s)).
Proof. unfold on_timer, zoom. by intros ->. Qed.
Lemma on_apic_run (m : M apic_state unit) s a : m (p_apic s) = Ok tt a -> on_apic m s = Ok tt (set_p_apic a s).
Proof. unfold on_apic, zoom. by intros ->. Qed.
Lemma tables_set d s : tables (set_tables d s) = d.
Proof. by destruct d. Qed.

(** C29: starting the thread library: from tables not yet built, [thread_init] returns
    with one running thread, the program itself, a code and a data segment of
    ring 0, the timer's interrupt gate on vector 32 and the trap handlers on
    all other vectors, both tables loaded, interrupts on and the timer periodic;
    only the two tables and the thread's list node are written. *)
Theorem start_threads_correct s d c :
  main_thread (p_threads s) = node d -> areas_ok [d] -> context_ok d c -> (forall r, t_ctx (p_threads s) r = c r) ->
  tables_apart s d -> 0 <= bus_freq (p_apic s) / 1000 * 100 < 2 ^ 32 ->
  let gdt := d_gdt (p_desc s) in
  let idt := d_idt (p_desc s) in
  exists s', start_threads sym s = Ok tt s' /\
    let m := t_mem (p_threads s') in
    inv [d] (p_threads s') (Abs [c] 0) /\ p_if s' = true /\
    d_gdtr (p_desc s') = (GDT_SIZE - 1, gdt) /\ d_idtr (p_desc s') = (IDT_SIZE - 1, idt) /\
    segment_at m gdt KNL_CSEL = Segment 1 0 1 1 0 1 0 /\ segment_at m gdt KNL_DSEL = Segment 1 0 1 0 1 0 0 /\
    (forall v, 0 <= v < NIDT -> vector_gate m idt v = thread_gate v) /\
    timer_every (16 * (bus_freq (p_apic s) / 1000 * 100)) (p_apic s') /\
    same_on (fun x => ~ (node d <= x < node d + 16) /\ ~ (gdt <= x < gdt + GDT_SIZE) /\ ~ (idt <= x < idt + IDT_SIZE))
      (t_mem (p_threads s)) m.
Proof.
  intros Em Hareas Hc Hctx [Hg0 Hi0 Hgi Hng Hni] Hfreq gdt idt.
  destruct (thread_init_run (p_threads s) d c Em Hareas Hc Hctx) as (Hrun0 & Hinv0). set (t0 := initial_threads (p_threads s)) in *.
  set (s0 := set_p_threads t0 s).
  destruct (create_default_gdt_correct (tables s0) Hg0) as (d1 & Hrun1 & ((G1 & I1) & R1 & _ & _ & _ & C1 & D1 & _ & M1) & Hd1 & _).
  destruct (interrupt_init_run sym Hsym d1 ltac:(by rewrite Hd1)) as (d2 & Hrun2 & ((G2 & I2) & R2 & R2' & _ & V2 & M2) & _).
  destruct (init_timer_run sym (p_apic s) d2 Hsym) as (a3 & d3 & Hrun3 & F3 & L3 & C3 & m & -> & V3 & M3).
  destruct (timer_on_run 100 a3 ltac:(lia) ltac:(by rewrite F3) L3 C3) as (a4 & Hrun4 & T4 & _). rewrite F3 in T4.
  change (d_gdt (tables s0)) with gdt in *. change (d_idt (tables s0)) with idt in *. rewrite I1 in *. rewrite I2 in *. fold idt gdt in Hgi, Hng, Hni.
  assert (Mt : same_on (fun x => ~ (gdt <= x < gdt + GDT_SIZE) /\ ~ (idt <= x < idt + IDT_SIZE)) (t_mem t0) m).
  { intros x [Hx1 Hx2]. rewrite <-M3, <-M2 by done. by apply M1. }
  assert (Mg : same_on (fun x => gdt <= x < gdt + GDT_SIZE) (d_mem d1) m).
  { intros x Hx. rewrite <-M3 by lia. apply M2. lia. }
  eexists. split.
  { unfold start_threads. erewrite bind_step by (unfold on_threads, zoom; rewrite Hrun0; reflexivity). fold s0.
    erewrite bind_step by exact (program_tables_run _ _ _ Hrun1).
    erewrite bind_step by (apply program_tables_run; rewrite tables_set; exact Hrun2).
    erewrite bind_step by (apply on_timer_run; rewrite tables_set; exact Hrun3).
    erewrite bind_step by reflexivity. apply on_apic_run. exact Hrun4. }
  cbv zeta. cbn [p_threads p_apic p_desc p_if set_p_apic set_p_if set_tables t_mem set_t_mem d_mem set_d_mem d_gdtr d_idtr].
  split; [|split_and!].
  - apply (inv_mem [d] t0 [c] 0 m Hinv0). eapply same_on_mono; [|exact Mt].
    intros x [(e & He & Hx) | (j & e & Hj & He & Hx)].
    + apply list_elem_of_singleton in He as ->. unfold in_node in Hx. split; lia.
    + by destruct j.
  - reflexivity.
  - by rewrite R2', R1.
  - exact R2.
  - rewrite <-C1. symmetry. apply segment_ext; [exact Mg | done | done].
  - rewrite <-D1. symmetry. apply segment_ext; [exact Mg | done | done].
  - intros v Hv. rewrite V3. unfold thread_gate. destruct (v =? 32); [done | by apply V2].
  - exact T4.
  - intros x (Hx0 & Hx1 & Hx2). rewrite <-Mt by done. subst t0. unfold initial_threads. cbn [t_mem]. rewrite Em. unfold store64.
    rewrite byte_at_store_out by lia. done.
Qed.

(** [thread_set_timer_freq] panics before [thread_init] and for interval 0;
    otherwise it returns with interrupts on and the timer at the new interval,
    and the threads are as before. *)
Theorem set_timer_freq_correct s ms :
  let t := p_threads s in
  let idt := d_idt (p_desc s) in
  0 <= ms -> 0 <= bus_freq (p_apic s) / 1000 * ms < 2 ^ 32 ->
  if (head t =? 0) || (last t =? 0) || (ms =? 0) then exists msg, thread_set_timer_freq sym ms s = Stop (Panic msg) else
  exists s', thread_set_timer_freq sym ms s = Ok tt s' /\ p_if s' = true /\
    timer_every (16 * (bus_freq (p_apic s) / 1000 * ms)) (p_apic s') /\
    vector_gate (t_mem (p_threads s')) idt 32 = intr_gate sym irq_handler /\
    forall ts cs i, (forall x, protected ts i x -> ~ (idt <= x < idt + IDT_SIZE)) -> inv ts t (Abs cs i) -> inv ts (p_threads s') (Abs cs i).
Proof.
  intros t idt Hms Hc.
  destruct (timer_off_run (p_apic s)) as (a1 & Hrun1 & F1). set (s0 := set_p_if false s). set (s1 := set_p_apic a1 s0).
  destruct (init_timer_run sym a1 (tables s1) Hsym) as (a2 & d2 & Hrun2 & F2 & L2 & C2 & m & -> & V2 & M2).
  unfold thread_set_timer_freq. erewrite bind_step by reflexivity. fold t.
  destruct ((head t =? 0) || (last t =? 0)); cbn [orb]; [by eexists |].
  erewrite bind_step by reflexivity. erewrite bind_step by exact (on_apic_run _ s0 _ Hrun1).
  erewrite bind_step by exact (on_timer_run _ s1 _ _ Hrun2).
  destruct (Z.eqb_spec ms 0) as [-> |]; [eexists; by apply bind_stop |].
  destruct (timer_on_run ms a2 ltac:(lia) ltac:(by rewrite F2, F1) L2 C2) as (a3 & Hrun3 & T3 & _). rewrite F2, F1 in T3.
  eexists. split; [by erewrite bind_step by exact (on_apic_run _ (set_p_apic a2 _) _ Hrun3) |]. split; [reflexivity |]. split; [exact T3 |]. split.
  - exact (V2 32).
  - intros ts cs i Hp Hinv. apply (inv_mem ts t cs i m Hinv). eapply same_on_mono; [exact Hp | exact M2].
Qed.
End Symbols.
