(* ===== verification/Printf.v ===== *)
(** * Formatted output (lib/printf.c, lib/debug.c, lib/panic.c, boot/stage2/printk.c, lib/stdlib.c)

    Number conversion, the bounded formatter [vsnprintf], the unbounded ones
    that print character by character, and [atoi].  A format is the list of
    its characters before the terminating NUL, an argument list the list of
    the 64-bit slots [va_arg] takes its values from. *)

From S2P Require Import Prelude PhysMem CString.

(** ** Numbers *)

Definition digit_char (d : Z) : Z := if d <? 10 then 48 + d else 65 + (d - 10).

(** [buffer[i] = digits[num >> (i << 2) & 0xF]] *)
Definition hex_buffer (num : Z) : list Z :=
  (fun i => digit_char (Z.land (Z.shiftr num (4 * i)) 0xF)) <$> seqZ 0 16.

(** [while (buffer[i] == '0') i--;], then the characters from [i] down to 0.
    A buffer of zeros makes the loop read [buffer[-1]]. *)
Fixpoint skip_zeros (l : list Z) : option (list Z) :=
  match l with
  | [] => None
  | c :: l' => if c =? 48 then skip_zeros l' else Some l
  end.
Definition hex_text (num : Z) : option (list Z) := skip_zeros (reverse (hex_buffer num)).

(** [while (num / 10 > 0) { buffer[pos++] = num % 10; num /= 10; } buffer[pos] = num;]
    into [buffer[20]]; the digits in the order they are stored. *)
Fixpoint dec_buffer (room : nat) (num : Z) : option (list Z) :=
  match room with
  | O => None
  | S room' =>
      if 0 <? num / 10 then cons (num - num / 10 * 10) <$> dec_buffer room' (num / 10)
      else Some [num]
  end.
(** [num = -num] overflows for the smallest [int]. *)
Definition dec_text (num : Z) : option (list Z) :=
  if num =? - 2 ^ 31 then None else
  digits ← dec_buffer 20 (Z.abs num);
  Some ((if num <? 0 then [45] else []) ++ ((fun d => d + 48) <$> reverse digits)).

(** ** Character by character

    [emit] prints a character ([kputc] or [debug_con_putc]), [emits] a string
    at an address ([kputs] or [debug_con_puts]).  [with_p]: lib/debug.c also
    takes [%p]. *)
Section Print.
Context {S : Type} (emit : Z -> M S unit) (emits : Z -> M S unit) (with_p : bool).

Definition put_hex (num : Z) : M S unit :=
  l ← of_option (Fault "buffer[-1]") (hex_text (w64 num)); forM l emit.
Definition put_decimal (num : Z) : M S unit :=
  l ← of_option (Fault "int overflow") (dec_text num); forM l emit.

(** [va_arg]: the next argument. *)
Definition next_arg (args : list Z) (k : Z -> list Z -> M S unit) : M S unit :=
  match args with
  | [] => stop_with (Fault "va_arg")
  | a :: args' => k a args'
  end.

(** [while ((ch = *fmt++) != '\0')]; a format that ends in ['%'] is read
    beyond its end. *)
Fixpoint print_fmt (fmt args : list Z) : M S unit :=
  match fmt with
  | [] => mret tt
  | ch :: fmt =>
      if negb (ch =? 37) then emit ch ;; print_fmt fmt args else
      match fmt with
      | [] => stop_with (Fault "format")
      | c :: fmt =>
          if c =? 99 then next_arg args (fun a args => emit (s32 a) ;; print_fmt fmt args)
          else if (c =? 120) || (with_p && (c =? 112)) then
            next_arg args (fun a args => put_hex a ;; print_fmt fmt args)
          else if c =? 100 then next_arg args (fun a args => put_decimal (s32 a) ;; print_fmt fmt args)
          else if c =? 115 then next_arg args (fun a args => emits a ;; print_fmt fmt args)
          else print_fmt fmt args
      end
  end.
End Print.

(** ** Into a buffer *)

Definition write_byte (a v : Z) : M memory unit := modify (fun m => <[a := w8 v]> m).

(** Store characters while the index is below [max]; the result is the new
    index. *)
Fixpoint sn_put (buf idx max : Z) (l : list Z) : M memory Z :=
  match l with
  | [] => mret idx
  | c :: l' =>
      if idx <? max then write_byte (buf + idx) c ;; sn_put buf (idx + 1) max l' else mret idx
  end.
Definition sn_put_hex (buf num idx max : Z) : M memory Z :=
  l ← of_option (Fault "buffer[-1]") (hex_text (w64 num)); sn_put buf idx max l.
Definition sn_put_decimal (buf num idx max : Z) : M memory Z :=
  l ← of_option (Fault "int overflow") (dec_text num); sn_put buf idx max l.

(** [while (i < n - 1 && (buf[i++] = *tmp++));] *)
Fixpoint sn_copy (room : nat) (buf tmp i : Z) : M memory Z :=
  match room with
  | O => mret i
  | S room' =>
      m ← get;
      let c := byte_at m tmp in
      write_byte (buf + i) c ;;
      if c =? 0 then mret (i + 1) else sn_copy room' buf (tmp + 1) (i + 1)
  end.
Definition sn_put_str (buf tmp i max : Z) : M memory Z :=
  i ← sn_copy (Z.to_nat (max - i)) buf tmp i;
  mret (if i <? max then i - 1 else i).

Fixpoint vsn_loop (fmt args : list Z) (buf max i : Z) : M memory Z :=
  match fmt with
  | [] => mret i
  | ch :: fmt =>
      if negb (i <? max) then mret i else
      if negb (ch =? 37) then write_byte (buf + i) ch ;; vsn_loop fmt args buf max (i + 1) else
      match fmt with
      | [] => stop_with (Fault "format")
      | c :: fmt =>
          if (c =? 99) || (c =? 120) || (c =? 100) || (c =? 115) then
            match args with
            | [] => stop_with (Fault "va_arg")
            | a :: args =>
                i ← (if c =? 99 then write_byte (buf + i) a ;; mret (i + 1)
                     else if c =? 120 then sn_put_hex buf a i max
                     else if c =? 100 then sn_put_decimal buf (s32 a) i max
                     else sn_put_str buf a i max);
                vsn_loop fmt args buf max i
            end
          else vsn_loop fmt args buf max i
      end
  end.

Definition vsnprintf (buf : Z) (fmt : list Z) (n : Z) (args : list Z) : M memory unit :=
  if n =? 0 then mret tt else
  if n =? 1 then write_byte buf 0 else
  i ← vsn_loop fmt args buf (n - 1) 0;
  write_byte (buf + i) 0.
(** The same code, with a variable argument list. *)
Definition snprintf (buf : Z) (fmt : list Z) (n : Z) (args : list Z) : M memory unit :=
  vsnprintf buf fmt n args.

(** ** atoi *)

Definition isdigit (c : Z) : bool := (48 <=? c) && (c <=? 57).

(** An [int] accumulator: overflow is undefined.  The bound is the number of
    bytes in memory, since every other byte is zero. *)
Fixpoint atoi_loop (fuel : nat) (s i : Z) : M memory Z :=
  m ← get;
  let c := s8 (byte_at m s) in
  if negb (isdigit c) then mret i else
  match fuel with
  | O => stop_with Diverge
  | S fuel' =>
      let i' := i * 10 + c - 48 in
      if 2 ^ 31 <=? i * 10 + c then stop_with (Fault "int overflow")
      else atoi_loop fuel' (s + 1) i'
  end.
Definition atoi (s : Z) : M memory Z :=
  m ← get; atoi_loop (S (size m)) s 0.
