(* ===== verification/PrintfSpec.v ===== *)
(** * Correctness of formatted output *)

From S2P Require Import Prelude PhysMem CString Printf.

(** ** Numbers as text *)

(** The value a digit character stands for, and of a text in base [b]. *)
Definition char_digit (c : Z) : Z := if c <? 58 then c - 48 else c - 55.
Definition text_value (b : Z) (l : list Z) : Z := foldl (fun v c => v * b + char_digit c) 0 l.

Lemma char_digit_char d : 0 <= d < 16 -> char_digit (digit_char d) = d.
Proof. intros. unfold char_digit, digit_char. repeat case_if; lia. Qed.

Lemma digit_char_zero d : 0 <= d < 16 -> digit_char d = 48 <-> d = 0.
Proof. intros. unfold digit_char. case_if; lia. Qed.

Lemma text_value_from b v l :
  foldl (fun v c => v * b + char_digit c) v l = v * b ^ Z.of_nat (length l) + text_value b l.
Proof.
  unfold text_value. revert v. induction l as [|c l IH]; intros v; cbn [foldl length]; [lia |].
  rewrite (IH (v * b + char_digit c)), (IH (0 * b + char_digit c)).
  rewrite Nat2Z.inj_succ, Z.pow_succ_r by lia. lia.
Qed.

Lemma text_value_cons b c l :
  text_value b (c :: l) = char_digit c * b ^ Z.of_nat (length l) + text_value b l.
Proof. unfold text_value at 1. cbn [foldl]. by rewrite text_value_from. Qed.

Lemma text_value_snoc b l c : text_value b (l ++ [c]) = text_value b l * b + char_digit c.
Proof. unfold text_value. by rewrite foldl_app. Qed.

(** The low [n] hexadecimal digits, most significant first. *)
Lemma hex_digits_value num n :
  0 <= num ->
  text_value 16 (reverse ((fun i => digit_char (Z.land (Z.shiftr num (4 * i)) 0xF)) <$> seqZ 0 (Z.of_nat n)))
  = num mod 16 ^ Z.of_nat n.
Proof.
  intros Hnum. induction n as [|n IH]; [by rewrite Z.mod_1_r |].
  rewrite seqZ_S, fmap_app, reverse_app. cbn [fmap list_fmap reverse].
  change (reverse [?x] ++ ?l) with (x :: l).
  change (text_value 16 (digit_char (Z.land (Z.shiftr num (4 * (0 + Z.of_nat n))) 0xF) ::
    reverse ((fun i => digit_char (Z.land (Z.shiftr num (4 * i)) 0xF)) <$> seqZ 0 (Z.of_nat n)))
    = num mod 16 ^ Z.of_nat (S n)).
  rewrite text_value_cons, IH, length_reverse, length_fmap, length_seqZ, Nat2Z.id.
  change 0xF with (2 ^ 4 - 1). rewrite land_low, Z.shiftr_div_pow2 by lia.
  rewrite char_digit_char by (apply Z.mod_pos_bound; lia).
  rewrite Z.pow_mul_r, Z.add_0_l by lia. change (2 ^ 4) with 16.
  rewrite Nat2Z.inj_succ, Z.pow_succ_r, (Z.mul_comm 16) by lia.
  rewrite Z.rem_mul_r by lia. lia.
Qed.

Lemma skip_zeros_spec l :
  Forall (fun c => 48 <= c) l -> text_value 16 l <> 0 ->
  exists l', skip_zeros l = Some l' /\ text_value 16 l' = text_value 16 l /\
    exists c t, l' = c :: t /\ c <> 48.
Proof.
  induction l as [|c l IH]; intros Hl Hv; [done |]. apply Forall_cons in Hl as [Hc Hl].
  cbn [skip_zeros]. destruct (Z.eqb_spec c 48) as [->|Hne]; [|eauto 10].
  rewrite text_value_cons in Hv |- *. unfold char_digit in Hv |- *. simpl in Hv |- *. by apply IH.
Qed.

Lemma hex_buffer_digits num : Forall (fun c => 48 <= c) (reverse (hex_buffer num)).
Proof.
  apply Forall_reverse, Forall_fmap, Forall_true. intros i. simpl.
  change 0xF with (2 ^ 4 - 1). rewrite land_low by lia.
  pose proof (Z.mod_pos_bound (Z.shiftr num (4 * i)) (2 ^ 4)). unfold digit_char. case_if; lia.
Qed.

(** Hexadecimal output is correct: for every non-zero 64-bit number the
    characters printed are its digits, without leading zeros.  For zero the
    loop that skips zeros leaves the digit buffer at its lower end. *)
Theorem put_hex_correct num :
  0 <= num < 2 ^ 64 ->
  match hex_text num with
  | Some l => num <> 0 /\ text_value 16 l = num /\ exists c t, l = c :: t /\ c <> 48
  | None => num = 0
  end.
Proof.
  intros Hnum. pose proof (hex_digits_value num 16 ltac:(lia)) as Hv.
  rewrite Z.mod_small in Hv by (simpl; lia). change (Z.of_nat 16) with 16 in Hv.
  fold (hex_buffer num) in Hv. unfold hex_text. destruct (decide (num = 0)) as [->|Hne].
  - by vm_compute.
  - destruct (skip_zeros_spec _ (hex_buffer_digits num)) as (l & -> & Hl & Hc); [congruence |].
    split_and!; [done | congruence | done].
Qed.

Lemma dec_buffer_spec room num :
  0 <= num < 10 ^ Z.of_nat room -> (0 < room)%nat ->
  exists l, dec_buffer room num = Some l /\ text_value 10 ((fun d => d + 48) <$> reverse l) = num /\
    Forall (fun d => 0 <= d < 10) l.
Proof.
  revert num. induction room as [|room IH]; intros num Hnum Hr; [lia |]. cbn [dec_buffer].
  pose proof (Z.div_mod num 10). pose proof (Z.mod_pos_bound num 10).
  destruct (Z.ltb_spec 0 (num / 10)) as [Hd|Hd].
  - assert (room <> 0%nat). { intros ->. simpl in Hnum. lia. }
    destruct (IH (num / 10)) as (l & -> & Hv & Hl); [|lia|].
    { split; [lia |]. apply Z.div_lt_upper_bound; [lia |]. rewrite Nat2Z.inj_succ, Z.pow_succ_r in Hnum by lia. lia. }
    eexists. split_and!; [done | | constructor; [lia | done]].
    rewrite reverse_cons, fmap_app. cbn [fmap list_fmap]. rewrite text_value_snoc, Hv.
    unfold char_digit. case_if; lia.
  - exists [num]. split_and!; [done | | constructor; [lia | done]].
    change (text_value 10 [num + 48] = num). rewrite text_value_cons. unfold char_digit.
    change (text_value 10 []) with 0. simpl Z.of_nat. case_if; lia.
Qed.

(** Decimal output is correct for every [int] but the smallest: a minus
    sign for negative numbers, then the decimal digits of the magnitude. *)
Lemma put_decimal_digits num :
  - 2 ^ 31 < num < 2 ^ 31 ->
  exists digits, dec_text num = Some ((if num <? 0 then [45] else []) ++ digits) /\
    digits <> [] /\ text_value 10 digits = Z.abs num /\ Forall (fun c => 48 <= c <= 57) digits.
Proof.
  intros Hnum. unfold dec_text. destruct (Z.eqb_spec num (- 2 ^ 31)); [lia |].
  destruct (dec_buffer_spec 20 (Z.abs num)) as (l & Hl & Hv & Hd); [lia | lia |].
  rewrite Hl. exists ((fun d => d + 48) <$> reverse l). split_and!; [done | | done |].
  - intros E%fmap_nil_inv. apply (f_equal reverse) in E. rewrite reverse_involutive in E. subst.
    cbn [dec_buffer] in Hl. destruct (0 <? Z.abs num / 10); [|done].
    by match type of Hl with context [cons _ <$> ?r] => destruct r end.
  - apply Forall_fmap, Forall_reverse. eapply Forall_impl; [done |]. simpl. lia.
Qed.

(** ** atoi *)

Lemma s8_small x : 0 <= x < 2 ^ 7 -> s8 x = x.
Proof. intros. unfold s8. rewrite Z.mod_small; lia. Qed.

Lemma text_value_bound l : Forall (fun c => 48 <= c <= 57) l -> 0 <= text_value 10 l.
Proof.
  induction l as [|c l IH]; [done |]. intros [Hc Hl]%Forall_cons. rewrite text_value_cons.
  specialize (IH Hl). pose proof (Z.pow_nonneg 10 (Z.of_nat (length l))).
  unfold char_digit. case_if; nia.
Qed.

Lemma atoi_loop_spec fuel m s l i :
  cstring m s l -> Forall (fun c => 48 <= c <= 57) l -> (length l < fuel)%nat -> 0 <= i ->
  foldl (fun v c => v * 10 + char_digit c) i l + 48 < 2 ^ 31 ->
  atoi_loop fuel s i m = Ok (foldl (fun v c => v * 10 + char_digit c) i l) m.
Proof.
  revert fuel s i. induction l as [|c l IH]; intros fuel s i Hs Hl Hf Hi Hov.
  - simpl in Hs. destruct fuel; simpl; unfold mbind, M_bind; simpl; by rewrite Hs.
  - destruct Hs as (Hc & _ & Hs). apply Forall_cons in Hl as [Hb Hl]. cbn [foldl length] in *.
    destruct fuel as [|fuel]; [lia |]. cbn [atoi_loop]. unfold mbind at 1, M_bind at 1. cbn [get].
    rewrite Hc, s8_small by lia. unfold isdigit.
    destruct (Z.leb_spec 48 c), (Z.leb_spec c 57); try lia. cbn [negb andb].
    assert (E : char_digit c = c - 48) by (unfold char_digit; case_if; lia).
    rewrite E in *. rewrite text_value_from in Hov. pose proof (text_value_bound l Hl).
    assert (1 <= 10 ^ Z.of_nat (length l)) by (apply (Z.pow_le_mono_r 10 0); lia).
    destruct (Z.leb_spec (2 ^ 31) (i * 10 + c)); [nia |].
    replace (i * 10 + c - 48) with (i * 10 + (c - 48)) by lia.
    apply IH; [done | done | lia | lia |]. rewrite text_value_from. lia.
Qed.

Lemma atoi_digits m s l :
  cstring m s l -> Forall (fun c => 48 <= c <= 57) l -> text_value 10 l + 48 < 2 ^ 31 ->
  atoi s m = Ok (text_value 10 l) m.
Proof.
  intros Hs Hl Hov. unfold atoi. unfold mbind, M_bind. cbn [get].
  apply atoi_loop_spec; try done. pose proof (cstring_size _ _ _ Hs). lia.
Qed.

(** [atoi] reads back what [%d] prints, for every non-negative number up
    to INT_MAX - 48 (beyond, adding the character before subtracting '0'
    overflows). *)
Theorem atoi_decimal_roundtrip m s num l :
  0 <= num < 2 ^ 31 - 48 -> dec_text num = Some l -> cstring m s l -> atoi s m = Ok num m.
Proof.
  intros Hnum Hl Hs. destruct (put_decimal_digits num ltac:(lia)) as (d & E & Hne & Hv & Hd).
  rewrite E in Hl. destruct (Z.ltb_spec num 0); [lia |]. injection Hl as <-.
  rewrite (atoi_digits m s d) by (done || lia). f_equal. lia.
Qed.

(** ** The bounded formatter *)

(** What a format prints with its arguments; the strings lie outside the
    [n] bytes of the buffer. *)
Inductive renders (m : memory) (buf n : Z) : list Z -> list Z -> list Z -> Prop :=
| r_nil args : renders m buf n [] args []
| r_lit ch fmt args out :
    ch <> 37 -> renders m buf n fmt args out -> renders m buf n (ch :: fmt) args (w8 ch :: out)
| r_char fmt a args out :
    renders m buf n fmt args out -> renders m buf n (37 :: 99 :: fmt) (a :: args) (w8 a :: out)
| r_hex fmt a args l out :
    hex_text (w64 a) = Some l -> renders m buf n fmt args out ->
    renders m buf n (37 :: 120 :: fmt) (a :: args) ((w8 <$> l) ++ out)
| r_dec fmt a args l out :
    dec_text (s32 a) = Some l -> renders m buf n fmt args out ->
    renders m buf n (37 :: 100 :: fmt) (a :: args) ((w8 <$> l) ++ out)
| r_str fmt a args l out :
    cstring m a l -> a + Z.of_nat (length l) < buf \/ buf + n <= a -> renders m buf n fmt args out ->
    renders m buf n (37 :: 115 :: fmt) (a :: args) (l ++ out)
| r_skip c fmt args out :
    c <> 99 -> c <> 120 -> c <> 100 -> c <> 115 -> renders m buf n fmt args out ->
    renders m buf n (37 :: c :: fmt) args out.

Abbreviation outside := (fun a len x => ~ (a <= x < a + len)).

Lemma renders_ext m m' buf n fmt args out :
  same_on (outside buf n) m' m -> renders m buf n fmt args out -> renders m' buf n fmt args out.
Proof.
  intros Hs. induction 1; try (by constructor).
  apply r_str; [|done|done]. eapply cstring_ext; [|done]. intros x Hx. symmetry. apply Hs. lia.
Qed.

(** The state of the formatter after printing [out] from index [i]: all of it
    is in the buffer and the index is behind it, or the index is at its limit
    and at most the last character is missing. *)
Definition printed (m' : memory) (buf max i i' : Z) (out : list Z) : Prop :=
  exists k, (k <= length out)%nat /\ text_at m' (buf + i) (take k out) /\
    (k = length out /\ i' = i + Z.of_nat k /\ i' <= max \/
     i' = max /\ max - 1 <= i + Z.of_nat k <= max /\
     (i + Z.of_nat k < max -> byte_at m' (buf + i + Z.of_nat k) = 0)).

(** Nothing printed, and one piece after another. *)
Lemma printed_nil m buf max i : i <= max -> printed m buf max i i [].
Proof. intros. exists O. split_and!; [simpl; lia | apply text_at_nil | left; simpl; lia]. Qed.

Lemma printed_app m1 m2 buf max i i1 i2 l out :
  0 <= i -> i <= i1 <= max ->
  printed m1 buf max i i1 l -> printed m2 buf max i1 i2 out ->
  same_on (outside (buf + i1) (max - i1)) m2 m1 ->
  (i1 = max -> i2 = max) ->
  printed m2 buf max i i2 (l ++ out).
Proof.
  intros Hi Hi1 (k1 & Hk1 & Ht1 & Hc1) (k2 & Hk2 & Ht2 & Hc2) Hsame Hmax.
  assert (Ht1' : text_at m2 (buf + i) (take k1 l)).
  { eapply text_at_ext; [|exact Ht1]. eapply same_on_mono; [|exact Hsame]. intros x Hx.
    rewrite length_take in Hx. cbn beta. destruct Hc1 as [(? & ? & ?) | (? & ? & _)]; lia. }
  destruct Hc1 as [(-> & E1 & _) | (E1 & Hk & Hz)].
  - exists (length l + k2)%nat. rewrite length_app. split_and!; [lia | |].
    + rewrite take_app_add. apply text_at_app; [by rewrite take_ge in Ht1' by lia |].
      replace (buf + i + Z.of_nat (length l)) with (buf + i1) by lia. done.
    + destruct Hc2 as [(-> & E2 & ?) | (E2 & Hk' & Hz')]; [left; lia | right].
      split_and!; [done | lia | lia |]. intros.
      replace (buf + i + Z.of_nat (length l + k2)) with (buf + i1 + Z.of_nat k2) by lia. apply Hz'. lia.
  - exists k1. rewrite length_app, take_app_le by lia. split_and!; [lia | done |]. right.
    split_and!; [by apply Hmax | lia | lia |]. intros. rewrite Hsame by (cbn beta; lia). by apply Hz.
Qed.

(** The bytes between the two indices are all that changes. *)
Definition fills (m : memory) (buf max i : Z) (out : list Z) (i' : Z) (m' : memory) : Prop :=
  i <= i' <= max /\ same_on (outside (buf + i) (max - i)) m' m /\ printed m' buf max i i' out.

Lemma write_byte_frame m a v b len : b <= a < b + len -> same_on (outside b len) (<[a := w8 v]> m) m.
Proof. intros Ha x Hx. rewrite byte_at_insert, decide_False by lia. done. Qed.

Lemma fills_char m buf max i c :
  i < max -> fills m buf max i [w8 c] (i + 1) (<[buf + i := w8 c]> m).
Proof.
  intros. split_and!; [lia | lia | apply write_byte_frame; lia |]. exists 1%nat. split_and!; [done | |left; simpl; lia].
  intros [|j] x Hx; simplify_eq/=. rewrite Z.add_0_r, byte_at_insert, decide_True, w8_w8 by lia. done.
Qed.

Lemma fills_app m m1 m2 buf max i i1 i2 l out :
  0 <= i -> fills m buf max i l i1 m1 -> fills m1 buf max i1 out i2 m2 ->
  fills m buf max i (l ++ out) i2 m2.
Proof.
  intros Hi (Hb1 & Hs1 & Hp1) (Hb2 & Hs2 & Hp2). split_and!; [lia | lia | |].
  - transitivity m1; [|done]. eapply same_on_mono; [|exact Hs2]. simpl. lia.
  - eapply printed_app; [done | exact Hb1 | done | done | done |]. lia.
Qed.

Lemma sn_put_spec buf max l i m :
  0 <= i <= max -> wp (sn_put buf i max l) m (fills m buf max i (w8 <$> l)).
Proof.
  revert i m. induction l as [|c l IH]; intros i m Hi; cbn [sn_put].
  { apply post_ret. split_and!; [lia | lia | done | apply printed_nil; lia]. }
  destruct (Z.ltb_spec i max).
  - apply post_bind, post_modify. eapply post_mono; [apply IH; lia |].
    intros i' m' _ Hf. change (w8 <$> c :: l) with ([w8 c] ++ (w8 <$> l)).
    eapply fills_app; [lia | by apply fills_char | done].
  - apply post_ret. split_and!; [lia | lia | done |]. exists O.
    split_and!; [lia | apply text_at_nil | right; simpl; lia].
Qed.

Lemma sn_copy_spec buf tmp l i max m :
  0 <= i <= max -> cstring m tmp l ->
  tmp + Z.of_nat (length l) < buf + i \/ buf + max <= tmp ->
  wp (sn_copy (Z.to_nat (max - i)) buf tmp i) m (fun i' m' =>
    same_on (outside (buf + i) (max - i)) m' m /\
    if Z.of_nat (length l) <? max - i
    then i' = i + Z.of_nat (length l) + 1 /\ text_at m' (buf + i) l /\
         byte_at m' (buf + i + Z.of_nat (length l)) = 0
    else i' = max /\ text_at m' (buf + i) (take (Z.to_nat (max - i)) l)).
Proof.
  revert tmp i m. induction l as [|c l IH]; intros tmp i m Hi Hs Hd.
  - simpl in Hs. cbn [length] in *. destruct (decide (i = max)) as [->|].
    { rewrite Z.sub_diag. cbn [Z.to_nat sn_copy]. apply post_ret. simpl. split_and!; [done | done | apply text_at_nil]. }
    replace (Z.to_nat (max - i)) with (S (Z.to_nat (max - (i + 1)))) by lia. cbn [sn_copy].
    apply post_bind. unfold post at 1. cbn [get]. rewrite Hs. apply post_bind, post_modify. cbn [Z.eqb].
    apply post_ret. destruct (Z.ltb_spec (Z.of_nat 0) (max - i)); [|lia].
    split; [apply write_byte_frame; lia |]. split_and!; [lia | apply text_at_nil |].
    rewrite byte_at_insert, decide_True by lia. done.
  - destruct Hs as (Hc & Hz & Hs). cbn [length] in *. destruct (decide (i = max)) as [->|].
    { rewrite Z.sub_diag. cbn [Z.to_nat sn_copy]. apply post_ret.
      destruct (Z.ltb_spec (Z.of_nat (S (length l))) 0); [lia |]. split_and!; [done | done | apply text_at_nil]. }
    replace (Z.to_nat (max - i)) with (S (Z.to_nat (max - (i + 1)))) at 1 by lia. cbn [sn_copy].
    apply post_bind. unfold post at 1. cbn [get]. rewrite Hc. apply post_bind, post_modify.
    destruct (Z.eqb_spec c 0); [done |].
    eapply post_mono; [apply (IH (tmp + 1) (i + 1)); [lia | | lia] |].
    { eapply cstring_ext; [|exact Hs]. symmetry. eapply same_on_mono; [|apply (write_byte_frame _ _ _ (buf + i) 1); lia].
      cbn beta. lia. }
    intros i' m' _ [Hsame Hres]. split.
    { etransitivity; [eapply same_on_mono; [|exact Hsame]; cbn beta; lia |]. apply write_byte_frame. lia. }
    assert (Hhd : text_at m' (buf + i) [c]).
    { intros [|j] x Hx; simplify_eq/=. rewrite Z.add_0_r, Hsame by (cbn beta; lia).
      rewrite byte_at_insert, decide_True, w8_w8 by lia. apply w8_byte_at. }
    destruct (Z.ltb_spec (Z.of_nat (length l)) (max - (i + 1))), (Z.ltb_spec (Z.of_nat (S (length l))) (max - i)); try lia.
    + destruct Hres as (-> & Ht & Hb). split_and!; [lia | |].
      * apply (text_at_app _ _ [c]); [done |]. cbn [length]. by replace (buf + i + Z.of_nat 1) with (buf + (i + 1)) by lia.
      * rewrite <-Hb. f_equal. lia.
    + destruct Hres as (-> & Ht). split; [done |].
      replace (Z.to_nat (max - i)) with (S (Z.to_nat (max - (i + 1)))) by lia. cbn [take].
      apply (text_at_app _ _ [c]); [done |]. cbn [length]. by replace (buf + i + Z.of_nat 1) with (buf + (i + 1)) by lia.
Qed.

Lemma sn_put_str_spec buf tmp l i max m :
  0 <= i <= max -> cstring m tmp l -> tmp + Z.of_nat (length l) < buf + i \/ buf + max <= tmp ->
  wp (sn_put_str buf tmp i max) m (fills m buf max i l).
Proof.
  intros Hi Hs Hd. unfold sn_put_str. apply post_bind.
  eapply post_mono; [by apply sn_copy_spec |]. intros i' m' _ [Hsame Hres]. apply post_ret.
  destruct (Z.ltb_spec (Z.of_nat (length l)) (max - i)).
  - destruct Hres as (-> & Ht & Hb).
    destruct (Z.ltb_spec (i + Z.of_nat (length l) + 1) max); (split_and!; [lia | lia | done |]);
      exists (length l); rewrite take_ge by lia; (split_and!; [lia | done |]); [left; lia | right].
    split_and!; [lia | lia | lia |]. done.
  - destruct Hres as (-> & Ht). rewrite Z.ltb_irrefl. split_and!; [lia | lia | done |].
    exists (Z.to_nat (max - i)). split_and!; [lia | done | right; lia].
Qed.

(** When the limit is reached the loop stops. *)
Lemma fills_full m buf max out : fills m buf max max out max m.
Proof.
  split_and!; [lia | lia | done |]. exists O. split_and!; [lia | apply text_at_nil | right; simpl; lia].
Qed.

(** One piece of the output, then the rest of the format, in any memory that
    differs from [m0] in the buffer only. *)
Lemma vsn_next m0 m buf n i l out (item : M memory Z) (k : Z -> M memory Z) :
  same_on (outside buf n) m m0 -> 0 <= i ->
  wp item m (fills m buf (n - 1) i l) ->
  (forall m1 i1, same_on (outside buf n) m1 m0 -> 0 <= i1 <= n - 1 ->
    wp (k i1) m1 (fills m1 buf (n - 1) i1 out)) ->
  wp (item ≫= k) m (fills m buf (n - 1) i (l ++ out)).
Proof.
  intros Hm0 Hi Hit Hk. apply post_bind. eapply post_mono; [exact Hit |].
  intros i1 m1 _ Hf. pose proof Hf as (Hb & Hsm & _). eapply post_mono.
  - apply (Hk m1 i1); [|lia]. etransitivity; [|exact Hm0].
    eapply same_on_mono; [|exact Hsm]. cbn beta. lia.
  - intros i2 m2 _ Hf2. by eapply fills_app.
Qed.

Lemma vsn_char m buf max i c :
  i < max -> wp (write_byte (buf + i) c ;; mret (i + 1)) m (fills m buf max i [w8 c]).
Proof. intros. apply post_bind, post_modify, post_ret. by apply fills_char. Qed.

Lemma vsn_loop_spec m0 buf n fmt args out :
  renders m0 buf n fmt args out -> forall m i, same_on (outside buf n) m m0 -> 0 <= i <= n - 1 ->
  wp (vsn_loop fmt args buf (n - 1) i) m (fills m buf (n - 1) i out).
Proof.
  induction 1 as [args | ch fmt args out Hch Hr IH | fmt a args out Hr IH | fmt a args l out Hl Hr IH
    | fmt a args l out Hl Hr IH | fmt a args l out Hs Hd Hr IH | c fmt args out H1 H2 H3 H4 Hr IH];
    intros m i Hsame Hi; cbn [vsn_loop];
    [apply post_ret; split_and!; [lia | lia | done | apply printed_nil; lia] | ..];
    (destruct (decide (i = n - 1)) as [->|Hne];
      [rewrite Z.ltb_irrefl; apply post_ret, fills_full |]);
    (destruct (Z.ltb_spec i (n - 1)); [|lia]); cbn [negb Z.eqb Pos.eqb orb].
  - destruct (Z.eqb_spec ch 37); [done |]. cbn [negb].
    apply post_bind, post_modify. eapply post_mono.
    + apply IH; [etransitivity; [apply write_byte_frame; lia | done] | lia].
    + intros i' m' _ Hf. by eapply (fills_app _ _ _ _ _ _ _ _ [w8 ch]); [lia | apply fills_char |].
  - apply (vsn_next m0 _ _ _ _ [w8 a]); [done | lia | by apply vsn_char | done].
  - apply (vsn_next m0); [done | lia | | done]. unfold sn_put_hex. rewrite Hl. apply sn_put_spec. lia.
  - apply (vsn_next m0); [done | lia | | done]. unfold sn_put_decimal. rewrite Hl. apply sn_put_spec. lia.
  - apply (vsn_next m0); [done | lia | | done]. apply sn_put_str_spec; [lia | | lia].
    eapply cstring_ext; [|exact Hs]. intros x Hx. symmetry. apply Hsame. lia.
  - destruct (Z.eqb_spec c 99), (Z.eqb_spec c 120), (Z.eqb_spec c 100), (Z.eqb_spec c 115); try done.
    cbn [orb]. by apply IH.
Qed.

