(* ===== verification/Console.v ===== *)
(** * The text console (drivers/console/console.c)

    A 25 by 80 grid of 16-bit cells in video memory. *)

From S2P Require Import Prelude PhysMem MemMgr CpuInfo.

Abbreviation TAB_SIZE := 8.
Abbreviation LINES := 25.
Abbreviation COLUMNS := 80.
Abbreviation SCR_START := 0xB8000.

(** The static variables of console.c, and the bytes sent to I/O ports
    (latest first). *)
Record console := Con {
  c_m : machine;
  con_x : Z;
  con_y : Z;
  con_out : list (Z * Z)
}.
Definition set_c_m (v : machine) (s : console) : console := Con v (con_x s) (con_y s) (con_out s).
Definition set_con_x (v : Z) (s : console) : console := Con (c_m s) v (con_y s) (con_out s).
Definition set_con_y (v : Z) (s : console) : console := Con (c_m s) (con_x s) v (con_out s).
Definition c_mem (s : console) : memory := m_mem (c_m s).
Definition on_con {A} (m : M machine A) : M console A := zoom c_m set_c_m m.

Definition outb (value port : Z) : M console unit :=
  modify (fun s => Con (c_m s) (con_x s) (con_y s) ((port, w8 value) :: con_out s)).

(** [vga[i]], a [uint16_t] *)
Definition vga_addr (i : Z) : Z := SCR_START + 2 * i.
Definition vga_get (m : memory) (i : Z) : Z := load 2 m (vga_addr i).
Definition vga_put (m : memory) (i v : Z) : memory := store 2 m (vga_addr i) v.

Definition con_cursor : M console unit :=
  s ← get;
  let loc := w16 (con_y s * COLUMNS + con_x s) in
  outb 0x0F 0x3D4 ;;
  outb (Z.land loc 0xFF) 0x3D5 ;;
  outb 0x0E 0x3D4 ;;
  outb (Z.land (Z.shiftr loc 8) 0xFF) 0x3D5.

(** The two loops of [scroll]. *)
Definition scroll_rows (m : memory) : memory :=
  foldl (fun m i => vga_put m i (vga_get m (i + COLUMNS))) m (seqZ 0 ((LINES - 1) * COLUMNS)).
Definition blank_cell : Z := Z.lor 32 (Z.shiftl 0xF 8).
Definition blank_row (m : memory) : memory :=
  foldl (fun m i => vga_put m i blank_cell) m (seqZ ((LINES - 1) * COLUMNS) COLUMNS).

Definition scroll : M console unit :=
  s ← get;
  when (LINES <=? con_y s) (
    on_con (update_mem scroll_rows) ;;
    on_con (update_mem blank_row) ;;
    modify (set_con_y (LINES - 1)) ;;
    modify (set_con_x 0)).

Definition put_newline : M console unit :=
  modify (set_con_x 0) ;;
  modify (fun s => set_con_y (w64 (con_y s + 1)) s) ;;
  scroll.

Definition put_tab : M console unit :=
  modify (fun s => set_con_x (w64 (con_x s + TAB_SIZE)) s) ;;
  scroll.

Definition put_normal (ch color : Z) : M console unit :=
  s ← get;
  when (COLUMNS <=? con_x s) (
    modify (set_con_x 0) ;;
    modify (fun s => set_con_y (w64 (con_y s + 1)) s)) ;;
  scroll ;;
  s ← get;
  let i := s32 (w64 (con_y s * COLUMNS + con_x s)) in
  on_con (update_mem (fun m => vga_put m i (Z.lor ch (Z.shiftl color 8)))) ;;
  modify (fun s => set_con_x (w64 (con_x s + 1)) s).

Definition putc (ch color : Z) : M console unit :=
  (if ch =? 10 then put_newline
   else if ch =? 9 then put_tab
   else put_normal ch color) ;;
  con_cursor.

(** [while ((ch = *str++) != '\0') putc (ch, color);], with [char] signed; the
    bound is the number of bytes in memory: every other byte is zero, so a
    string outside video memory ends within it. *)
Fixpoint puts_loop (fuel : nat) (str color : Z) : M console unit :=
  s ← get;
  let ch := s8 (byte_at (c_mem s) str) in
  if ch =? 0 then mret tt else
  match fuel with
  | O => stop_with Diverge
  | S fuel' => putc ch color ;; puts_loop fuel' (str + 1) color
  end.
Definition puts (str color : Z) : M console unit :=
  s ← get; puts_loop (S (size (c_mem s))) str color.

(** The parameters are [uint32_t]. *)
Definition con_init (xpos ypos : Z) : M console unit :=
  modify (set_con_y (w32 ypos)) ;;
  modify (set_con_x (w32 xpos)) ;;
  con_cursor.
