(* ===== verification/ConsoleSpec.v ===== *)
(** * Correctness of the text console

    An abstract terminal (a list of cells and a cursor) and the proof that the
    driver implements it on video memory and touches nothing else. *)

From S2P Require Import Prelude PhysMem MemMgr CpuInfo Console.

(** ** The abstract terminal *)

Record term := Term {
  t_cells : list Z;
  t_x : Z;
  t_y : Z
}.

(** Below the last line the text moves up by one line. *)
Definition term_scroll (t : term) : term :=
  if LINES <=? t_y t then
    Term (drop (Z.to_nat COLUMNS) (t_cells t) ++ replicate (Z.to_nat COLUMNS) blank_cell) 0 (LINES - 1)
  else t.

Definition term_char (t : term) (c : Z) : term :=
  let t := term_scroll (if COLUMNS <=? t_x t then Term (t_cells t) 0 (t_y t + 1) else t) in
  Term (<[Z.to_nat (t_y t * COLUMNS + t_x t) := c]> (t_cells t)) (t_x t + 1) (t_y t).

Definition term_putc (color : Z) (t : term) (ch : Z) : term :=
  if ch =? 10 then term_scroll (Term (t_cells t) 0 (t_y t + 1))
  else if ch =? 9 then term_scroll (Term (t_cells t) (t_x t + TAB_SIZE) (t_y t))
  else term_char t (w16 (Z.lor ch (Z.shiftl color 8))).

(** What the driver's state shows. *)
Definition screen (m : memory) : list Z := vga_get m <$> seqZ 0 (LINES * COLUMNS).
Definition term_of (s : console) : term := Term (screen (c_mem s)) (con_x s) (con_y s).

Definition in_vga (a : Z) : Prop := SCR_START <= a < SCR_START + 2 * (LINES * COLUMNS).

(** ** Video memory *)

Lemma vga_get_put m i j v :
  vga_get (vga_put m i v) j = if decide (i = j) then w16 v else vga_get m j.
Proof.
  unfold vga_get, vga_put, vga_addr. case_decide as E.
  - subst. by rewrite load_store_eq.
  - rewrite load_store_ne by lia. done.
Qed.

Lemma vga_put_frame m i v : 0 <= i < LINES * COLUMNS -> same_on (fun a => ~ in_vga a) (vga_put m i v) m.
Proof. intros Hi a Ha. apply byte_at_store_out. unfold in_vga, vga_addr in *. lia. Qed.

Lemma vga_get_bound m i : 0 <= vga_get m i < 2 ^ 16.
Proof. apply (load_bound 2). Qed.

Lemma foldl_seqZ_S {A} (f : A -> Z -> A) a o n :
  foldl f a (seqZ o (Z.of_nat (S n))) = f (foldl f a (seqZ o (Z.of_nat n))) (o + Z.of_nat n).
Proof. by rewrite seqZ_S, foldl_app. Qed.

Lemma rows_get n m j :
  vga_get (foldl (fun m i => vga_put m i (vga_get m (i + COLUMNS))) m (seqZ 0 (Z.of_nat n))) j =
  if decide (0 <= j < Z.of_nat n) then vga_get m (j + COLUMNS) else vga_get m j.
Proof.
  revert j. induction n as [|n IH]; intros j.
  { rewrite decide_False by lia. done. }
  rewrite foldl_seqZ_S, vga_get_put, Z.add_0_l. case_decide as E.
  - subst. rewrite IH, !decide_False, decide_True by lia. apply w16_small, vga_get_bound.
  - rewrite IH. repeat case_decide; lia || done.
Qed.

Lemma blank_get n m j o :
  vga_get (foldl (fun m i => vga_put m i blank_cell) m (seqZ o (Z.of_nat n))) j =
  if decide (o <= j < o + Z.of_nat n) then blank_cell else vga_get m j.
Proof.
  revert j. induction n as [|n IH]; intros j.
  { rewrite decide_False by lia. done. }
  rewrite foldl_seqZ_S, vga_get_put. case_decide as E.
  - subst. rewrite decide_True by lia. done.
  - rewrite IH. repeat case_decide; lia || done.
Qed.

(** A loop of cell writes on the screen leaves the rest of memory alone. *)
Lemma foldl_frame (f : memory -> Z -> Z) m o n :
  0 <= o -> o + Z.of_nat n <= LINES * COLUMNS ->
  same_on (fun a => ~ in_vga a) (foldl (fun m i => vga_put m i (f m i)) m (seqZ o (Z.of_nat n))) m.
Proof.
  intros Ho. induction n as [|n IH]; intros Hn; [done |].
  rewrite foldl_seqZ_S. etransitivity; [apply vga_put_frame; lia | apply IH; lia].
Qed.

Lemma screen_lookup m i :
  screen m !! i = if decide (Z.of_nat i < LINES * COLUMNS) then Some (vga_get m (Z.of_nat i)) else None.
Proof.
  unfold screen. rewrite list_lookup_fmap. case_decide.
  - rewrite lookup_seqZ_lt by lia. done.
  - rewrite lookup_seqZ_ge by lia. done.
Qed.

Lemma length_screen m : length (screen m) = Z.to_nat (LINES * COLUMNS).
Proof. unfold screen. rewrite length_fmap, length_seqZ. done. Qed.

Lemma screen_scroll m :
  screen (blank_row (scroll_rows m)) =
  drop (Z.to_nat COLUMNS) (screen m) ++ replicate (Z.to_nat COLUMNS) blank_cell.
Proof.
  apply list_eq. intros i. rewrite screen_lookup. unfold blank_row, scroll_rows.
  rewrite (blank_get (Z.to_nat COLUMNS)), (rows_get (Z.to_nat ((LINES - 1) * COLUMNS))).
  destruct (decide (Z.of_nat i < (LINES - 1) * COLUMNS)).
  - rewrite lookup_app_l by (rewrite length_drop, length_screen; lia).
    rewrite lookup_drop, screen_lookup.
    rewrite decide_True, (decide_False (P := _ <= _ < _)), !decide_True by lia.
    do 2 f_equal. lia.
  - rewrite lookup_app_r by (rewrite length_drop, length_screen; lia).
    rewrite length_drop, length_screen. case_decide.
    + rewrite lookup_replicate_2 by lia. rewrite decide_True by lia. done.
    + symmetry. apply lookup_ge_None. rewrite length_replicate. lia.
Qed.

Lemma screen_put m i v :
  0 <= i < LINES * COLUMNS -> screen (vga_put m i v) = <[Z.to_nat i := w16 v]> (screen m).
Proof.
  intros Hi. apply list_eq. intros j. rewrite screen_lookup, vga_get_put.
  destruct (decide (i = Z.of_nat j)) as [->|].
  - rewrite Nat2Z.id, list_lookup_insert_eq by (rewrite length_screen; lia).
    rewrite decide_True by lia. done.
  - rewrite list_lookup_insert_ne by lia. by rewrite screen_lookup.
Qed.

Lemma scroll_frame m : same_on (fun a => ~ in_vga a) (blank_row (scroll_rows m)) m.
Proof.
  unfold blank_row, scroll_rows. etransitivity.
  - apply (foldl_frame (fun _ _ => blank_cell) _ _ (Z.to_nat COLUMNS)); lia.
  - apply (foldl_frame (fun m i => vga_get m (i + COLUMNS)) _ _ (Z.to_nat ((LINES - 1) * COLUMNS))); lia.
Qed.

(** The loops are used through these lemmas only. *)
#[local] Opaque scroll_rows blank_row screen.

(** ** The operations *)

(** The state shows [t], and only the screen differs from [s]. *)
Definition shows (s : console) (t : term) (s' : console) : Prop :=
  term_of s' = t /\ same_on (fun a => ~ in_vga a) (c_mem s') (c_mem s) /\
  c_m s' = set_m_mem (c_mem s') (c_m s).

Lemma shows_trans s t1 s1 t2 s2 : shows s t1 s1 -> shows s1 t2 s2 -> shows s t2 s2.
Proof.
  intros (_ & Hm1 & He1) (Ht & Hm2 & He2). split_and!; [done | by etransitivity |].
  rewrite He2, He1. done.
Qed.

Lemma shows_move s x y : shows s (Term (screen (c_mem s)) x y) (set_con_x x (set_con_y y s)).
Proof. split_and!; [done | done |]. unfold c_mem. simpl. by destruct (c_m s). Qed.

Lemma scroll_spec s : wp scroll s (fun _ s' => shows s (term_scroll (term_of s)) s').
Proof.
  unfold scroll. apply post_bind. unfold post at 1. simpl. unfold term_scroll. simpl.
  destruct (LINES <=? con_y s) eqn:E.
  - apply (post_ret _ tt). split_and!; simpl.
    + unfold term_of, c_mem. simpl. by rewrite screen_scroll.
    + unfold c_mem. simpl. apply scroll_frame.
    + done.
  - apply (post_ret _ tt). destruct s as [m x y o]. apply (shows_move (Con m x y o)).
Qed.

Lemma con_cursor_spec s :
  wp con_cursor s (fun _ s' => shows s (term_of s) s').
Proof. split_and!; [done | done |]. unfold c_mem. simpl. by destruct (c_m s). Qed.

(** The ranges in which the driver's counters do not wrap. *)
Definition counters (n : Z) (s : console) : Prop :=
  0 <= con_x s /\ con_x s + TAB_SIZE * n < 2 ^ 64 /\ 0 <= con_y s < 2 ^ 32.

Lemma put_normal_spec ch color s :
  counters 1 s ->
  wp (put_normal ch color) s
    (fun _ s' => shows s (term_char (term_of s) (w16 (Z.lor ch (Z.shiftl color 8)))) s').
Proof.
  intros (Hx & Hx' & Hy). unfold put_normal. apply post_bind. unfold post at 1. simpl.
  set (t1 := if COLUMNS <=? con_x s then Term (screen (c_mem s)) 0 (con_y s + 1) else term_of s).
  apply post_bind.
  assert (H1 : wp (when (COLUMNS <=? con_x s) (modify (set_con_x 0) ;;
    modify (fun s => set_con_y (w64 (con_y s + 1)) s))) s
    (fun _ s1 => shows s t1 s1 /\ 0 <= con_x s1 < COLUMNS /\ 0 <= con_y s1)).
  { unfold t1. destruct (Z.leb_spec COLUMNS (con_x s)).
    - apply (post_ret _ tt). simpl. rewrite w64_small by lia.
      split; [apply (shows_move s) | lia].
    - apply (post_ret _ tt). split; [|lia]. destruct s as [m x y o]. apply (shows_move (Con m x y o)). }
  eapply post_mono; [exact H1 |]. intros [] s1 _ (Hs1 & Hx1 & Hy1).
  apply post_bind. eapply post_mono; [apply scroll_spec |]. intros [] s2 _ Hs2.
  apply post_bind. unfold post at 1. simpl.
  destruct Hs1 as (Ht1 & Hs1). rewrite Ht1 in Hs2. pose proof Hs2 as (Ht2 & _ & _).
  assert (Hb : 0 <= con_x s2 < COLUMNS /\ 0 <= con_y s2 < LINES).
  { change (con_x s2) with (t_x (term_of s2)). change (con_y s2) with (t_y (term_of s2)). rewrite Ht2, <-Ht1.
    unfold term_scroll. simpl. destruct (Z.leb_spec LINES (con_y s1)); simpl; lia. }
  set (i := con_y s2 * COLUMNS + con_x s2). assert (Hi : 0 <= i < LINES * COLUMNS) by (unfold i; lia).
  rewrite (w64_small i), (s32_small i) by lia. apply (post_ret _ tt).
  apply (shows_trans s t1 s1); [by split |].
  apply (shows_trans s1 (term_of s2) s2); [destruct Hs2 as (? & ? & ?); by split_and! |].
  split_and!; simpl.
  - unfold term_char, term_of at 1. cbn [t_x t_y t_cells term_of]. fold (term_of s).
    change (if COLUMNS <=? con_x s then _ else _) with t1. rewrite <-Ht2.
    unfold term_of, c_mem. simpl. rewrite screen_put by done.
    rewrite (w64_small (con_x s2 + 1)) by lia. done.
  - unfold c_mem. simpl. by apply vga_put_frame.
  - done.
Qed.

Lemma putc_spec ch color s :
  counters 1 s -> wp (putc ch color) s (fun _ s' => shows s (term_putc color (term_of s) ch) s').
Proof.
  intros Hc. pose proof Hc as (Hx & Hx' & Hy). unfold putc, term_putc. apply post_bind.
  assert (H : wp (if ch =? 10 then put_newline else if ch =? 9 then put_tab else put_normal ch color) s
    (fun _ s' => shows s (term_putc color (term_of s) ch) s')).
  { unfold term_putc. destruct (ch =? 10); [|destruct (ch =? 9)].
    - unfold put_newline. do 2 (apply post_bind; unfold post at 1; simpl). rewrite w64_small by lia.
      eapply post_mono; [apply scroll_spec |]. intros [] s' _ Hs'.
      eapply shows_trans; [|exact Hs']. apply (shows_move s).
    - unfold put_tab. apply post_bind; unfold post at 1; simpl. rewrite w64_small by lia.
      eapply post_mono; [apply scroll_spec |]. intros [] s' _ Hs'.
      eapply shows_trans; [|exact Hs']. exact (shows_move s (con_x s + TAB_SIZE) (con_y s)).
    - by apply put_normal_spec. }
  eapply post_mono; [exact H |]. intros [] s1 _ Hs1.
  eapply post_mono; [apply con_cursor_spec |]. intros [] s2 _ Hs2.
  eapply shows_trans; [exact Hs1 |]. destruct Hs1 as (Ht & _). unfold term_putc in Ht. by rewrite <-Ht.
Qed.

(** After any character the cursor is in one of the 25 lines, and the column
    moved by at most a tabulator. *)
Lemma term_putc_cursor color t ch :
  0 <= t_x t -> 0 <= t_y t ->
  0 <= t_x (term_putc color t ch) <= t_x t + TAB_SIZE /\ 0 <= t_y (term_putc color t ch) < LINES.
Proof.
  intros. unfold term_putc, term_char, term_scroll.
  repeat case_if; simpl in *; repeat case_if; simpl in *; lia.
Qed.

Lemma putc_all_spec color cs s :
  counters (Z.of_nat (length cs)) s ->
  wp (forM cs (fun ch => putc ch color)) s
    (fun _ s' => shows s (foldl (term_putc color) (term_of s) cs) s').
Proof.
  revert s. induction cs as [|ch cs IH]; intros s (Hx & Hx' & Hy); cbn [forM length] in *.
  { apply (post_ret _ tt). destruct s as [m x y o]. apply (shows_move (Con m x y o)). }
  apply post_bind. eapply post_mono; [apply putc_spec; split_and!; lia |].
  intros [] s1 _ Hs1. pose proof Hs1 as (Ht & _).
  pose proof (term_putc_cursor color (term_of s) ch) as Hb.
  rewrite <-Ht in Hb. simpl in Hb.
  eapply post_mono; [apply IH; split_and!; lia |].
  intros [] s2 _ Hs2. simpl. rewrite <-Ht. by eapply shows_trans.
Qed.

(** C37: printing a text on the console implements the abstract terminal: from
    any cursor position the driver accepts the text, video memory and cursor
    are afterwards those of the terminal (characters at the cursor with the
    colour, line feeds, tabulators, wrapping at column 80, scrolling below
    line 25), and no byte outside video memory has changed. *)
Theorem console_refines color cs s :
  counters (Z.of_nat (length cs)) s ->
  wp (forM cs (fun ch => putc ch color)) s (fun _ s' =>
    term_of s' = foldl (term_putc color) (term_of s) cs /\
    same_on (fun a => ~ in_vga a) (c_mem s') (c_mem s)).
Proof.
  intros Hc. eapply post_mono; [by apply putc_all_spec |]. intros [] s' _ (? & ? & _). done.
Qed.

Lemma term_line color cs t :
  t_y t < LINES -> 0 <= t_x t -> t_x t + Z.of_nat (length cs) <= COLUMNS -> 0 <= t_y t ->
  Forall (fun ch => ch <> 10 /\ ch <> 9) cs ->
  foldl (term_putc color) t cs =
  Term (list_inserts (Z.to_nat (t_y t * COLUMNS + t_x t))
          ((fun ch => w16 (Z.lor ch (Z.shiftl color 8))) <$> cs) (t_cells t))
       (t_x t + Z.of_nat (length cs)) (t_y t).
Proof.
  revert t. induction cs as [|ch cs IH]; intros [l x y] Hy Hx Hlen Hy' Hcs.
  { simpl. f_equal. lia. }
  apply Forall_cons in Hcs as [[H10 H9] Hcs]. cbn [foldl length] in *. simpl in Hy, Hx, Hlen, Hy'.
  assert (E : term_putc color (Term l x y) ch =
    Term (<[Z.to_nat (y * COLUMNS + x) := w16 (Z.lor ch (Z.shiftl color 8))]> l) (x + 1) y).
  { unfold term_putc, term_char, term_scroll. simpl.
    destruct (Z.eqb_spec ch 10), (Z.eqb_spec ch 9); try done.
    destruct (Z.leb_spec COLUMNS x); [lia |]. simpl. by destruct (Z.leb_spec LINES y); [lia |]. }
  rewrite E, IH by (simpl; lia || done). simpl. f_equal; [|lia].
  rewrite list_insert_inserts_lt by lia. do 2 f_equal. lia.
Qed.

(** The position the cursor registers hold: the last values sent to index
    registers 0x0F (low byte) and 0x0E (high byte). *)
Definition hardware_cursor (out : list (Z * Z)) : option Z :=
  match out with
  | (0x3D5, hi) :: (0x3D4, 0x0E) :: (0x3D5, lo) :: (0x3D4, 0x0F) :: _ => Some (lo + 2 ^ 8 * hi)
  | _ => None
  end.

Lemma con_cursor_registers s :
  0 <= con_x s -> 0 <= con_y s -> con_y s * COLUMNS + con_x s < 2 ^ 16 ->
  wp con_cursor s (fun _ s' => con_x s' = con_x s /\ con_y s' = con_y s /\
    hardware_cursor (con_out s') = Some (con_y s * COLUMNS + con_x s)).
Proof.
  intros Hx Hy Hs. unfold post. simpl. split_and!; [done | done |]. f_equal.
  set (l := con_y s * COLUMNS + con_x s) in *. rewrite (w16_small l) by lia.
  change 0xFF with (2 ^ 8 - 1). rewrite !land_low, Z.shiftr_div_pow2 by lia.
  rewrite (Z.mod_small (l / 2 ^ 8)) by (split; [apply Z.div_pos; lia | apply Z.div_lt_upper_bound; lia]).
  rewrite !w8_small by (split; [apply Z.div_pos || apply Z.mod_pos_bound; lia |
    apply Z.div_lt_upper_bound || apply Z.mod_pos_bound; lia]).
  pose proof (Z.div_mod l (2 ^ 8)). lia.
Qed.

(** A text without control characters that fits in the rest of the line is
    printed there unchanged, with no scrolling: exactly its cells change, and
    the cursor ends behind it. *)
Theorem console_line color cs s :
  0 <= con_y s < LINES -> 0 <= con_x s -> con_x s + Z.of_nat (length cs) <= COLUMNS ->
  Forall (fun ch => ch <> 10 /\ ch <> 9) cs ->
  wp (forM cs (fun ch => putc ch color)) s (fun _ s' =>
    screen (c_mem s') =
      list_inserts (Z.to_nat (con_y s * COLUMNS + con_x s))
        ((fun ch => w16 (Z.lor ch (Z.shiftl color 8))) <$> cs) (screen (c_mem s)) /\
    con_x s' = con_x s + Z.of_nat (length cs) /\ con_y s' = con_y s).
Proof.
  intros Hy Hx Hlen Hcs. eapply post_mono; [apply putc_all_spec; split_and!; lia |].
  intros [] s' _ (Ht & _). rewrite term_line in Ht by (simpl; lia || done). by injection Ht as -> -> ->.
Qed.

(** Whatever its cursor position was, after each character the hardware
    cursor of the console holds the driver's own cursor position, as long as
    the column has not been pushed beyond the screen by tabulators. *)
Theorem console_cursor_correct color ch s :
  counters 1 s -> con_x s + TAB_SIZE <= COLUMNS ->
  wp (putc ch color) s (fun _ s' =>
    0 <= con_x s' <= COLUMNS /\ 0 <= con_y s' < LINES /\
    hardware_cursor (con_out s') = Some (con_y s' * COLUMNS + con_x s')).
Proof.
  intros Hc Hx. destruct (wp_elim _ _ _ (putc_spec ch color s Hc)) as ([] & s' & Hrun & (Ht & _)).
  pose proof Hc as (Hx0 & _ & Hy0).
  destruct (term_putc_cursor color (term_of s) ch Hx0 (proj1 Hy0)) as [Hbx Hby].
  rewrite <-Ht in Hbx, Hby. simpl in Hbx, Hby.
  unfold post. rewrite Hrun. split_and!; [lia | lia | lia | lia |].
  unfold putc in Hrun. apply bind_ok in Hrun as ([] & s1 & _ & Hcur).
  assert (E : con_x s1 = con_x s' /\ con_y s1 = con_y s') by (unfold con_cursor in Hcur; simpl in Hcur; by injection Hcur as <-).
  pose proof (con_cursor_registers s1) as Hr. destruct E as [E1 E2]. rewrite E1, E2 in Hr.
  specialize (Hr ltac:(lia) ltac:(lia) ltac:(lia)). unfold post in Hr. rewrite Hcur in Hr. naive_solver.
Qed.
