(* ===== verification/Debug.v ===== *)
(** * Debug output of every program (lib/debug_console.c, lib/debug.c, lib/panic.c)

    lib/debug_console.c repeats the console driver's code for programs that
    write to video memory themselves, with its own copy of the static cursor
    (the state is the same record).  lib/debug.c and lib/panic.c instantiate
    the character-by-character formatter with it. *)

From S2P Require Import Prelude PhysMem CString MemMgr CpuInfo Printf Console ConsoleSpec.

(** ** lib/debug_console.c *)

Definition debug_con_cursor : M console unit := con_cursor.
Definition debug_scroll : M console unit := scroll.
Definition debug_put_newline : M console unit := put_newline.
Definition debug_put_tab : M console unit := put_tab.
Definition debug_put_normal (ch color : Z) : M console unit := put_normal ch color.
Definition debug_con_putc (ch color : Z) : M console unit := putc ch color.
Definition debug_con_puts (str color : Z) : M console unit := puts str color.

(** The parameters are [int]; the static [pos] is never read. *)
Definition debug_change_cursor_pos (new_x new_y : Z) : M console unit :=
  modify (set_con_y (w64 (s32 new_y))) ;;
  modify (set_con_x (w64 (s32 new_x))).
(** Through [uint32_t] pointers. *)
Definition debug_get_cursor_pos (xptr yptr : Z) : M console unit :=
  s ← get;
  on_con (update_mem (fun m => store32 m xptr (con_x s))) ;;
  on_con (update_mem (fun m => store32 m yptr (con_y s))).
Definition debug_con_init : M console unit :=
  modify (set_con_y 0) ;;
  modify (set_con_x 0).

(** ** lib/debug.c *)

Definition debug_put_hex (num color : Z) : M console unit :=
  put_hex (fun ch => debug_con_putc ch color) num.
Definition debug_put_decimal (num color : Z) : M console unit :=
  put_decimal (fun ch => debug_con_putc ch color) num.
Definition print_debug_info (fmt : list Z) (color : Z) (args : list Z) : M console unit :=
  print_fmt (fun ch => debug_con_putc ch color) (fun str => debug_con_puts str color) true fmt args.
(** The same function with a fixed colour. *)
Definition print_debugf_info (fmt args : list Z) : M console unit :=
  print_debug_info fmt 0xF args.

(** ** lib/panic.c *)

Definition panic_put_hex (num color : Z) : M console unit :=
  put_hex (fun ch => debug_con_putc ch color) num.
Definition panic_put_decimal (num color : Z) : M console unit :=
  put_decimal (fun ch => debug_con_putc ch color) num.
(** No [%p] here. *)
Definition vcprintf (fmt : list Z) (color : Z) (ap : list Z) : M console unit :=
  print_fmt (fun ch => debug_con_putc ch color) (fun str => debug_con_puts str color) false fmt ap.
(** Print the message in red, then [cli; hlt]. *)
Definition panic_fn (fmt args : list Z) : M console unit :=
  vcprintf fmt 0x4 args ;; stop_with Halt.

(** ** Printing a format is printing its text *)

(** The characters a format passes to the console, with strings outside video
    memory; [p] tells whether [%p] is understood. *)
Inductive expands (m : memory) (p : bool) : list Z -> list Z -> list Z -> Prop :=
| x_nil args : expands m p [] args []
| x_lit ch fmt args out :
    ch <> 37 -> expands m p fmt args out -> expands m p (ch :: fmt) args (ch :: out)
| x_char fmt a args out :
    expands m p fmt args out -> expands m p (37 :: 99 :: fmt) (a :: args) (s32 a :: out)
| x_hex c fmt a args l out :
    c = 120 \/ p = true /\ c = 112 -> hex_text (w64 a) = Some l -> expands m p fmt args out ->
    expands m p (37 :: c :: fmt) (a :: args) (l ++ out)
| x_dec fmt a args l out :
    dec_text (s32 a) = Some l -> expands m p fmt args out ->
    expands m p (37 :: 100 :: fmt) (a :: args) (l ++ out)
| x_str fmt a args l out :
    cstring m a l -> (forall x, a <= x <= a + Z.of_nat (length l) -> ~ in_vga x) ->
    expands m p fmt args out -> expands m p (37 :: 115 :: fmt) (a :: args) ((s8 <$> l) ++ out)
| x_skip c fmt args out :
    c <> 99 -> c <> 120 -> c <> 100 -> c <> 115 -> (p = true -> c <> 112) ->
    expands m p fmt args out -> expands m p (37 :: c :: fmt) args out.

Lemma shows_refl s : shows s (term_of s) s.
Proof. destruct s as [m x y o]. apply (shows_move (Con m x y o)). Qed.

Lemma s8_eq_0 b : is_byte b -> s8 b = 0 <-> b = 0.
Proof. unfold is_byte, s8. intros. split; intros; Z.div_mod_to_equations; lia. Qed.

Lemma counters_mono n n' s : counters n s -> n' <= n -> counters n' s.
Proof. unfold counters. lia. Qed.

(** The cursor after a text stays in the range the console accepts. *)
Lemma counters_after color cs n s s' :
  counters (Z.of_nat (length cs) + n) s -> 0 <= n ->
  shows s (foldl (term_putc color) (term_of s) cs) s' -> counters n s'.
Proof.
  intros (Hx & Hx' & Hy) Hn (Ht & _ & _).
  assert (Hb : forall l t, 0 <= t_x t -> 0 <= t_y t < 2 ^ 32 ->
    0 <= t_x (foldl (term_putc color) t l) <= t_x t + TAB_SIZE * Z.of_nat (length l) /\
    0 <= t_y (foldl (term_putc color) t l) < 2 ^ 32).
  { induction l as [|ch l IH]; intros t H1 H2; cbn [foldl length]; [lia |].
    destruct (term_putc_cursor color t ch H1 (proj1 H2)). specialize (IH (term_putc color t ch)). lia. }
  specialize (Hb cs (term_of s) Hx Hy). rewrite <-Ht in Hb. simpl in Hb. unfold counters. lia.
Qed.

Lemma puts_loop_spec color l : forall fuel str s,
  cstring (c_mem s) str l -> (forall x, str <= x <= str + Z.of_nat (length l) -> ~ in_vga x) ->
  (length l <= fuel)%nat -> counters (Z.of_nat (length l)) s ->
  wp (puts_loop fuel str color) s (fun _ s' =>
    shows s (foldl (term_putc color) (term_of s) (s8 <$> l)) s').
Proof.
  induction l as [|c l IH]; intros fuel str s Hs Hout Hf Hc; cbn [length] in *.
  - destruct fuel; cbn [puts_loop]; apply post_bind; unfold post at 1; cbn [get];
      simpl in Hs; rewrite Hs; apply (post_ret _ tt), shows_refl.
  - destruct fuel as [|fuel]; [lia |]. cbn [puts_loop]. apply post_bind. unfold post at 1. cbn [get].
    destruct Hs as (Hb & Hz & Hs). rewrite Hb.
    assert (Hby : is_byte c) by (rewrite <-Hb; apply byte_at_bound).
    destruct (Z.eqb_spec (s8 c) 0) as [E|_]; [by destruct (Hz (proj1 (s8_eq_0 c Hby) E)) |].
    apply post_bind. eapply post_mono.
    + apply putc_spec. eapply counters_mono; [exact Hc | lia].
    + intros [] s1 _ Hs1. pose proof Hs1 as (Ht & Hm & _).
      eapply post_mono; [apply IH; [| intros; apply Hout; lia | lia |] |].
      * eapply cstring_ext; [|exact Hs]. symmetry. eapply same_on_mono; [|exact Hm].
        intros x Hx. apply Hout. lia.
      * apply (counters_after color [s8 c] _ s); [eapply counters_mono; [exact Hc | simpl; lia] | lia | done].
      * intros [] s2 _ Hs2. cbn [fmap list_fmap foldl]. rewrite <-Ht. by eapply shows_trans.
Qed.

Lemma puts_spec color str l s :
  cstring (c_mem s) str l -> (forall x, str <= x <= str + Z.of_nat (length l) -> ~ in_vga x) ->
  counters (Z.of_nat (length l)) s ->
  wp (puts str color) s (fun _ s' => shows s (foldl (term_putc color) (term_of s) (s8 <$> l)) s').
Proof.
  intros Hs Hout Hc. unfold puts. apply post_bind. unfold post at 1. cbn [get].
  apply puts_loop_spec; [done | done | | done]. pose proof (cstring_size _ _ _ Hs). lia.
Qed.

(** One piece of the text, then the rest. *)
Lemma print_next m0 color p fmt args l out s (item rest : M console unit) :
  expands m0 p fmt args out -> counters (Z.of_nat (length (l ++ out))) s ->
  same_on (fun a => ~ in_vga a) (c_mem s) m0 ->
  (counters (Z.of_nat (length l)) s ->
    wp item s (fun _ s' => shows s (foldl (term_putc color) (term_of s) l) s')) ->
  (forall s', counters (Z.of_nat (length out)) s' -> same_on (fun a => ~ in_vga a) (c_mem s') m0 ->
    wp rest s' (fun _ s'' => shows s' (foldl (term_putc color) (term_of s') out) s'')) ->
  wp (item ;; rest) s (fun _ s' => shows s (foldl (term_putc color) (term_of s) (l ++ out)) s').
Proof.
  intros _ Hc Hm Hitem Hrest. rewrite length_app in Hc. apply post_bind. eapply post_mono.
  - apply Hitem. eapply counters_mono; [exact Hc | lia].
  - intros [] s1 _ Hs1. pose proof Hs1 as (Ht & Hm1 & _). eapply post_mono.
    + apply Hrest; [|by etransitivity].
      apply (counters_after color l _ s); [|lia | done]. eapply counters_mono; [exact Hc | lia].
    + intros [] s2 _ Hs2. rewrite foldl_app, <-Ht. by eapply shows_trans.
Qed.

Lemma print_fmt_spec m0 color p fmt args out :
  expands m0 p fmt args out -> forall s,
  counters (Z.of_nat (length out)) s -> same_on (fun a => ~ in_vga a) (c_mem s) m0 ->
  wp (print_fmt (fun ch => putc ch color) (fun str => puts str color) p fmt args) s
    (fun _ s' => shows s (foldl (term_putc color) (term_of s) out) s').
Proof.
  induction 1 as [args | ch fmt args out Hch Hr IH | fmt a args out Hr IH | c fmt a args l out Hx Hl Hr IH
    | fmt a args l out Hl Hr IH | fmt a args l out Hs Hd Hr IH | c fmt args out H1 H2 H3 H4 H5 Hr IH];
    intros s Hc Hm; cbn [print_fmt].
  - apply (post_ret _ tt), shows_refl.
  - destruct (Z.eqb_spec ch 37); [done |]. cbn [negb].
    apply (print_next m0 color p fmt args [ch]); [done | done | done | apply putc_spec | done].
  - apply (print_next m0 color p fmt args [s32 a]); [done | done | done | apply putc_spec | done].
  - cbn [negb Z.eqb Pos.eqb]. destruct (Z.eqb_spec c 99); [destruct Hx as [|[]]; lia |].
    replace ((c =? 120) || p && (c =? 112)) with true by (destruct Hx as [->|[-> ->]]; done).
    cbn [next_arg]. unfold put_hex. rewrite Hl.
    apply (print_next m0 color p fmt args l); [done | done | done | apply putc_all_spec | done].
  - cbn [negb Z.eqb Pos.eqb orb andb]. rewrite andb_false_r. cbn [next_arg]. unfold put_decimal. rewrite Hl.
    apply (print_next m0 color p fmt args l); [done | done | done | apply putc_all_spec | done].
  - cbn [negb Z.eqb Pos.eqb orb andb]. rewrite andb_false_r. cbn [next_arg].
    apply (print_next m0 color p fmt args (s8 <$> l)); [done | done | done | | done].
    intros Hc'. rewrite length_fmap in Hc'. apply puts_spec; [|done|done].
    eapply cstring_ext; [|exact Hs]. symmetry. eapply same_on_mono; [|exact Hm]. done.
  - cbn [negb Z.eqb Pos.eqb]. destruct (Z.eqb_spec c 99), (Z.eqb_spec c 120), (Z.eqb_spec c 100), (Z.eqb_spec c 115); try done.
    assert (E : (p && (c =? 112))%bool = false).
    { destruct p; [|done]. simpl. apply Z.eqb_neq. auto. }
    cbn [orb]. rewrite E. by apply IH.
Qed.


(** A panic whose message can be printed always ends in [cli; hlt]. *)
Theorem panic_halts fmt args out s :
  expands (c_mem s) false fmt args out -> counters (Z.of_nat (length out)) s ->
  panic_fn fmt args s = Stop Halt.
Proof.
  intros Hx Hc. unfold panic_fn, vcprintf.
  destruct (wp_elim _ _ _ (print_fmt_spec _ 0x4 _ _ _ _ Hx s Hc (reflexivity _))) as ([] & s' & E & _).
  unfold debug_con_putc, debug_con_puts. unfold mbind, M_bind. by rewrite E.
Qed.
