(* ===== verification/BootConsole.v ===== *)
(** * The boot loader's console (boot/stage2/console.c, boot/stage2/printk.c)

    A simpler console than the driver's: a write position in video memory
    besides the line and column, and byte loops for scrolling.  The state is
    physical memory and the three static variables. *)

From S2P Require Import Prelude PhysMem CString Printf Console.

Abbreviation SCR_END := (SCR_START + LINES * COLUMNS * 2).
Abbreviation TEXT_COLOR_WHITE := 7.

Record kcon := KCon {
  k_mem : memory;
  k_x : Z;
  k_y : Z;
  k_pos : Z
}.
Definition k_poke (f : memory -> memory) : M kcon unit :=
  modify (fun s => KCon (f (k_mem s)) (k_x s) (k_y s) (k_pos s)).
Definition k_move (x y pos : Z) : M kcon unit := modify (fun s => KCon (k_mem s) x y pos).

(** [while (temp1 < SCR_END) *(long* )temp1++ = 0;], with integer increments:
    eight bytes are cleared at every address. *)
Fixpoint clear_longs (n : nat) (m : memory) (temp1 : Z) : memory :=
  match n with
  | O => m
  | S n' => clear_longs n' (store64 m temp1 0) (temp1 + 1)
  end.

(** [while (temp2 <= SCR_END)] copies up to the byte at [SCR_END] inclusive. *)
Definition k_scroll : M kcon unit :=
  let copied := SCR_END - (SCR_START + COLUMNS * 2) + 1 in
  k_poke (fun m => memcpy m SCR_START (SCR_START + COLUMNS * 2) copied) ;;
  k_poke (fun m => clear_longs (Z.to_nat (SCR_END - (SCR_START + copied))) m (SCR_START + copied)) ;;
  k_move 0 (LINES - 1) (SCR_END - COLUMNS * 2).

Definition k_newline : M kcon unit :=
  s ← get;
  let y := w64 (k_y s + 1) in
  let pos := w64 (SCR_START + y * COLUMNS * 2) in
  k_move 0 y pos ;;
  when (SCR_END <=? pos) k_scroll.

Definition k_tab : M kcon unit :=
  s ← get;
  let pos := w64 (k_pos s + TAB_SIZE * 2) in
  k_move (k_x s) (k_y s) pos ;;
  when (SCR_END <=? pos) k_scroll ;;
  s ← get;
  k_poke (fun m => <[k_pos s := 9]> m) ;;
  k_move (w64 (k_x s + TAB_SIZE)) (k_y s) (k_pos s).

Definition k_normal (ch color : Z) : M kcon unit :=
  s ← get;
  when (SCR_END <=? w64 (k_pos s + 2)) k_scroll ;;
  s ← get;
  k_poke (fun m => store 2 m (k_pos s) (Z.lor (w8 ch) (Z.shiftl (w8 color) 8))) ;;
  k_move (w64 (k_x s + 1)) (k_y s) (w64 (k_pos s + 2)).

Definition kputc (color ch : Z) : M kcon unit :=
  if ch =? 10 then k_newline
  else if ch =? 9 then k_tab
  else k_normal ch color.

(** The bound is the number of bytes in memory, as for [puts]. *)
Fixpoint kputs_loop (fuel : nat) (str color : Z) : M kcon unit :=
  s ← get;
  let ch := s8 (byte_at (k_mem s) str) in
  if ch =? 0 then mret tt else
  match fuel with
  | O => stop_with Diverge
  | S fuel' => kputc color ch ;; kputs_loop fuel' (str + 1) color
  end.
Definition kputs (color str : Z) : M kcon unit :=
  s ← get; kputs_loop (S (size (k_mem s))) str color.

Definition change_cursor_pos (new_x new_y : Z) : M kcon unit :=
  let y := w64 new_y in
  let x := w64 new_x in
  k_move x y (w64 (SCR_START + Z.shiftl x 1 + y * Z.shiftl COLUMNS 1)).
Definition get_cursor_pos (xptr yptr : Z) : M kcon unit :=
  s ← get;
  k_poke (fun m => store32 m xptr (k_x s)) ;;
  k_poke (fun m => store32 m yptr (k_y s)).
Definition k_con_init : M kcon unit := k_move 0 0 SCR_START.

Definition printk (fmt args : list Z) : M kcon unit :=
  print_fmt (kputc TEXT_COLOR_WHITE) (kputs TEXT_COLOR_WHITE) false fmt args.
Definition cprintk (fmt : list Z) (color : Z) (args : list Z) : M kcon unit :=
  print_fmt (kputc color) (kputs color) false fmt args.

(** ** Safety *)

(** The write position is on the screen, at the latest in its last cell. *)
Definition kcon_ok (s : kcon) : Prop :=
  SCR_START <= k_pos s < SCR_END /\ 0 <= k_y s < LINES.

(** Scrolling clears up to seven bytes behind the screen. *)
Definition k_range (a : Z) : Prop := SCR_START <= a < SCR_END + 7.
Definition k_safe (s s' : kcon) : Prop :=
  kcon_ok s' /\ same_on (fun a => ~ k_range a) (k_mem s') (k_mem s).

Lemma k_safe_trans s1 s2 s3 : k_safe s1 s2 -> k_safe s2 s3 -> k_safe s1 s3.
Proof. intros [? ?] [? ?]. split; [done | by etransitivity]. Qed.

Lemma clear_longs_frame n m a x :
  ~ (a <= x < a + Z.of_nat n + 7) -> byte_at (clear_longs n m a) x = byte_at m x.
Proof.
  revert m a. induction n as [|n IH]; intros m a Hx; [done |]. cbn [clear_longs].
  rewrite IH by lia. apply byte_at_store_out. simpl. lia.
Qed.

Lemma copy_bytes_frame n m d s x :
  ~ (d <= x < d + Z.of_nat n) -> byte_at (copy_bytes n m d s) x = byte_at m x.
Proof.
  revert m d s. induction n as [|n IH]; intros m d s Hx; [done |]. cbn [copy_bytes].
  rewrite IH by lia. rewrite byte_at_insert, decide_False by lia. done.
Qed.

Lemma k_scroll_safe s :
  wp k_scroll s (fun _ s' => k_safe s s' /\ k_pos s' = SCR_END - COLUMNS * 2 /\ k_y s' = LINES - 1).
Proof.
  unfold k_scroll. apply post_bind, post_modify, post_bind, post_modify, post_modify.
  split_and!; [|done|done]. split; [split; simpl; lia |]. intros a Ha. unfold k_range in Ha.
  cbn [k_mem]. rewrite clear_longs_frame by lia. apply copy_bytes_frame. lia.
Qed.

Lemma k_store_safe n s v x pos :
  (n <= 2)%nat -> kcon_ok s -> SCR_START <= pos < SCR_END ->
  k_safe s (KCon (store n (k_mem s) (k_pos s) v) x (k_y s) pos).
Proof.
  intros Hn [Hp Hy] Hpos. split; [split; simpl; lia |]. intros a Ha. unfold k_range in Ha.
  apply byte_at_store_out. lia.
Qed.

Lemma kputc_safe color ch s : kcon_ok s -> wp (kputc color ch) s (fun _ s' => k_safe s s').
Proof.
  intros [Hp Hy]. unfold kputc. case_if; [|case_if].
  - unfold k_newline. apply post_bind. unfold post at 1. cbn [get]. apply post_bind, post_modify.
    rewrite (w64_small (k_y s + 1)), w64_small by lia. apply post_when; intros; bool_to_prop.
    + eapply post_mono; [apply k_scroll_safe |]. intros [] s' _ ([? ?] & _). by split.
    + split; [split; simpl; lia | done].
  - unfold k_tab. apply post_bind. unfold post at 1. cbn [get]. apply post_bind, post_modify.
    rewrite (w64_small (k_pos s + _)) by lia. apply post_bind.
    assert (H1 : wp (when (SCR_END <=? k_pos s + TAB_SIZE * 2) k_scroll)
      (KCon (k_mem s) (k_x s) (k_y s) (k_pos s + TAB_SIZE * 2)) (fun _ s' => k_safe s s')).
    { apply post_when; intros; bool_to_prop.
      - eapply post_mono; [apply k_scroll_safe |]. intros [] s' _ ([? ?] & _). by split.
      - split; [split; simpl; lia | done]. }
    eapply post_mono; [exact H1 |]. intros [] s1 _ Hs1. apply post_bind. unfold post at 1. cbn [get].
    apply post_bind, post_modify, post_modify. eapply k_safe_trans; [exact Hs1 |].
    destruct Hs1 as [[Hp1 Hy1] _]. apply (k_store_safe 1 s1 9); [lia | by split | lia].
  - unfold k_normal. apply post_bind. unfold post at 1. cbn [get]. apply post_bind.
    rewrite (w64_small (k_pos s + 2)) by lia.
    assert (H1 : wp (when (SCR_END <=? k_pos s + 2) k_scroll) s
      (fun _ s' => k_safe s s' /\ k_pos s' + 2 < SCR_END)).
    { apply post_when; intros; bool_to_prop.
      - eapply post_mono; [apply k_scroll_safe |]. intros [] s' _ (? & E & _). split; [done | lia].
      - split; [|lia]. split; [by split | done]. }
    eapply post_mono; [exact H1 |]. intros [] s1 _ [Hs1 Hlt]. apply post_bind. unfold post at 1. cbn [get].
    apply post_bind, post_modify, post_modify. eapply k_safe_trans; [exact Hs1 |].
    destruct Hs1 as [[Hp1 Hy1] _]. cbn [k_mem k_x k_y k_pos].
    rewrite (w64_small (k_pos s1 + 2)) by lia. apply (k_store_safe 2); [lia | by split | lia].
Qed.

(** The boot console never leaves the screen: whatever is printed, every
    character is accepted, the write position stays in video memory, and no
    byte outside the screen and the seven bytes behind it changes. *)
Theorem boot_console_safe color cs s :
  kcon_ok s ->
  wp (forM cs (kputc color)) s (fun _ s' =>
    kcon_ok s' /\ same_on (fun a => ~ k_range a) (k_mem s') (k_mem s)).
Proof.
  intros Hok. apply (post_forM _ (fun _ s' => k_safe s s')); [by split |].
  intros ch l s' Hs'. eapply post_mono; [apply kputc_safe, Hs' |]. intros [] s2 _ H2.
  by eapply k_safe_trans.
Qed.

(** A line of more than 80 characters wraps in video memory, but the line
    counter does not follow: the next line feed goes back to the second half
    of the same text. *)
Example boot_wrap_newline :
  match (forM (replicate 81 65) (kputc 7) ;; kputc 7 10) (KCon ∅ 0 0 SCR_START) with
  | Ok _ s => k_pos s = SCR_START + COLUMNS * 2
  | Stop _ => False
  end.
Proof. by vm_compute. Qed.
