(* ===== verification/Drivers.v ===== *)
(** * The console and junk drivers (drivers/console/main.c, drivers/junk/main.c)

    Every driver is a loop: take a request from one of its channels, serve
    it, answer with the byte count.  A request is the count ([struct
    read_char_rq], eight bytes) followed by the data. *)

From S2P Require Import Prelude PhysMem CString MemMgr CpuInfo Ipc Channel Printf Console.

Abbreviation RQ_SIZE := 8.

(** The same function in all three drivers, with the same message; [data[0]]
    is a [char]. *)
Definition close_channel (cnl : Z) : M machine unit :=
  cnl_reply cnl 0 ;;
  msg_receive FS ;;
  s ← get;
  let reply_data := s8 (byte_at (m_mem s) (msg_data (inbox s FS))) in
  if negb (reply_data =? 0) then panic "KBD: The reply is wrong" else mret tt.

(** [for (i = 0; i < req.count; i++)], with an [int] index. *)
Definition for_count {S} (count : Z) (body : Z -> M S unit) : M S unit :=
  forM (seqZ 0 (Z.min count (2 ^ 31))) body ;;
  when (2 ^ 31 <? count) (stop_with (Fault "int overflow")).

(** One iteration of the console driver's loop. *)
Definition console_iteration : M console unit :=
  from ← on_con cnl_receive_any;
  m ← gets c_mem;
  if load64 m (cnl_data from) =? CLOSE_CHANNEL then on_con (close_channel from) else
  let count := load64 m (cnl_data from) in
  let write_data := cnl_data from + RQ_SIZE in
  for_count count (fun i =>
    m ← gets c_mem;
    putc (s8 (byte_at m (write_data + i))) 0xF) ;;
  on_con (cnl_reply from count).

(** Its start: the cursor position from the command line. *)
Definition console_start (argc argv1 argv2 : Z) : M console unit :=
  if argc <? 3 then panic "Too few arguments for console driver!" else
  let on_mem {A} (k : M memory A) : M console A := on_con (zoom m_mem set_m_mem k) in
  x ← on_mem (atoi argv1);
  y ← on_mem (atoi argv2);
  con_init x y.

Definition junk_close_channel (cnl : Z) : M machine unit := close_channel cnl.
(** One iteration of the junk driver's loop: the answer is all ['f']. *)
Definition junk_iteration : M machine unit :=
  from ← cnl_receive_any;
  m ← gets m_mem;
  if load64 m (cnl_data from) =? CLOSE_CHANNEL then junk_close_channel from else
  let count := load64 m (cnl_data from) in
  let write_data := cnl_data from + RQ_SIZE in
  for_count count (fun i => update_mem (fun m => <[write_data + i := 102]> m)) ;;
  cnl_reply from count.
