(* ===== verification/Keyboard.v ===== *)
(** * The keyboard driver (drivers/keyboard/keyboard.c, drivers/keyboard/main.c)

    Scan codes are translated with a table of 84 keys and eight modifier
    combinations.  Interrupts are enabled only while the driver waits for a
    request to be filled, so the interrupts of that time are a list: the
    status and data bytes the handler finds. *)

From S2P Require Import Prelude PhysMem CString MemMgr CpuInfo Ipc Channel Printf Console Drivers.

(** Columns: base, shift, ctrl, ctrl-shift, alt, alt-shift, alt-ctrl,
    alt-ctrl-shift. *)
Definition keymap : list (list Z) := [
  [0; 0; 0; 0; 0; 0; 0; 0];
  [0x1b; 0x1b; 0x1b; 0x1b; 0x1b; 0x1b; 0; 0x1b];
  [49; 33; 0; 0; 49; 33; 0; 0];
  [50; 64; 0x00; 0x00; 50; 64; 0x00; 0x00];
  [51; 35; 0; 0; 51; 35; 0; 0];
  [52; 36; 0; 0; 52; 36; 0; 0];
  [53; 37; 0; 0; 53; 37; 0; 0];
  [54; 94; 0x1e; 0x1e; 54; 94; 0x1e; 0x1e];
  [55; 38; 0; 0; 55; 38; 0; 0];
  [56; 42; 0; 0; 56; 42; 0; 0];
  [57; 40; 0; 0; 57; 40; 0; 0];
  [48; 41; 0; 0; 48; 41; 0; 0];
  [45; 95; 0x1f; 0x1f; 45; 95; 0x1f; 0x1f];
  [61; 43; 0; 0; 61; 43; 0; 0];
  [0x08; 0x08; 0x7f; 0x7f; 0x08; 0x08; 0x7f; 0x7f];
  [0x09; 0xf00; 0; 0; 0x09; 0xf00; 0; 0];
  [113; 81; 0x11; 0x11; 113; 81; 0x11; 0x11];
  [119; 87; 0x17; 0x17; 119; 87; 0x17; 0x17];
  [101; 69; 0x05; 0x05; 101; 69; 0x05; 0x05];
  [114; 82; 0x12; 0x12; 114; 82; 0x12; 0x12];
  [116; 84; 0x14; 0x14; 116; 84; 0x14; 0x14];
  [121; 89; 0x19; 0x19; 121; 89; 0x19; 0x19];
  [117; 85; 0x15; 0x15; 117; 85; 0x15; 0x15];
  [105; 73; 0x09; 0x09; 105; 73; 0x09; 0x09];
  [111; 79; 0x0f; 0x0f; 111; 79; 0x0f; 0x0f];
  [112; 80; 0x10; 0x10; 112; 80; 0x10; 0x10];
  [91; 123; 0x1b; 0x1b; 91; 123; 0x1b; 0x1b];
  [93; 125; 0x1d; 0x1d; 93; 125; 0x1d; 0x1d];
  [0x0a; 0x0a; 0x0a; 0x0a; 0x0a; 0x0a; 0x0a; 0x0a];
  [0; 0; 0; 0; 0; 0; 0; 0];
  [97; 65; 0x01; 0x01; 97; 65; 0x01; 0x01];
  [115; 83; 0x13; 0x13; 115; 83; 0x13; 0x13];
  [100; 68; 0x04; 0x04; 100; 68; 0x04; 0x04];
  [102; 70; 0x06; 0x06; 102; 70; 0x06; 0x06];
  [103; 71; 0x07; 0x07; 103; 71; 0x07; 0x07];
  [104; 72; 0x08; 0x08; 104; 72; 0x08; 0x08];
  [106; 74; 0x0a; 0x0a; 106; 74; 0x0a; 0x0a];
  [107; 75; 0x0b; 0x0b; 107; 75; 0x0b; 0x0b];
  [108; 76; 0x0c; 0x0c; 108; 76; 0x0c; 0x0c];
  [59; 58; 0; 0; 59; 58; 0; 0];
  [39; 34; 0; 0; 39; 34; 0; 0];
  [96; 126; 0; 0; 96; 126; 0; 0];
  [0; 0; 0; 0; 0; 0; 0; 0];
  [92; 124; 0x1c; 0x1c; 92; 124; 0x1c; 0x1c];
  [122; 90; 0x1a; 0x1a; 122; 90; 0x1a; 0x1a];
  [120; 88; 0x18; 0x18; 120; 88; 0x18; 0x18];
  [99; 67; 0x03; 0x03; 99; 67; 0x03; 0x03];
  [118; 86; 0x16; 0x16; 118; 86; 0x16; 0x16];
  [98; 66; 0x02; 0x02; 98; 66; 0x02; 0x02];
  [110; 78; 0x0e; 0x0e; 110; 78; 0x0e; 0x0e];
  [109; 77; 0x0d; 0x0d; 109; 77; 0x0d; 0x0d];
  [44; 60; 0; 0; 44; 60; 0; 0];
  [46; 62; 0; 0; 46; 62; 0; 0];
  [47; 63; 0; 0; 47; 63; 0; 0];
  [0; 0; 0; 0; 0; 0; 0; 0];
  [42; 42; 42; 42; 42; 42; 42; 42];
  [0; 0; 0; 0; 0; 0; 0; 0];
  [32; 32; 0x00; 32; 32; 32; 0; 32];
  [0; 0; 0; 0; 0; 0; 0; 0];
  [0x3b00; 0x5400; 0x5e00; 0; 0x6800; 0; 0; 0];
  [0x3c00; 0x5500; 0x5f00; 0; 0x6900; 0; 0; 0];
  [0x3d00; 0x5600; 0x6000; 0; 0x6a00; 0; 0; 0];
  [0x3e00; 0x5700; 0x6100; 0; 0x6b00; 0; 0; 0];
  [0x3f00; 0x5800; 0x6200; 0; 0x6c00; 0; 0; 0];
  [0x4000; 0x5900; 0x6300; 0; 0x6d00; 0; 0; 0];
  [0x4100; 0x5a00; 0x6400; 0; 0x6e00; 0; 0; 0];
  [0x4200; 0x5b00; 0x6500; 0; 0x6f00; 0; 0; 0];
  [0x4300; 0x5c00; 0x6600; 0; 0x7000; 0; 0; 0];
  [0x4400; 0x5d00; 0x6700; 0; 0x7100; 0; 0; 0];
  [0; 0; 0; 0; 0; 0; 0; 0];
  [0; 0; 0; 0; 0; 0; 0; 0];
  [0x4700; 55; 55; 55; 55; 55; 55; 55];
  [0x4800; 56; 56; 56; 56; 56; 56; 56];
  [0x4900; 57; 57; 57; 57; 57; 57; 57];
  [45; 45; 45; 45; 45; 45; 45; 45];
  [0x4b00; 52; 52; 52; 52; 52; 52; 52];
  [0x4c00; 53; 53; 53; 53; 53; 53; 53];
  [0x4d00; 54; 54; 54; 54; 54; 54; 54];
  [43; 43; 43; 43; 43; 43; 43; 43];
  [0x4f00; 49; 49; 49; 49; 49; 49; 49];
  [0x5000; 50; 50; 50; 50; 50; 50; 50];
  [0x5100; 51; 51; 51; 51; 51; 51; 51];
  [0x5200; 48; 48; 48; 48; 48; 48; 48];
  [0x5300; 46; 46; 46; 46; 46; 0; 0]
].

Record kbd := Kbd {
  k_m : machine;
  kbd_buffer : Z;
  bufpos : Z;
  shift_pressed : bool;
  ctrl_pressed : bool;
  alt_pressed : bool;
  interrupts : list (Z * Z)    (* status port, data port *)
}.
Definition set_k_m (v : machine) (s : kbd) : kbd :=
  Kbd v (kbd_buffer s) (bufpos s) (shift_pressed s) (ctrl_pressed s) (alt_pressed s) (interrupts s).
Definition set_kbd_buffer (v : Z) (s : kbd) : kbd :=
  Kbd (k_m s) v (bufpos s) (shift_pressed s) (ctrl_pressed s) (alt_pressed s) (interrupts s).
Definition set_bufpos (v : Z) (s : kbd) : kbd :=
  Kbd (k_m s) (kbd_buffer s) v (shift_pressed s) (ctrl_pressed s) (alt_pressed s) (interrupts s).
Definition set_shift (v : bool) (s : kbd) : kbd :=
  Kbd (k_m s) (kbd_buffer s) (bufpos s) v (ctrl_pressed s) (alt_pressed s) (interrupts s).
Definition set_ctrl (v : bool) (s : kbd) : kbd :=
  Kbd (k_m s) (kbd_buffer s) (bufpos s) (shift_pressed s) v (alt_pressed s) (interrupts s).
Definition set_alt (v : bool) (s : kbd) : kbd :=
  Kbd (k_m s) (kbd_buffer s) (bufpos s) (shift_pressed s) (ctrl_pressed s) v (interrupts s).
Definition set_interrupts (v : list (Z * Z)) (s : kbd) : kbd :=
  Kbd (k_m s) (kbd_buffer s) (bufpos s) (shift_pressed s) (ctrl_pressed s) (alt_pressed s) v.
Definition on_kbd {A} (m : M machine A) : M kbd A := zoom k_m set_k_m m.

(** [buffer[bufpos++] = data;], a [char] *)
Definition kbd_add_buf (data : Z) : M kbd unit :=
  s ← get;
  on_kbd (update_mem (fun m => <[kbd_buffer s + bufpos s := w8 data]> m)) ;;
  modify (set_bufpos (bufpos s + 1)).

(** [(ctrl_pressed<<1) | shift_pressed | (alt_pressed<<2)] *)
Definition modifiers (s : kbd) : Z :=
  Z.lor (Z.lor (Z.shiftl (Z.b2z (ctrl_pressed s)) 1) (Z.b2z (shift_pressed s)))
        (Z.shiftl (Z.b2z (alt_pressed s)) 2).

(** [keymap[scan_code][column]]; scan codes behind the table are out of its
    bounds. *)
Definition key_lookup (scan_code column : Z) : option Z :=
  row ← keymap !! Z.to_nat scan_code; row !! Z.to_nat column.

(** The interrupt handler, up to the end-of-interrupt signal. *)
Definition kbd_proc_data (status scan_code : Z) : M kbd unit :=
  if Z.land status 1 =? 0 then panic "Data can't be read from keyboard buffer" else
  if scan_code =? 0xE0 then mret tt else
  if scan_code =? 0x1D then modify (set_ctrl true) else
  if scan_code =? 0x38 then modify (set_alt true) else
  if (scan_code =? 0x2A) || (scan_code =? 0x36) then modify (set_shift true) else
  if scan_code =? 0x9D then modify (set_ctrl false) else
  if scan_code =? 0xB8 then modify (set_alt false) else
  if (scan_code =? 0xAA) || (scan_code =? 0xB6) then modify (set_shift false) else
  s ← get;
  if alt_pressed s && ctrl_pressed s && (scan_code =? 0x53) then stop_with Halt else
  if negb (Z.land scan_code 0x80 =? 0) then mret tt else
  asci_code ← of_option (Fault "keymap") (key_lookup scan_code (modifiers s));
  kbd_add_buf asci_code.

(** [while (1) { sti; hlt; if (bufpos >= count) { bufpos = 0; break; } }]: one
    interrupt each time the processor is halted. *)
Fixpoint wait_loop (events : list (Z * Z)) (count : Z) : M kbd unit :=
  match events with
  | [] => stop_with Diverge
  | (status, data) :: events' =>
      modify (set_interrupts events') ;;
      kbd_proc_data status data ;;
      s ← get;
      if count <=? bufpos s then modify (set_bufpos 0) else wait_loop events' count
  end.
Definition wait_for_completed_request (channel count : Z) : M kbd unit :=
  modify (set_kbd_buffer channel) ;;
  events ← gets interrupts;
  wait_loop events (s32 count).

Definition kbd_close_channel (cnl : Z) : M machine unit := close_channel cnl.
(** One iteration of the driver's loop. *)
Definition kbd_iteration : M kbd unit :=
  from ← on_kbd cnl_receive_any;
  m ← gets (fun s => m_mem (k_m s));
  if load64 m (cnl_data from) =? CLOSE_CHANNEL then on_kbd (kbd_close_channel from) else
  let count := load64 m (cnl_data from) in
  wait_for_completed_request (cnl_data from) count ;;
  on_kbd (cnl_reply from count).
