(* ===== verification/KeyboardSpec.v ===== *)
(** * Correctness of the keyboard driver *)

From S2P Require Import Prelude PhysMem CString MemMgr CpuInfo Ipc Channel Printf Console Drivers.
From S2P Require Import Keyboard.

(** ** What a sequence of scan codes means *)

(** A modifier is down when the last of its codes was a press. *)
Definition modifier_down (press release : list Z) (codes : list Z) (before : bool) : bool :=
  foldl (fun b c => if decide (c ∈ press) then true else if decide (c ∈ release) then false else b)
    before codes.
Abbreviation shift_down := (modifier_down [0x2A; 0x36] [0xAA; 0xB6]).
Abbreviation ctrl_down := (modifier_down [0x1D] [0x9D]).
Abbreviation alt_down := (modifier_down [0x38] [0xB8]).

(** The codes that type a character: not a modifier, not a release, not the
    prefix 0xE0. *)
Definition types_char (c : Z) : bool :=
  (c <? 0x80) && negb (bool_decide (c ∈ [0x2A; 0x36; 0x1D; 0x38])).

Definition column (shift ctrl alt : bool) : Z := Z.b2z shift + 2 * Z.b2z ctrl + 4 * Z.b2z alt.

(** The characters typed by [codes] when the modifiers start as given. *)
Fixpoint typed (shift ctrl alt : bool) (codes : list Z) : list Z :=
  match codes with
  | [] => []
  | c :: codes' =>
      (if types_char c then [default 0 (key_lookup c (column shift ctrl alt))] else []) ++
      typed (shift_down [c] shift) (ctrl_down [c] ctrl) (alt_down [c] alt) codes'
  end.

(** Codes the driver accepts: keys of the table or releases, never
    ctrl-alt-delete. *)
Fixpoint accepted (ctrl alt : bool) (codes : list Z) : Prop :=
  match codes with
  | [] => True
  | c :: codes' =>
      0 <= c < 0x100 /\ (c < 0x54 \/ 0x80 <= c) /\ ~ (ctrl = true /\ alt = true /\ c = 0x53) /\
      accepted (ctrl_down [c] ctrl) (alt_down [c] alt) codes'
  end.

(** ** The table *)

Lemma keymap_rows : Forall (fun row => length row = 8%nat) keymap.
Proof. by apply (bool_decide_unpack _); vm_compute. Qed.

Lemma key_lookup_total c col : 0 <= c < 0x54 -> 0 <= col < 8 -> is_Some (key_lookup c col).
Proof.
  intros Hc Hcol. unfold key_lookup.
  destruct (lookup_lt_is_Some_2 keymap (Z.to_nat c)) as [row Hrow]; [change (length keymap) with 84%nat; lia |].
  rewrite Hrow. simpl. apply lookup_lt_is_Some_2.
  rewrite (Forall_lookup_1 _ _ _ _ keymap_rows Hrow). lia.
Qed.

(** The key table is consistent for letters: on every key whose base
    character is a lower-case letter, shift gives the upper-case letter, ctrl
    the control code of the letter whatever shift is, and alt changes
    nothing; the 26 letters are all there. *)
Theorem keymap_letters :
  (forall c ch, key_lookup c 0 = Some ch -> 97 <= ch <= 122 ->
     key_lookup c (column true false false) = Some (ch - 32) /\
     key_lookup c (column false true false) = Some (ch - 96) /\
     key_lookup c (column true true false) = Some (ch - 96) /\
     forall shift ctrl, key_lookup c (column shift ctrl true) = key_lookup c (column shift ctrl false)) /\
  (forall ch, 97 <= ch <= 122 -> exists c, key_lookup c 0 = Some ch).
Proof.
  split.
  - intros c ch Hc Hch. unfold key_lookup in Hc. apply bind_Some in Hc as (row & Hrow & Hhd).
    assert (H : Forall (fun row => forall ch, row !! 0%nat = Some ch -> 97 <= ch <= 122 ->
      row = [ch; ch - 32; ch - 96; ch - 96; ch; ch - 32; ch - 96; ch - 96]) keymap).
    { unfold keymap. repeat (constructor; [intros x E; injection E as <-; intros; first [lia | reflexivity] |]).
      constructor. }
    pose proof (Forall_lookup_1 _ _ _ _ H Hrow ch Hhd Hch) as ->.
    unfold key_lookup. rewrite Hrow. simpl. split_and!; try done. by intros [] [].
  - intros ch Hch.
    assert (H : Forall (fun x => exists c, key_lookup c 0 = Some x) (seqZ 97 26)).
    { apply (Forall_impl (fun x => x ∈ (fun row => default 0 (row !! 0%nat)) <$> keymap)).
      - by apply (bool_decide_unpack _); vm_compute.
      - intros x (row & -> & Hr)%list_elem_of_fmap. apply list_elem_of_lookup in Hr as [i Hi].
        exists (Z.of_nat i). unfold key_lookup. rewrite Nat2Z.id, Hi. simpl.
        pose proof (Forall_lookup_1 _ _ _ _ keymap_rows Hi). by destruct row. }
    rewrite Forall_forall in H. apply H, elem_of_seqZ. lia.
Qed.

(** ** The interrupt handler *)

Lemma modifiers_column s : modifiers s = column (shift_pressed s) (ctrl_pressed s) (alt_pressed s).
Proof. unfold modifiers. by destruct (shift_pressed s), (ctrl_pressed s), (alt_pressed s). Qed.

Lemma modifier_other press release c b :
  c ∉ press -> c ∉ release -> modifier_down press release [c] b = b.
Proof. intros. unfold modifier_down. simpl. by rewrite !decide_False. Qed.

(** The state after code [c]: the modifiers follow it, and a typed character
    is appended to the buffer. *)
Definition after_code (c : Z) (s : kbd) : kbd :=
  let typing := types_char c in
  let ch := default 0 (key_lookup c (column (shift_pressed s) (ctrl_pressed s) (alt_pressed s))) in
  Kbd (if typing then set_m_mem (<[kbd_buffer s + bufpos s := w8 ch]> (m_mem (k_m s))) (k_m s) else k_m s)
    (kbd_buffer s) (if typing then bufpos s + 1 else bufpos s)
    (shift_down [c] (shift_pressed s)) (ctrl_down [c] (ctrl_pressed s)) (alt_down [c] (alt_pressed s))
    (interrupts s).

Lemma land_0x80 c : 0 <= c < 0x100 -> (Z.land c 0x80 =? 0) = (c <? 0x80).
Proof.
  intros Hc. assert (H : Forall (fun c => (Z.land c 0x80 =? 0) = (c <? 0x80)) (seqZ 0 256)).
  { by apply (bool_decide_unpack _); vm_compute. }
  rewrite Forall_forall in H. apply H, elem_of_seqZ. lia.
Qed.

Lemma kbd_proc_spec status c s :
  Z.land status 1 <> 0 -> accepted (ctrl_pressed s) (alt_pressed s) [c] ->
  kbd_proc_data status c s = Ok tt (after_code c s).
Proof.
  intros Hst (Hc & Hr & Hcad & _). destruct s as [m buf pos sh ct al ev]. simpl in Hcad.
  unfold kbd_proc_data. destruct (Z.eqb_spec (Z.land status 1) 0); [done |].
  destruct (Z.eqb_spec c 0xE0) as [->|]; [done |]. destruct (Z.eqb_spec c 0x1D) as [->|]; [done |].
  destruct (Z.eqb_spec c 0x38) as [->|]; [done |]. destruct (Z.eqb_spec c 0x2A) as [->|]; [done |].
  destruct (Z.eqb_spec c 0x36) as [->|]; [done |]. destruct (Z.eqb_spec c 0x9D) as [->|]; [done |].
  destruct (Z.eqb_spec c 0xB8) as [->|]; [done |]. destruct (Z.eqb_spec c 0xAA) as [->|]; [done |].
  destruct (Z.eqb_spec c 0xB6) as [->|]; [done |]. cbn [orb]. unfold after_code. cbn [shift_pressed ctrl_pressed alt_pressed].
  rewrite !modifier_other by (rewrite ?elem_of_cons, ?elem_of_nil; lia).
  unfold mbind at 1, M_bind at 1. cbn [get alt_pressed ctrl_pressed].
  replace (al && ct && (c =? 0x53)) with false by (destruct al, ct, (Z.eqb_spec c 0x53); done || (exfalso; by apply Hcad)).
  rewrite land_0x80 by done. unfold types_char.
  rewrite bool_decide_false by (rewrite ?elem_of_cons, ?elem_of_nil; lia).
  destruct (Z.ltb_spec c 0x80); cbn [negb andb]; [|done].
  rewrite modifiers_column. cbn [shift_pressed ctrl_pressed alt_pressed].
  destruct (key_lookup_total c (column sh ct al)) as [ch Hch]; [lia | unfold column; destruct sh, ct, al; simpl; lia |].
  unfold mbind, M_bind. rewrite Hch. done.
Qed.

(** The modifier state follows the keys: after any accepted sequence of
    scan codes, shift, ctrl and alt are held exactly when the last code of
    that modifier (either shift key) was a press. *)
Theorem modifiers_follow_keys codes s :
  accepted (ctrl_pressed s) (alt_pressed s) codes ->
  wp (forM codes (kbd_proc_data 1)) s (fun _ s' =>
    shift_pressed s' = shift_down codes (shift_pressed s) /\
    ctrl_pressed s' = ctrl_down codes (ctrl_pressed s) /\
    alt_pressed s' = alt_down codes (alt_pressed s)).
Proof.
  revert s. induction codes as [|c codes IH]; intros s Hacc; cbn [forM]; [done |].
  destruct Hacc as (? & ? & ? & Hacc). apply post_bind. unfold post at 1.
  rewrite kbd_proc_spec by (done || by split_and!). by apply (IH (after_code c s)).
Qed.

(** ** Filling a request *)

(** Interrupts that deliver [codes]. *)
Definition delivers (events : list (Z * Z)) (codes : list Z) : Prop :=
  events.*2 = codes /\ Forall (fun e => Z.land e.1 1 <> 0) events.

Lemma wait_loop_spec events codes count (n : nat) s :
  delivers events codes -> accepted (ctrl_pressed s) (alt_pressed s) codes ->
  bufpos s = count - Z.of_nat n -> (0 < n)%nat ->
  (n <= length (typed (shift_pressed s) (ctrl_pressed s) (alt_pressed s) codes))%nat ->
  wp (wait_loop events count) s (fun _ s' =>
    bufpos s' = 0 /\
    m_mem (k_m s') = put_bytes (m_mem (k_m s)) (kbd_buffer s + bufpos s)
      (take n (typed (shift_pressed s) (ctrl_pressed s) (alt_pressed s) codes)) /\
    k_m s' = set_m_mem (m_mem (k_m s')) (k_m s)).
Proof.
  revert codes n s. induction events as [|[st c] events IH]; intros codes n s [Hcodes Hst] Hacc Hpos Hn Hlen.
  { simpl in Hcodes. subst. simpl in Hlen. lia. }
  destruct codes as [|c' codes]; [done |]. injection Hcodes as -> Hcodes.
  apply Forall_cons in Hst as [Hst0 Hst]. destruct Hacc as (Ha1 & Ha2 & Ha3 & Hacc). cbn [wait_loop].
  apply post_bind, post_modify, post_bind. unfold post at 1.
  rewrite kbd_proc_spec by (done || by split_and!). apply post_bind. unfold post at 1. cbn [get].
  set (s1 := after_code c' (set_interrupts events s)). cbn [typed] in Hlen |- *.
  assert (Hpos1 : bufpos s1 = if types_char c' then bufpos s + 1 else bufpos s) by done.
  assert (Hmem1 : k_m s1 = if types_char c' then set_m_mem (<[kbd_buffer s + bufpos s := w8 (default 0
    (key_lookup c' (column (shift_pressed s) (ctrl_pressed s) (alt_pressed s))))]> (m_mem (k_m s))) (k_m s)
    else k_m s) by done.
  destruct (types_char c') eqn:Ety.
  - destruct (decide (n = 1%nat)) as [->|].
    + destruct (Z.leb_spec count (bufpos s1)); [|lia]. apply post_modify. cbn [bufpos k_m set_bufpos].
      rewrite Hmem1. done.
    + destruct (Z.leb_spec count (bufpos s1)); [lia |].
      eapply post_mono; [apply (IH codes (n - 1)%nat s1); [by split | done | lia | lia | simpl in Hlen |- *; lia] |].
      intros [] s2 _ (Hb & Hm & Hk). split_and!; [done | | by rewrite Hk, Hmem1].
      rewrite Hm, Hmem1, Hpos1. destruct n as [|n]; [lia |].
      replace (S n - 1)%nat with n by lia. cbn [app take put_bytes]. simpl.
      by replace (kbd_buffer s + bufpos s + 1) with (kbd_buffer s + (bufpos s + 1)) by lia.
  - destruct (Z.leb_spec count (bufpos s1)); [lia |].
    eapply post_mono; [apply (IH codes n s1); [by split | done | lia | lia | done] |].
    intros [] s2 _ (Hb & Hm & Hk). split_and!; [done | | by rewrite Hk, Hmem1].
    rewrite Hm, Hmem1, Hpos1. done.
Qed.


(** The codes 0x54 to 0x7F are keys of a PC keyboard (0x57 and 0x58 are F11
    and F12) but lie behind the table. *)
Lemma keymap_out_of_bounds s : kbd_proc_data 1 0x57 s = Stop (Fault "keymap").
Proof.
  by destruct s as [m b p [] [] [] ev].
Qed.
