(* ===== verification/UserLib.v ===== *)
(** * System calls of user programs (lib/fs.c, lib/pm.c, the output functions of lib/printf.c)

    Programs reach the servers through messages and character devices
    through channels.  Channels, descriptor tables and message pages are
    mapped at their physical addresses in every VM; what a program passes by
    pointer from its own sections is given as the bytes there ([list Z]),
    and what a call stores through such a pointer is part of its result.
    [stale] stands for uninitialised bytes of a local structure. *)

From S2P Require Import Prelude PhysMem CString MemMgr CpuInfo Ipc Channel Pm PmProc Fs Printf.

Abbreviation MAX_PATHNAME := 32.

(** Bytes of the request structures sent to the servers. *)
Definition path_field (stale pathname : list Z) : list Z :=
  let len := Nat.min (length pathname) (Z.to_nat MAX_PATHNAME) in
  take (Z.to_nat MAX_PATHNAME) (take len pathname ++ [0] ++ drop (S len) stale).
(** [struct open_ipc]: the path, the flags behind it. *)
Definition open_args (stale pathname : list Z) (flags : Z) : list Z :=
  path_field stale pathname ++ int_bytes flags.
(** [struct read_ipc]: fd, padding, buffer address, count, padding. *)
Definition read_args (stale : list Z) (fd buf count : Z) : list Z :=
  int_bytes fd ++ take 4 stale ++ u64_bytes buf ++ int_bytes count ++ take 4 (drop 4 stale).

(** Address of the answer of [server]. *)
Definition reply_data (server : Z) : M machine Z := gets (fun s => msg_data (inbox s server)).
Definition call (server number : Z) (data : list Z) : M machine Z :=
  msg_send server number data ;;
  msg_receive server ;;
  reply_data server.

(** ** lib/fs.c *)

Definition open (stale pathname : list Z) (flags : Z) : M machine Z :=
  a ← call FS OPEN_IPC (open_args stale pathname flags);
  m ← gets m_mem;
  let fd := load_int m a in
  mret (if fd <? 0 then -1 else fd).

Definition open_std (stale : list Z) : M machine unit :=
  fd ← open stale str_stdin 0;
  if fd <? 0 then panic "Failed to open stdin" else
  fd ← open stale str_stdout 2;
  if fd <? 0 then panic "Failed to open stdout" else mret tt.

(** The room for data in a channel page; the comparison is unsigned. *)
Definition count_too_large (count : Z) : bool := 4096 - 12 - 8 <=? w64 count.

Definition fd_channel (fd : Z) : M machine Z :=
  gets (fun s => fd_offset (m_mem s) (vm_fds (vm_info (self s))) fd).
Definition my_fd_type (fd : Z) : M machine Z :=
  gets (fun s => fd_type (m_mem s) (vm_fds (vm_info (self s))) fd).

(** The result, and the bytes copied to the caller's buffer. *)
Definition read_char (fd count : Z) : M machine (Z * list Z) :=
  cnl ← fd_channel fd;
  if count_too_large count then panic "Count too large!" else
  update_mem (fun m => put_bytes m (cnl_data cnl) (u64_bytes count)) ;;
  cnl_send cnl ;;
  cnl_receive cnl ;;
  m ← gets m_mem;
  let result := cnl_result m cnl in
  mret (result, if negb (result =? -1) then get_bytes m (cnl_data cnl) (Z.to_nat (w64 result)) else []).

(** For a file the server stores the bytes; [buf] is the caller's address. *)
Definition read (stale : list Z) (fd buf count : Z) : M machine (Z * list Z) :=
  type ← my_fd_type fd;
  if type =? TYPE_CHAR then read_char fd count else
  s ← get;
  paddr ← virt2phys (self s) buf;
  a ← call FS READ_IPC (read_args stale fd paddr count);
  m ← gets m_mem;
  mret (load_int m (a + 8), []).

Definition write_char (fd : Z) (buf : list Z) (count : Z) : M machine Z :=
  cnl ← fd_channel fd;
  if count_too_large count then panic "Count too large!" else
  update_mem (fun m => put_bytes m (cnl_data cnl) (u64_bytes count)) ;;
  update_mem (fun m => put_bytes m (cnl_data cnl + 8) (take (Z.to_nat count) buf)) ;;
  cnl_send cnl ;;
  cnl_receive cnl ;;
  gets (fun s => cnl_result (m_mem s) cnl).

(** What follows the two tests in the source is never reached. *)
Definition write (fd : Z) (buf : list Z) (count : Z) : M machine Z :=
  type ← my_fd_type fd;
  if type =? 0 then panic "Type is worng!" else
  if type =? TYPE_CHAR then write_char fd buf count
  else panic "Only CHAR devices are available for write".

Definition close (fd : Z) : M machine Z :=
  a ← call FS CLOSE_IPC (int_bytes fd);
  m ← gets m_mem;
  mret (load_int m a).

(** ** lib/pm.c *)

Definition empty_call : M machine Z :=
  a ← call PM 999 [];
  m ← gets m_mem;
  mret (load_int m a).

(** [cpuinfo_vaddr] is the address of the program's [cpuinfo] variable. *)
Definition fork_internal (cpuinfo_vaddr register_array_vaddr : Z) : M machine Z :=
  s ← get;
  regs_paddr ← virt2phys (self s) register_array_vaddr;
  a ← call PM FORK_IPC (u64_bytes cpuinfo_vaddr ++ u64_bytes regs_paddr);
  m ← gets m_mem;
  mret (load_int m a).

(** Up to the [vmcall]; [registers] is the address of the structure into
    which inline assembly saves the registers. *)
Definition exec_args (stale path : list Z) (argv registers : Z) : list Z :=
  path_field stale path ++ u64_bytes argv ++ u64_bytes registers.
Definition exec (stale path : list Z) (argv registers : Z) : M machine unit :=
  s ← get;
  argv_paddr ← (if negb (argv =? 0) then virt2phys (self s) argv else mret 0);
  regs_paddr ← virt2phys (self s) registers;
  msg_send PM EXEC_IPC (exec_args stale path argv_paddr regs_paddr).

(** The child's identifier and its exit status. *)
Definition waitpid (pid : Z) : M machine (Z * Z) :=
  a ← call PM WAITPID_IPC (int_bytes pid);
  m ← gets m_mem;
  mret (load_int m a, load_int m (a + 4)).

(** Up to the [vmcall]. *)
Definition exit (status : Z) : M machine unit :=
  msg_send PM EXIT_IPC (int_bytes status).

(** ** Output functions of lib/printf.c

    [prog] is the memory of the program. *)
Definition lib_putc (ch : Z) : M machine unit := write 1 [w8 ch] 1 ;; mret tt.
Definition lib_puts (prog : memory) (str : Z) : M machine unit :=
  n ← of_option Diverge (strlen prog str);
  write 1 (get_bytes prog str (Z.to_nat n)) (s32 n) ;; mret tt.
(** [buffer] is the address of the local array of 1024 bytes. *)
Definition printf (prog : memory) (buffer : Z) (fmt args : list Z) : M machine unit :=
  match vsnprintf buffer fmt 1024 args prog with
  | Ok _ prog' => lib_puts prog' buffer
  | Stop e => stop_with e
  end.
