(* ===== verification/DriversSpec.v ===== *)
(** * Correctness of the drivers, and a write from a program to the screen *)

From S2P Require Import Prelude PhysMem CString MemMgr CpuInfo Ipc IpcSpec Channel ChannelSpec Pm.
From S2P Require Import Printf Console ConsoleSpec Drivers UserLib.

(** The request in channel [c]: [count] and the bytes behind it. *)
Definition request_at (m : memory) (c : Z) (bytes : list Z) : Prop :=
  load64 m (cnl_data c) = Z.of_nat (length bytes) /\
  forall i b, bytes !! i = Some b -> byte_at m (cnl_data c + RQ_SIZE + Z.of_nat i) = b.

(** A channel page is not video memory. *)
Definition off_screen (c : Z) : Prop :=
  c + 4096 <= SCR_START \/ SCR_START + 2 * (LINES * COLUMNS) <= c.

Lemma console_loop_spec (n : nat) a (i : nat) bytes s s0 :
  (i + n = length bytes)%nat ->
  same_on (fun x => ~ in_vga x) (c_mem s) (c_mem s0) ->
  (forall j, (j < length bytes)%nat -> ~ in_vga (a + Z.of_nat j)) ->
  (forall j b, bytes !! j = Some b -> byte_at (c_mem s0) (a + Z.of_nat j) = b) ->
  counters (Z.of_nat n) s ->
  wp (forM (seqZ (Z.of_nat i) (Z.of_nat n))
       (fun i => m ← gets c_mem; putc (s8 (byte_at m (a + i))) 0xF)) s
    (fun _ s' => shows s (foldl (term_putc 0xF) (term_of s) (s8 <$> drop i bytes)) s').
Proof.
  revert i s. induction n as [|n IH]; intros i s Hlen Hs0 Hoff Hb (Hx & Hx' & Hy).
  { rewrite drop_ge by lia. apply (post_ret _ tt). exact (shows_move s (con_x s) (con_y s)). }
  destruct (lookup_lt_is_Some_2 bytes i) as [b Hib]; [lia |].
  rewrite seqZ_cons by lia. cbn [forM]. apply post_bind, post_bind, post_gets.
  rewrite (Hs0 (a + Z.of_nat i)) by (apply Hoff; lia). rewrite (Hb i b Hib).
  eapply post_mono; [apply (putc_spec (s8 b) 0xF s); split_and!; lia |].
  intros [] s1 _ Hs1. pose proof Hs1 as (Ht & Hm & _).
  pose proof (term_putc_cursor 0xF (term_of s) (s8 b)) as Hcur. rewrite <-Ht in Hcur. simpl in Hcur.
  replace (Z.succ (Z.of_nat i)) with (Z.of_nat (S i)) by lia.
  replace (Z.pred (Z.of_nat (S n))) with (Z.of_nat n) by lia.
  eapply post_mono.
  - apply (IH (S i) s1); [lia | by etransitivity | done | done |]. split_and!; lia.
  - intros [] s2 _ Hs2. rewrite (drop_S bytes b i Hib), fmap_cons. cbn [foldl].
    rewrite <-Ht. by eapply shows_trans.
Qed.

(** The driver's next request is on channel [c], and holds [bytes]. *)
Definition console_ready (d : machine) (c : Z) (bytes : list Z) : Prop :=
  is_driver (cpuid (self d)) = true /\
  (exists l i, channel_list d l /\ m_cnl d = Z.of_nat i /\ l !! i = Some c) /\
  c <> 0 /\ off_screen c /\ ready_send (m_mem d) c = 1 /\
  request_at (m_mem d) c bytes /\ Z.of_nat (length bytes) < 4096 - 12 - 8.

Lemma zoom_ok {S T A} (sel : S -> T) upd (m : M T A) s a t :
  m (sel s) = Ok a t -> zoom sel upd m s = Ok a (upd t s).
Proof. unfold zoom. by intros ->. Qed.

Lemma screen_ext m1 m2 : same_on in_vga m1 m2 -> screen m1 = screen m2.
Proof.
  intros H. unfold screen. apply list_fmap_ext. intros i x Hi. apply lookup_seqZ in Hi.
  apply load_ext. eapply same_on_mono; [|exact H]. unfold in_vga, vga_addr. simpl. lia.
Qed.

Lemma flag_frame v c m P :
  (forall a, P a -> ~ (c <= a < c + 12)) ->
  same_on P (set_ready_send v c m) m /\ same_on P (set_ready_reply v c m) m /\
  same_on P (set_cnl_result v c m) m.
Proof.
  intros HP. split_and!; intros a Ha%HP; apply byte_at_store_out; simpl; lia.
Qed.

Lemma request_ext m m' c bytes :
  same_on (fun a => c + 12 <= a < c + 20 + Z.of_nat (length bytes)) m' m ->
  request_at m c bytes -> request_at m' c bytes.
Proof.
  intros Hs [Hn Hb]. split.
  - rewrite <-Hn. apply load_ext. eapply same_on_mono; [|exact Hs]. unfold cnl_data. simpl. lia.
  - intros i b Hi. pose proof (lookup_lt_Some _ _ _ Hi). rewrite Hs by (unfold cnl_data; lia). by apply Hb.
Qed.

Lemma console_iteration_spec s c bytes :
  console_ready (c_m s) c bytes -> counters (Z.of_nat (length bytes)) s ->
  wp console_iteration s (fun _ s' =>
    term_of s' = foldl (term_putc 0xF) (term_of s) (s8 <$> bytes) /\
    cnl_result (c_mem s') c = Z.of_nat (length bytes) /\
    ready_reply (c_mem s') c = 1 /\ ready_send (c_mem s') c = 0 /\
    same_on (fun a => ~ in_vga a /\ ~ (c <= a < c + 12)) (c_mem s') (c_mem s)).
Proof.
  intros (Hdrv & (l & i & Hl & Hi & Hli) & Hc & Hoff & Hsend & Hreq & Hlen) Hcnt.
  unfold console_iteration. apply post_bind. unfold post at 1, on_con at 1.
  erewrite zoom_ok by (eapply (receive_any_spec _ l i i); [done.. | lia]). apply post_bind, post_gets.
  set (s1 := set_c_m _ s). unfold c_mem at 1 2 3. cbn [c_m set_c_m s1 m_mem set_m_cnl set_m_mem].
  destruct (flag_frame 0 c (c_mem s) (fun a => ~ (c <= a < c + 12))) as (Hfr & _ & _); [done |].
  assert (Hreq1 : request_at (c_mem s1) c bytes).
  { eapply request_ext; [|exact Hreq]. eapply same_on_mono; [|exact Hfr]. simpl. lia. }
  change (set_ready_send 0 c (m_mem (c_m s))) with (c_mem s1).
  destruct Hreq1 as [Hn Hb]. rewrite Hn.
  destruct (Z.eqb_spec (Z.of_nat (length bytes)) CLOSE_CHANNEL); [lia |].
  unfold for_count. apply post_bind, post_bind. rewrite Z.min_l by lia.
  assert (Hout : forall j, (j < length bytes)%nat -> ~ in_vga (cnl_data c + RQ_SIZE + Z.of_nat j)).
  { intros j Hj. unfold in_vga, cnl_data. destruct Hoff; lia. }
  eapply post_mono; [apply (console_loop_spec (length bytes) _ 0 bytes s1 s1); done |].
  intros [] s2 _ (Ht2 & Hm2 & He2). apply post_when; intros Hlt; bool_to_prop; [lia |].
  unfold post at 1, on_con. erewrite zoom_ok by (by apply cnl_reply_spec). cbv iota.
  assert (Hv : forall m, c_mem (set_c_m (set_m_mem m (c_m s2)) s2) = m) by done. rewrite Hv.
  fold (c_mem s2) in *.
  assert (Hscr : forall m, same_on in_vga m (c_mem s) -> screen m = screen (c_mem s)) by (intros; by apply screen_ext).
  assert (Hdis : forall a, in_vga a -> ~ (c <= a < c + 12)) by (unfold in_vga; intros a Ha; destruct Hoff; lia).
  split_and!.
  - assert (E : term_of s1 = term_of s).
    { unfold term_of. f_equal. apply Hscr. eapply same_on_mono; [|exact Hfr]. done. }
    rewrite drop_0, E in Ht2. rewrite <-Ht2. unfold term_of. cbn [con_x con_y set_c_m]. rewrite Hv. f_equal.
    apply screen_ext. transitivity (set_cnl_result (Z.of_nat (length bytes)) c (c_mem s2));
      apply flag_frame; done.
  - edestruct flags_reply as (_ & _ & ->). edestruct flags_result as (_ & _ & ->). apply s32_small. lia.
  - apply flags_reply.
  - edestruct flags_reply as (-> & _ & _). edestruct flags_result as (-> & _ & _).
    destruct (flags_data (c_mem s1) (c_mem s2) c) as (-> & _ & _).
    { symmetry. eapply same_on_mono; [|exact Hm2]. unfold in_vga. intros a Ha. destruct Hoff; lia. }
    apply flags_send.
  - transitivity (c_mem s2).
    { transitivity (set_cnl_result (Z.of_nat (length bytes)) c (c_mem s2)); apply flag_frame; tauto. }
    transitivity (c_mem s1); [eapply same_on_mono; [|exact Hm2]; tauto |].
    eapply same_on_mono; [|exact Hfr]. tauto.
Qed.

(** The console driver serves a request completely: it takes it from the
    channel, the terminal shows exactly the bytes of the request, and the
    client finds the byte count as result with the answer flag raised; besides
    the screen and the three words of the channel header nothing changes. *)
Theorem console_serves s c bytes :
  console_ready (c_m s) c bytes -> counters (Z.of_nat (length bytes)) s ->
  wp console_iteration s (fun _ s' =>
    term_of s' = foldl (term_putc 0xF) (term_of s) (s8 <$> bytes) /\
    cnl_result (c_mem s') c = Z.of_nat (length bytes) /\
    ready_reply (c_mem s') c = 1 /\ ready_send (c_mem s') c = 0 /\
    same_on (fun a => ~ in_vga a /\ ~ (c <= a < c + 12)) (c_mem s') (c_mem s)).
Proof. apply console_iteration_spec. Qed.

(** ** From [write] to the screen *)

(** What the driver in state [d] does when it runs its loop once. *)
Definition driver_act (d : console) (m : memory) : memory :=
  match console_iteration (set_c_m (set_m_mem m (c_m d)) d) with
  | Ok _ d' => c_mem d'
  | Stop _ => m
  end.

(** The client's memory once the request is in the channel. *)
Definition posted (c : Z) (bytes : list Z) (m : memory) : memory :=
  set_ready_send 1 c (set_ready_reply 0 c
    (put_bytes (put_bytes m (cnl_data c) (u64_bytes (Z.of_nat (length bytes)))) (cnl_data c + 8) bytes)).

Lemma put_bytes_frame P m a bs :
  (forall x, P x -> ~ (a <= x < a + Z.of_nat (length bs))) -> same_on P (put_bytes m a bs) m.
Proof. intros H x Hx. rewrite byte_at_put_bytes, decide_False by auto. done. Qed.

Lemma posted_frame c bytes m :
  same_on (fun a => ~ (c <= a < c + 20 + Z.of_nat (length bytes))) (posted c bytes m) m.
Proof.
  unfold posted. repeat (etransitivity; [apply flag_frame; lia |]).
  repeat (etransitivity; [apply put_bytes_frame; unfold cnl_data; simpl; lia |]). done.
Qed.

Lemma put_le_bytes n m a v : put_bytes m a (le_bytes n v) = store n m a v.
Proof.
  revert m a v. induction n as [|n IH]; intros m a v; [done |]. simpl. by rewrite w8_w8, IH.
Qed.

Lemma posted_request c bytes m :
  Forall is_byte bytes -> Z.of_nat (length bytes) < 4096 -> request_at (posted c bytes m) c bytes.
Proof.
  intros Hb Hlen. unfold posted. eapply request_ext.
  { etransitivity; apply flag_frame; simpl; lia. }
  split.
  - transitivity (load64 (put_bytes m (cnl_data c) (u64_bytes (Z.of_nat (length bytes)))) (cnl_data c)).
    + apply load_ext, put_bytes_frame. unfold cnl_data. simpl. lia.
    + rewrite put_le_bytes, load64_store64_eq, w64_small by lia. done.
  - intros i b Hi. pose proof (lookup_lt_Some _ _ _ Hi).
    rewrite byte_at_put_bytes, decide_True by lia.
    replace (Z.to_nat (cnl_data c + 8 + Z.of_nat i - (cnl_data c + 8))) with i by lia.
    rewrite Hi. apply w8_small. by apply (Forall_lookup_1 _ _ _ _ Hb Hi).
Qed.

(** The client's descriptor [fd] is a character device on channel [c]. *)
Definition device_fd (s : machine) (fd c : Z) : Prop :=
  fd_type (m_mem s) (vm_fds (vm_info (self s))) fd = TYPE_CHAR /\
  fd_offset (m_mem s) (vm_fds (vm_info (self s))) fd = c.

(** The driver [d], looking at memory [m], waits at channel [c] of its list,
    and the list is not in the channel page. *)
Definition waits_at (d : console) (m : memory) (c : Z) : Prop :=
  let d0 := set_m_mem m (c_m d) in
  is_driver (cpuid (self d0)) = true /\
  (exists l i, channel_list d0 l /\ m_cnl d0 = Z.of_nat i /\ l !! i = Some c) /\
  let lst := vm_channels (vm_info (self d0)) in lst + 8 * MAX_CHANNELS <= c \/ c + 4096 <= lst.

Lemma channel_list_ext d m l :
  let lst := vm_channels (vm_info (self d)) in
  same_on (fun a => lst <= a < lst + 8 * MAX_CHANNELS) m (m_mem d) ->
  channel_list d l -> channel_list (set_m_mem m d) l.
Proof.
  intros lst Hs (Hlen & Hent & Hend).
  assert (Hat : forall i, 0 <= i < MAX_CHANNELS -> channel_at (set_m_mem m d) i = channel_at d i).
  { intros i Hi. apply load_ext. eapply same_on_mono; [|exact Hs]. unfold lst. simpl. unfold self, cpu_at. simpl. lia. }
  split_and!; [done | | rewrite Hat by lia; done].
  intros i c Hi. pose proof (lookup_lt_Some _ _ _ Hi). rewrite Hat by lia. by apply Hent.
Qed.

Lemma posted_ready d m c bytes :
  waits_at d m c -> c <> 0 -> off_screen c -> Forall is_byte bytes -> Z.of_nat (length bytes) < 4096 - 12 - 8 ->
  console_ready (set_m_mem (posted c bytes m) (c_m d)) c bytes.
Proof.
  intros (Hdrv & (l & i & Hl & Hi & Hli) & Hdis) Hc Hoff Hb Hlen.
  assert (Hsend : ready_send (posted c bytes m) c = 1) by (unfold posted; apply flags_send).
  pose proof (posted_request c bytes m Hb ltac:(lia)) as Hreq.
  split_and!; [done | | done | done | done | apply Hreq | done].
  exists l, i. split_and!; [|done|done].
  apply (channel_list_ext (set_m_mem m (c_m d)) (posted c bytes m) l); [|done].
  eapply same_on_mono; [|apply posted_frame]. simpl in Hdis |- *. lia.
Qed.

(** C23: a program's [write] on a console descriptor reaches the screen: the
    call puts the request in the channel and returns, after the driver has run
    once, the number of bytes; video memory then shows exactly these bytes
    from the driver's cursor on, and both flags of the channel are down. *)
Theorem write_shown_on_console sc d fd bytes c rest :
  device_fd sc fd c -> m_world sc = driver_act d :: rest -> waits_at d (m_mem sc) c ->
  c <> 0 -> off_screen c -> Forall is_byte bytes -> Z.of_nat (length bytes) < 4096 - 12 - 8 ->
  counters (Z.of_nat (length bytes)) d ->
  wp (write fd bytes (Z.of_nat (length bytes))) sc (fun r s' =>
    r = Z.of_nat (length bytes) /\
    screen (m_mem s') =
      t_cells (foldl (term_putc 0xF) (Term (screen (m_mem sc)) (con_x d) (con_y d)) (s8 <$> bytes)) /\
    ready_send (m_mem s') c = 0 /\ ready_reply (m_mem s') c = 0).
Proof.
  intros [Hty Hofs] Hw Hwait Hc Hoff Hb Hlen Hcnt.
  destruct (wp_elim _ _ _ (console_iteration_spec (set_c_m (set_m_mem (posted c bytes (m_mem sc)) (c_m d)) d) c bytes
    (posted_ready d (m_mem sc) c bytes Hwait Hc Hoff Hb Hlen) Hcnt)) as ([] & d' & Hrun & Ht & Hres & Hrep & Hsnd & _).
  assert (Hscr : screen (posted c bytes (m_mem sc)) = screen (m_mem sc)).
  { apply screen_ext. eapply same_on_mono; [|apply posted_frame]. unfold in_vga. simpl. destruct Hoff; lia. }
  unfold write. apply post_bind, post_gets. rewrite Hty. cbn [Z.eqb Pos.eqb].
  unfold write_char. apply post_bind, post_gets. rewrite Hofs.
  assert (count_too_large (Z.of_nat (length bytes)) = false) as ->
    by (unfold count_too_large; rewrite w64_small by lia; apply Z.leb_gt; lia).
  apply post_bind, post_modify, post_bind, post_modify. rewrite Nat2Z.id, take_ge by lia.
  set (s1 := set_m_mem (put_bytes _ _ bytes) _).
  apply post_bind. unfold post at 1. rewrite cnl_send_spec by done. cbv iota.
  change (set_ready_send 1 c (set_ready_reply 0 c (m_mem s1))) with (posted c bytes (m_mem sc)).
  set (s2 := set_m_mem (posted c bytes (m_mem sc)) s1).
  assert (Hw2 : m_mem (after_world 1 s2) = c_mem d').
  { cbn [after_world]. change (m_world s2) with (m_world sc). rewrite Hw. simpl. unfold driver_act. by rewrite Hrun. }
  apply post_bind. unfold post at 1. rewrite (cnl_receive_spec c s2 1); [| done | | | by rewrite Hw2].
  2:{ change (m_world s2) with (m_world sc). rewrite Hw. simpl. lia. }
  2:{ intros j Hj. replace j with O by lia. simpl. unfold posted.
      edestruct flags_send as (_ & -> & _). edestruct flags_reply as (_ & -> & _). done. }
  cbv iota. apply post_gets. cbn [m_mem set_m_mem]. rewrite Hw2.
  destruct (flags_reply (c_mem d') c 0) as (-> & -> & ->). split_and!; [done | | done | done].
  transitivity (screen (c_mem d')).
  - apply screen_ext, flag_frame. unfold in_vga. intros a Ha. destruct Hoff; lia.
  - change (screen (c_mem d')) with (t_cells (term_of d')). rewrite Ht. unfold term_of at 1. simpl.
    change (c_mem (set_c_m (set_m_mem (posted c bytes (m_mem sc)) (c_m d)) d)) with (posted c bytes (m_mem sc)).
    by rewrite Hscr.
Qed.
