(* ===== verification/ExamplesMem.v ===== *)
(** * Concrete instances: memory

    Small concrete allocator states and page tables on which the theorems
    about memory management are applied. *)

From S2P Require Import Prelude PhysMem CString MemMgr MemMgrSpec Paging PageWalk PagingSpec PmAlloc.
From S2P Require Import BootMem BootMemSpec.

(** The state a computation ends in. *)
Definition final {S A} (s : S) (r : outcome S A) : S :=
  match r with Ok _ s' => s' | Stop _ => s end.

Definition result {S A} (r : outcome S A) : option A :=
  match r with Ok a _ => Some a | Stop _ => None end.

Lemma result_final {S A} (s : S) (r : outcome S A) a : result r = Some a -> r = Ok a (final s r).
Proof. destruct r; simpl; congruence. Qed.

Lemma final_ok {S A} (s s' : S) (r : outcome S A) a : r = Ok a s' -> final s r = s'.
Proof. by intros ->. Qed.

(** ** The page allocator *)

Definition zero_node : block_node := Block 0 0 0 None None.
Definition mm_blank : mm_state := MM 0 ∅ None 0 0 0 0 0.

(** 64KB of memory, of which the first page belongs to the image: one page for
    the node array, then 14 pages. *)
Definition mm0 : mm_state :=
  final mm_blank (memory_init (fun _ => zero_node) 0x1000 0x10000 mm_blank).
Definition mm1 : mm_state := final mm0 (alloc_mem_pages 2 mm0).
Definition mm2 : mm_state := final mm1 (realloc_mem_block 0x2000 mm1).

Lemma mm0_init : memory_init (fun _ => zero_node) 0x1000 0x10000 mm_blank = Ok tt mm0.
Proof. by vm_compute. Qed.

Lemma mm0_repr : mm_repr mm0 [(14, 0)].
Proof.
  destruct (memory_init_repr (fun _ => zero_node) 0x1000 0x10000 ltac:(lia) ltac:(done) ltac:(lia)
    ltac:(vm_compute; congruence) mm_blank) as (s' & n & Hrun & Hr & _ & _ & Htop).
  rewrite mm0_init in Hrun. injection Hrun as <-.
  assert (first_free_addr mm0 = 0x2000) as E by (by vm_compute). rewrite E in Htop.
  by replace n with 14 in Hr by lia.
Qed.

Lemma mm0_ffa : first_free_addr mm0 = 0x2000.
Proof. by vm_compute. Qed.

Lemma mm1_repr : mm_repr mm1 [(2, 1); (12, 0)] /\ alloc_mem_pages 2 mm0 = Ok 0x2000 mm1 /\
  first_free_addr mm1 = 0x2000.
Proof.
  destruct (alloc_mem_pages_repr mm0 [(14, 0)] 2 mm0_repr ltac:(lia)) as (a' & Hrun & Hr).
  unfold mm1. erewrite final_ok by done. split_and!; [done | | apply mm0_ffa].
  rewrite Hrun, mm0_ffa. done.
Qed.

(** Witness of [alloc_refines]. *)
Lemma alloc_refines_witness :
  exists s', alloc_mem_pages 2 mm0 = Ok (first_free_addr mm0 + 0 * 4096) s' /\ mm_repr s' [(2, 1); (12, 0)].
Proof. exact (alloc_refines mm0 [(14, 0)] 2 mm0_repr ltac:(lia)). Defined.

(** Witness of [alloc_exclusive]. *)
Lemma alloc_exclusive_witness :
  exists bl' o, mm_repr mm1 bl' /\ 0x2000 = first_free_addr mm0 + o * 4096 /\ 0x2000 mod 4096 = 0 /\
    0 <= o /\ o + 2 <= npages [(14, 0)] /\ first_free_addr mm1 = first_free_addr mm0 /\
    (forall j, o <= j < o + 2 -> page_live 0 [(14, 0)] j = false) /\
    (forall j, page_live 0 bl' j = page_live 0 [(14, 0)] j || ((o <=? j) && (j <? o + 2))).
Proof.
  apply (alloc_exclusive mm0 [(14, 0)] 2 0x2000 mm1 mm0_repr); [lia | apply mm1_repr | lia].
Defined.

(** Witness of [free_refines]. *)
Lemma free_refines_witness :
  exists s', free_mem_pages (first_free_addr mm1 + npages [] * 4096) mm1 = Ok tt s' /\
    mm_repr s' (spec_free [] 2 1 [(12, 0)]) /\
    (forall j, page_live 0 (spec_free [] 2 1 [(12, 0)]) j =
       page_live 0 ([] ++ (2, 1) :: [(12, 0)]) j &&
       negb ((1 =? 1) && (npages [] <=? j) && (j <? npages [] + 2))).
Proof. apply (free_refines mm1 [] 2 1 [(12, 0)]); [apply mm1_repr | lia]. Defined.

(** Witness of [alloc_free_roundtrip]. *)
Lemma alloc_free_roundtrip_witness :
  exists s'', free_mem_pages 0x2000 mm1 = Ok tt s'' /\ mm_repr s'' [(14, 0)].
Proof.
  apply (alloc_free_roundtrip mm0 [(14, 0)] 2 0x2000 mm1 mm0_repr); [lia | apply mm1_repr | lia].
Defined.

(** Witness of [realloc_free_roundtrip]. *)
Lemma realloc_free_roundtrip_witness :
  let paddr := first_free_addr mm1 + npages [] * 4096 in
  exists s' s'', realloc_mem_block paddr mm1 = Ok paddr s' /\
    mm_repr s' ([] ++ (2, 1 + 1) :: [(12, 0)]) /\
    free_mem_pages paddr s' = Ok tt s'' /\ mm_repr s'' ([] ++ (2, 1) :: [(12, 0)]).
Proof. apply (realloc_free_roundtrip mm1 [] 2 1 [(12, 0)]); [apply mm1_repr | lia | lia]. Defined.

(** Witness of [free_rejects_unused]: the second page of the used block. *)
Lemma free_rejects_unused_witness :
  exists why, free_mem_pages (first_free_addr mm1 + 1 * 4096) mm1 = Stop (Panic why).
Proof.
  apply (free_rejects_unused mm1 [(2, 1); (12, 0)] 1); [apply mm1_repr | simpl; lia |].
  intros [|[pg1 rf1] [|[pg2 rf2] [|? ?]]] pg rf l2 E Hn; simplify_eq/=; lia.
Defined.

(** Witness of [memory_init_ok]. *)
Lemma memory_init_ok_witness :
  exists s' n, memory_init (fun _ => zero_node) 0x1000 0x10000 mm_blank = Ok tt s' /\ mm_repr s' [(n, 0)] /\
    block_node_array_addr s' = 0x1000 /\
    all_nodes s' = node_count (0x10000 - 0x1000) /\
    0x1000 + all_nodes s' * 32 <= first_free_addr s' < 0x1000 + all_nodes s' * 32 + 4096 /\
    first_free_addr s' + n * 4096 = 0x10000.
Proof.
  apply (memory_init_ok (fun _ => zero_node) 0x1000 0x10000 mm_blank); [lia | done | lia |].
  by vm_compute.
Defined.

(** ** The clearing allocator and page tables of the process manager *)

Definition k0 : kmem := KMem mm0 ∅.

Lemma k0_ok : exists bl, mm_repr (k_mm k0) bl.
Proof. exists [(14, 0)]. apply mm0_repr. Qed.
Lemma k0_pa_ok : pa_ok k0.
Proof. exact k0_ok. Qed.

(** Witness of [alloc_clean_correct]. *)
Lemma alloc_clean_correct_witness :
  exists p k', alloc_clean_mem_pages 3 k0 = Ok p k' /\ (exists bl', mm_repr (k_mm k') bl') /\
    (p = 0 /\ k' = k0 \/
     0 < p /\ p mod 4096 = 0 /\ p + 3 * 4096 < 2 ^ 63 /\
     (forall i, 0 <= i < 3 -> ~ in_use (k_mm k0) (p + i * 4096)) /\
     (forall q, in_use (k_mm k') q <->
        in_use (k_mm k0) q \/ exists i, 0 <= i < 3 /\ q = p + i * 4096) /\
     (forall x, p <= x < p + 3 * 4096 -> byte_at (k_mem k') x = 0) /\
     (forall x, ~ (p <= x < p + 3 * 4096) -> byte_at (k_mem k') x = byte_at (k_mem k0) x)).
Proof. apply (alloc_clean_correct 3 k0); [lia | apply k0_ok]. Defined.

(** Two 4KB pages from 0x400000 on, and one 2MB page. *)
Lemma args_4k : region_args 4096 3 0x400000 0x402000 0x9000 3.
Proof. split; try (by vm_compute); try lia. by left. Qed.
Lemma args_2m : region_args _2MB_ 2 0x800000 0xa00000 0x600000 3.
Proof. split; try (by vm_compute); try lia. right. by left. Qed.

Lemma k0_avail : pa_avail k0 13.
Proof. exists [(14, 0)]. split; [apply mm0_repr | simpl; lia]. Qed.

(** Witness of [map_memory_new]. *)
Lemma map_memory_new_witness :
  pa_avail k0 (3 * region_pages 0x400000 0x402000 4096 + 1) /\
  post (shortage k0 (region_pages 0x400000 0x402000 4096))
    (map_memory 0 0x400000 0x402000 0x9000 4096 3 MAP_NEW) k0 (fun root' s' =>
    tables_ok (pa_owned k0) root' s' /\ ~ pa_owned k0 root' /\ kept (pa_owned k0) k0 s' /\
    forall va, 0 <= va < 2 ^ 48 -> walk (pa_mem s') root' va =
      region_walk 4096 0x400000 (region_pages 0x400000 0x402000 4096) 0x9000 (with_pse 4096 3) va).
Proof.
  split.
  - apply (pa_avail_less k0 13); [by vm_compute | apply k0_avail].
  - apply (map_memory_new (pa_owned k0) 0 4096 3 0x400000 0x402000 0x9000 3 k0 args_4k k0_pa_ok). done.
Defined.

Definition k1 : kmem := final k0 (map_memory 0 0x400000 0x402000 0x9000 4096 3 MAP_NEW k0).

Lemma k1_run : map_memory 0 0x400000 0x402000 0x9000 4096 3 MAP_NEW k0 = Ok 0x2000 k1.
Proof. apply result_final. by vm_compute. Qed.

Lemma k1_tables : tables_ok (pa_owned k0) 0x2000 k1.
Proof.
  pose proof (map_memory_spec (pa_owned k0) 0 4096 3 0x400000 0x402000 0x9000 3 MAP_NEW k0 args_4k
    (or_introl (conj eq_refl (conj k0_pa_ok (fun _ H => H))))) as H.
  unfold post in H. rewrite k1_run in H. apply H.
Qed.

Lemma k1_root : load64 (pa_mem k1) 0x2000 <> 0.
Proof. vm_compute. discriminate. Qed.

Lemma k1_no_leaf k :
  0 <= k < region_pages 0x800000 0xa00000 _2MB_ -> no_leaf (pa_mem k1) 0x2000 2 (0x800000 + k * _2MB_).
Proof.
  change (region_pages 0x800000 0xa00000 _2MB_) with 1. intros Hk. replace k with 0 by lia.
  intros [|[|d]] e Hd; [| | lia]; vm_compute; intros [= <-]; done.
Qed.

(** Witness of [map_memory_update]. *)
Lemma map_memory_update_witness :
  post (shortage k1 (region_pages 0x800000 0xa00000 _2MB_))
    (map_memory 0x2000 0x800000 0xa00000 0x600000 _2MB_ 3 MAP_UPDATE) k1 (fun root' s' =>
    root' = 0x2000 /\ tables_ok (pa_owned k0) 0x2000 s' /\ kept (pa_owned k0) k1 s' /\
    forall va, 0 <= va < 2 ^ 48 -> walk (pa_mem s') 0x2000 va =
      match region_walk _2MB_ 0x800000 (region_pages 0x800000 0xa00000 _2MB_) 0x600000
              (with_pse _2MB_ 3) va with
      | Some r => Some r
      | None => walk (pa_mem k1) 0x2000 va
      end).
Proof.
  apply (map_memory_update (pa_owned k0) 0x2000 _2MB_ 2 0x800000 0xa00000 0x600000 3 k1 args_2m k1_tables k1_root k1_no_leaf).
Defined.

(** Witness of [ept_map_memory_correct]. *)
Lemma ept_map_memory_correct_witness :
  post (shortage k0 (region_pages 0x400000 0x402000 4096))
    (ept_map_memory 0 0x400000 0x402000 0x9000 4096 EPT_MTYPE_WB 3 MAP_NEW) k0 (fun root' s' =>
    tables_ok (pa_owned k0) root' s' /\ (MAP_NEW = MAP_UPDATE -> root' = 0) /\ kept (pa_owned k0) k0 s' /\
    forall va, 0 <= va < 2 ^ 48 -> walk (pa_mem s') root' va =
      match region_walk 4096 0x400000 (region_pages 0x400000 0x402000 4096) 0x9000
              (ept_flags 4096 EPT_MTYPE_WB 3) va with
      | Some r => Some r
      | None => if MAP_NEW =? MAP_NEW then None else walk (pa_mem k0) 0 va
      end).
Proof.
  apply (ept_map_memory_correct (pa_owned k0) 0 4096 3 0x400000 0x402000 0x9000 EPT_MTYPE_WB 3 MAP_NEW k0 args_4k); [lia |].
  left. split_and!; [done | apply k0_ok | done].
Defined.

(** Witness of [unmap_memory_correct]. *)
Lemma unmap_memory_correct_witness :
  wp (unmap_memory 0x2000 0x401000) k1 (fun _ s' => unmapped (pa_owned k0) 0x2000 0x401000 k1 s').
Proof. apply (unmap_memory_correct (pa_owned k0) 0x2000 0x401000 k1 k1_tables). lia. Defined.

(** ** The boot allocator *)

Definition boot0 : boot_mem := BootMem 0x1000000 0x8000 ∅.

Lemma boot0_ok : boot_ok boot0.
Proof. split; simpl; lia. Qed.

(** Witness of [boot_blocks_disjoint]. *)
Lemma boot_blocks_disjoint_witness :
  let rs := [Malloc 100; CallocAlign 1 4096 12; MallocAlign 24 4; Calloc 3 8] in
  exists bl s', serve_all rs boot0 = Ok bl s' /\
    (forall i j b1 b2, i <> j -> bl !! i = Some b1 -> bl !! j = Some b2 -> disjoint_blocks b1 b2) /\
    (forall b, b ∈ bl -> boot_free_addr boot0 <= b.1 /\ 0 < b.2 /\ b.1 + b.2 <= memory_size boot0).
Proof.
  apply (boot_blocks_disjoint [Malloc 100; CallocAlign 1 4096 12; MallocAlign 24 4; Calloc 3 8] boot0 boot0_ok).
  repeat constructor; simpl; lia.
Defined.

Definition cpus0 : cpu_table := CpuTable boot0 ∅ 0 0 true.

(** Witness of [add_cpus_correct]. *)
Lemma add_cpus_correct_witness :
  exists pool l s', add_cpus 4 cpus0 = Ok l s' /\
    l = (fun i => pool + i * 4096) <$> seqZ 0 (Z.of_nat 4) /\
    (pool = 0 \/ pool mod _2MB_ = 0 /\ boot_free_addr (ct_mem cpus0) <= pool /\
       pool + _2MB_ <= memory_size (ct_mem cpus0) /\
       forall x, pool <= x < pool + _2MB_ -> byte_at (boot_memory (ct_mem s')) x = 0) /\
    get_ncpus s' = Ok (Z.of_nat 4) s' /\
    (forall i, 0 <= i < Z.of_nat 4 -> boot_get_cpu_info i s' = Ok (pool + i * 4096) s').
Proof. apply (add_cpus_correct 4 cpus0); [apply boot0_ok | done | done | lia]. Defined.
