(* ===== verification/ExamplesIpc.v ===== *)
(** * Concrete instances: messages, channels, console and keyboard

    A machine with six CPUs on which the theorems about communication and
    drivers are applied. *)

From S2P Require Import Prelude PhysMem CString MemMgr CpuInfo Ipc IpcSpec Channel ChannelSpec Pm.
From S2P Require Import Printf PrintfSpec Console ConsoleSpec Debug BootConsole Drivers Keyboard.
From S2P Require Import KeyboardSpec UserLib DriversSpec.

(** ** The machine *)

(** CPU [i]: its inbox at 0x10000, its outgoing page at 0x20000, the ready
    words at 0x30000; descriptors at 0x40000, channel list at 0x41000. *)
Definition ex_vm : vm_proc :=
  VmProc no_regs 0 0 0 0 no_section no_section no_section no_section no_section 0 0 0 0 RUNNING 0
    0x40000 0x41000.
Definition ex_cpu (i : Z) : cpu_info :=
  CpuInfo i ex_vm true 0 6 (0x10000 + 4096 * i) (0x20000 + 4096 * i) 0 0x30000.
Definition ex_cpus : gmap Z cpu_info := list_to_map ((fun i => (i, ex_cpu i)) <$> seqZ 0 6).
Definition ex_machine (me : Z) (m : memory) (world : list (memory -> memory)) : machine :=
  Machine m ex_cpus 0x100000 me 0 0 world.

Lemma ex_layout me m w : 0 <= me < 6 -> ipc_layout 6 0x10000 0x20000 0x30000 (ex_machine me m w).
Proof.
  intros Hme. split; [lia | | done | lia | lia].
  intros i Hi. assert (Hc : i = 0 \/ i = 1 \/ i = 2 \/ i = 3 \/ i = 4 \/ i = 5) by lia.
  by destruct Hc as [-> |[-> |[-> |[-> |[-> | ->]]]]].
Qed.

Lemma empty_zero a : byte_at ∅ a = 0.
Proof. done. Qed.

(** ** Messages *)

(** Witness of [send_check_roundtrip]. *)
Lemma send_check_roundtrip_witness :
  exists s1 a s2, msg_send 1 2 [7; 8; 9] (ex_machine 3 ∅ []) = Ok tt s1 /\
    msg_check (as_cpu 1 s1) = Ok a s2 /\
    message_at (m_mem s2) a 3 2 [7; 8; 9] /\
    load64 (m_mem s2) (0x30000 + 8 * 1) = load64 ∅ (0x30000 + 8 * 1).
Proof.
  apply (send_check_roundtrip 6 0x10000 0x20000 0x30000 (ex_machine 3 ∅ []) 1 2 [7; 8; 9]).
  - by apply ex_layout.
  - lia.
  - lia.
  - repeat constructor; unfold is_byte; lia.
  - simpl. lia.
  - intros j Hj. apply Z.testbit_0_l.
Defined.

(** Witness of [reply_receive_roundtrip]. *)
Lemma reply_receive_roundtrip_witness :
  exists s1 s2, msg_reply 1 3 2 [7; 8; 9] (ex_machine 1 ∅ []) = Ok tt s1 /\
    msg_receive 1 (as_cpu 3 s1) = Ok 1 s2 /\
    message_at (m_mem s2) (box_addr 0x10000 3 1) 1 0 [7; 8; 9] /\
    same_on (fun x => ~ (box_addr 0x10000 3 1 <= x < box_addr 0x10000 3 1 + MSG_SIZE)) ∅ (m_mem s2).
Proof.
  apply (reply_receive_roundtrip 6 0x10000 0x20000 0x30000 (ex_machine 1 ∅ []) 1 3 2 [7; 8; 9]);
    [by apply ex_layout | simpl; lia | lia | lia | | simpl; lia | done].
  repeat constructor; unfold is_byte; lia.
Defined.

(** CPUs 3 and 5 have messages for server 1; the first poll finds nothing. *)
Definition ready_mem : memory := store64 ∅ (0x30000 + 8) (2 ^ 3 + 2 ^ 5).

(** Witness of [msg_check_correct]. *)
Lemma msg_check_correct_witness :
  exists s', msg_check (ex_machine 1 ∅ [fun _ => ready_mem]) = Ok (0x20000 + 4096 * 3) s' /\
    (forall j, 0 <= j < 64 -> Z.testbit (load64 (m_mem s') (0x30000 + 8 * 1)) j =
       Z.testbit 40 j && negb (3 =? j)) /\
    same_on (fun x => ~ (0x30000 + 8 * 1 <= x < 0x30000 + 8 * 1 + 8)) ready_mem (m_mem s').
Proof.
  apply (msg_check_correct 6 0x10000 0x20000 0x30000 (ex_machine 1 ∅ [fun _ => ready_mem]) 1 40 3).
  - by apply ex_layout.
  - simpl; lia.
  - simpl; lia.
  - intros j Hj. replace j with O by lia. done.
  - by vm_compute.
  - split; [done |]. intros j Hj. assert (Hc : j = 0 \/ j = 1 \/ j = 2) by lia.
    by destruct Hc as [-> |[-> | ->]].
  - lia.
Defined.

(** Witness of [receive_any_correct]: box 2 of CPU 4 holds message 9. *)
Definition box_mem : memory := store64 ∅ (box_addr 0x10000 4 2 + 8) 9.
Lemma receive_any_correct_witness :
  msg_receive ANY (ex_machine 4 box_mem []) =
    Ok 2 (set_m_recv (if 2 + 1 =? 6 then 0 else 2 + 1)
      (set_m_mem (store64 box_mem (inbox (ex_machine 4 box_mem []) 2 + 8) 0) (ex_machine 4 box_mem []))).
Proof.
  apply (receive_any_correct (ex_machine 4 box_mem []) 2); [by vm_compute | by vm_compute |].
  split_and!; [simpl; lia | simpl; lia | done | by vm_compute |].
  intros k Hk. simpl in Hk. assert (Hc : k = 0 \/ k = 1) by lia. by destruct Hc as [-> | ->].
Defined.

(** Witness of [bitmap_set_semantics]. *)
Lemma bitmap_set_semantics_witness :
  exists ws wc, set_bit_word 5 4 = Some ws /\ clear_bit_word 5 4 = Some wc /\
    check_bit_word ws 2 = (if 4 =? 2 then Some 1 else check_bit_word 5 2) /\
    check_bit_word wc 2 = (if 4 =? 2 then Some 0 else check_bit_word 5 2) /\
    (0 <= 5 < 2 ^ 64 -> Z.testbit 5 4 = false -> clear_bit_word ws 4 = Some 5).
Proof. apply (bitmap_set_semantics 5 4 2); lia. Defined.

(** ** Channels *)

(** The states of a call, up to the raised request. *)
Lemma ex_waiting :
  reachable 0x50000 (Proto (set_ready_send 1 0x50000 (set_ready_reply 0 0x50000 ∅)) CWait DPoll 1 0 0 0).
Proof.
  change 1 with (0 + 1) at 2. eapply reach_step; [|apply client_raise].
  eapply reach_step; [|apply client_clear]. eapply reach_step; [|by apply client_fill].
  by apply reach_init.
Qed.




(** Channel 0x50000 is the only one in the list of driver 5; descriptor 1 of
    the client is a device on it. *)
Definition chan_mem : memory :=
  store64 (store64 (store32 ∅ (0x40000 + FD_SIZE * 1) TYPE_CHAR) (0x40000 + FD_SIZE * 1 + 16) 0x50000)
    0x41000 0x50000.

Lemma chan_mem_list m :
  (forall a, 0x41000 <= a < 0x41100 -> byte_at m a = byte_at chan_mem a) ->
  channel_list (ex_machine 5 m []) [0x50000].
Proof.
  intros Hm. assert (H : forall i, 0 <= i < 32 -> channel_at (ex_machine 5 m []) i = channel_at (ex_machine 5 chan_mem []) i).
  { intros i Hi. change (load64 m (0x41000 + 8 * i) = load64 chan_mem (0x41000 + 8 * i)).
    apply load_ext. intros a Ha. apply Hm. lia. }
  split_and!; [simpl; lia | | simpl; by rewrite H by lia].
  intros [|i] c Hi; simplify_eq/=. by rewrite H by lia.
Qed.

(** Witness of [channel_call]. *)
Lemma channel_call_witness :
  let s1 := set_m_mem (set_ready_send 1 0x50000 (set_ready_reply 0 0x50000 chan_mem)) (ex_machine 3 chan_mem []) in
  exists d2 d3 s4, cnl_send 0x50000 (ex_machine 3 chan_mem []) = Ok tt s1 /\
    cnl_receive_any (as_cpu 5 s1) = Ok 0x50000 d2 /\
    cnl_reply 0x50000 17 d2 = Ok tt d3 /\ cnl_receive 0x50000 (as_cpu 3 d3) = Ok tt s4 /\
    cnl_result (m_mem s4) 0x50000 = s32 17 /\ ready_send (m_mem s4) 0x50000 = 0 /\
    ready_reply (m_mem s4) 0x50000 = 0.
Proof.
  apply (channel_call (ex_machine 3 chan_mem []) [0x50000] 0 0x50000 17 5); try done.
  apply chan_mem_list. intros a Ha. simpl. unfold set_ready_send, set_ready_reply, store32.
  rewrite !byte_at_store_out by (simpl; lia). done.
Defined.

(** ** Console *)

Definition ex_console : console := Con (ex_machine 5 chan_mem []) 78 24 [].
Definition ex_text : list Z := [72; 105; 10; 33].

(** Witness of [console_refines]: a text that wraps and scrolls. *)
Lemma console_refines_witness :
  wp (forM ex_text (fun ch => putc ch 0xF)) ex_console (fun _ s' =>
    term_of s' = foldl (term_putc 0xF) (term_of ex_console) ex_text /\
    same_on (fun a => ~ in_vga a) (c_mem s') (c_mem ex_console)).
Proof. apply (console_refines 0xF ex_text ex_console). split_and!; simpl; lia. Defined.

(** Witness of [boot_console_safe]. *)
Lemma boot_console_safe_witness :
  wp (forM ex_text (kputc 7)) (KCon ∅ 78 24 (SCR_END - 2)) (fun _ s' =>
    kcon_ok s' /\ same_on (fun a => ~ k_range a) (k_mem s') ∅).
Proof. apply (boot_console_safe 7 ex_text (KCon ∅ 78 24 (SCR_END - 2))). split; simpl; lia. Defined.

(** Witness of [write_shown_on_console]. *)
Lemma write_shown_on_console_witness :
  wp (write 1 ex_text (Z.of_nat (length ex_text))) (ex_machine 3 chan_mem [driver_act ex_console])
    (fun r s' => r = Z.of_nat (length ex_text) /\
      screen (m_mem s') = t_cells (foldl (term_putc 0xF)
        (Term (screen chan_mem) 78 24) (s8 <$> ex_text)) /\
      ready_send (m_mem s') 0x50000 = 0 /\ ready_reply (m_mem s') 0x50000 = 0).
Proof.
  apply (write_shown_on_console (ex_machine 3 chan_mem [driver_act ex_console]) ex_console 1 ex_text 0x50000 []).
  - split; by vm_compute.
  - done.
  - split_and!; [done | | left; vm_compute; congruence].
    exists [0x50000], 0%nat. split_and!; [|done|done]. by apply chan_mem_list.
  - done.
  - left. lia.
  - repeat constructor; unfold is_byte; lia.
  - simpl. lia.
  - split_and!; simpl; lia.
Defined.

(** ** Formatted output *)

(** "%s=%d" with the string "ab" at 0x7000 and the number -12. *)
Definition fmt_mem : memory := put_bytes ∅ 0x7000 [97; 98; 0].


(** Witness of [atoi_decimal_roundtrip]. *)
Lemma atoi_decimal_roundtrip_witness :
  let m := put_bytes ∅ 0x7000 [52; 48; 57; 54; 0] in atoi 0x7000 m = Ok 4096 m.
Proof.
  apply (atoi_decimal_roundtrip (put_bytes ∅ 0x7000 [52; 48; 57; 54; 0]) 0x7000 4096 [52; 48; 57; 54]);
    [lia | by vm_compute | by vm_compute].
Defined.

(** Witness of [put_hex_correct]. *)
Lemma put_hex_correct_witness :
  match hex_text 0x1A2B with
  | Some l => 0x1A2B <> 0 /\ text_value 16 l = 0x1A2B /\ exists c t, l = c :: t /\ c <> 48
  | None => 0x1A2B = 0
  end.
Proof. apply (put_hex_correct 0x1A2B). lia. Defined.

(** ** Keyboard *)

(** Shift down, 'h', shift up, 'i': the text "Hi". *)
Definition ex_keys : list Z := [0x2A; 0x23; 0xAA; 0x17].
Definition ex_kbd : kbd :=
  Kbd (ex_machine 3 ∅ []) 0 0 false false false ((fun c => (1, c)) <$> ex_keys).

Lemma ex_keys_accepted : accepted false false ex_keys.
Proof. by vm_compute; intuition congruence. Qed.


(** Witness of [modifiers_follow_keys]. *)
Lemma modifiers_follow_keys_witness :
  wp (forM ex_keys (kbd_proc_data 1)) ex_kbd (fun _ s' =>
    shift_pressed s' = shift_down ex_keys false /\ ctrl_pressed s' = ctrl_down ex_keys false /\
    alt_pressed s' = alt_down ex_keys false).
Proof. apply (modifiers_follow_keys ex_keys ex_kbd). apply ex_keys_accepted. Defined.

(** Witness of [debug_print_correct]: the format "%d:%x" with 42 and 255. *)
Definition ex_format : list Z := [37; 100; 58; 37; 120].
