(* ===== verification/ExamplesServers.v ===== *)
(** * Concrete instances: process manager and file server *)

From S2P Require Import Prelude PhysMem CString MemMgr MemMgrSpec Paging PagingSpec PmAlloc CpuInfo.
From S2P Require Import Ipc IpcSpec Channel Pm PmProc PmFrame PmSpec PmChannels Fs FsSpec ExamplesMem.
From S2P Require Import ExamplesIpc.

(** ** Strings *)

(** "ls" at 0x7000 and "lx" at 0x7100. *)
Definition str_mem : memory := put_bytes (put_bytes ∅ 0x7000 [108; 115; 0]) 0x7100 [108; 120; 0].

(** Witness of [strcmp_correct]. *)
Lemma strcmp_correct_witness :
  strcmp str_mem 0x7000 0x7100 = Some (str_compare [108; 115] [108; 120]) /\
  (strcmp str_mem 0x7000 0x7100 = Some 0 <-> [108; 115] = [108; 120]).
Proof. apply (strcmp_correct str_mem 0x7000 0x7100 [108; 115] [108; 120]); by vm_compute. Defined.

(** ** Process manager *)

(** CPUs 0 to 3 run a VM, CPU 4 and 5 do not; CPU 2 is the parent of CPU 3. *)
Definition pm_vm (parent state : Z) : vm_proc :=
  VmProc no_regs 0 0 0 0 no_section no_section no_section no_section no_section 0 0 parent 0 state 0 0 0.
Definition pm_cpu (i : Z) : cpu_info :=
  CpuInfo i (pm_vm 2 (if i =? 2 then WAIT_CHLD else RUNNING)) (i <? 4) 0 6
    (0x10000 + 4096 * i) (0x20000 + 4096 * i) 0x31000 0x30000.
Definition pm_cpus : gmap Z cpu_info := list_to_map ((fun i => (i, pm_cpu i)) <$> seqZ 0 6).
Definition ex_pm : pm_state := Pm mm0 (Machine ∅ pm_cpus 0x100000 0 0 0 []) false 0x40000 0x41000 0.

Lemma six_cases (P : Z -> Prop) i : P 0 -> P 1 -> P 2 -> P 3 -> P 4 -> P 5 -> 0 <= i < 6 -> P i.
Proof.
  intros. assert (Hc : i = 0 \/ i = 1 \/ i = 2 \/ i = 3 \/ i = 4 \/ i = 5) by lia.
  by destruct Hc as [-> | [-> | [-> | [-> | [-> | ->]]]]].
Qed.

Lemma ex_pm_layout : ipc_layout 6 0x10000 0x20000 0x30000 (p_m ex_pm).
Proof.
  split; [lia | | simpl; lia | lia | lia]. intros i Hi.
  assert (Hc : i = 0 \/ i = 1 \/ i = 2 \/ i = 3 \/ i = 4 \/ i = 5) by lia.
  by destruct Hc as [-> | [-> | [-> | [-> | [-> | ->]]]]].
Qed.

Lemma ex_pm_no_zombie : no_zombie ex_pm.
Proof.
  intros id. unfold vm_state_of, cpu_at. destruct (m_cpus (p_m ex_pm) !! id) as [c|] eqn:E; [|done].
  simpl in E. apply elem_of_list_to_map_2 in E. apply list_elem_of_fmap in E as (i & [= -> ->] & _).
  simpl. by destruct (i =? 2).
Qed.

(** Witness of [fork_takes_free_cpu]. *)
Lemma fork_takes_free_cpu_witness :
  wlp (local_fork (Some 2) 0x1000 0x2000) ex_pm (fun r s' =>
    (r = -1 /\ s' = ex_pm /\ forall j, ALWAYS_BUSY <= j < 6 -> has_vm ex_pm j = true) \/
    (ALWAYS_BUSY <= r < 6 /\ has_vm ex_pm r = false /\
     (forall j, ALWAYS_BUSY <= j < r -> has_vm ex_pm j = true) /\
     forall j, has_vm s' j = if decide (j = r) then true else has_vm ex_pm j)).
Proof.
  apply (fork_takes_free_cpu 2 0x1000 0x2000 ex_pm); [done | vm_compute; split; congruence |].
  intros id Hid. apply (six_cases (fun id => cpuid (cpu_at (p_m ex_pm) id) = id)); try done.
  change (ncpus (self (p_m ex_pm))) with 6 in Hid. lia.
Defined.


(** Witness of [waitpid_never_reaps]. *)
Lemma waitpid_never_reaps_witness :
  exists r s', local_waitpid (Some 2) 3 ex_pm = Ok (r, None) s' /\
    (r = -1 /\ s' = ex_pm /\
     (3 < -1 \/ MAX_CPUS < 3 \/
      vm_parent (vm_info (cpu_at (p_m ex_pm) 3)) <> cpuid (cpu_at (p_m ex_pm) 2)) \/
     r = 0 /\ vm_state_of s' 2 = WAIT_CHLD /\ (forall j, has_vm s' j = has_vm ex_pm j)).
Proof. apply (waitpid_never_reaps 2 3 ex_pm); [done | apply ex_pm_no_zombie]. Defined.

(** Witness of [exit_outcome]. *)
Lemma exit_outcome_witness :
  wlp (local_exit (Some 3) 7) ex_pm (fun _ s' =>
    (forall j, j <> 3 -> has_vm s' j = has_vm ex_pm j) /\
    (vm_state_of ex_pm 2 = WAIT_CHLD ->
       has_vm s' 3 = false /\
       message_at (m_mem (p_m s')) (box_addr 0x10000 2 PM) PM WAITPID_IPC (int_bytes 3 ++ int_bytes 7)) /\
    (vm_state_of ex_pm 2 <> WAIT_CHLD ->
       has_vm s' 3 = has_vm ex_pm 3 /\ vm_exit_status (vm_info (cpu_at (p_m s') 3)) = 7)).
Proof.
  apply (exit_outcome 6 0x10000 0x20000 0x30000 3 7 ex_pm ex_pm_layout); [done | done | |];
    vm_compute; split; congruence.
Defined.

(** Two channels in the list at 0x41000. *)
Definition list_mem : memory := store64 (store64 ∅ 0x41000 0x50000) 0x41008 0x51000.
Definition ex_pm_list : pm_state := with_mem list_mem ex_pm.

Lemma list_slots : chan_slots list_mem 0x41000 [0x50000; 0x51000].
Proof.
  split_and!; [simpl; lia | by repeat constructor |]. intros i Hi.
  destruct (decide (i = 0)) as [-> |]; [done |]. destruct (decide (i = 1)) as [-> |]; [done |].
  unfold channel_slot, list_mem. rewrite !load64_store64_ne by lia.
  rewrite lookup_ge_None_2 by (simpl; lia). done.
Qed.

(** Witness of [remove_channel_correct]. *)
Lemma remove_channel_correct_witness :
  exists m', remove_from_list (seqZ 0 MAX_CHANNELS) 0x41000 0x50000 false ex_pm_list =
      Ok true (with_mem m' ex_pm_list) /\ chan_slots m' 0x41000 ([] ++ [0x51000]).
Proof.
  apply (remove_channel_correct [] 0x50000 [0x51000] 0x41000 ex_pm_list false);
    [apply list_slots | | simpl; lia].
  apply (bool_decide_unpack _). by vm_compute.
Defined.

(** Witness of [channel_list_roundtrip]. *)
Lemma channel_list_roundtrip_witness :
  exists m1 m2, add_to_list (seqZ 0 MAX_CHANNELS) 0x41000 0x52000 ex_pm_list = Ok tt (with_mem m1 ex_pm_list) /\
    remove_from_list (seqZ 0 MAX_CHANNELS) 0x41000 0x52000 false (with_mem m1 ex_pm_list) =
      Ok true (with_mem m2 ex_pm_list) /\
    chan_slots m2 0x41000 [0x50000; 0x51000].
Proof.
  apply (channel_list_roundtrip [0x50000; 0x51000] 0x52000 0x41000 ex_pm_list false);
    [apply list_slots | | | simpl; lia | lia | lia]; apply (bool_decide_unpack _); by vm_compute.
Defined.

(** ** File server *)

(** An image at 0x80000 with the file "ls" (5 bytes at offset 60), the
    requested name at 0x7000, the client's descriptor table at 0x40000. *)
Definition fs_mem : memory :=
  put_bytes (store64 (store32 (store32 (put_bytes (put_bytes ∅ 0x80000 [1; 0; 0; 0]) 0x80004 [108; 115; 0])
    (0x80004 + 32) TYPE_FILE) (0x80004 + 36) 5) (0x80004 + 48) 60)
    0x7000 [108; 115; 0].
Definition ex_fs : fs_state := Fs (ex_machine 1 fs_mem []) 0x80000 0x7800 0.
Definition ex_files : list file := [File [108; 115] TYPE_FILE 5 60].

Lemma ex_fs_image : fs_image ex_fs ex_files.
Proof.
  split; [by vm_compute |]. intros [|i] f Hf; simplify_eq/=.
  split_and!; by vm_compute.
Qed.

Lemma ex_fs_client m : client (fs_with m ex_fs) 3 0x40000.
Proof. split_and!; [done | lia | lia | done]. Qed.

(** Witness of [load_correct]. *)
Lemma load_correct_witness :
  local_load 0x7000 ex_fs = Ok (match find_name [108; 115] ex_files with
                                | Some (_, f) => w64 (filesystem ex_fs + f_offset f)
                                | None => 0
                                end) ex_fs.
Proof. apply (load_correct ex_fs ex_files 0x7000 [108; 115] ex_fs_image). by vm_compute. Defined.


(** Descriptor 2 of the client is that file. *)
Definition fd_mem : memory := write_fd 0x40000 2 TYPE_FILE 5 0 60 fs_mem.
Definition ex_fs_open : fs_state := fs_with fd_mem ex_fs.

(** Witness of [read_file_correct]. *)
Lemma read_file_correct_witness :
  exists m', local_read 2 0x60000 3 3 ex_fs_open = Ok (Z.min 3 5) (fs_with m' ex_fs_open) /\
    (forall i, 0 <= i < Z.min 3 5 -> byte_at m' (0x60000 + i) = byte_at fd_mem (0x80000 + 60 + i)) /\
    same_on (fun x => ~ (0x60000 <= x < 0x60000 + Z.min 3 5)) fd_mem m'.
Proof.
  apply (read_file_correct ex_fs_open 2 0x60000 3 3 0x40000); try (by vm_compute); try lia.
  right. vm_compute. congruence.
Defined.

(** Witness of [close_correct]. *)
Lemma close_correct_witness :
  exists m', local_close 2 3 ex_fs_open = Ok 0 (fs_with m' ex_fs_open) /\
    fd_entry m' 0x40000 2 = (0, 0, fd_dst (f_mem ex_fs_open) 0x40000 2, 0) /\
    (forall j, j <> 2 -> fd_entry m' 0x40000 j = fd_entry (f_mem ex_fs_open) 0x40000 j) /\
    ((forall j, 2 <= j < 2 -> fd_offset (f_mem ex_fs_open) 0x40000 j <> 0) -> lowest_fd 30 m' 0x40000 2 = 2).
Proof.
  apply (close_correct ex_fs_open 2 3 0x40000); [apply ex_fs_client | lia | lia |]. vm_compute. congruence.
Defined.

(** Witness of [write_error_forwards]. *)
Lemma write_error_forwards_witness :
  exists m', local_write 7 0x60000 3 3 ex_fs = Ok tt (fs_with m' ex_fs) /\
    message_at m' (box_addr 0x10000 3 FS) FS WRITE_IPC (int_bytes 3 ++ int_bytes (-1)) /\
    message_at m' (box_addr 0x10000 CONSOLE 3) 3 WRITE_IPC
      (u64_bytes (w64 3) ++ u64_bytes 0x60000 ++ u64_bytes (w64 3)).
Proof.
  apply (write_error_forwards 6 0x10000 0x20000 0x30000 ex_fs 7 0x60000 3 3 0x40000); try done; try lia.
  by apply ex_layout.
Defined.
