(* ===== verification/ExamplesMisc.v ===== *)
(** * Concrete instances: the image writer and threads *)

From S2P Require Import Prelude PhysMem CString MemMgr MemMgrSpec CpuInfo Ipc IpcSpec Channel Pm.
From S2P Require Import Fs FsSpec Initrd InitrdSpec Thread ThreadSpec.

(** ** An image with one file, "b/ls" with three bytes *)

Definition ex_arg : list Z := [98; 47; 108; 115].
Definition ex_host (path : list Z) : option (list Z) :=
  if decide (path = ex_arg) then Some [7; 0; 9] else None.
Definition ex_writer : writer := Writer (replicate 32 0) 0 [].

Lemma ex_args_ok : Forall (arg_ok ex_host) [ex_arg].
Proof.
  constructor; [|constructor]. split; [by exists [7; 0; 9] |].
  split; [by vm_compute |]. split; [by repeat constructor | by vm_compute; lia].
Qed.

(** The bytes the program writes. *)
Definition ex_image_bytes : list Z :=
  match create_initrd ex_host [ex_arg] ex_writer with Ok _ s => initrd s | Stop _ => [] end.
(** The file server with this image at 0x1000 and the name "ls" at 0x800. *)
Definition ex_image_fs : fs_state :=
  Fs (Machine (put_bytes (put_bytes ∅ 0x1000 ex_image_bytes) 0x800 [108; 115]) ∅ 0 1 0 0 []) 0x1000 0 0.

(** Witness of [image_load_roundtrip]: the file is found at 0x1000 + 172. *)
Lemma image_load_roundtrip_witness :
  exists p, local_load 0x800 ex_image_fs = Ok p ex_image_fs /\ p <> 0 /\
    text_at (f_mem ex_image_fs) p [7; 0; 9].
Proof.
  destruct (image_load_roundtrip ex_host [ex_arg] ex_writer) as (s' & Hrun & Hload);
    [apply ex_args_ok | done | simpl; lia | vm_compute; done | done | done |].
  assert (E : initrd s' = ex_image_bytes) by (unfold ex_image_bytes; by rewrite Hrun).
  apply (Hload ex_image_fs 0x800 0%nat ex_arg).
  - rewrite E. apply text_at_get. by vm_compute.
  - done.
  - by vm_compute.
  - done.
  - by vm_compute.
  - by vm_compute.
  - intros j arg' Hj. lia.
Defined.

(** ** Two threads *)

Definition ex_main : tdesc := TDesc 0x1000 0x10000 0x20000.
Definition ex_worker : tdesc := TDesc 0x2000 0x30000 0x40000.
(** The registers of the main thread: stack pointer 0x1F000, the rest 5. *)
Definition ex_context : context := fun r => if decide (r = RSP) then 0x1F000 else 5.
Definition ex_started : threads :=
  Threads ∅ 0x1000 0x1000 0x1000 0x1000 DefaultSched ex_context 0.
Definition ex_two : threads := created ex_worker 0x400000 ex_started.
Definition no_user (f : Z) : M threads Z := mret f.

Lemma ex_areas : areas_ok [ex_main; ex_worker].
Proof.
  split.
  - intros d Hd. repeat (apply elem_of_cons in Hd as [->|Hd]); [simpl; lia .. |]. by apply not_elem_of_nil in Hd.
  - intros [|[|i]] [|[|j]] d e Hij Hd He; simplify_eq/=; lia.
  - intros [|[|i]] [|[|j]] d e Hij Hd He; simplify_eq/=; lia.
  - intros d e Hd He. repeat (apply elem_of_cons in Hd as [->|Hd]);
      repeat (apply elem_of_cons in He as [->|He]); simpl; try lia;
      by (apply not_elem_of_nil in Hd || apply not_elem_of_nil in He).
Qed.

Lemma ex_context_ok : context_ok ex_main ex_context.
Proof. split; [by vm_compute |]. intros r. destruct r; by vm_compute. Qed.

Lemma ex_started_inv : inv [ex_main] ex_started (Abs [ex_context] 0).
Proof.
  split; try done.
  - apply (areas_new _ ex_worker), ex_areas.
  - intros d c [= <-] [= <-]. split; [apply ex_context_ok | done].
  - intros [|j] d c Hj Hd; done.
Qed.

(** Witness of [thread_create_correct]. *)
Lemma thread_create_correct_witness :
  exists s', thread_create 0x2000 0x400000 0x30000 0x10000 ex_started = Ok tt s' /\
    inv [ex_main; ex_worker] s' (Abs [ex_context; start_context ∅ 0x400000 0x40000] 0).
Proof.
  apply (thread_create_correct [ex_main] ex_started [ex_context] 0%nat ex_worker 0x400000);
    [apply ex_started_inv | apply ex_areas | simpl; lia | lia].
Defined.

Lemma ex_two_inv :
  inv [ex_main; ex_worker] ex_two (Abs [ex_context; start_context ∅ 0x400000 0x40000] 0).
Proof.
  apply (create_inv [ex_main] ex_started [ex_context] 0%nat ex_worker 0x400000);
    [apply ex_started_inv | apply ex_areas | simpl; lia | lia].
Qed.

(** Witness of [thread_tick_correct]: the worker takes over. *)
Lemma thread_tick_correct_witness :
  exists s', timer_interrupt no_user ex_two = Ok tt s' /\
    inv [ex_main; ex_worker] s' (Abs [ex_context; start_context ∅ 0x400000 0x40000] 1) /\ t_eois s' = 1.
Proof.
  exact (thread_tick_correct no_user [ex_main; ex_worker] ex_two
    [ex_context; start_context ∅ 0x400000 0x40000] 0%nat ex_two_inv).
Defined.

(** Witness of [threads_refine]: an interrupt of the main thread. *)
Definition ex_ticked : threads :=
  match timer_interrupt no_user ex_two with Ok _ s => s | Stop _ => ex_two end.
Lemma ex_ticked_run : rtc (tstep no_user [ex_main; ex_worker]) ex_two ex_ticked.
Proof.
  apply rtc_once, t_tick. unfold ex_ticked.
  destruct (wp_elim _ _ _ (tick_inv no_user _ _ _ _ ex_two_inv)) as ([] & s' & Hr & _).
  rewrite Hr. reflexivity.
Qed.
