(* ===== verification/ExamplesVm.v ===== *)
(** * Concrete instances: the memory of a virtual machine

    A machine with 1GB of memory, of which the first 2MB belong to the boot
    image, and a program with five sections on CPU 4. *)

From S2P Require Import Prelude PhysMem MemMgr MemMgrSpec Paging PageWalk PagingSpec EptSpec PmAlloc CpuInfo Ipc.
From S2P Require Import Pm PmEpt PmProc PmSpec PmFork PmForkSpec ExamplesMem.

(** The allocator's state as [memory_init] leaves it. *)
Definition mm_big : mm_state :=
  final mm_blank (memory_init (fun _ => zero_node) 0x200000 0x40000000 mm_blank).

Lemma mm_big_repr : exists n, mm_repr mm_big [(n, 0)] /\ 250000 <= n /\ mm_top mm_big <= 2 ^ 48 /\ 0x200000 <= first_free_addr mm_big.
Proof.
  destruct (memory_init_repr (fun _ => zero_node) 0x200000 0x40000000 ltac:(lia) ltac:(done) ltac:(lia)
    ltac:(vm_compute; congruence) mm_blank) as (s' & n & Hrun & Hr & _ & Hall & Hffa & Htop).
  unfold mm_big. erewrite final_ok by done. exists n. split; [done |].
  change (node_count (0x40000000 - 0x200000)) with 261632 in Hall. unfold mm_top. lia.
Qed.

Definition vm_prog : vm_proc :=
  VmProc no_regs 0 0 0x400000 0x606000 (Sec 0x110000 0x400000 0x2000) (Sec 0x112000 0x402000 0x1800)
    (Sec 0x114000 0x404000 0x300) (Sec 0x115000 0x405000 0x1000) (Sec 0x120000 0x406000 0x200000) 0 0 2 0 RUNNING 0 0 0.
Definition vm_cpu : cpu_info :=
  CpuInfo 4 vm_prog true 0 6 0x14000 0x24000 0x31000 0x30000.
Definition ex_vm : pm_state :=
  Pm mm_big (Machine ∅ {[4 := vm_cpu]} 0x100000 0 0 0 []) false 0x40000 0x41000 0.

Lemma ex_vm_described : vm_described 4 vm_cpu ex_vm.
Proof.
  destruct mm_big_repr as (n & Hr & Hn & Htop & _). split.
  - reflexivity.
  - reflexivity.
  - exists [(n, 0)]. exact Hr.
  - exact Htop.
  - change (cpu_addr 4 ex_vm) with 0x104000. clear. by vm_compute.
  - clear. by repeat constructor.
  - clear. repeat constructor; simpl; lia.
  - clear. intros [=].
  - constructor.
  - clear. by vm_compute.
  - exists [(n, 0)]. split; [exact Hr |]. assert (vm_demand vm_cpu <= 110000) by (clear; by vm_compute). cbn [avail_pages Z.eqb]. clear Hr Htop. lia.
Qed.



(** ** Fork

    Init, on CPU 2, has called fork; CPU 3 to 5 run the drivers and CPU 6 is
    free.  The registers were saved on init's stack. *)

Definition init_prog : vm_proc :=
  VmProc no_regs 0 0 0x400000 0x426000 (Sec 0x110000 0x400000 0x2000) (Sec 0x112000 0x402000 0x1800)
    (Sec 0x114000 0x404000 0x300) (Sec 0x115000 0x405000 0x1000) (Sec 0x120000 0x406000 0x20000) 0 0 2 0 RUNNING 0 0 0.
Definition fork_cpu (i : Z) : cpu_info :=
  CpuInfo i init_prog (i <? 6) 0 8 (0x10000 + 4096 * i) (0x20000 + 4096 * i) 0x31000 0x30000.
Definition ex_fork : pm_state :=
  Pm mm_big (Machine (store64 ∅ (0x13F000 + 48) 0x425100) (list_to_map ((fun i => (i, fork_cpu i)) <$> seqZ 0 8)) 0x100000 0 0 0 [])
    false 0x40000 0x41000 0.

(** Memory below the allocator's is in use. *)
Lemma low_held k p n : 0x200000 <= first_free_addr (k_mm k) -> 4096 <= p -> p + n <= 0x200000 -> held k p n.
Proof.
  intros Hffa Hp Hn x Hx. exists (x - x mod 4096).
  pose proof (Z.mod_pos_bound x 4096 ltac:(lia)). pose proof (Z.div_mod x 4096 ltac:(lia)). split; [|lia]. split_and!.
  - replace (x - x mod 4096) with (x / 4096 * 4096) by lia. by rewrite Z.mod_mul.
  - lia.
  - lia.
  - right. intros (bl & _ & Hq). lia.
Qed.

Lemma ex_held p n : 4096 <= p -> p + n <= 0x200000 -> held (kmem_of ex_fork) p n.
Proof. destruct mm_big_repr as (k & _ & _ & _ & Hffa). intros Hp Hn. apply low_held; [exact Hffa | exact Hp | exact Hn]. Qed.

Lemma ex_section_ready x :
  x ∈ [Sec 0x110000 0x400000 0x2000; Sec 0x112000 0x402000 0x1800; Sec 0x114000 0x404000 0x300; Sec 0x115000 0x405000 0x1000; Sec 0x120000 0x406000 0x20000] ->
  section_ready (kmem_of ex_fork) x.
Proof.
  intros Hx. repeat (apply elem_of_cons in Hx as [-> |Hx]); [| | | | |by apply not_elem_of_nil in Hx];
    (split; [vm_compute; reflexivity |]; split; [clear; intros _; vm_compute; repeat split; congruence | cbn [s_paddr s_size]; apply ex_held; lia]).
Qed.

Lemma low_not_reallocable p mm : 0x200000 <= first_free_addr mm -> p <= 0x200000 -> reallocable p mm = false.
Proof. intros H Hp. unfold reallocable. by rewrite (proj2 (Z.ltb_ge _ p)) by lia. Qed.

Lemma ex_forkable : forkable 2 6 0x405100 0x13F000 ex_fork.
Proof.
  destruct mm_big_repr as (n & Hr & Hn & Htop & Hffa). split.
  - reflexivity.
  - change (ncpus (self (p_m ex_fork))) with 8. lia.
  - split; [lia |]. split; [reflexivity | discriminate].
  - change (ncpus (self (p_m ex_fork))) with 8. split; [lia |]. split; [reflexivity |].
    intros j Hj. assert (Hc : j = 3 \/ j = 4 \/ j = 5) by lia. destruct Hc as [-> |[-> | ->]]; reflexivity.
  - split; [reflexivity |]. split; reflexivity.
  - reflexivity.
  - change (cpu_addr 6 ex_fork) with 0x106000. clear. by vm_compute.
  - clear. by repeat constructor.
  - change (rg_rsp (load_regs (p_mem ex_fork) 0x13F000)) with 0x425100.
    change (vm_info (cpu_at (p_m ex_fork) 2)) with init_prog. split.
    + exact Htop.
    + apply Forall_forall. intros x Hx. apply ex_section_ready. exact Hx.
    + clear. by vm_compute.
    + intros x Hx Hre. exfalso. revert Hre. apply not_true_iff_false, low_not_reallocable; [exact Hffa |]. clear -Hx. destruct Hx as [-> | ->]; vm_compute; congruence.
    + clear. by vm_compute.
  - apply ex_held; lia.
  - change (vm_info (cpu_at (p_m ex_fork) 2)) with init_prog. clear. by vm_compute.
  - left. reflexivity.
  - exists [(n, 0)]. split; [exact Hr |]. right. exists n. split; [by left |].
    assert (copy_pages init_prog + 1 + vm_demand (fork_cpu 2) <= 110000) by (clear; by vm_compute).
    change (cpu_at (p_m ex_fork) 2) with (fork_cpu 2). change (vm_info (fork_cpu 2)) with init_prog. clear Hr Htop. lia.
Qed.

