(* ===== verification/ExamplesBoot.v ===== *)
(** * Concrete instances: the second boot stage

    A machine with 1GB of memory and one processor of four cores, as the BIOS
    describes it, and the states the boot stage goes through. *)

From S2P Require Import Prelude PhysMem MemMgr MemMgrSpec Paging PageWalk PagingSpec EptSpec BootMem BootMemSpec PmAlloc.
From S2P Require Import CpuInfo Ipc IpcSpec Pm PmEpt PmProc Boot BootSpec BootEpt BootElf ExamplesMem.
From S2P Require Import Stage1 Stage1Spec.

(** The floating pointer structure at 0xF0000 and the table at 0x9000: a
    processor and an I/O APIC. *)
Definition bios_fptr : list Z := [95; 77; 80; 95; 0; 144; 0; 0; 1; 4; 16; 0; 0; 0; 0; 0].
Definition bios_table : list Z :=
  [80; 67; 77; 80; 72; 0; 4; 174] ++ replicate 36 0 ++ replicate 20 0 ++ [2; 4; 17; 1; 0; 0; 192; 254].
Definition bios_memory : memory := put_bytes (put_bytes ∅ 0xF0000 bios_fptr) 0x9000 bios_table.

Definition boot_start : boot_state :=
  Boot (CpuTable (BootMem 0x40000000 0x400000 bios_memory) ∅ 0 0 true) ∅ ∅ false 0 0 0 0 0x300000.

Lemma bios_tables : mp_tables bios_memory 0 0x9000 [Proc; Ioapic].
Proof.
  split.
  - lia.
  - vm_compute. reflexivity.
  - intros j Hj. lia.
  - vm_compute. reflexivity.
  - reflexivity.
  - vm_compute. reflexivity.
  - vm_compute. reflexivity.
  - vm_compute. reflexivity.
  - vm_compute. reflexivity.
  - right. vm_compute. reflexivity.
  - vm_compute. reflexivity.
  - split; [vm_compute; reflexivity |]. split; [intros [=] |]. split; [vm_compute; reflexivity |].
    split; [intros _; vm_compute; reflexivity | exact I].
Qed.

(** Witness of [mp_init_correct]: leaf 4 reports four cores. *)
Lemma mp_init_correct_witness :
  exists s', mp_init (2 ^ 9) (2 ^ 11) (3 * 2 ^ 26) boot_start = Ok tt s' /\
    ct_ncpus (b_ct s') = intel_get_core_number (3 * 2 ^ 26) * processors [Proc; Ioapic] /\ b_ioapicva s' = IOAPICPA /\
    (forall i, 0 <= i < intel_get_core_number (3 * 2 ^ 26) * processors [Proc; Ioapic] ->
       get_info i s' = Ok i s' /\
       cpuid (default no_cpu (b_cpus s' !! i)) = i /\ lapic_id (default no_vmm (b_vmms s' !! i)) = i) /\
    same_on (fun x => x < boot_free_addr (ct_mem (b_ct boot_start))) (b_mem boot_start) (b_mem s').
Proof.
  apply (mp_init_correct (2 ^ 9) (2 ^ 11) (3 * 2 ^ 26) boot_start 0 0x9000 [Proc; Ioapic]);
    [done | done | done | by split_and! | by split | exact bios_tables | done | done].
Defined.

(** The same machine with its four CPUs described. *)
Definition ex_init_vm : vm_proc :=
  VmProc no_regs 0x800000 0xA00000 0x400000 0x606000 (Sec 0x800000 0x400000 0x2000) (Sec 0x802000 0x402000 0x1800)
    (Sec 0x804000 0x404000 0x300) (Sec 0x806000 0x405000 0x1000) (Sec 0xA00000 0x406000 0x200000) 0 0 0 0 RUNNING 0 0 0.
Definition ex_cpu (i : Z) : cpu_info :=
  CpuInfo i ex_init_vm true 0 4 (0x600000 + i * 4096) (0x800000 + i * 4096) (0xA00000 + i * 4096) 0xA04000.
Definition ex_table (big : bool) (bm : boot_mem) : boot_state :=
  Boot (CpuTable bm (list_to_map [(0, 0x400000); (1, 0x401000); (2, 0x402000); (3, 0x403000)]) 4 0x400000 false)
    (list_to_map [(0, ex_cpu 0); (1, ex_cpu 1); (2, ex_cpu 2); (3, ex_cpu 3)]) ∅ big 0 0 0 0 0x300000.
Definition ex_boot : boot_state := ex_table false (BootMem 0x40000000 0x600000 ∅).

Lemma four_cases (P : Z -> Prop) : P 0 -> P 1 -> P 2 -> P 3 -> forall i, 0 <= i < 4 -> P i.
Proof. intros H0 H1 H2 H3 i Hi. assert (i = 0 \/ i = 1 \/ i = 2 \/ i = 3) as [->|[->|[->| ->]]] by lia; done. Qed.

Lemma ex_boot_found : cpus_found 4 ex_boot.
Proof.
  split; [by split | | done | done | by apply four_cases].
  split; [done | done | done |]. by apply four_cases.
Qed.

(** Witness of [alloc_messages_correct]. *)
Lemma alloc_messages_correct_witness :
  exists s', alloc_messages ex_boot = Ok tt s' /\
    (forall i, 0 <= i < 4 -> default no_cpu (b_cpus s' !! i) =
       set_msgs (0x600000 + i * 4096) (0x600000 + _2MB_ + i * 4096) (0x600000 + 2 * _2MB_ + i * 4096) 0xA04000
         (default no_cpu (b_cpus ex_boot !! i))) /\
    (forall x, message_area 4 0x600000 x -> byte_at (b_mem s') x = 0).
Proof.
  destruct (alloc_messages_correct 4 ex_boot ex_boot_found ltac:(done) ltac:(by vm_compute))
    as (s' & H1 & H2 & _ & _ & H3 & _). exists s'. split_and!; [exact H1 | exact H2 | exact H3].
Defined.

(** Witness of [boot_hands_over]. *)
Definition ex_args : boot_args := BootArgs 0 0 0 0 0x1000000 0x400000 0x100000 1 0x1000.
Lemma boot_hands_over_witness :
  exists b, set_vm_args ex_args ex_boot = Ok tt b /\
    vm_args (default no_cpu (b_cpus b !! FS)) = 0x1000000 /\
    forall p, starts_from b p -> exists p', pm_init (fun _ => zero_node) p = Ok tt p' /\
      has_1GB_page p' = true /\
      0x600000 + all_nodes (p_mm p') * 32 <= first_free_addr (p_mm p') < 0x600000 + all_nodes (p_mm p') * 32 + 4096 /\
      (forall q, managed (p_mm p') q <-> first_free_addr (p_mm p') <= q < 0x40000000) /\
      (forall q, ~ in_use (p_mm p') q).
Proof.
  apply (boot_hands_over (fun _ => zero_node) 4 ex_args ex_boot ex_boot_found);
    [done | done | done | done | by vm_compute].
Defined.

(** Witness of [server_memory_correct]: the process manager's memory. *)
Lemma server_memory_correct_witness :
  exists s' pt ept, ept_map_memory_server 0x400000 ex_boot = Ok tt s' /\
    default no_cpu (b_cpus s' !! 0) = with_tables pt ept (ex_cpu 0) /\
    (forall gpa, 0 <= gpa < 2 ^ 48 -> walk (b_mem s') ept gpa =
       identity (ept_flags _2MB_ EPT_MTYPE_UC EPT_RW) (ept_flags _2MB_ EPT_MTYPE_WB EPT_RWX) gpa).
Proof.
  destruct (server_memory_correct 0 ex_boot ltac:(done) ltac:(done) ltac:(done) ltac:(by split)
    ltac:(split; [by split | intros _; by vm_compute])) as (s' & pt & ept & H1 & H2 & _ & _ & H3 & _).
  exists s', pt, ept. split_and!; [exact H1 | exact H2 | exact H3].
Defined.

(** Witness of [init_isolation]: the program on CPU 2. *)
Definition ex_boot_init : boot_state := ex_table false (BootMem 0x40000000 0xC00000 ∅).
Lemma ex_init_described : init_described 2 ex_boot_init.
Proof.
  split; try done.
  - repeat apply Forall_cons_2; try apply Forall_nil_2; by split_and!.
  - repeat apply Forall_cons_2; try apply Forall_nil_2; intros _; split_and!; by vm_compute.
Qed.

(** A small executable at 1MB, linked for 6MB. *)
Definition put_phdr (s : Z) (h : phdr) (m : memory) : memory :=
  store64 (store64 (store64 m (s + 8) (ph_offset h)) (s + 16) (ph_vaddr h)) (s + 40) (ph_size h).
Definition ex_code : phdr := Phdr 0x600000 0x1000 0x20.
Definition ex_data : phdr := Phdr 0x600040 0x1020 8.
Definition ex_rodata : phdr := Phdr 0x600080 0x1030 0.
Definition ex_bss : phdr := Phdr 0x600100 0x1030 0x40.
Definition elf_memory : memory :=
  put_phdr 0x100040 ex_code (put_phdr 0x100078 ex_data (put_phdr 0x1000B0 ex_rodata (put_phdr 0x1000E8 ex_bss
    (store 2 (store64 (put_bytes ∅ 0x101000 [1; 2; 3; 4]) 0x100020 64) 0x100038 4)))).
Definition ex_boot_elf : boot_state := ex_table false (BootMem 0x40000000 0x600000 elf_memory).

Lemma ex_elf_file : elf_file elf_memory 0x100000 0x200000 [ex_code; ex_data; ex_rodata; ex_bss].
Proof.
  split.
  - lia.
  - lia.
  - vm_compute. reflexivity.
  - lia.
  - vm_compute. discriminate.
  - vm_compute. reflexivity.
  - repeat apply Forall_cons_2; try apply Forall_nil_2; vm_compute; discriminate.
Qed.

Lemma ex_boot_elf_found : cpus_found 4 ex_boot_elf.
Proof.
  split; [by split | | done | done | by apply four_cases].
  split; [done | done | done |]. by apply four_cases.
Qed.

(** Witness of [load_server_correct]. *)
Lemma load_server_correct_witness :
  exists s', load_server_vms 0 0x100000 ex_boot_elf = Ok tt s' /\
    server_described ex_code ex_data ex_rodata ex_bss (ex_cpu 0) (default no_cpu (b_cpus s' !! 0)) /\
    (forall h i, h ∈ [ex_code; ex_data; ex_rodata] -> 0 <= i < ph_size h ->
       byte_at (b_mem s') (ph_vaddr h + i) = byte_at elf_memory (0x100000 + ph_offset h + i)).
Proof.
  destruct (load_server_correct 4 0 0x100000 0x200000 ex_code ex_data ex_rodata ex_bss ex_boot_elf ex_boot_elf_found
    ltac:(done) ltac:(by vm_compute) ex_elf_file ltac:(by split)) as (s' & H1 & H2 & _ & H3 & _).
  exists s'. split_and!; [exact H1 | exact H2 | exact H3].
Defined.

(** ** The first boot stage *)

(** Multiboot information at 0x10000, seven modules of a page each from 1MB on;
    the first is an executable with code at 2MB, no data, read-only data and a
    bss. *)
Definition ex_phdr (m : memory) (k vaddr offset size : Z) : memory :=
  let s := 0x100040 + k * PHDR_SIZE in store64 (store64 (store64 m (s + 16) vaddr) (s + 8) offset) (s + 40) size.
Definition ex_multiboot : memory :=
  let m := store32 (store32 (store32 (store32 ∅ 0x10000 9) 0x10008 0x7fc00) 0x10014 7) 0x10018 0x10100 in
  let m := foldl (fun m k => store32 (store32 m (0x10100 + 16 * k) (0x100000 + 4096 * k)) (0x10104 + 16 * k) (0x101000 + 4096 * k))
             m (seqZ 0 7) in
  let m := store 2 (store64 m 0x100020 64) 0x100038 4 in
  let m := ex_phdr (ex_phdr (ex_phdr (ex_phdr m 0 0x200000 0x200 16) 1 0x201000 0 0) 2 0x202000 0x300 8) 3 0x203000 0 32 in
  store64 m 0x100200 0x123456789.
Definition ex_stage1 : stage1 := Stage1 ex_multiboot 0 0 0x60000011 0 (fun _ => CpuidRegs 0xffffffff 0 0xffffffff 0xffffffff).

Definition ex_h0 : phdr := Phdr 0x200000 0x200 16.
Definition ex_h1 : phdr := Phdr 0x201000 0 0.
Definition ex_h2 : phdr := Phdr 0x202000 0x300 8.
Definition ex_h3 : phdr := Phdr 0x203000 0 32.

Lemma ex_stage2_file : stage2_file ex_multiboot 0x100000 0x200000 ex_h0 ex_h1 ex_h2 ex_h3.
Proof.
  split; [|done | split; [done | done | done]]. split.
  - done.
  - done.
  - vm_compute. reflexivity.
  - done.
  - vm_compute. discriminate.
  - vm_compute. reflexivity.
  - repeat constructor; discriminate.
Qed.

Lemma ex_info_safe : info_safe ex_multiboot 0x10000.
Proof.
  split_and!; [| |vm_compute; reflexivity].
  - unfold video. lia.
  - replace (mods_addr ex_multiboot 0x10000) with 0x10100 by (vm_compute; reflexivity). unfold video, aps_area. lia.
Qed.

