(* ===== verification/ExamplesHw.v ===== *)
(** * Concrete instances: descriptor tables, interrupt controllers and the
    hypervisor

    A processor of the kind the hypervisor is written for, on which the
    theorems about hardware are applied. *)

From S2P Require Import Prelude PhysMem MemMgr CpuInfo Ipc IpcSpec Descriptors DescriptorsSpec Apic ApicSpec Vmm VmmSpec VmmEntry.
From S2P Require Import ExamplesIpc.

Definition ex_sym (_ : entry_point) : Z := 0x101000.
Definition ex_desc : desc_state := Desc ∅ (0, 0) (0, 0) (fun _ => 0) 0x200000 0x201000 false false.

(** Witness of [interrupt_init_correct]. *)
Lemma interrupt_init_correct_witness :
  exists s', interrupt_init ex_sym ex_desc = Ok tt s' /\ vectored (fun v => trap_gate ex_sym KNL_PVL (trap_of v)) ex_desc s' /\
    interrupt_init ex_sym s' = Ok tt s'.
Proof. apply (interrupt_init_correct ex_sym); [by intros e | reflexivity]. Defined.

(** ** A processor with VMX *)

(** Forced and allowed bits as current processors report them. *)
Definition ex_msr (r : Z) : Z :=
  if r =? MSR_IA32_VMX_BASIC then 0x00da040000000012
  else if r =? MSR_IA32_VMX_PINBASED_CTLS then 0x0000007f00000016
  else if r =? MSR_IA32_VMX_PROCBASED_CTLS then 0xfff9fffe0401e172
  else if r =? MSR_IA32_VMX_PROCBASED_CTLS2 then 0x000000ff00000000
  else if r =? MSR_IA32_VMX_EXIT_CTLS then 0x007fffff00036dff
  else if r =? MSR_IA32_VMX_ENTRY_CTLS then 0x0000ffff000011ff
  else if r =? MSR_IA32_VMX_EPT_VPID_CAP then 0x00000f0106114141
  else 0.

(** The process manager's CPU: its guest starts at 0x400000 with its stack at
    0x800000; page tables at 0x900000, EPT at 0xA00000. *)
Definition ex_guest_regs : regs := Regs 1 2 3 4 5 6 0x800000 8 0x400000 0 0 0 0 0 0 2 9 10 11 12 13 14 15 16 0 0 0.
Definition ex_guest : vm_proc :=
  VmProc ex_guest_regs 0 0 0 0 no_section no_section no_section no_section no_section 0x900000 0xa00000 0 0 RUNNING 0 0x40000 0x41000.
Definition ex_pm_cpu : machine := Machine ∅ {[0 := set_vm_info ex_guest (ex_cpu 0)]} 0x100000 0 0 0 [].

Definition ex_vmx : vmx_state :=
  Vmx ex_pm_cpu [] ex_msr 0x80000011 0x1000 0x20 (0, 0) (0, 0) (fun _ => 8) (0x200000, 0x201000) (false, false) None ∅ None
    (fun _ => true) (fun _ => true) (VmcsConfig 0 0 0 0 0 0 0) (VmxCapability 0 0 false) 0x300000 0x301000 0x700000 0 false 0x100000 0.

Lemma ex_capable : entry_capable ex_vmx.
Proof.
  split; [split; vm_compute; congruence | | vm_compute; reflexivity | vm_compute; reflexivity].
  intros r Hr. repeat (destruct Hr as [<-|Hr]; [vm_compute; reflexivity |]). destruct Hr.
Qed.
Lemma ex_fields : fields_supported ex_vmx.
Proof. apply Forall_forall. intros f _. reflexivity. Qed.
Lemma ex_regions : regions_ok ex_vmx.
Proof. by split_and!. Qed.

(** Witness of [vmm_main_enters]. *)
Lemma vmm_main_enters_witness :
  exists F s', guest_ready ex_vmx F /\ in_guest s' F /\ x_ready s' = true /\ x_idtr s' = (NIDT * DESC_SIZE - 1, 0x201000) /\
    (forall v, 0 <= v < NIDT -> vector_gate (x_mem s') 0x201000 v = trap_gate ex_sym KNL_PVL (trap_of v)) /\
    vmm_main ex_sym ex_vmx = Ok (guest_gprs ex_guest_regs) s'.
Proof.
  apply (vmm_main_enters ex_sym ex_vmx); try reflexivity.
  - by intros e.
  - exact ex_capable.
  - exact ex_fields.
  - exact ex_regions.
  - by right.
  - intros a Ha. unfold vmx_frame. cbn in Ha |- *. lia.
Defined.

(** Witness of [vmx_init_enters]. *)
Lemma vmx_init_enters_witness :
  exists F s', entered ex_vmx s' F /\ vmx_init ex_vmx = Ok (guest_gprs ex_guest_regs) s'.
Proof. apply (vmx_init_enters ex_vmx ex_capable ex_fields ex_regions); [reflexivity | by right]. Defined.

(** The same processor in its guest after a VMCALL; the process manager's
    message (not -1: a new program) is in the inbox, and the new program starts
    at 0x500000. *)
Definition ex_new_guest (c : cpu_info) : cpu_info := set_vm_info (set_vm_regs (Regs 0 0 0 0 0 0 0x880000 0 0x500000 0 0 0 0 0 0 2 0 0 0 0 0 0 0 0 0 0 0) ex_guest) c.
Definition ex_exit_mem : memory := store64 (store32 ∅ 0x300000 0x12) (0x10000 + 8) 1.
Definition ex_exit_fields : gmap Z Z := {[VM_EXIT_REASON := 18]}.
Definition ex_exited : vmx_state :=
  Vmx (set_m_mem ex_exit_mem ex_pm_cpu) [ex_new_guest] ex_msr 0x80000031 0x1000 0x2020 (0, 0) (0, 0) (fun _ => 8) (0x200000, 0x201000) (true, true)
    (Some 0x301000) {[0x300000 := Vmcs true ex_exit_fields]} (Some 0x300000) (fun _ => true) (fun _ => true)
    (VmcsConfig 0 0 0 0 0 0 0) (VmxCapability 0 0 false) 0x300000 0x301000 0x700000 0 true 0x100000 0.
Definition ex_woken : vmx_state := match wait_pm ex_exited with Ok _ s => s | Stop _ => ex_exited end.

Lemma ex_in_guest : in_guest ex_exited ex_exit_fields.
Proof. split; try reflexivity; [exact ex_regions | apply (entry_capable_ext ex_vmx); [done | exact ex_capable] | exact ex_fields]. Qed.


(** Witness of [pic_follows_mask]: the keyboard and a line of the second
    controller are enabled, an interrupt is acknowledged, the keyboard is
    disabled again. *)
Lemma pic_follows_mask_witness :
  exists s', (pic_init ;; forM [Enable 1; Enable 12; Eoi; Disable 1] run_pic) (Apic 0 ∅ ∅ [] 0 0 0) = Ok tt s' /\
    pic_inv (Chip 0 0 0 0 0) (Chip 0 0 0 0 0) s'.
Proof.
  apply (pic_follows_mask (Chip 0 0 0 0 0) (Chip 0 0 0 0 0) [Enable 1; Enable 12; Eoi; Disable 1]).
  repeat constructor; simpl; lia.
Defined.
