(* ===== verification/ExamplesNet.v ===== *)
(** * The network driver on a small machine

    A bus with a host bridge and an Intel card with one memory window, and a
    card that answers from the accesses made to it. *)

From S2P Require Import Prelude PhysMem Descriptors DescriptorsSpec CpuInfo Apic ApicSpec Pci PciSpec PciScan E1000 E1000Spec.

(** ** The bus *)

Definition card_fn : Z * Z * Z := (0, 3, 0).
Definition put (c : gmap Z Z) (a : Z) (bs : list Z) : gmap Z Z := put_bytes c a bs.
(** Vendor, device, command, status, revision and class, then the registers. *)
Definition bus : gmap Z Z :=
  put (put (put (put ∅ (fa (0, 0, 0)) [0x86; 0x80; 0x37; 0x12; 7; 0; 0; 0; 2; 0; 0; 6; 0; 0; 0; 0])
    (fa card_fn) [0x86; 0x80; 0x0e; 0x10; 7; 0; 0; 0; 3; 0; 0; 2; 0; 0; 0; 0])
    (fa card_fn + 0x10) ([0; 0; 0xf0; 0xfe] ++ replicate 20 0)) (fa card_fn + 0x3c) [11; 1; 0; 0].
Definition bus_rw : gmap Z Z := put ∅ (fa card_fn + 0x10) ([0; 0; 0xfe; 0xff] ++ replicate 20 0).
Definition card_layout (g : Z * Z * Z) : list hwbar := [Mem32 0xfef00000 17 false false; NoBar; NoBar; NoBar; NoBar; NoBar].

Definition apic0 : apic_state := Apic 0 ∅ ∅ [] 0 0 0.
Definition desc0 : desc_state := Desc ∅ (0, 0) (0, 0) (fun _ => 0) 0x1000 0x2000 false false.
Definition pci0 : pci := Pci 0 bus bus_rw (replicate 50 no_pcidev) 0 apic0 desc0.
Definition no_sym (e : entry_point) : Z := 0x100000.
Lemma no_sym_ok e : 0 <= no_sym e < 2 ^ 64.
Proof. unfold no_sym. lia. Qed.

Lemma pci0_found : found pci0 functions = [(0, 0, 0); card_fn].
Proof. vm_compute. reflexivity. Qed.
Lemma pci0_fresh : fresh pci0.
Proof. by split. Qed.
Lemma one_reg c rw a v m : cfg_load 4 c a = v -> rw_load 4 rw a = m -> shows_regs c rw a [(v, m)].
Proof. intros Hv Hm [|j] v' m' Hj; [|discriminate Hj]. injection Hj as <- <-. cbn. by rewrite Z.add_0_r. Qed.
Lemma laid_out_cons c rw a i h l j :
  j = i + width h -> (j <=? 6) = true -> bar_ok h -> shows_regs c rw (a + (PCI_BAR + 4 * i)) (bar_regs h) -> laid_out c rw a j l -> laid_out c rw a i (h :: l).
Proof. intros -> Hj%Z.leb_le Hok Hs Hl. by split_and!. Qed.

Lemma pci0_laid_out : cards_laid_out card_layout pci0.
Proof.
  intros g Hg. assert (E : cards pci0 functions = [card_fn]) by (vm_compute; reflexivity). rewrite E in Hg. apply list_elem_of_singleton in Hg as ->.
  unfold card_layout.
  apply (laid_out_cons _ _ _ _ _ _ 1); [reflexivity | reflexivity | split; [lia | split; [lia | reflexivity]] | apply one_reg; vm_compute; reflexivity |].
  apply (laid_out_cons _ _ _ _ _ _ 2); [reflexivity | reflexivity | exact I | apply one_reg; vm_compute; reflexivity |].
  apply (laid_out_cons _ _ _ _ _ _ 3); [reflexivity | reflexivity | exact I | apply one_reg; vm_compute; reflexivity |].
  apply (laid_out_cons _ _ _ _ _ _ 4); [reflexivity | reflexivity | exact I | apply one_reg; vm_compute; reflexivity |].
  apply (laid_out_cons _ _ _ _ _ _ 5); [reflexivity | reflexivity | exact I | apply one_reg; vm_compute; reflexivity |].
  apply (laid_out_cons _ _ _ _ _ _ 6); [reflexivity | reflexivity | exact I | apply one_reg; vm_compute; reflexivity |].
  reflexivity.
Qed.
Lemma pci0_window : head (windows card_layout pci0 functions) = Some (Bar 0 0 0xfef00000 (2 ^ 17)).
Proof. vm_compute. reflexivity. Qed.
Lemma pci0_room : (length (found pci0 functions) < 50)%nat.
Proof. rewrite pci0_found. cbn. lia. Qed.

(** The scan on this bus. *)
Lemma pci_init_correct_witness :
  fresh pci0 /\ cards_laid_out card_layout pci0 /\
  exists s', pci_init no_sym pci0 = Ok tt s' /\ scanned no_sym card_layout pci0 functions s'.
Proof.
  split; [exact pci0_fresh |]. split; [exact pci0_laid_out |].
  exact (proj1 (pci_init_correct no_sym no_sym_ok card_layout pci0 pci0_fresh pci0_laid_out) pci0_room).
Defined.

(** ** The driver *)

Definition window : Z := 0xfef00000.
Definition a_rx_desc : Z := 0x600000.
Definition a_tx_desc : Z := 0x601000.
Definition a_rx_buf : Z := 0x610000.
Definition a_tx_buf : Z := 0x690000.
Definition shift : Z := 0x10000000.
Definition net_vm : vm_proc :=
  VmProc no_regs 0 0 0 0x900000 (Sec 0x10400000 0x400000 0x1000) (Sec 0x10401000 0x401000 0x1000) (Sec 0x10402000 0x402000 0x1000)
    (Sec 0x10500000 0x500000 0x300000) (Sec 0x10800000 0x800000 0x100000) 0 0 0 0 0 0 0 0.
Definition net_cpu : cpu_info := CpuInfo 3 net_vm true 0 4 0 0 0 0.

(** Registers keep what was written; the card is enabled and counts two
    packets at every poll. *)
Definition net_card (io : list access) (a : Z) : Z :=
  if a =? window + E1000_REG_TPR then 2 else
  if a =? window + E1000_REG_STATUS then 2 else default 0 (last_write window io a).
Definition net_dma (io : list access) (m : memory) : memory := m.
#[local] Instance net_card_ok : EthernetCard a_rx_desc a_tx_desc a_rx_buf net_card net_dma window.
Proof.
  split; [|done]. intros io r v Hr Hw. unfold net_card.
  assert (H : r <> E1000_REG_TPR /\ r <> E1000_REG_STATUS)
    by (repeat (apply elem_of_cons in Hr as [-> |Hr]; [split; lia |]); by apply not_elem_of_nil in Hr).
  destruct (Z.eqb_spec (window + r) (window + E1000_REG_TPR)); [lia |]. destruct (Z.eqb_spec (window + r) (window + E1000_REG_STATUS)); [lia |].
  by rewrite Hw.
Qed.

Lemma net_arrays : arrays_ok a_rx_desc a_tx_desc a_rx_buf a_tx_buf.
Proof. unfold arrays_ok, apart, a_rx_desc, a_tx_desc, a_rx_buf, a_tx_buf. lia. Qed.
Lemma net_mapped : arrays_mapped a_rx_desc a_tx_desc a_rx_buf a_tx_buf shift net_cpu.
Proof.
  intros a Ha. repeat (apply elem_of_cons in Ha as [-> |Ha];
    [split; [intros T x; reflexivity | unfold a_rx_buf, a_rx_desc, a_tx_buf, a_tx_desc, shift; lia] |]).
  by apply not_elem_of_nil in Ha.
Qed.
Definition nic0 : nic := Nic ∅ [] 0 0 pci0 net_cpu [].

Lemma net_init_run :
  exists s', e1000_init net_card net_dma no_sym a_rx_desc a_tx_desc a_rx_buf a_tx_buf nic0 = Ok tt s' /\ base_reg s' = window /\
    tx_ok a_tx_desc a_tx_buf shift (n_mem s') /\ tail_is window E1000_REG_TDT s' 0 /\ tail_is window E1000_REG_RDT s' 255.
Proof.
  pose proof (e1000_init_run a_rx_desc a_tx_desc a_rx_buf a_tx_buf net_card net_dma window net_arrays shift no_sym card_layout nic0
    (Bar 0 0 0xfef00000 (2 ^ 17)) no_sym_ok pci0_fresh pci0_laid_out pci0_room pci0_window eq_refl eq_refl net_mapped
    ltac:(intros; reflexivity)) as H.
  change (Z.testbit (net_card [] (window + E1000_REG_STATUS)) 1) with true in H. cbn iota in H.
  destruct H as (s' & Hrun & Hb & _ & Htx & _ & (_ & _ & _ & _ & Hr) & (_ & _ & _ & _ & Ht) & _). exists s'. auto.
Qed.

Lemma e1000_init_correct_witness :
  fresh (n_pci nic0) /\ arrays_ok a_rx_desc a_tx_desc a_rx_buf a_tx_buf /\
  exists s', e1000_init net_card net_dma no_sym a_rx_desc a_tx_desc a_rx_buf a_tx_buf nic0 = Ok tt s' /\ base_reg s' = window /\
    tx_ok a_tx_desc a_tx_buf shift (n_mem s').
Proof.
  split; [exact pci0_fresh |]. split; [exact net_arrays |].
  pose proof (e1000_init_correct a_rx_desc a_tx_desc a_rx_buf a_tx_buf net_card net_dma window net_arrays shift no_sym card_layout nic0
    (Bar 0 0 0xfef00000 (2 ^ 17)) no_sym_ok pci0_fresh pci0_laid_out pci0_room pci0_window eq_refl eq_refl net_mapped
    ltac:(intros; reflexivity)) as H.
  change (Z.testbit (net_card [] (window + E1000_REG_STATUS)) 1) with true in H. cbn iota in H.
  destruct H as (s' & Hrun & Hb & _ & Htx & _). exists s'. auto.
Defined.

(** A frame of three bytes sent after the set-up is what the card finds. *)
Definition frame_src : Z := 0x700000 + 0x50000.
Lemma e1000_write_correct_witness :
  exists s s', e1000_init net_card net_dma no_sym a_rx_desc a_tx_desc a_rx_buf a_tx_buf nic0 = Ok tt s /\
    e1000_write net_card net_dma a_tx_desc a_tx_buf frame_src 3 s = Ok tt s' /\
    queue a_tx_desc shift (n_mem s') 0 1 = [get_bytes (n_mem s) frame_src 3].
Proof.
  destruct net_init_run as (s & Hrun & Hb & Htx & Ht & _). exists s.
  destruct (e1000_write_correct a_rx_desc a_tx_desc a_rx_buf a_tx_buf net_card net_dma window net_arrays shift s 0 0 frame_src 3
    Hb Ht Htx ltac:(lia) ltac:(lia) ltac:(unfold apart, frame_src, a_tx_buf; lia)) as (s' & Hw & _ & _ & _ & _ & Hq & _).
  exists s'. split; [exact Hrun |]. split; [exact Hw |]. exact (Hq eq_refl).
Defined.
