(* ===== verification/ExamplesStart.v ===== *)
(** * Concrete instances: starting processors and threads

    A machine with two cores whose devices answer at once, and a program that
    starts the thread library. *)

From S2P Require Import Prelude PhysMem MemMgr CpuInfo BootMem Boot Startup StartupSpec.
From S2P Require Import Descriptors DescriptorsSpec Apic ApicSpec Thread ThreadSpec ThreadTimer ThreadTimerSpec.
From S2P Require Import ExamplesMisc ExamplesHw.

Definition prompt (log : list event) (i : input) : Z :=
  match i with
  | IN _ => 0x20
  | READY _ => 1
  | LR _ | RDTSC => 0
  end.
Lemma prompt_platform : Platform prompt 5.
Proof.
  split.
  - intros log. exists O. split; [lia | reflexivity].
  - intros log. exists O. split; [lia | reflexivity].
  - intros log _. reflexivity.
  - intros log l id _. exists O. split; [lia | discriminate].
Qed.

Definition two_pool : Z := 0x600000.
Definition two_cpu (ready : Z) : cpu_info := CpuInfo 0 no_vm false 0 2 0 0 ready 0.
Definition two_vmm (id : Z) : vmm_proc := VmmProc id 0 0 0 0x80001000 0 0 0x80000000 0 0 0 0 0x700000.
Definition two_boot : boot_state :=
  Boot (CpuTable (BootMem 0x40000000 0x900000 ∅) (<[0 := two_pool]> (<[1 := two_pool + 4096]> ∅)) 2 two_pool false)
    (<[0 := two_cpu 0x800000]> (<[1 := two_cpu 0x801000]> ∅)) (<[0 := two_vmm 0]> (<[1 := two_vmm 1]> ∅)) false 0 0 0 0 0.
Definition two_start : starter := Starter two_boot [].

Lemma two_startable i : 0 <= i < 2 -> startable two_boot i.
Proof. intros Hi. assert (i = 0 \/ i = 1) as [-> | ->] by lia; split; reflexivity || (vm_compute; discriminate). Qed.


(** ** Threads *)

Definition new_program : program :=
  Program (Threads ∅ 0x1000 0 0 0 DefaultSched ex_context 0) (Apic 0 ∅ ∅ [] 0 0 200000000) ex_desc false.
Lemma start_threads_correct_witness :
  exists s', start_threads ex_sym new_program = Ok tt s' /\ inv [ex_main] (p_threads s') (Abs [ex_context] 0) /\ p_if s' = true.
Proof.
  destruct (start_threads_correct ex_sym ltac:(by intros e) new_program ex_main ex_context) as (s' & Hrun & Hinv & Hif & _).
  - reflexivity.
  - apply (areas_new _ ex_worker), ex_areas.
  - exact ex_context_ok.
  - reflexivity.
  - split; [reflexivity | reflexivity | vm_compute; by left | vm_compute; by left | vm_compute; by left].
  - split; [discriminate | reflexivity].
  - exists s'. split; [exact Hrun |]. split; [exact Hinv | exact Hif].
Defined.
